(* ===== verification/_CoqProject ===== *)
-Q . S2P
Prelude.v
Constants.v
HPBuffer.v
Socket.v
Buffer.v
Codec.v
Float64.v
Amf0.v
Amf0Facts.v
Table.v
Messages.v
Packets.v
PacketsFacts.v
Protocol.v
ChunkSend.v
Feed.v
ChunkRecv.v
Reassembly.v
Limits.v
Control.v
Handshake.v
Goroutines.v
Locks.v
Frame.v
Pump.v
Delivery.v
EndToEnd.v
Inputs.v
Session.v
Refine.v
Request.v
Server.v
Running.v
Whole.v
