(* ===== verification/Prelude.v ===== *)
(** * A verification library for go.rtmp

    go.rtmp (src/rtmp) is the server side of the RTMP protocol in Go.  A user holds
    a [Server] (rtmp.go), which is a dialogue over a [Protocol] (protocol.go): the
    handshake, then two goroutines, one that reads chunks from the connection and
    puts messages together, one that cuts messages into chunks and writes them,
    with a queue between each of them and the user.  A message carries a packet
    (messages.go), whose commands are AMF0 values (amf0.go) in a byte stream
    (buffer.go, hp_buffer.go) over a TCP connection (socket.go).  This library
    models all of it, from the byte lists up to the server on the running
    goroutines, and proves that the parts do what they are for.

    ** Conventions

    Code that may fail, panic or loop is in a state monad [M S A] over the state the
    Go method changes, with the outcomes [Ret], [Fail] (an error value), [Panic] (a
    run-time panic, with its cause) and [OutOfFuel] (a bound on a loop was too
    small; never a behaviour of the program).  Slices are bounds checked, integers
    are in [Z] with the truncation of their Go type written out ([to_uint], [shl],
    [byte_of_Z]), a [float64] is its IEEE 754 bit pattern.  The network is a script:
    the segments that arrive and the error behind them, the answers to writes, the
    bytes written.  Definitions have the names of the source; [T_Op] is the method
    [Op] of the type [T].

    ** The files

    Data and codecs:
    - [Prelude]: bytes, integers, the monad, lemmas and automation for all;
      [Constants]: error.go, constant.go and the constants of the other files.
    - [HPBuffer]: [BytesList] and [HPBuffer] (hp_buffer.go), refined to a byte queue.
    - [Socket]: socket.go over the scripted connection; [Buffer]: buffer.go, the
      typed reads and writes and the refill from the connection.
    - [Codec]: the predicates [encodes], [decodes], [reads] by which codecs compose.
    - [Float64]: comparison and conversion of float64.
    - [Amf0], [Amf0Facts], [Table]: amf0.go; the wire format, the round trip, safety
      on any bytes; the ordered property table equals a finite map with the keys in
      insertion order.
    - [Messages], [Packets], [PacketsFacts]: messages.go; one record per packet, the
      interfaces [Encoder] and [Decoder] as classes, their laws as [LawfulEncoder],
      [LawfulDecoder], [RoundTrip], with an instance for every packet; [DecodePacket].

    The chunk stream, one direction at a time:
    - [Protocol]: the state of protocol.go; the basic header, the message header and
      the payload of a chunk, [recv_interlaced_message], the chunks of a message
      that is sent ([send_round], [send_message]), [EncodeMessage], [DecodeMessage],
      [on_send_message], [on_recv_message], a round of the receiving goroutine.
    - [ChunkSend]: sending writes the chunk form of a message in the RTMP format; [Limits]: its exact
      size, and the values at which the sending side goes wrong.
    - [Feed]: a buffer in front of a network, up to segmentation, with weakest
      preconditions; [ChunkRecv]: receiving is safe on any input; [Reassembly]:
      interleaved chunk streams give back their messages; [Control]: the messages of
      the protocol itself, and the receiving loop ends.
    - [Handshake]: handshake.go.

    The running protocol:
    - [Goroutines]: the two goroutines, the channels, the locks, [Destroy] and the
      calls of the user as a transition system, cut where they share data.
    - [Locks]: locks, closing, order of the queues, for every run; [Frame], [Inputs]:
      receiving leaves the sending half alone, and depends on its own half only;
      [Pump]: no panic, and the bytes on the wire; [Delivery]: the messages of the
      peer reach the user; [EndToEnd]: two running protocols, back to back.
    - [Session]: the protocol as a single user sees it, a list of messages to come
      and a list of messages sent: the specification.  [Refine]: the goroutines
      implement it.

    The server:
    - [Request]: the request and [discovery_app] of rtmp.go, with what it uses of the
      packages strings and net/url.
    - [Server]: every operation of the server, against the class [LawfulProtocol].
    - [Running]: the interface [Protocol] implemented by the running goroutines; the
      whole server on them does what it does on the session, and returns.
    - [Whole]: the server of a connection, from the first byte of its client.

    ** What is proved

    The numbers are those of the comments in front of the theorems.
    - End to end (C1-C9), as long as no receiving job has failed: a client that makes the handshake and sends messages gets the
      answers of the server to these messages, from the first byte on, for every
      schedule and every segmentation; what one user sends the other receives, as
      messages and as packets; the goroutines refine the session; the server on the
      goroutines refines the server on the session, and its calls return; chunks are
      put together to the messages they came from; receiving is safe on arbitrary
      bytes; the bytes on the wire are the chunk forms of the messages in the order
      they were sent.
    - The receiving side up to the user and the packets (C10-C15): delivery, round
      trip and safety of [DecodePacket], no panic in any interleaving, the AMF0
      round trip, the receiving loop ends.
    - Sending, and the operations of the server (C16-C22): each sends exactly the
      packets it should, takes exactly the messages it waits for, and returns what
      they say.
    - The goroutines as such (C23-C24, C40): after [Destroy] everything ends; a lock is
      held exactly between its calls.
    - The components (C25-C39): the handshake for every segmentation, and what it refuses, the type of what
      the AMF0 reader returns, [ExpectPacket], the property table, exact sizes, the
      byte queue, the refill, typed reads and writes, the number of chunks, chunk
      size messages, short writes, responses, the URL of the request.
    - Where the code does not do what it means to, the behaviour is a theorem too (C40,
      and [recv_waits], [lost_error], [resize_race], [empty_sizes],
      [null_property_ends_object], [zero_chunk_size_diverges], [timestamp_boundary]).

    ** Bounds

    [fuel] stands in front of a loop that Go leaves open.  Each is shown to be enough:
    the bytes left plus one for the AMF0 reader ([amf0_read_safe]); the bytes to write
    plus one for [Socket_Write] ([Socket_Write_prefix]); the bytes to come plus one for
    [EnsureBufferBytes] ([EnsureBufferBytes_spec]), as no segment is empty; the bytes of
    the payload plus two for [send_chunks] ([send_message_chunks]), with a chunk size of
    zero excepted, where the loop of the source does not end either; the bytes of the
    input plus one for [recv_loop] ([recv_loop_terminates]); the messages to come plus one for
    [ExpectPacket] and the loops of the identification; the length of the URL plus one for
    the loop over its dots ([dots_loop_total]).  In [Running] the schedule is the bound: a
    call that the schedule does not let return has no result, and [server_returns]
    gives a schedule with which it returns.

    ** What is not modelled, and why

    - version.go holds strings only.  Constants that no code uses are left out.
    - The diagnostic print in [Socket.Write], and the scratch slice [skt_buf], whose
      content is never looked at again.  The statistics of the connection are kept.
    - [MsgCount] of a chunk stream is an unbounded integer; the source has an int.
    - What a failed call leaves in its named results beside the error, and packets that
      were half decoded when an error occurred: no caller of the package uses them.
    - A [*Message] is a value: sending the same message twice, or writing to it while it
      is in the queue, is not covered.
    - A receiving job up to the queue, and the writing of a chunk, are one step each of
      the transition system; they touch one half of the protocol only ([Frame],
      [Inputs]).  A second call of [Destroy] beside a first one is not covered.
    - Data races on [msg_io_err] and [outChunkSize] beyond interleaving: the memory
      model of Go gives such programs no meaning.
    - The order in which Go iterates over a map is a parameter ([discovery_app]) or
      the order of a list ([extra_data]); the random source of the handshake is a
      parameter.  net/url is that of Go 1.3, as far as [discovery_app] uses it.
    - The accessor [Protocol()] of the server holds no logic of its own.

    ** What may follow

    Schedules that are fair instead of some schedule in [server_returns]; control messages of the peer between
    the others in [Delivery]; the queue of the server's user that is full. *)

From Stdlib Require Import ZArith Lia Strings.Byte Strings.String.
From stdpp Require Import base tactics numbers countable list option gmap.
Export Stdlib.Strings.String.StringSyntax.

(** ** Bytes and strings

    A Go [byte] is [Byte.byte]; a Go [string] and a [[]byte] are lists of
    them.  [uint8_to_Z] and [byte_of_Z] are the conversions [int(b)] and
    [byte(v)], the second one truncating to eight bits. *)

Abbreviation byte := Byte.byte.
Abbreviation gostring := (list Byte.byte).

Definition uint8_to_Z (b : byte) : Z := Z.of_N (Byte.to_N b).

Definition byte_of_Z (z : Z) : byte :=
  match Byte.of_N (Z.to_N (z mod 256)) with
  | Some b => b
  | None => Byte.x00
  end.

#[export] Instance byte_eq_dec : EqDecision byte := Byte.byte_eq_dec.

#[export] Program Instance byte_countable : Countable byte :=
  inj_countable Byte.to_N Byte.of_N _.
Next Obligation. exact Byte.of_to_N. Qed.

(** A Go string literal. *)
Definition str (s : string) : gostring := list_byte_of_string s.
Arguments str s%_string.

(** [len] of a slice, a string. *)
Definition zlen {A : Type} (l : list A) : Z := Z.of_nat (List.length l).

(** [make([]byte, n)]. *)
Definition make_bytes (n : Z) : list byte := replicate (Z.to_nat n) Byte.x00.

(** ** Slices

    [slice l i j] is the slice expression [l[i:j]].  Go bounds [j] by the
    capacity of [l]; the capacity of a slice is its length here, so that a
    reslice past the length, which would expose bytes that were never written,
    counts as out of range.  [copy_at l i n b] is the array behind [l] after
    [copy(l[i:i+n], b)]. *)

Definition copy_at {A} (l : list A) (i n : Z) (b : list A) : list A :=
  let m := Z.min n (zlen b) in
  take (Z.to_nat i) l ++ take (Z.to_nat m) b ++ drop (Z.to_nat (i + m)) l.

(** ** Machine integers

    A [w]-bit unsigned value is a [Z] kept in [[0, 2^w)] by the conversions
    below; [shl] is the shift of a [w]-bit operand; [int] (64 bits) holds
    lengths and offsets only and is an unbounded [Z]. *)

Definition to_uint (w z : Z) : Z := z mod 2 ^ w.
Definition shl (w z n : Z) : Z := to_uint w (Z.shiftl z n).
Definition to_int32 (z : Z) : Z := (z + 2 ^ 31) mod 2 ^ 32 - 2 ^ 31.

(** Reference encodings: [be_bytes n v] is the big-endian form of [v] on [n]
    bytes, [be_val] the value of a big-endian byte string. *)

Fixpoint be_bytes (n : nat) (v : Z) : list byte :=
  match n with
  | O => []
  | S m => byte_of_Z (Z.shiftr v (8 * Z.of_nat m)) :: be_bytes m v
  end.

Fixpoint be_val (l : list byte) : Z :=
  match l with
  | [] => 0
  | b :: r => uint8_to_Z b * 256 ^ zlen r + be_val r
  end.

Definition le_bytes (n : nat) (v : Z) : list byte := rev (be_bytes n v).
Definition le_val (l : list byte) : Z := be_val (rev l).

(** ** Errors, panics and the effect monad

    [error] is the Go [error] interface: the package's own [Error{code, desc}]
    or one of the standard library's values.  A computation over a state [S]
    returns a value ([Ret]), a non-nil error ([Fail]), or panics; the state
    reached is kept in every case, as Go keeps the mutations made before a
    return or a panic.  [OutOfFuel] is the only outcome that is not one of the
    program's: bounded loops answer it when the bound given to them is too
    small, and each loop comes with a theorem that its bound is large enough. *)

Inductive error : Type :=
| Error (code : Z) (desc : gostring)
| EOF
| ErrUnexpectedEOF
| NetError (desc : gostring)
| UrlError (url : gostring).

Inductive panic : Type :=
| IndexOutOfRange
| SliceBoundsOutOfRange
| NilDereference
| NilMapWrite
| TypeAssertion
| SendOnClosedChannel
| CloseOfClosedChannel
| ReflectSet.

Inductive outcome (A : Type) : Type :=
| Ret (a : A)
| Fail (e : error)
| Panic (p : panic)
| OutOfFuel.
Arguments Ret {A} a.
Arguments Fail {A} e.
Arguments Panic {A} p.
Arguments OutOfFuel {A}.

Definition slice {A} (l : list A) (i j : Z) : outcome (list A) :=
  if ((0 <=? i) && (i <=? j) && (j <=? zlen l))%Z
  then Ret (take (Z.to_nat (j - i)) (drop (Z.to_nat i) l))
  else Panic SliceBoundsOutOfRange.

(** The element [l[i]]. *)
Definition index {A} (l : list A) (i : Z) : outcome A :=
  if (0 <=? i)%Z
  then match l !! Z.to_nat i with Some x => Ret x | None => Panic IndexOutOfRange end
  else Panic IndexOutOfRange.

Definition M (S A : Type) : Type := S -> outcome A * S.

Definition ret {S A} (a : A) : M S A := fun s => (Ret a, s).
Definition fail {S A} (e : error) : M S A := fun s => (Fail e, s).
Definition gopanic {S A} (p : panic) : M S A := fun s => (Panic p, s).
Definition out_of_fuel {S A} : M S A := fun s => (OutOfFuel, s).

Definition bind {S A B} (m : M S A) (k : A -> M S B) : M S B :=
  fun s =>
    match m s with
    | (Ret a, s') => k a s'
    | (Fail e, s') => (Fail e, s')
    | (Panic p, s') => (Panic p, s')
    | (OutOfFuel, s') => (OutOfFuel, s')
    end.

Definition get {S} : M S S := fun s => (Ret s, s).
Definition gets {S A} (f : S -> A) : M S A := fun s => (Ret (f s), s).
Definition modify {S} (f : S -> S) : M S unit := fun s => (Ret tt, f s).
Definition lift {S A} (o : outcome A) : M S A := fun s => (o, s).

(** Run a computation on a component of the state. *)
Definition zoom {S T A} (view : S -> T) (upd : T -> S -> S) (m : M T A) : M S A :=
  fun s => let '(o, t) := m (view s) in (o, upd t s).

Declare Scope go_scope.
Delimit Scope go_scope with go.
Open Scope go_scope.

Notation "'let*' x := m 'in' k" := (bind m (fun x => k))
  (at level 10, x name, m at level 100, k at level 200) : go_scope.
Notation "'let*' ' p := m 'in' k" := (bind m (fun p => k))
  (at level 10, p strict pattern, m at level 100, k at level 200) : go_scope.
Notation "'do*' m 'in' k" := (bind m (fun _ => k))
  (at level 10, m at level 100, k at level 200) : go_scope.

(** [if cond { err = e; return }] before [k]. *)
Notation "'guard*' c 'else' e 'in' k" := (if c then k else fail e)
  (at level 10, c at level 100, e at level 100, k at level 200) : go_scope.

(** The outcome is neither a panic nor an exhausted bound. *)
Definition safe {A} (o : outcome A) : Prop :=
  match o with
  | Ret _ | Fail _ => True
  | Panic _ | OutOfFuel => False
  end.

Open Scope Z_scope.

(** ** Tactics and hints *)

Create HintDb gort.
Create Rewrite HintDb gort.

Ltac Zify.zify_post_hook ::= Z.to_euclidean_division_equations.

(** Case analysis on the scrutinee of a [match] or [if] of the goal. *)
Ltac case_goal :=
  match goal with
  | |- context [match ?x with _ => _ end] => destruct x eqn:?
  end.

(** Normalise the lengths that the goals on slices are made of. *)
Ltac len_simpl :=
  unfold zlen in *;
  repeat (rewrite ?length_app, ?length_cons, ?length_nil, ?length_replicate,
            ?length_take, ?length_drop in *).

Ltac len_solve := len_simpl; simpl in *; lia.

(** ** Lemmas on the monad *)

Lemma bind_Ret {S A B} (m : M S A) (k : A -> M S B) s a s' :
  m s = (Ret a, s') -> bind m k s = k a s'.
Proof. unfold bind. by intros ->. Qed.

Lemma bind_Fail {S A B} (m : M S A) (k : A -> M S B) s e s' :
  m s = (Fail e, s') -> bind m k s = (Fail e, s').
Proof. unfold bind. by intros ->. Qed.

Lemma bind_assoc {S A B C} (m : M S A) (k : A -> M S B) (h : B -> M S C) s :
  bind (bind m k) h s = bind m (fun a => bind (k a) h) s.
Proof. unfold bind. by destruct (m s) as [[] ?]. Qed.

Lemma bind_inv_Ret {S A B} (m : M S A) (k : A -> M S B) s b s' :
  bind m k s = (Ret b, s') ->
  exists a s1, m s = (Ret a, s1) /\ k a s1 = (Ret b, s').
Proof. unfold bind. destruct (m s) as [[] ?]; intros; simplify_eq; eauto. Qed.

Lemma bind_safe {S A B} (m : M S A) (k : A -> M S B) s :
  safe (m s).1 ->
  (forall a s', m s = (Ret a, s') -> safe (k a s').1) ->
  safe (bind m k s).1.
Proof. unfold bind. destruct (m s) as [[] ?]; simpl; eauto. Qed.

(** ** Lemmas on bytes and integers *)

Lemma uint8_range b : 0 <= uint8_to_Z b < 256.
Proof. unfold uint8_to_Z. pose proof (Byte.to_N_bounded b). lia. Qed.

Lemma byte_of_uint8 b : byte_of_Z (uint8_to_Z b) = b.
Proof. by destruct b. Qed.

Lemma uint8_of_Z z : uint8_to_Z (byte_of_Z z) = z mod 256.
Proof.
  unfold byte_of_Z, uint8_to_Z.
  destruct (Byte.of_N (Z.to_N (z mod 256))) eqn:E.
  - apply Byte.to_of_N in E. rewrite E. lia.
  - apply Byte.of_N_None_iff in E. lia.
Qed.

Lemma byte_of_Z_mod z : byte_of_Z (z mod 256) = byte_of_Z z.
Proof. unfold byte_of_Z. by rewrite Zmod_mod. Qed.

Lemma uint8_of_small z : 0 <= z < 256 -> uint8_to_Z (byte_of_Z z) = z.
Proof. intros. rewrite uint8_of_Z. lia. Qed.

Lemma lor_shiftl_add a b n :
  0 <= n -> 0 <= a < 2 ^ n -> Z.lor a (Z.shiftl b n) = a + b * 2 ^ n.
Proof.
  intros Hn Ha. rewrite <- (Z.shiftl_mul_pow2 b n) by done.
  assert (Hland : Z.land a (Z.shiftl b n) = 0).
  { apply Z.bits_inj'. intros i Hi. rewrite Z.land_spec, Z.bits_0.
    destruct (Z.lt_ge_cases i n).
    - rewrite Z.shiftl_spec_low by lia. apply andb_false_r.
    - destruct (Z.eq_dec a 0) as [->|]; [by rewrite Z.bits_0|].
      rewrite Z.bits_above_log2; [done|lia|].
      apply Z.log2_lt_pow2; [lia|].
      apply Z.lt_le_trans with (2 ^ n); [lia|]. apply Z.pow_le_mono_r; lia. }
  by rewrite Z.add_nocarry_lxor, Z.lxor_lor.
Qed.

Lemma pow256 n : 0 <= n -> 256 ^ n = 2 ^ (8 * n).
Proof. intros. change 256 with (2 ^ 8). by rewrite <- Z.pow_mul_r by lia. Qed.

Lemma length_be_bytes n v : List.length (be_bytes n v) = n.
Proof. induction n; simpl; congruence. Qed.

Lemma length_le_bytes n v : List.length (le_bytes n v) = n.
Proof. unfold le_bytes. by rewrite length_rev, length_be_bytes. Qed.

Lemma be_val_range l : 0 <= be_val l < 256 ^ zlen l.
Proof.
  induction l as [|b r IH]; unfold zlen in *; simpl be_val; [simpl; lia|].
  rewrite length_cons, Nat2Z.inj_succ, Z.pow_succ_r by lia.
  pose proof (uint8_range b). unfold zlen. nia.
Qed.

Lemma be_val_bytes n v : be_val (be_bytes n v) = v mod 2 ^ (8 * Z.of_nat n).
Proof.
  induction n as [|n IH]; [simpl; by rewrite Z.mod_1_r|].
  cbn [be_bytes be_val]. unfold zlen.
  rewrite uint8_of_Z, length_be_bytes, IH, pow256, Z.shiftr_div_pow2 by lia.
  replace (8 * Z.of_nat (S n)) with (8 * Z.of_nat n + 8) by lia.
  rewrite Z.pow_add_r by lia. change (2 ^ 8) with 256.
  rewrite Z.rem_mul_r; lia.
Qed.

Lemma be_val_inj l1 l2 :
  List.length l1 = List.length l2 -> be_val l1 = be_val l2 -> l1 = l2.
Proof.
  revert l2. induction l1 as [|b r IH]; intros [|b2 r2] Hl Hv; try done.
  simpl in Hl. injection Hl as Hl. cbn [be_val] in Hv.
  pose proof (be_val_range r) as H1. pose proof (be_val_range r2) as H2.
  unfold zlen in *. rewrite <- Hl in *.
  pose proof (uint8_range b). pose proof (uint8_range b2).
  assert (uint8_to_Z b = uint8_to_Z b2) as Hb by nia.
  f_equal; [by rewrite <- (byte_of_uint8 b), Hb, byte_of_uint8|].
  apply IH; [done|]. nia.
Qed.

Lemma be_bytes_val l : be_bytes (List.length l) (be_val l) = l.
Proof.
  apply be_val_inj; [apply length_be_bytes|].
  rewrite be_val_bytes, <- pow256 by lia.
  apply Z.mod_small, be_val_range.
Qed.

Lemma be_val_bytes_small n v :
  0 <= v < 2 ^ (8 * Z.of_nat n) -> be_val (be_bytes n v) = v.
Proof. intros. rewrite be_val_bytes. by apply Z.mod_small. Qed.

Lemma le_val_bytes_small n v :
  0 <= v < 2 ^ (8 * Z.of_nat n) -> le_val (le_bytes n v) = v.
Proof. intros. unfold le_val, le_bytes. rewrite rev_involutive. by apply be_val_bytes_small. Qed.

(** Run the first computation of a [bind] with the equation [H] for it. *)
Tactic Notation "mrun" uconstr(H) :=
  erewrite bind_Ret by
    (eapply H; solve [done | apply length_be_bytes | apply length_le_bytes]).

(** ** Lemmas on slices *)

Lemma zlen_app {A} (l1 l2 : list A) : zlen (l1 ++ l2) = zlen l1 + zlen l2.
Proof. unfold zlen. rewrite length_app. lia. Qed.

Lemma zlen_cons {A} (x : A) l : zlen (x :: l) = 1 + zlen l.
Proof. unfold zlen. rewrite length_cons. lia. Qed.

Lemma zlen_nil {A} : zlen (@nil A) = 0.
Proof. done. Qed.

Lemma zlen_nonneg {A} (l : list A) : 0 <= zlen l.
Proof. unfold zlen. lia. Qed.

Lemma zlen_cons_pos {A} (x : A) l : 1 <= zlen (x :: l).
Proof. rewrite zlen_cons. pose proof (zlen_nonneg l). lia. Qed.

Lemma zlen_cons_lt {A} (x : A) l : 0 < zlen (x :: l).
Proof. pose proof (zlen_cons_pos x l). lia. Qed.

Lemma zlen_0_nil {A} (l : list A) : zlen l <= 0 -> l = [].
Proof. unfold zlen. destruct l; [done|]. simpl. lia. Qed.

Lemma zlen_singleton {A} (x : A) : zlen [x] = 1.
Proof. done. Qed.

Lemma zlen_be_bytes n v : zlen (be_bytes n v) = Z.of_nat n.
Proof. unfold zlen. by rewrite length_be_bytes. Qed.

Lemma zlen_le_bytes n v : zlen (le_bytes n v) = Z.of_nat n.
Proof. unfold zlen. by rewrite length_le_bytes. Qed.

Lemma to_nat_zlen {A} (l : list A) : Z.to_nat (zlen l) = List.length l.
Proof. unfold zlen. lia. Qed.

Lemma take_zlen_app {A} (l r : list A) : take (Z.to_nat (zlen l)) (l ++ r) = l.
Proof. by rewrite to_nat_zlen, take_app_length. Qed.

Lemma drop_zlen_app {A} (l r : list A) : drop (Z.to_nat (zlen l)) (l ++ r) = r.
Proof. by rewrite to_nat_zlen, drop_app_length. Qed.

Lemma zlen_make_bytes n : 0 <= n -> zlen (make_bytes n) = n.
Proof. intros. unfold zlen, make_bytes. rewrite length_replicate. lia. Qed.

Lemma slice_app {A} (l1 l2 l3 : list A) i j :
  i = zlen l1 -> j = zlen l1 + zlen l2 -> slice (l1 ++ l2 ++ l3) i j = Ret l2.
Proof.
  intros -> ->. unfold slice. rewrite !zlen_app.
  pose proof (zlen_nonneg l1). pose proof (zlen_nonneg l2). pose proof (zlen_nonneg l3).
  rewrite !(proj2 (Z.leb_le _ _)) by lia. simpl.
  rewrite drop_zlen_app. replace (zlen l1 + zlen l2 - zlen l1) with (zlen l2) by lia.
  by rewrite take_zlen_app.
Qed.

Lemma slice_prefix {A} (l1 l2 : list A) j :
  j = zlen l1 -> slice (l1 ++ l2) 0 j = Ret l1.
Proof. intros ->. by apply (slice_app [] l1 l2). Qed.

Lemma slice_suffix {A} (l1 l2 : list A) i j :
  i = zlen l1 -> j = zlen (l1 ++ l2) -> slice (l1 ++ l2) i j = Ret l2.
Proof.
  intros -> ->. rewrite <- (app_nil_r l2) at 1. rewrite zlen_app. by apply slice_app.
Qed.

Lemma slice_safe_len {A} (l l' : list A) i j :
  slice l i j = Ret l' -> zlen l' = j - i.
Proof.
  unfold slice. destruct (_ && _) eqn:E; intros [= <-].
  unfold zlen in *. rewrite length_take, length_drop. lia.
Qed.

Lemma copy_at_app {A} (l1 l2 l3 b : list A) i n :
  i = zlen l1 -> n = zlen l2 -> zlen b = zlen l2 ->
  copy_at (l1 ++ l2 ++ l3) i n b = l1 ++ b ++ l3.
Proof.
  intros -> -> Hb. unfold copy_at. rewrite Hb, Z.min_id, take_zlen_app.
  rewrite <- Hb at 1. rewrite take_ge by (by rewrite to_nat_zlen).
  do 2 f_equal. rewrite app_assoc, <- zlen_app. apply drop_zlen_app.
Qed.

Lemma index_app {A} (l1 l2 : list A) x i :
  i = zlen l1 -> index (l1 ++ x :: l2) i = Ret x.
Proof.
  intros ->. unfold index. pose proof (zlen_nonneg l1).
  rewrite (proj2 (Z.leb_le _ _)), to_nat_zlen by lia.
  by rewrite list_lookup_middle.
Qed.

(** Split a list at a length it has at least. *)
Lemma split_at {A} (l : list A) n :
  0 <= n <= zlen l -> exists l1 l2, l = l1 ++ l2 /\ zlen l1 = n.
Proof.
  intros H. exists (take (Z.to_nat n) l), (drop (Z.to_nat n) l).
  split; [by rewrite take_drop|]. unfold zlen in *. rewrite length_take. lia.
Qed.

#[export] Hint Resolve uint8_range zlen_nonneg zlen_cons_pos be_val_range : gort.
#[export] Hint Rewrite @zlen_nil @zlen_app @zlen_cons length_be_bytes length_le_bytes : gort.

(** Solve a goal on lengths of byte strings. *)
Ltac zlen_solve :=
  autorewrite with gort in *;
  repeat match goal with
    | l : list ?A |- _ => lazymatch goal with H : 0 <= zlen l |- _ => fail | _ => pose proof (zlen_nonneg l) end
    end;
  simpl in *; lia.
