(* ===== verification/Constants.v ===== *)
(** * Constants of the package: error.go, constant.go, and the constant blocks
    of amf0.go, buffer.go, messages.go and rtmp.go that the code uses.

    A constant that is compared with or stored in a [byte] (AMF0 markers,
    message types) is a [byte] here; the others are integers and strings. *)

From S2P Require Import Prelude.
From Stdlib Require Import ZArith Strings.Byte Strings.String.
Open Scope Z_scope.

(** ** Error codes (error.go) *)

Definition ERROR_GO_REFLECT_PTR_REQUIRES : Z := 100.
Definition ERROR_GO_REFLECT_NEVER_NIL : Z := 101.
Definition ERROR_GO_REFLECT_CAN_SET : Z := 102.
Definition ERROR_GO_AMF0_NIL_PROPERTY : Z := 103.
Definition ERROR_GO_RTMP_NOT_SUPPORT_MSG : Z := 104.
Definition ERROR_GO_PROTOCOL_DESTROYED : Z := 105.
Definition ERROR_SOCKET_CLOSED : Z := 204.
Definition ERROR_SOCKET_READ : Z := 207.
Definition ERROR_SOCKET_WRITE : Z := 209.
Definition ERROR_RTMP_PLAIN_REQUIRED : Z := 300.
Definition ERROR_RTMP_CHUNK_START : Z := 301.
Definition ERROR_RTMP_MSG_INVLIAD_SIZE : Z := 302.
Definition ERROR_RTMP_AMF0_DECODE : Z := 303.
Definition ERROR_RTMP_AMF0_INVALID : Z := 304.
Definition ERROR_RTMP_REQ_CONNECT : Z := 305.
Definition ERROR_RTMP_REQ_TCURL : Z := 306.
Definition ERROR_RTMP_MESSAGE_DECODE : Z := 307.
Definition ERROR_RTMP_MESSAGE_ENCODE : Z := 308.
Definition ERROR_RTMP_AMF0_ENCODE : Z := 309.
Definition ERROR_RTMP_CHUNK_SIZE : Z := 310.
Definition ERROR_RTMP_PACKET_SIZE : Z := 313.
Definition ERROR_RTMP_NO_REQUEST : Z := 317.

(** ** Protocol constants (constant.go) *)

Definition RTMP_MSG_SetChunkSize : byte := Byte.x01.
Definition RTMP_MSG_UserControlMessage : byte := Byte.x04.
Definition RTMP_MSG_WindowAcknowledgementSize : byte := Byte.x05.
Definition RTMP_MSG_SetPeerBandwidth : byte := Byte.x06.
Definition RTMP_MSG_AMF3CommandMessage : byte := Byte.x11.
Definition RTMP_MSG_AMF0CommandMessage : byte := Byte.x14.
Definition RTMP_MSG_AMF0DataMessage : byte := Byte.x12.
Definition RTMP_MSG_AMF3DataMessage : byte := Byte.x0f.
Definition RTMP_MSG_AudioMessage : byte := Byte.x08.
Definition RTMP_MSG_VideoMessage : byte := Byte.x09.
Definition RTMP_MSG_AggregateMessage : byte := Byte.x16.
Definition RTMP_FMT_TYPE0 : Z := 0.
Definition RTMP_FMT_TYPE1 : Z := 1.
Definition RTMP_FMT_TYPE2 : Z := 2.
Definition RTMP_DEFAULT_CHUNK_SIZE : Z := 128.
Definition RTMP_MIN_CHUNK_SIZE : Z := 128.
Definition RTMP_MAX_CHUNK_SIZE : Z := 65536.
Definition RTMP_EXTENDED_TIMESTAMP : Z := 16777215.
Definition AMF0_COMMAND_CONNECT : gostring := str "connect".
Definition AMF0_COMMAND_CREATE_STREAM : gostring := str "createStream".
Definition AMF0_COMMAND_CLOSE_STREAM : gostring := str "closeStream".
Definition AMF0_COMMAND_PLAY : gostring := str "play".
Definition AMF0_COMMAND_ON_BW_DONE : gostring := str "onBWDone".
Definition AMF0_COMMAND_ON_STATUS : gostring := str "onStatus".
Definition AMF0_COMMAND_RESULT : gostring := str "_result".
Definition AMF0_COMMAND_ERROR : gostring := str "_error".
Definition AMF0_COMMAND_RELEASE_STREAM : gostring := str "releaseStream".
Definition AMF0_COMMAND_FC_PUBLISH : gostring := str "FCPublish".
Definition AMF0_COMMAND_UNPUBLISH : gostring := str "FCUnpublish".
Definition AMF0_COMMAND_PUBLISH : gostring := str "publish".
Definition AMF0_DATA_SAMPLE_ACCESS : gostring := str "|RtmpSampleAccess".
Definition RTMP_CID_ProtocolControl : Z := 2.
Definition RTMP_CID_OverConnection : Z := 3.
Definition RTMP_CID_OverStream : Z := 5.

(** ** AMF0 markers (amf0.go) *)

Definition AMF0_Number : byte := Byte.x00.
Definition AMF0_Boolean : byte := Byte.x01.
Definition AMF0_String : byte := Byte.x02.
Definition AMF0_Object : byte := Byte.x03.
Definition AMF0_Null : byte := Byte.x05.
Definition AMF0_Undefined : byte := Byte.x06.
Definition AMF0_EcmaArray : byte := Byte.x08.
Definition AMF0_ObjectEnd : byte := Byte.x09.

(** ** Buffer sizes (buffer.go) *)

Definition RTMP_SOCKET_READ_SIZE : Z := 16384.

(** ** Message sizes and user control events (messages.go) *)

Definition RTMP_MAX_FMT0_HEADER_SIZE : Z := 16.
Definition RTMP_MAX_FMT3_HEADER_SIZE : Z := 5.
Definition RTMP_MSG_CHANNEL_BUFFER : Z := 100.
Definition PCUCStreamBegin : Z := 0.
Definition PCUCSetBufferLength : Z := 3.
Definition PCUCPingRequest : Z := 6.

(** ** Server constants (rtmp.go) *)

Definition SIG_FMS_VER : gostring := str "3,5,3,888".
Definition SIG_CLIENT_ID : gostring := str "ASAICiss".
Definition SLEVEL : gostring := str "level".
Definition SCODE : gostring := str "code".
Definition SDESC : gostring := str "description".
Definition SDETAILS : gostring := str "details".
Definition SCLIENT_ID : gostring := str "clientid".
Definition SLEVEL_Status : gostring := str "status".
Definition SCODE_ConnectSuccess : gostring := str "NetConnection.Connect.Success".
Definition SCODE_StreamReset : gostring := str "NetStream.Play.Reset".
Definition SCODE_StreamStart : gostring := str "NetStream.Play.Start".
Definition SCODE_PublishStart : gostring := str "NetStream.Publish.Start".
Definition SCODE_DataStart : gostring := str "NetStream.Data.Start".
Definition AMF0_COMMAND_ON_FC_PUBLISH : gostring := str "onFCPublish".
Definition CLIENT_TYPE_Unknown : gostring := str "unknown".
Definition CLIENT_TYPE_Play : gostring := str "play".
Definition CLIENT_TYPE_FMLEPublish : gostring := str "fmle_publish".
Definition CLIENT_TYPE_FlashPublish : gostring := str "flash_publish".
Definition CodecAMF0 : Z := 0.
Definition DefaultPort : Z := 1935.
