(* ===== verification/HPBuffer.v ===== *)
(** * hp_buffer.go: the growable byte list and the buffer with a cursor

    [BytesList] is a window [[start, end)] on a backing slice: [Append] grows
    the window at its end, [Remove] moves its start.  [HPBuffer] adds a cursor
    [off] inside the window.  The state of both is given as an equation in the
    lemmas: [mkbl g1 mid g2] is the list whose window is [mid], with the dead
    bytes [g1] before and [g2] after it; [mkhp g1 pre post g2] is the buffer
    whose cursor is between [pre] and [post]. *)

From Stdlib Require Import ZArith Lia.
From stdpp Require Import base list.
From S2P Require Import Prelude.
Open Scope Z_scope.

(** ** BytesList *)

Record BytesList := mkBytesList { bl_buf : list byte; bl_start : Z; bl_end : Z }.

Definition NewBytesList (b : list byte) : BytesList :=
  {| bl_buf := b; bl_start := 0; bl_end := zlen b |}.

Definition BytesList_Len (r : BytesList) : Z := bl_end r - bl_start r.

Definition BytesList_Bytes (r : BytesList) : outcome (list byte) :=
  slice (bl_buf r) (bl_start r) (bl_end r).

Definition BytesList_grow_to (n : Z) (r : BytesList) : BytesList :=
  if n <=? 0 then r else
  let capacity_grow := n - (zlen (bl_buf r) - bl_start r) in
  let buf := if 0 <? capacity_grow then bl_buf r ++ make_bytes capacity_grow else bl_buf r in
  {| bl_buf := buf; bl_start := bl_start r; bl_end := bl_end r + (n - BytesList_Len r) |}.

(** [copy(exists_bytes[exists_len:], b)] writes through the slice into [buf],
    between [start + exists_len] and [end]. *)
Definition BytesList_Append (b : list byte) : M BytesList unit :=
  let* exists_len := gets BytesList_Len in
  do* modify (BytesList_grow_to (exists_len + zlen b)) in
  let* exists_bytes := (fun r => (BytesList_Bytes r, r)) in
  let* tail := lift (slice exists_bytes exists_len (zlen exists_bytes)) in
  modify (fun r =>
    {| bl_buf := copy_at (bl_buf r) (bl_start r + exists_len) (zlen tail) b;
       bl_start := bl_start r; bl_end := bl_end r |}).

Definition BytesList_Remove (n : Z) (r : BytesList) : BytesList :=
  if n <=? 0 then r
  else if BytesList_Len r <=? n then
    {| bl_buf := bl_buf r; bl_start := 0; bl_end := 0 |}
  else
    {| bl_buf := bl_buf r; bl_start := bl_start r + n; bl_end := bl_end r |}.

(** ** HPBuffer *)

Record HPBuffer := mkHPBuffer { hp_buffer : BytesList; hp_off : Z }.

Definition NewHPBuffer (b : list byte) : HPBuffer :=
  {| hp_buffer := NewBytesList b; hp_off := 0 |}.

Definition HPBuffer_Reset (r : HPBuffer) : HPBuffer :=
  {| hp_buffer := hp_buffer r; hp_off := 0 |}.

Definition HPBuffer_Len (r : HPBuffer) : Z := BytesList_Len (hp_buffer r) - hp_off r.

Definition HPBuffer_Bytes (r : HPBuffer) : outcome (list byte) :=
  match BytesList_Bytes (hp_buffer r) with
  | Ret b => slice b (hp_off r) (zlen b)
  | o => o
  end.

Definition HPBuffer_WrittenBytes (r : HPBuffer) : outcome (list byte) :=
  match BytesList_Bytes (hp_buffer r) with
  | Ret b => slice b 0 (hp_off r)
  | o => o
  end.

(** [String] on a nil receiver is "<nil>". *)
Definition HPBuffer_String (r : option HPBuffer) : outcome gostring :=
  match r with
  | None => Ret (str "<nil>")
  | Some r => HPBuffer_Bytes r
  end.

(** The results [n] (never set, hence 0) and [err] (never set, hence nil). *)
Definition HPBuffer_Append (b : list byte) : M HPBuffer Z :=
  do* zoom hp_buffer (fun t r => {| hp_buffer := t; hp_off := hp_off r |}) (BytesList_Append b) in
  ret 0.

Definition HPBuffer_Consume (n : Z) : M HPBuffer unit :=
  modify (fun r => {| hp_buffer := BytesList_Remove n (hp_buffer r); hp_off := hp_off r - n |}).

Definition HPBuffer_Skip (n : Z) : M HPBuffer unit :=
  modify (fun r => {| hp_buffer := hp_buffer r; hp_off := hp_off r + n |}).

(** [Read(b)] with [len(b) = n]: the bytes copied into [b]. *)
Definition HPBuffer_Read (n : Z) : M HPBuffer (list byte) :=
  let* bytes := (fun r => (HPBuffer_Bytes r, r)) in
  let* b := lift (slice bytes 0 n) in
  do* modify (fun r => {| hp_buffer := hp_buffer r; hp_off := hp_off r + n |}) in
  ret b.

(** A store through the slice [Bytes()]: [copy(Bytes()[i:i+n], b)], which lands
    in the backing array at [start + off + i]. *)
Definition HPBuffer_store (i n : Z) (b : list byte) (r : HPBuffer) : HPBuffer :=
  let l := hp_buffer r in
  {| hp_buffer :=
       {| bl_buf := copy_at (bl_buf l) (bl_start l + hp_off r + i) n b;
          bl_start := bl_start l; bl_end := bl_end l |};
     hp_off := hp_off r |}.

Definition HPBuffer_Write (b : list byte) : M HPBuffer Z :=
  let* bytes := (fun r => (HPBuffer_Bytes r, r)) in
  let n := zlen b in
  let* dst := lift (slice bytes 0 n) in
  do* modify (HPBuffer_store 0 (zlen dst) b) in
  do* modify (fun r => {| hp_buffer := hp_buffer r; hp_off := hp_off r + n |}) in
  ret n.

(** ** Canonical states *)

Definition mkbl (g1 mid g2 : list byte) : BytesList :=
  {| bl_buf := g1 ++ mid ++ g2; bl_start := zlen g1; bl_end := zlen g1 + zlen mid |}.

Definition mkhp (g1 pre post g2 : list byte) : HPBuffer :=
  {| hp_buffer := mkbl g1 (pre ++ post) g2; hp_off := zlen pre |}.

(** The window lies inside the backing slice. *)
Definition BytesList_ok (r : BytesList) : Prop :=
  0 <= bl_start r <= bl_end r /\ bl_end r <= zlen (bl_buf r).

(** The cursor lies inside the window. *)
Definition HPBuffer_ok (r : HPBuffer) : Prop :=
  BytesList_ok (hp_buffer r) /\ 0 <= hp_off r <= BytesList_Len (hp_buffer r).

(** ** The byte queue that [BytesList] promises to be *)

Inductive bl_op :=
| OpAppend (b : list byte)
| OpRemove (n : Z).

Definition bl_run (o : bl_op) : M BytesList unit :=
  match o with
  | OpAppend b => BytesList_Append b
  | OpRemove n => modify (BytesList_Remove n)
  end.

Definition queue_run (o : bl_op) (q : list byte) : list byte :=
  match o with
  | OpAppend b => q ++ b
  | OpRemove n => drop (Z.to_nat n) q
  end.

Fixpoint bl_runs (os : list bl_op) : M BytesList unit :=
  match os with
  | [] => ret tt
  | o :: os => do* bl_run o in bl_runs os
  end.

(** ** Lemmas on BytesList *)

Lemma BytesList_ok_mkbl r :
  BytesList_ok r -> exists g1 mid g2, r = mkbl g1 mid g2.
Proof.
  intros [[H0 H1] H2]. destruct r as [buf st en]; simpl in *.
  destruct (split_at buf st) as (g1 & rest & -> & Hg1); [lia|].
  rewrite zlen_app in H2.
  destruct (split_at rest (en - st)) as (mid & g2 & -> & Hmid); [lia|].
  exists g1, mid, g2. unfold mkbl. f_equal; lia.
Qed.

Lemma mkbl_ok g1 mid g2 : BytesList_ok (mkbl g1 mid g2).
Proof. unfold BytesList_ok, mkbl. simpl. zlen_solve. Qed.

Lemma mkbl_Bytes g1 mid g2 : BytesList_Bytes (mkbl g1 mid g2) = Ret mid.
Proof. unfold BytesList_Bytes. simpl. by apply slice_app. Qed.

Lemma mkbl_Len g1 mid g2 : BytesList_Len (mkbl g1 mid g2) = zlen mid.
Proof. unfold BytesList_Len. simpl. lia. Qed.

Lemma NewBytesList_mkbl b : NewBytesList b = mkbl [] b [].
Proof. unfold mkbl, NewBytesList. simpl. by rewrite app_nil_r. Qed.

(** Growing the window by [m] bytes keeps its contents and exposes [m] more. *)
Lemma grow_to_mkbl g1 mid g2 m :
  0 <= m ->
  exists x g2', BytesList_grow_to (zlen mid + m) (mkbl g1 mid g2) = mkbl g1 (mid ++ x) g2'
    /\ zlen x = m.
Proof.
  intros Hm. unfold BytesList_grow_to.
  destruct (Z.leb_spec (zlen mid + m) 0).
  { exists [], g2. rewrite app_nil_r. split; [done|]. pose proof (zlen_nonneg mid).
    change (zlen (@nil byte)) with 0. lia. }
  rewrite mkbl_Len. unfold mkbl; simpl. rewrite !zlen_app.
  case_goal.
  - exists (g2 ++ make_bytes (m - zlen g2)), []. rewrite app_nil_r.
    split; [|rewrite zlen_app, zlen_make_bytes; lia].
    rewrite !zlen_app, zlen_make_bytes, <- !app_assoc by lia.
    replace (zlen mid + m - (zlen g1 + (zlen mid + zlen g2) - zlen g1)) with (m - zlen g2) by lia.
    f_equal; lia.
  - destruct (split_at g2 m) as (x & g3 & -> & Hx); [lia|].
    exists x, g3. rewrite !zlen_app, <- !app_assoc. split; [|done]. f_equal; lia.
Qed.

Lemma Append_mkbl g1 mid g2 b :
  exists g2', BytesList_Append b (mkbl g1 mid g2) = (Ret tt, mkbl g1 (mid ++ b) g2').
Proof.
  destruct (grow_to_mkbl g1 mid g2 (zlen b)) as (x & g2' & Hg & Hx); [apply zlen_nonneg|].
  exists g2'. unfold BytesList_Append, bind, gets, modify, lift.
  rewrite mkbl_Len, Hg, mkbl_Bytes.
  rewrite slice_suffix by done. unfold mkbl; simpl.
  rewrite <- !app_assoc. rewrite (app_assoc g1 mid).
  rewrite copy_at_app by (rewrite ?zlen_app; lia).
  by rewrite <- !app_assoc, !zlen_app, Hx.
Qed.

Lemma Remove_mkbl g1 l r g2 :
  exists g1' g2', BytesList_Remove (zlen l) (mkbl g1 (l ++ r) g2) = mkbl g1' r g2'.
Proof.
  unfold BytesList_Remove. rewrite mkbl_Len, zlen_app.
  destruct (Z.leb_spec (zlen l) 0) as [Hl|Hl].
  { apply zlen_0_nil in Hl as ->. by exists g1, g2. }
  destruct (Z.leb_spec (zlen l + zlen r) (zlen l)) as [Hr|Hr].
  - assert (r = []) as -> by (apply zlen_0_nil; lia).
    exists [], (g1 ++ l ++ g2). unfold mkbl; simpl. by rewrite app_nil_r.
  - exists (g1 ++ l), g2. unfold mkbl; simpl. rewrite !zlen_app, <- !app_assoc.
    f_equal; lia.
Qed.

Lemma bl_run_spec o g1 q g2 :
  exists g1' g2', bl_run o (mkbl g1 q g2) = (Ret tt, mkbl g1' (queue_run o q) g2').
Proof.
  destruct o as [b|n]; simpl.
  - destruct (Append_mkbl g1 q g2 b) as [g2' ->]. eauto.
  - unfold modify. destruct (Z.leb_spec n 0) as [Hn|Hn].
    { unfold BytesList_Remove. rewrite (proj2 (Z.leb_le _ _)) by done.
      replace (Z.to_nat n) with 0%nat by lia. rewrite drop_0. eauto. }
    destruct (Z.leb_spec (zlen q) n) as [Hq|Hq].
    + exists [], (g1 ++ q ++ g2). unfold BytesList_Remove. rewrite mkbl_Len.
      rewrite (proj2 (Z.leb_gt _ _)), (proj2 (Z.leb_le _ _)) by lia.
      rewrite drop_ge by (unfold zlen in *; lia). done.
    + destruct (split_at q n) as (l & r & -> & <-); [lia|].
      rewrite drop_zlen_app.
      destruct (Remove_mkbl g1 l r g2) as (g1' & g2' & ->). eauto.
Qed.

Lemma bl_runs_spec os g1 q g2 :
  exists g1' g2',
    bl_runs os (mkbl g1 q g2) = (Ret tt, mkbl g1' (foldl (fun q o => queue_run o q) q os) g2').
Proof.
  revert g1 q g2. induction os as [|o os IH]; intros; simpl; [by eauto|].
  destruct (bl_run_spec o g1 q g2) as (g1' & g2' & H).
  rewrite (bind_Ret _ _ _ _ _ H). apply IH.
Qed.

(** ** Lemmas on HPBuffer *)

Lemma HPBuffer_ok_mkhp r :
  HPBuffer_ok r -> exists g1 pre post g2, r = mkhp g1 pre post g2.
Proof.
  intros [Hl Ho]. destruct r as [l off]; simpl in *.
  destruct (BytesList_ok_mkbl l Hl) as (g1 & mid & g2 & ->).
  rewrite mkbl_Len in Ho.
  destruct (split_at mid off) as (pre & post & -> & <-); [lia|].
  by exists g1, pre, post, g2.
Qed.

Lemma mkhp_ok g1 pre post g2 : HPBuffer_ok (mkhp g1 pre post g2).
Proof.
  split; [apply mkbl_ok|]. simpl. rewrite mkbl_Len. zlen_solve.
Qed.

Lemma NewHPBuffer_mkhp b : NewHPBuffer b = mkhp [] [] b [].
Proof. unfold NewHPBuffer. by rewrite NewBytesList_mkbl. Qed.

Lemma mkhp_Len g1 pre post g2 : HPBuffer_Len (mkhp g1 pre post g2) = zlen post.
Proof. unfold HPBuffer_Len. simpl. rewrite mkbl_Len, zlen_app. lia. Qed.

Lemma mkhp_Bytes g1 pre post g2 : HPBuffer_Bytes (mkhp g1 pre post g2) = Ret post.
Proof. unfold HPBuffer_Bytes. simpl. rewrite mkbl_Bytes. by apply slice_suffix. Qed.

Lemma mkhp_WrittenBytes g1 pre post g2 :
  HPBuffer_WrittenBytes (mkhp g1 pre post g2) = Ret pre.
Proof. unfold HPBuffer_WrittenBytes. simpl. rewrite mkbl_Bytes. by apply slice_prefix. Qed.

Lemma mkhp_Reset g1 pre post g2 :
  HPBuffer_Reset (mkhp g1 pre post g2) = mkhp g1 [] (pre ++ post) g2.
Proof. done. Qed.

Lemma mkhp_Skip g1 pre a post g2 :
  HPBuffer_Skip (zlen a) (mkhp g1 pre (a ++ post) g2) = (Ret tt, mkhp g1 (pre ++ a) post g2).
Proof.
  unfold HPBuffer_Skip, modify, mkhp. simpl. by rewrite <- app_assoc, zlen_app.
Qed.

Lemma mkhp_Skip_back g1 pre a post g2 :
  HPBuffer_Skip (- zlen a) (mkhp g1 (pre ++ a) post g2) = (Ret tt, mkhp g1 pre (a ++ post) g2).
Proof.
  unfold HPBuffer_Skip, modify, mkhp. simpl. rewrite <- app_assoc, zlen_app.
  repeat f_equal. lia.
Qed.

Lemma mkhp_Append g1 pre post g2 b :
  exists g2', HPBuffer_Append b (mkhp g1 pre post g2) = (Ret 0, mkhp g1 pre (post ++ b) g2').
Proof.
  destruct (Append_mkbl g1 (pre ++ post) g2 b) as [g2' H]. exists g2'.
  unfold HPBuffer_Append, bind, zoom, mkhp. simpl. rewrite H, <- app_assoc. done.
Qed.

(** [Consume] of everything behind the cursor. *)
Lemma mkhp_Consume g1 pre post g2 n :
  n = zlen pre ->
  exists g1' g2', HPBuffer_Consume n (mkhp g1 pre post g2) = (Ret tt, mkhp g1' [] post g2').
Proof.
  intros ->. destruct (Remove_mkbl g1 pre post g2) as (g1' & g2' & H). exists g1', g2'.
  unfold HPBuffer_Consume, modify. simpl. rewrite H. unfold mkhp. simpl.
  repeat f_equal. change (zlen (@nil byte)) with 0. lia.
Qed.

Lemma mkhp_Read g1 pre a post g2 n :
  n = zlen a ->
  HPBuffer_Read n (mkhp g1 pre (a ++ post) g2) = (Ret a, mkhp g1 (pre ++ a) post g2).
Proof.
  intros ->. unfold HPBuffer_Read, bind, lift. rewrite mkhp_Bytes, slice_prefix by done.
  unfold modify, ret, mkhp. simpl. by rewrite <- app_assoc, zlen_app.
Qed.

(** Replacing the bytes at the cursor. *)
Lemma mkhp_store g1 pre x a y post g2 b :
  zlen b = zlen a ->
  HPBuffer_store (zlen x) (zlen a) b (mkhp g1 pre (x ++ a ++ y ++ post) g2)
  = mkhp g1 pre (x ++ b ++ y ++ post) g2.
Proof.
  intros Hb. unfold HPBuffer_store, mkhp, mkbl. simpl.
  rewrite <- !app_assoc.
  rewrite (app_assoc g1 pre), (app_assoc (g1 ++ pre) x).
  rewrite copy_at_app by (rewrite ?zlen_app; lia).
  by rewrite <- !app_assoc, !zlen_app, Hb.
Qed.

Lemma mkhp_Write g1 pre a post g2 b :
  zlen a = zlen b ->
  HPBuffer_Write b (mkhp g1 pre (a ++ post) g2) = (Ret (zlen b), mkhp g1 (pre ++ b) post g2).
Proof.
  intros Ha. unfold HPBuffer_Write, bind, lift. rewrite mkhp_Bytes, slice_prefix by done.
  unfold modify, ret.
  pose proof (mkhp_store g1 pre [] a [] post g2 b (eq_sym Ha)) as H. simpl in H.
  change (zlen (@nil byte)) with 0 in H. rewrite H.
  unfold mkhp. simpl. by rewrite <- app_assoc, zlen_app.
Qed.

#[export] Hint Rewrite mkhp_Len mkhp_Bytes mkhp_WrittenBytes mkhp_Reset : gort.

(** ** Properties *)

(** C31. [BytesList] is a byte queue: whatever sequence of [Append] and [Remove]
    calls is made on a new list, none of them panics, and [Bytes()] is the
    concatenation of what was appended less what was removed from its front. *)
Theorem BytesList_refines_queue b os :
  exists r, bl_runs os (NewBytesList b) = (Ret tt, r)
    /\ BytesList_Bytes r = Ret (foldl (fun q o => queue_run o q) b os)
    /\ BytesList_ok r.
Proof.
  rewrite NewBytesList_mkbl.
  destruct (bl_runs_spec os [] b []) as (g1 & g2 & H).
  eexists. split; [exact H|]. split; [apply mkbl_Bytes|apply mkbl_ok].
Qed.
