(* ===== verification/Socket.v ===== *)
(** * socket.go: the counted connection

    [TCPConn] models the standard library's [*net.TCPConn] by what the kernel
    delivers and accepts: [rx] is the sequence of segments that [Read] hands
    out (a segment larger than the caller's slice is handed out in pieces),
    followed for ever by [rx_err]; [tx_script] is what successive [Write]
    calls answer, full writes once it is used up; [tx] is all that was written. *)

From Stdlib Require Import ZArith Lia.
From stdpp Require Import base list.
From S2P Require Import Prelude Constants.
Open Scope Z_scope.

(** ** The connection *)

Inductive tx_answer :=
| TxN (n : Z)
| TxErr (n : Z) (e : error).

Record TCPConn := mkTCPConn {
  rx : list (list byte);
  rx_err : error;
  tx_script : list tx_answer;
  tx : list byte }.

(** [conn.Read(b)] with [len(b) = size]: the bytes stored in [b]. *)
Definition TCPConn_Read (size : Z) : M TCPConn (list byte) := fun c =>
  match rx c with
  | [] => (Fail (rx_err c), c)
  | seg :: segs =>
      if zlen seg <=? size
      then (Ret seg, mkTCPConn segs (rx_err c) (tx_script c) (tx c))
      else (Ret (take (Z.to_nat size) seg),
            mkTCPConn (drop (Z.to_nat size) seg :: segs) (rx_err c) (tx_script c) (tx c))
  end.

(** [conn.Write(b)]: the number of bytes written. *)
Definition TCPConn_Write (b : list byte) : M TCPConn Z := fun c =>
  let sent n sc := mkTCPConn (rx c) (rx_err c) sc (tx c ++ take (Z.to_nat n) b) in
  match tx_script c with
  | [] => (Ret (zlen b), sent (zlen b) [])
  | TxN n :: sc => (Ret (Z.min n (zlen b)), sent n sc)
  | TxErr n e :: sc => (Fail e, sent n sc)
  end.

(** ** Socket *)

Record Socket := mkSocket {
  sk_conn : TCPConn;
  recv_bytes : Z;
  send_bytes : Z }.

Definition NewSocket (conn : TCPConn) : Socket :=
  {| sk_conn := conn; recv_bytes := 0; send_bytes := 0 |}.

Definition Socket_RecvBytes (r : Socket) : Z := recv_bytes r.
Definition Socket_SendBytes (r : Socket) : Z := send_bytes r.

Definition with_conn {A} (m : M TCPConn A) : M Socket A :=
  zoom sk_conn (fun c r => mkSocket c (recv_bytes r) (send_bytes r)) m.

(** [n] is the length of the data read, so the branch [n < 0] of the source,
    kept below, is never taken. *)
Definition Socket_Read (size : Z) : M Socket (list byte) :=
  let* b := with_conn (TCPConn_Read size) in
  let n := zlen b in
  if n =? 0 then fail (Error ERROR_SOCKET_CLOSED (str "read peer closed gracefully"))
  else if n <? 0 then fail (Error ERROR_SOCKET_READ (str "read data failed"))
  else
    do* (if 0 <? n
         then modify (fun r => mkSocket (sk_conn r) (to_uint 64 (recv_bytes r + n)) (send_bytes r))
         else ret tt) in
    ret b.

(** The loop [for n < len(b)]; every round that does not return writes at least
    one byte, so [len(b) + 1] rounds are enough ([Socket_Write_spec]). *)
Fixpoint Socket_Write_loop (fuel : nat) (b : list byte) (n : Z) : M Socket Z :=
  match fuel with
  | O => out_of_fuel
  | S fuel =>
      if n <? zlen b then
        let* rest := lift (slice b n (zlen b)) in
        let* nb_written := with_conn (TCPConn_Write rest) in
        if nb_written =? 0 then
          fail (Error ERROR_SOCKET_CLOSED (str "write peer closed gracefully"))
        else if nb_written <? 0 then
          fail (Error ERROR_SOCKET_WRITE (str "write data failed"))
        else
          do* modify (fun r =>
                mkSocket (sk_conn r) (recv_bytes r) (to_uint 64 (send_bytes r + nb_written))) in
          Socket_Write_loop fuel b (n + nb_written)
      else ret n
  end.

Definition Socket_Write (b : list byte) : M Socket Z :=
  Socket_Write_loop (S (List.length b)) b 0.

(** ** What is still to come from the network *)

(** Every segment carries at least one byte: [net.Conn.Read] returns no empty
    read without an error. *)
Definition rx_ok (c : TCPConn) : Prop := Forall (fun seg => seg <> []) (rx c).

Definition rx_bytes (c : TCPConn) : list byte := concat (rx c).

(** [s'] is [s] after [w] was written to the connection. *)
Definition wrote (w : list byte) (s s' : Socket) : Prop :=
  tx (sk_conn s') = tx (sk_conn s) ++ w
  /\ rx (sk_conn s') = rx (sk_conn s) /\ rx_err (sk_conn s') = rx_err (sk_conn s)
  /\ recv_bytes s' = recv_bytes s.

(** ** Lemmas *)

Lemma take_prefix_app {A} (b1 b2 : list A) k :
  exists j, b1 ++ take k b2 = take j (b1 ++ b2).
Proof.
  exists (List.length b1 + k)%nat. by rewrite take_app_add.
Qed.

(** One call of [Read]: a non-empty prefix of what was to come. *)
Lemma TCPConn_Read_spec size c :
  0 < size -> rx_ok c -> rx_bytes c <> [] ->
  exists b c', TCPConn_Read size c = (Ret b, c')
    /\ b <> [] /\ rx_bytes c = b ++ rx_bytes c' /\ rx_ok c'
    /\ rx_err c' = rx_err c /\ tx_script c' = tx_script c /\ tx c' = tx c.
Proof.
  unfold TCPConn_Read, rx_ok, rx_bytes. destruct c as [[|seg segs] e sc t]; simpl; [done|].
  intros Hs [Hne Hok]%Forall_cons _.
  destruct (Z.leb_spec (zlen seg) size).
  - by exists seg, (mkTCPConn segs e sc t).
  - exists (take (Z.to_nat size) seg), (mkTCPConn (drop (Z.to_nat size) seg :: segs) e sc t).
    unfold zlen in *. simpl. repeat split; try done.
    + intros Ht. apply (f_equal List.length) in Ht. rewrite length_take in Ht. simpl in Ht. lia.
    + by rewrite app_assoc, take_drop.
    + apply Forall_cons. split; [|done].
      intros Ht. apply (f_equal List.length) in Ht. rewrite length_drop in Ht. simpl in Ht. lia.
Qed.

Lemma TCPConn_Read_end size c :
  rx c = [] -> TCPConn_Read size c = (Fail (rx_err c), c).
Proof. unfold TCPConn_Read. by intros ->. Qed.

Lemma rx_bytes_nil c : rx_ok c -> rx_bytes c = [] -> rx c = [].
Proof.
  unfold rx_ok, rx_bytes. destruct c as [[|seg segs] ? ? ?]; simpl; [done|].
  intros [Hne _]%Forall_cons. destruct seg; done.
Qed.

Lemma Socket_Read_spec size s :
  0 < size -> rx_ok (sk_conn s) -> rx_bytes (sk_conn s) <> [] ->
  exists b s', Socket_Read size s = (Ret b, s')
    /\ b <> [] /\ rx_bytes (sk_conn s) = b ++ rx_bytes (sk_conn s') /\ rx_ok (sk_conn s')
    /\ rx_err (sk_conn s') = rx_err (sk_conn s)
    /\ tx_script (sk_conn s') = tx_script (sk_conn s)
    /\ tx (sk_conn s') = tx (sk_conn s) /\ send_bytes s' = send_bytes s
    /\ recv_bytes s' = to_uint 64 (recv_bytes s + zlen b).
Proof.
  intros Hs Hok Hne.
  destruct (TCPConn_Read_spec size (sk_conn s) Hs Hok Hne) as (b & c' & Hr & Hb & H).
  exists b, (mkSocket c' (to_uint 64 (recv_bytes s + zlen b)) (send_bytes s)).
  assert (0 < zlen b) by (destruct b; [done|zlen_solve]).
  unfold Socket_Read, bind, with_conn, zoom. rewrite Hr.
  rewrite (proj2 (Z.eqb_neq _ _)), (proj2 (Z.ltb_ge _ _)), (proj2 (Z.ltb_lt _ _)) by lia.
  simpl. destruct H as (? & ? & ? & ? & ?). repeat split; done.
Qed.

Lemma Socket_Read_end size s :
  rx (sk_conn s) = [] -> Socket_Read size s = (Fail (rx_err (sk_conn s)), s).
Proof.
  intros H. unfold Socket_Read, bind, with_conn, zoom.
  rewrite TCPConn_Read_end by done. by destruct s.
Qed.

Lemma wrote_trans w1 w2 s1 s2 s3 : wrote w1 s1 s2 -> wrote w2 s2 s3 -> wrote (w1 ++ w2) s1 s3.
Proof. unfold wrote. intros (-> & -> & -> & ->) (-> & -> & -> & ->). by rewrite app_assoc. Qed.

(** One call of [conn.Write]: a prefix of [b], of the length answered. *)
Lemma conn_Write_spec b s :
  exists o s' k, with_conn (TCPConn_Write b) s = (o, s')
    /\ wrote (take k b) s s' /\ send_bytes s' = send_bytes s
    /\ match o with
       | Ret m => m <= zlen b /\ (0 <= m -> zlen (take k b) = m)
       | Fail _ => True
       | _ => False
       end.
Proof.
  unfold with_conn, zoom, TCPConn_Write, wrote.
  destruct (tx_script (sk_conn s)) as [|[m|m e] sc]; eexists _, _, (Z.to_nat _);
    split; try reflexivity; repeat split; try done; simpl; unfold zlen;
    rewrite ?length_take; lia.
Qed.

Lemma Socket_Write_loop_spec fuel b1 b2 s :
  (List.length b2 < fuel)%nat ->
  exists o s' k, Socket_Write_loop fuel (b1 ++ b2) (zlen b1) s = (o, s')
    /\ wrote (take k b2) s s'
    /\ match o with
       | Ret m => m = zlen (b1 ++ b2) /\ take k b2 = b2
                  /\ to_uint 64 (send_bytes s') = to_uint 64 (send_bytes s + zlen b2)
       | Fail _ => True
       | _ => False
       end.
Proof.
  revert b1 b2 s. induction fuel as [|fuel IH]; intros b1 b2 s Hf; [lia|]. simpl.
  rewrite zlen_app. destruct (Z.ltb_spec (zlen b1) (zlen b1 + zlen b2)) as [Hlt|Hge].
  2:{ assert (b2 = []) as -> by (apply zlen_0_nil; lia). exists (Ret (zlen b1)), s, 0%nat.
      unfold wrote. rewrite !app_nil_r. change (zlen (@nil byte)) with 0.
      by rewrite !Z.add_0_r. }
  unfold bind at 1, lift. rewrite <- zlen_app, slice_suffix by done.
  destruct (conn_Write_spec b2 s) as (o & s1 & k & Hw & Hwr & Hsb & Ho).
  unfold bind at 1. rewrite Hw. destruct o as [m|e|p|]; try done; [|by eexists _, _, k].
  destruct Ho as [Hle Hm].
  destruct (Z.eqb_spec m 0) as [Hz|Hz]; [by eexists _, _, k|].
  destruct (Z.ltb_spec m 0) as [Hneg|Hpos]; [by eexists _, _, k|].
  specialize (Hm Hpos). unfold bind at 1, modify. cbv beta.
  set (s2 := mkSocket _ _ _).
  destruct (IH (b1 ++ take k b2) (drop k b2) s2) as (o' & s' & j & He & Hwr' & Ho').
  { rewrite <- (take_drop k b2), length_app in Hf. unfold zlen in *. lia. }
  rewrite <- app_assoc, take_drop, zlen_app, Hm in He.
  destruct (take_prefix_app (take k b2) (drop k b2) j) as [i Hi]. rewrite take_drop in Hi.
  exists o', s', i. rewrite <- Hi. split; [done|].
  split; [by eapply (wrote_trans _ _ s s2)|].
  destruct o' as [m'|e|p|]; try done. destruct Ho' as (-> & -> & ->).
  rewrite <- app_assoc, take_drop. split; [done|]. split; [done|]. subst s2; simpl.
  rewrite <- (take_drop k b2) at 2. unfold to_uint. rewrite zlen_app, Hm, Hsb.
  rewrite Zplus_mod_idemp_l. f_equal. lia.
Qed.

Lemma Socket_Write_spec b s :
  exists o s' k, Socket_Write b s = (o, s')
    /\ wrote (take k b) s s'
    /\ match o with
       | Ret m => m = zlen b /\ take k b = b
                  /\ to_uint 64 (send_bytes s') = to_uint 64 (send_bytes s + zlen b)
       | Fail _ => True
       | _ => False
       end.
Proof. apply (Socket_Write_loop_spec (S (List.length b)) [] b). lia. Qed.

(** On a connection that accepts full writes the whole of [b] goes out. *)
Lemma Socket_Write_full b s :
  tx_script (sk_conn s) = [] ->
  exists s', Socket_Write b s = (Ret (zlen b), s') /\ wrote b s s'
    /\ tx_script (sk_conn s') = [].
Proof.
  intros Hsc. unfold Socket_Write. cbn [Socket_Write_loop].
  destruct b as [|x b].
  { exists s. unfold wrote. rewrite app_nil_r. done. }
  rewrite (proj2 (Z.ltb_lt _ _)) by zlen_solve.
  unfold bind at 1, lift. rewrite (slice_suffix [] (x :: b)) by done.
  unfold bind at 1, with_conn, zoom, TCPConn_Write. rewrite Hsc.
  assert (0 < zlen (x :: b)) by zlen_solve.
  rewrite (proj2 (Z.eqb_neq _ _)), (proj2 (Z.ltb_ge _ _)) by lia.
  unfold bind, modify. cbn [List.length Socket_Write_loop].
  rewrite (proj2 (Z.ltb_ge _ _)) by lia.
  eexists. split; [reflexivity|]. unfold wrote. simpl.
  rewrite take_ge by (unfold zlen in *; simpl in *; lia). done.
Qed.

(** ** Properties *)

(** C36. [Socket.Write] ends after finitely many [conn.Write] calls whatever the
    connection answers to them: what reaches the wire is always a prefix of
    [b], it is the whole of [b] when no error is returned, and the result and
    the 64-bit counter [send_bytes] then both account for every byte of [b];
    receiving is not disturbed. *)
Theorem Socket_Write_prefix b s :
  exists o s' k, Socket_Write b s = (o, s')
    /\ wrote (take k b) s s'
    /\ ((exists e, o = Fail e)
        \/ (o = Ret (zlen b) /\ wrote b s s'
            /\ to_uint 64 (send_bytes s') = to_uint 64 (send_bytes s + zlen b))).
Proof.
  destruct (Socket_Write_spec b s) as (o & s' & k & He & Hw & Ho).
  exists o, s', k. split; [done|]. split; [done|].
  destruct o; try done; [|by left; eauto].
  right. destruct Ho as (-> & Hk & Hs). rewrite Hk in Hw. done.
Qed.
