(* ===== verification/Buffer.v ===== *)
(** * buffer.go: typed reads and writes on a buffer

    [Buffer] is an [HPBuffer] with the connection it may be refilled from
    (nil for a stream made by [NewRtmpStream]).  The scratch slice [skt_buf]
    only carries the bytes from [conn.Read] to [Append] and is not kept; its
    length [RTMP_SOCKET_READ_SIZE] is.  A [float64] is its IEEE 754 bit pattern,
    so [math.Float64bits] and [math.Float64frombits] are identities. *)

From Stdlib Require Import ZArith Lia.
From stdpp Require Import base list.
From S2P Require Import Prelude Constants HPBuffer Socket.
Open Scope Z_scope.

Abbreviation float64 := Z (only parsing).

Record Buffer := mkBuffer { bf_buf : HPBuffer; bf_conn : option Socket }.

Definition NewRtmpBuffer (conn : Socket) : Buffer :=
  {| bf_buf := NewHPBuffer []; bf_conn := Some conn |}.

Definition NewRtmpStream (b : list byte) : Buffer :=
  {| bf_buf := NewHPBuffer b; bf_conn := None |}.

Definition on_hp {A} (m : M HPBuffer A) : M Buffer A :=
  zoom bf_buf (fun t r => {| bf_buf := t; bf_conn := bf_conn r |}) m.

(** [r.conn.Read(r.skt_buf)]; a nil connection is dereferenced by [Read]. *)
Definition conn_Read : M Buffer (list byte) := fun r =>
  match bf_conn r with
  | None => (Panic NilDereference, r)
  | Some s =>
      let '(o, s') := Socket_Read RTMP_SOCKET_READ_SIZE s in
      (o, {| bf_buf := bf_buf r; bf_conn := Some s' |})
  end.

Definition rx_left (r : Buffer) : nat :=
  match bf_conn r with
  | None => 0
  | Some s => List.length (rx_bytes (sk_conn s))
  end.

(** The loop [for buffer.Len() < n]. *)
Fixpoint EnsureBufferBytes_loop (fuel : nat) (n : Z) : M Buffer unit := fun r =>
  match fuel with
  | O => (OutOfFuel, r)
  | S fuel =>
      if HPBuffer_Len (bf_buf r) <? n then
        (let* b := conn_Read in
         do* on_hp (HPBuffer_Append b) in
         EnsureBufferBytes_loop fuel n) r
      else (Ret tt, r)
  end.

(** Each round that goes on takes at least one byte from the connection, so one
    more round than the connection has bytes is enough. *)
Definition Buffer_EnsureBufferBytes (n : Z) : M Buffer unit := fun r =>
  EnsureBufferBytes_loop (S (rx_left r)) n r.

Definition Buffer_Consume (n : Z) : M Buffer unit := on_hp (HPBuffer_Consume n).

Definition Buffer_Requires (n : Z) (r : Buffer) : bool := n <=? HPBuffer_Len (bf_buf r).

Abbreviation requires n := (gets (Buffer_Requires n)).

Definition Buffer_Empty (r : Buffer) : bool := HPBuffer_Len (bf_buf r) <=? 0.

Definition Buffer_Reset (r : Buffer) : Buffer :=
  {| bf_buf := HPBuffer_Reset (bf_buf r); bf_conn := bf_conn r |}.

Definition Buffer_Left (r : Buffer) : Z := HPBuffer_Len (bf_buf r).

Definition Buffer_WrittenBytes (r : Buffer) : outcome (list byte) :=
  HPBuffer_WrittenBytes (bf_buf r).

Definition Buffer_Bytes : M Buffer (list byte) := fun r => (HPBuffer_Bytes (bf_buf r), r).

Definition Buffer_Skip (n : Z) : M Buffer unit := on_hp (HPBuffer_Skip n).

Definition Buffer_Read (n : Z) : M Buffer (list byte) :=
  let* b := Buffer_Bytes in
  let* b := lift (slice b 0 n) in
  do* Buffer_Skip n in
  ret b.

Definition Buffer_ReadByte : M Buffer byte :=
  let* b := Buffer_Bytes in
  let* v := lift (index b 0) in
  do* Buffer_Skip 1 in
  ret v.

Definition Buffer_ReadUInt24 : M Buffer Z :=
  let* b := Buffer_Bytes in
  let* b2 := lift (index b 2) in
  let* b1 := lift (index b 1) in
  let* b0 := lift (index b 0) in
  let v := Z.lor (Z.lor (uint8_to_Z b2) (shl 32 (uint8_to_Z b1) 8))
                 (shl 32 (uint8_to_Z b0) 16) in
  do* Buffer_Skip 3 in
  ret v.

Definition Buffer_ReadUInt16 : M Buffer Z :=
  let* b := Buffer_Bytes in
  let* b1 := lift (index b 1) in
  let* b0 := lift (index b 0) in
  let v := Z.lor (uint8_to_Z b1) (shl 16 (uint8_to_Z b0) 8) in
  do* Buffer_Skip 2 in
  ret v.

Definition Buffer_ReadUInt32 : M Buffer Z :=
  let* b := Buffer_Bytes in
  let* b3 := lift (index b 3) in
  let* b2 := lift (index b 2) in
  let* b1 := lift (index b 1) in
  let* b0 := lift (index b 0) in
  let v := Z.lor (Z.lor (Z.lor (uint8_to_Z b3) (shl 32 (uint8_to_Z b2) 8))
                        (shl 32 (uint8_to_Z b1) 16))
                 (shl 32 (uint8_to_Z b0) 24) in
  do* Buffer_Skip 4 in
  ret v.

Definition Buffer_ReadFloat64 : M Buffer float64 :=
  let* b := Buffer_Bytes in
  let* b7 := lift (index b 7) in
  let* b6 := lift (index b 6) in
  let* b5 := lift (index b 5) in
  let* b4 := lift (index b 4) in
  let* b3 := lift (index b 3) in
  let* b2 := lift (index b 2) in
  let* b1 := lift (index b 1) in
  let* b0 := lift (index b 0) in
  let v64 :=
    Z.lor (Z.lor (Z.lor (Z.lor (Z.lor (Z.lor (Z.lor
      (uint8_to_Z b7) (shl 64 (uint8_to_Z b6) 8)) (shl 64 (uint8_to_Z b5) 16))
      (shl 64 (uint8_to_Z b4) 24)) (shl 64 (uint8_to_Z b3) 32)) (shl 64 (uint8_to_Z b2) 40))
      (shl 64 (uint8_to_Z b1) 48)) (shl 64 (uint8_to_Z b0) 56) in
  do* Buffer_Skip 8 in
  ret v64.

Definition Buffer_ReadUInt32Le : M Buffer Z :=
  let* b := Buffer_Bytes in
  let* b0 := lift (index b 0) in
  let* b1 := lift (index b 1) in
  let* b2 := lift (index b 2) in
  let* b3 := lift (index b 3) in
  let v := Z.lor (Z.lor (Z.lor (uint8_to_Z b0) (shl 32 (uint8_to_Z b1) 8))
                        (shl 32 (uint8_to_Z b2) 16))
                 (shl 32 (uint8_to_Z b3) 24) in
  do* Buffer_Skip 4 in
  ret v.

Definition Buffer_Write (v : list byte) : M Buffer unit :=
  do* on_hp (HPBuffer_Write v) in
  ret tt.

(** The assignment [b[i] = v] through the slice [b := r.buf.Bytes()]. *)
Definition put (i : Z) (v : byte) : M Buffer unit :=
  let* b := Buffer_Bytes in
  do* lift (index b i) in
  on_hp (modify (HPBuffer_store i 1 [v])).

Definition Buffer_WriteByte (v : byte) : M Buffer unit :=
  do* put 0 v in
  Buffer_Skip 1.

Definition Buffer_WriteUInt32 (v : Z) : M Buffer unit :=
  do* put 0 (byte_of_Z (Z.shiftr v 24)) in
  do* put 1 (byte_of_Z (Z.shiftr v 16)) in
  do* put 2 (byte_of_Z (Z.shiftr v 8)) in
  do* put 3 (byte_of_Z v) in
  Buffer_Skip 4.

Definition Buffer_WriteUInt24 (v : Z) : M Buffer unit :=
  do* put 0 (byte_of_Z (Z.shiftr v 16)) in
  do* put 1 (byte_of_Z (Z.shiftr v 8)) in
  do* put 2 (byte_of_Z v) in
  Buffer_Skip 3.

Definition Buffer_WriteUInt16 (v : Z) : M Buffer unit :=
  do* put 0 (byte_of_Z (Z.shiftr v 8)) in
  do* put 1 (byte_of_Z v) in
  Buffer_Skip 2.

Definition Buffer_WriteUInt32Le (v : Z) : M Buffer unit :=
  do* put 0 (byte_of_Z v) in
  do* put 1 (byte_of_Z (Z.shiftr v 8)) in
  do* put 2 (byte_of_Z (Z.shiftr v 16)) in
  do* put 3 (byte_of_Z (Z.shiftr v 24)) in
  Buffer_Skip 4.

Definition Buffer_WriteFloat64 (v64 : float64) : M Buffer unit :=
  let v := v64 in
  do* put 0 (byte_of_Z (Z.shiftr v 56)) in
  do* put 1 (byte_of_Z (Z.shiftr v 48)) in
  do* put 2 (byte_of_Z (Z.shiftr v 40)) in
  do* put 3 (byte_of_Z (Z.shiftr v 32)) in
  do* put 4 (byte_of_Z (Z.shiftr v 24)) in
  do* put 5 (byte_of_Z (Z.shiftr v 16)) in
  do* put 6 (byte_of_Z (Z.shiftr v 8)) in
  do* put 7 (byte_of_Z v) in
  Buffer_Skip 8.

(** ** Canonical states *)

(** The buffer at the cursor between [pre] and [post]. *)
Definition mkbuf (c : option Socket) (g1 pre post g2 : list byte) : Buffer :=
  {| bf_buf := mkhp g1 pre post g2; bf_conn := c |}.

(** A stream on a byte slice: nothing outside the window, no connection. *)
Abbreviation stream pre post := (mkbuf None [] pre post []).

(** The connection [s'] is [s] after the bytes [x] were received from it. *)
Definition received (x : list byte) (s s' : Socket) : Prop :=
  rx_bytes (sk_conn s) = x ++ rx_bytes (sk_conn s') /\ rx_ok (sk_conn s')
  /\ rx_err (sk_conn s') = rx_err (sk_conn s)
  /\ tx_script (sk_conn s') = tx_script (sk_conn s) /\ tx (sk_conn s') = tx (sk_conn s)
  /\ send_bytes s' = send_bytes s
  /\ to_uint 64 (recv_bytes s') = to_uint 64 (recv_bytes s + zlen x).

(** ** Lemmas: the integer forms *)

Lemma shl_byte w b n :
  0 <= n -> n + 8 <= w -> shl w (uint8_to_Z b) n = Z.shiftl (uint8_to_Z b) n.
Proof.
  intros. unfold shl, to_uint. apply Z.mod_small.
  rewrite Z.shiftl_mul_pow2 by lia. pose proof (uint8_range b).
  assert (0 < 2 ^ n) by (apply Z.pow_pos_nonneg; lia).
  split; [apply Z.mul_nonneg_nonneg; lia|].
  apply Z.lt_le_trans with (2 ^ (n + 8)); [|apply Z.pow_le_mono_r; lia].
  rewrite Z.pow_add_r, Z.mul_comm by lia. apply Z.mul_lt_mono_pos_l; lia.
Qed.

(** Or-ing a byte above [k] bytes: the step of every typed read. *)
Lemma lor_byte w l v b n :
  v = be_val l -> n = 8 * zlen l -> n + 8 <= w ->
  Z.lor v (shl w (uint8_to_Z b) n) = be_val (b :: l).
Proof.
  intros -> -> Hw. pose proof (zlen_nonneg l). rewrite shl_byte by lia.
  pose proof (be_val_range l) as Hr. rewrite pow256 in Hr by lia.
  rewrite lor_shiftl_add by lia. simpl. rewrite pow256 by lia. lia.
Qed.

Lemma be_val_1 b : uint8_to_Z b = be_val [b].
Proof. cbn [be_val]. change (256 ^ zlen (@nil byte)) with 1. lia. Qed.

(** ** Lemmas: the operations on canonical states *)

Lemma NewRtmpStream_stream b : NewRtmpStream b = stream [] b.
Proof. unfold NewRtmpStream, mkbuf. by rewrite NewHPBuffer_mkhp. Qed.

Section Ops.
Context (c : option Socket) (g1 pre g2 : list byte).

Lemma mkbuf_Bytes post :
  Buffer_Bytes (mkbuf c g1 pre post g2) = (Ret post, mkbuf c g1 pre post g2).
Proof. unfold Buffer_Bytes. simpl. by rewrite mkhp_Bytes. Qed.

Lemma on_hp_mkbuf {A} (m : M HPBuffer A) post o h1 p q h2 :
  m (mkhp g1 pre post g2) = (o, mkhp h1 p q h2) ->
  on_hp m (mkbuf c g1 pre post g2) = (o, mkbuf c h1 p q h2).
Proof. intros H. unfold on_hp, zoom, mkbuf. cbn [bf_buf]. by rewrite H. Qed.

Lemma mkbuf_Requires n post :
  Buffer_Requires n (mkbuf c g1 pre post g2) = (n <=? zlen post).
Proof. unfold Buffer_Requires. simpl. by rewrite mkhp_Len. Qed.

Lemma mkbuf_Empty post : Buffer_Empty (mkbuf c g1 pre post g2) = (zlen post <=? 0).
Proof. unfold Buffer_Empty. simpl. by rewrite mkhp_Len. Qed.

Lemma mkbuf_Left post : Buffer_Left (mkbuf c g1 pre post g2) = zlen post.
Proof. unfold Buffer_Left. simpl. by rewrite mkhp_Len. Qed.

Lemma mkbuf_Reset post :
  Buffer_Reset (mkbuf c g1 pre post g2) = mkbuf c g1 [] (pre ++ post) g2.
Proof. done. Qed.

Lemma mkbuf_WrittenBytes post : Buffer_WrittenBytes (mkbuf c g1 pre post g2) = Ret pre.
Proof. unfold Buffer_WrittenBytes. simpl. by rewrite mkhp_WrittenBytes. Qed.

Lemma mkbuf_Skip n a post :
  n = zlen a ->
  Buffer_Skip n (mkbuf c g1 pre (a ++ post) g2) = (Ret tt, mkbuf c g1 (pre ++ a) post g2).
Proof. intros ->. apply on_hp_mkbuf, mkhp_Skip. Qed.

Lemma mkbuf_Skip_back n a post :
  n = - zlen a ->
  Buffer_Skip n (mkbuf c g1 (pre ++ a) post g2) = (Ret tt, mkbuf c g1 pre (a ++ post) g2).
Proof. intros ->. unfold Buffer_Skip, on_hp, zoom, mkbuf. cbn [bf_buf]. by rewrite mkhp_Skip_back. Qed.

Lemma mkbuf_Consume n post :
  n = zlen pre ->
  exists g1' g2', Buffer_Consume n (mkbuf c g1 pre post g2) = (Ret tt, mkbuf c g1' [] post g2').
Proof.
  intros Hn. destruct (mkhp_Consume g1 pre post g2 n Hn) as (g1' & g2' & H).
  exists g1', g2'. by apply on_hp_mkbuf.
Qed.

Lemma mkbuf_Read n a post :
  n = zlen a ->
  Buffer_Read n (mkbuf c g1 pre (a ++ post) g2) = (Ret a, mkbuf c g1 (pre ++ a) post g2).
Proof.
  intros Hn. unfold Buffer_Read, bind at 1. rewrite mkbuf_Bytes.
  unfold bind at 1, lift. rewrite slice_prefix by done.
  by rewrite (bind_Ret _ _ _ _ _ (mkbuf_Skip n a post Hn)).
Qed.

Lemma mkbuf_Write v a post :
  zlen a = zlen v ->
  Buffer_Write v (mkbuf c g1 pre (a ++ post) g2) = (Ret tt, mkbuf c g1 (pre ++ v) post g2).
Proof.
  intros Hv. unfold Buffer_Write.
  by rewrite (bind_Ret _ _ _ _ _ (on_hp_mkbuf _ _ _ _ _ _ _ (mkhp_Write g1 pre a post g2 v Hv))).
Qed.

Lemma mkbuf_put l l' x y z post v i :
  i = zlen x -> l = x ++ y :: z -> l' = x ++ v :: z ->
  put i v (mkbuf c g1 pre (l ++ post) g2) = (Ret tt, mkbuf c g1 pre (l' ++ post) g2).
Proof.
  intros -> -> ->. unfold put, bind at 1. rewrite mkbuf_Bytes, <- app_assoc. simpl.
  unfold bind, lift. rewrite index_app by done. apply on_hp_mkbuf.
  pose proof (mkhp_store g1 pre x [y] z post g2 [v] eq_refl) as H. cbn [app] in H.
  change (zlen [y]) with 1 in H. unfold modify. rewrite H. by rewrite <- app_assoc.
Qed.
End Ops.

(** Run the assignment at offset [n] of a typed write. *)
Ltac run_put n :=
  match goal with
  | |- bind (put ?i ?v) _ (mkbuf ?c ?g1 ?pre (?l ++ ?post) ?g2) = _ =>
      let x := eval cbn in (take n l) in
      let yz := eval cbn in (drop n l) in
      match yz with
      | ?y :: ?z =>
          let l' := eval cbn [app] in (x ++ v :: z) in
          rewrite (bind_Ret _ _ _ _ _
                     (mkbuf_put c g1 pre g2 l l' x y z post v i eq_refl eq_refl eq_refl))
      end
  end.

(** Run a typed read on a literal prefix. *)
Ltac run_read :=
  unfold bind at 1; rewrite mkbuf_Bytes; unfold bind, lift; simpl index; cbv iota;
  rewrite mkbuf_Skip by done; unfold ret, le_val; do 2 f_equal;
  repeat (apply lor_byte; [|done..]); apply be_val_1.

Section Typed.
Context (c : option Socket) (g1 pre g2 : list byte).

Lemma mkbuf_ReadByte b post :
  Buffer_ReadByte (mkbuf c g1 pre (b :: post) g2) = (Ret b, mkbuf c g1 (pre ++ [b]) post g2).
Proof.
  unfold Buffer_ReadByte, bind at 1. rewrite mkbuf_Bytes. unfold bind at 1, lift. simpl.
  by rewrite (bind_Ret _ _ _ _ _ (mkbuf_Skip c g1 pre g2 1 [b] post eq_refl)).
Qed.

Lemma mkbuf_ReadUInt16 a post :
  List.length a = 2%nat ->
  Buffer_ReadUInt16 (mkbuf c g1 pre (a ++ post) g2)
  = (Ret (be_val a), mkbuf c g1 (pre ++ a) post g2).
Proof.
  intros Ha. destruct a as [|b0 [|b1 [|]]]; try done.
  unfold Buffer_ReadUInt16. run_read.
Qed.

Lemma mkbuf_ReadUInt24 a post :
  List.length a = 3%nat ->
  Buffer_ReadUInt24 (mkbuf c g1 pre (a ++ post) g2)
  = (Ret (be_val a), mkbuf c g1 (pre ++ a) post g2).
Proof.
  intros Ha. destruct a as [|b0 [|b1 [|b2 [|]]]]; try done.
  unfold Buffer_ReadUInt24. run_read.
Qed.

Lemma mkbuf_ReadUInt32 a post :
  List.length a = 4%nat ->
  Buffer_ReadUInt32 (mkbuf c g1 pre (a ++ post) g2)
  = (Ret (be_val a), mkbuf c g1 (pre ++ a) post g2).
Proof.
  intros Ha. destruct a as [|b0 [|b1 [|b2 [|b3 [|]]]]]; try done.
  unfold Buffer_ReadUInt32. run_read.
Qed.

Lemma mkbuf_ReadUInt32Le a post :
  List.length a = 4%nat ->
  Buffer_ReadUInt32Le (mkbuf c g1 pre (a ++ post) g2)
  = (Ret (le_val a), mkbuf c g1 (pre ++ a) post g2).
Proof.
  intros Ha. destruct a as [|b0 [|b1 [|b2 [|b3 [|]]]]]; try done.
  unfold Buffer_ReadUInt32Le. run_read.
Qed.

Lemma mkbuf_ReadFloat64 a post :
  List.length a = 8%nat ->
  Buffer_ReadFloat64 (mkbuf c g1 pre (a ++ post) g2)
  = (Ret (be_val a), mkbuf c g1 (pre ++ a) post g2).
Proof.
  intros Ha. destruct a as [|b0 [|b1 [|b2 [|b3 [|b4 [|b5 [|b6 [|b7 [|]]]]]]]]]; try done.
  unfold Buffer_ReadFloat64. run_read.
Qed.

Lemma mkbuf_WriteByte v x post :
  Buffer_WriteByte v (mkbuf c g1 pre (x :: post) g2) = (Ret tt, mkbuf c g1 (pre ++ [v]) post g2).
Proof.
  unfold Buffer_WriteByte. change (x :: post) with ([x] ++ post).
  run_put 0%nat. by rewrite (mkbuf_Skip _ _ _ _ 1 [v]).
Qed.

Lemma mkbuf_WriteUInt16 v a post :
  List.length a = 2%nat ->
  Buffer_WriteUInt16 v (mkbuf c g1 pre (a ++ post) g2)
  = (Ret tt, mkbuf c g1 (pre ++ be_bytes 2 v) post g2).
Proof.
  intros Ha. destruct a as [|x0 [|x1 [|]]]; try done. unfold Buffer_WriteUInt16.
  run_put 0%nat. run_put 1%nat. by rewrite mkbuf_Skip.
Qed.

Lemma mkbuf_WriteUInt24 v a post :
  List.length a = 3%nat ->
  Buffer_WriteUInt24 v (mkbuf c g1 pre (a ++ post) g2)
  = (Ret tt, mkbuf c g1 (pre ++ be_bytes 3 v) post g2).
Proof.
  intros Ha. destruct a as [|x0 [|x1 [|x2 [|]]]]; try done. unfold Buffer_WriteUInt24.
  run_put 0%nat. run_put 1%nat. run_put 2%nat. by rewrite mkbuf_Skip.
Qed.

Lemma mkbuf_WriteUInt32 v a post :
  List.length a = 4%nat ->
  Buffer_WriteUInt32 v (mkbuf c g1 pre (a ++ post) g2)
  = (Ret tt, mkbuf c g1 (pre ++ be_bytes 4 v) post g2).
Proof.
  intros Ha. destruct a as [|x0 [|x1 [|x2 [|x3 [|]]]]]; try done. unfold Buffer_WriteUInt32.
  run_put 0%nat. run_put 1%nat. run_put 2%nat. run_put 3%nat. by rewrite mkbuf_Skip.
Qed.

Lemma mkbuf_WriteUInt32Le v a post :
  List.length a = 4%nat ->
  Buffer_WriteUInt32Le v (mkbuf c g1 pre (a ++ post) g2)
  = (Ret tt, mkbuf c g1 (pre ++ le_bytes 4 v) post g2).
Proof.
  intros Ha. destruct a as [|x0 [|x1 [|x2 [|x3 [|]]]]]; try done. unfold Buffer_WriteUInt32Le.
  run_put 0%nat. run_put 1%nat. run_put 2%nat. run_put 3%nat. by rewrite mkbuf_Skip.
Qed.

Lemma mkbuf_WriteFloat64 v a post :
  List.length a = 8%nat ->
  Buffer_WriteFloat64 v (mkbuf c g1 pre (a ++ post) g2)
  = (Ret tt, mkbuf c g1 (pre ++ be_bytes 8 v) post g2).
Proof.
  intros Ha. destruct a as [|x0 [|x1 [|x2 [|x3 [|x4 [|x5 [|x6 [|x7 [|]]]]]]]]]; try done.
  unfold Buffer_WriteFloat64. run_put 0%nat. run_put 1%nat. run_put 2%nat. run_put 3%nat.
  run_put 4%nat. run_put 5%nat. run_put 6%nat. run_put 7%nat. by rewrite mkbuf_Skip.
Qed.
End Typed.

(** ** Lemmas: refilling from the connection *)

Lemma received_nil s : rx_ok (sk_conn s) -> received [] s s.
Proof. unfold received. change (zlen (@nil byte)) with 0. by rewrite Z.add_0_r. Qed.

Lemma received_trans x y s1 s2 s3 :
  received x s1 s2 -> received y s2 s3 -> received (x ++ y) s1 s3.
Proof.
  unfold received. intros (H1 & _ & H2 & H3 & H4 & H5 & H6) (K1 & K & K2 & K3 & K4 & K5 & K6).
  rewrite H1, K1, K2, K3, K4, K5, K6, <- app_assoc. repeat split; try done.
  unfold to_uint in *. rewrite <- Zplus_mod_idemp_l, H6, Zplus_mod_idemp_l, zlen_app.
  f_equal. lia.
Qed.

(** One successful round of the refill loop. *)
Lemma conn_Read_mkbuf s g1 pre post g2 :
  rx_ok (sk_conn s) -> rx_bytes (sk_conn s) <> [] ->
  exists b s', conn_Read (mkbuf (Some s) g1 pre post g2) = (Ret b, mkbuf (Some s') g1 pre post g2)
    /\ b <> [] /\ received b s s'.
Proof.
  intros Hok Hne.
  destruct (Socket_Read_spec RTMP_SOCKET_READ_SIZE s eq_refl Hok Hne)
    as (b & s' & Hr & Hb & Hx & Hok' & H1 & H2 & H3 & H4 & H5).
  exists b, s'. unfold conn_Read. cbn [bf_conn mkbuf]. rewrite Hr. split; [done|]. split; [done|].
  unfold received. repeat split; try done. rewrite H5. unfold to_uint. apply Zmod_mod.
Qed.

Lemma conn_Read_mkbuf_end s g1 pre post g2 :
  rx_ok (sk_conn s) -> rx_bytes (sk_conn s) = [] ->
  conn_Read (mkbuf (Some s) g1 pre post g2)
  = (Fail (rx_err (sk_conn s)), mkbuf (Some s) g1 pre post g2).
Proof.
  intros Hok Hnil. unfold conn_Read. cbn [bf_conn mkbuf].
  by rewrite Socket_Read_end by (by apply rx_bytes_nil).
Qed.

(** Refilling gives the bytes of the network in order, stops as soon as [n] are
    there, and fails with the error of the connection when the network ends
    before that. *)
Lemma Ensure_loop_spec fuel n s g1 pre post g2 :
  rx_ok (sk_conn s) -> (List.length (rx_bytes (sk_conn s)) < fuel)%nat ->
  exists o x s' g2',
    EnsureBufferBytes_loop fuel n (mkbuf (Some s) g1 pre post g2)
      = (o, mkbuf (Some s') g1 pre (post ++ x) g2')
    /\ received x s s'
    /\ (o = Ret tt /\ n <= zlen (post ++ x)
        \/ o = Fail (rx_err (sk_conn s)) /\ x = rx_bytes (sk_conn s) /\ zlen (post ++ x) < n).
Proof.
  revert s post g2. induction fuel as [|fuel IH]; intros s post g2 Hok Hf; [lia|].
  cbn [EnsureBufferBytes_loop mkbuf bf_buf]. rewrite mkhp_Len.
  destruct (Z.ltb_spec (zlen post) n) as [Hlt|Hge].
  2:{ exists (Ret tt), [], s, g2. rewrite app_nil_r. split; [done|].
      split; [by apply received_nil|]. by left. }
  destruct (rx_bytes (sk_conn s)) as [|x0 xs] eqn:Hx.
  { exists (Fail (rx_err (sk_conn s))), [], s, g2. rewrite app_nil_r.
    change (mkBuffer (mkhp g1 pre post g2) (Some s)) with (mkbuf (Some s) g1 pre post g2).
    rewrite (bind_Fail _ _ _ _ _ (conn_Read_mkbuf_end s g1 pre post g2 Hok Hx)).
    split; [done|]. split; [by apply received_nil|]. by right. }
  change (mkBuffer (mkhp g1 pre post g2) (Some s)) with (mkbuf (Some s) g1 pre post g2).
  destruct (conn_Read_mkbuf s g1 pre post g2 Hok) as (b & s1 & Hr & Hb & Hrec); [by rewrite Hx|].
  rewrite (bind_Ret _ _ _ _ _ Hr).
  destruct (mkhp_Append g1 pre post g2 b) as [g3 Ha].
  rewrite (bind_Ret _ _ _ _ _ (on_hp_mkbuf _ _ _ _ _ _ _ _ _ _ _ Ha)).
  destruct Hrec as (Hx1 & Hok1 & Herr & Hrest).
  destruct (IH s1 (post ++ b) g3 Hok1) as (o & x & s' & g2' & He & Hrec' & Ho).
  { rewrite Hx in Hx1. apply (f_equal List.length) in Hx1. rewrite length_app in Hx1.
    destruct b; [done|]. simpl in *. lia. }
  exists o, (b ++ x), s', g2'. rewrite app_assoc, <- Hx. split; [done|].
  split; [by apply received_trans with s1|].
  destruct Ho as [Ho|(-> & -> & Hn)]; [by left|]. right. by rewrite Herr, Hx1.
Qed.

Lemma Ensure_spec n s g1 pre post g2 :
  rx_ok (sk_conn s) ->
  exists o x s' g2',
    Buffer_EnsureBufferBytes n (mkbuf (Some s) g1 pre post g2)
      = (o, mkbuf (Some s') g1 pre (post ++ x) g2')
    /\ received x s s'
    /\ (o = Ret tt /\ n <= zlen (post ++ x)
        \/ o = Fail (rx_err (sk_conn s)) /\ x = rx_bytes (sk_conn s) /\ zlen (post ++ x) < n).
Proof. intros. by apply Ensure_loop_spec; [|apply Nat.lt_succ_diag_r]. Qed.

(** ** Properties *)

(** C33. The typed writes and reads are inverse: on a buffer with room for them,
    [WriteUInt16], [WriteUInt24], [WriteUInt32], [WriteUInt32Le] and
    [WriteFloat64] each store the value so that the matching read, started
    where the write started, returns it (modulo [2^24] for [WriteUInt24], whose
    argument is 32 bits wide) and leaves the cursor behind it. *)
Theorem typed_write_read c g1 pre g2 rest u16 u24 u32 l32 f64 :
  0 <= u16 < 2 ^ 16 -> 0 <= u24 < 2 ^ 32 -> 0 <= u32 < 2 ^ 32 ->
  0 <= l32 < 2 ^ 32 -> 0 <= f64 < 2 ^ 64 ->
  exists w,
    (do* Buffer_WriteUInt16 u16 in do* Buffer_WriteUInt24 u24 in do* Buffer_WriteUInt32 u32 in
     do* Buffer_WriteUInt32Le l32 in Buffer_WriteFloat64 f64)
      (mkbuf c g1 pre (make_bytes 21 ++ rest) g2) = (Ret tt, mkbuf c g1 (pre ++ w) rest g2)
    /\ (let* a := Buffer_ReadUInt16 in let* b := Buffer_ReadUInt24 in
        let* d := Buffer_ReadUInt32 in let* e := Buffer_ReadUInt32Le in
        let* f := Buffer_ReadFloat64 in ret (a, b, d, e, f))
         (mkbuf c g1 pre (w ++ rest) g2)
       = (Ret (u16, u24 mod 2 ^ 24, u32, l32, f64), mkbuf c g1 (pre ++ w) rest g2).
Proof.
  intros H1 H2 H3 H4 H5.
  exists (be_bytes 2 u16 ++ be_bytes 3 u24 ++ be_bytes 4 u32 ++ le_bytes 4 l32 ++ be_bytes 8 f64).
  split.
  - change (make_bytes 21) with
      (make_bytes 2 ++ make_bytes 3 ++ make_bytes 4 ++ make_bytes 4 ++ make_bytes 8).
    rewrite <- !app_assoc.
    mrun mkbuf_WriteUInt16.
    mrun mkbuf_WriteUInt24.
    mrun mkbuf_WriteUInt32.
    mrun mkbuf_WriteUInt32Le.
    rewrite mkbuf_WriteFloat64 by done. by rewrite <- !app_assoc.
  - rewrite <- !app_assoc.
    mrun mkbuf_ReadUInt16.
    mrun mkbuf_ReadUInt24.
    mrun mkbuf_ReadUInt32.
    mrun mkbuf_ReadUInt32Le.
    mrun mkbuf_ReadFloat64.
    rewrite (be_val_bytes 3), !be_val_bytes_small, le_val_bytes_small by done.
    unfold ret. by rewrite <- !app_assoc.
Qed.

Lemma typed_write_read_witness :
  exists w,
    (do* Buffer_WriteUInt16 258 in do* Buffer_WriteUInt24 16777217 in do* Buffer_WriteUInt32 7 in
     do* Buffer_WriteUInt32Le 9 in Buffer_WriteFloat64 4607182418800017408)
      (stream [] (make_bytes 21 ++ [])) = (Ret tt, stream ([] ++ w) [])
    /\ (let* a := Buffer_ReadUInt16 in let* b := Buffer_ReadUInt24 in
        let* d := Buffer_ReadUInt32 in let* e := Buffer_ReadUInt32Le in
        let* f := Buffer_ReadFloat64 in ret (a, b, d, e, f))
         (stream [] (w ++ []))
       = (Ret (258, 16777217 mod 2 ^ 24, 7, 9, 4607182418800017408), stream ([] ++ w) []).
Proof.
  exact (typed_write_read None [] [] [] [] 258 16777217 7 9 4607182418800017408
    ltac:(lia) ltac:(lia) ltac:(lia) ltac:(lia) ltac:(lia)).
Defined.

(** C32. [EnsureBufferBytes(n)] on a live connection, however the network cuts
    the stream into segments: it ends; it keeps the cursor and the bytes already
    buffered, and appends the next bytes of the network in order, none lost and
    none repeated; it returns nil exactly when [n] bytes are then available, and
    otherwise returns the error of the connection with the whole of the network
    buffered.  The counter [recv_bytes] grows by what was taken. *)
Theorem EnsureBufferBytes_spec n s g1 pre post g2 :
  rx_ok (sk_conn s) ->
  exists o x s' g2',
    Buffer_EnsureBufferBytes n (mkbuf (Some s) g1 pre post g2)
      = (o, mkbuf (Some s') g1 pre (post ++ x) g2')
    /\ rx_bytes (sk_conn s) = x ++ rx_bytes (sk_conn s')
    /\ to_uint 64 (recv_bytes s') = to_uint 64 (recv_bytes s + zlen x)
    /\ (o = Ret tt /\ n <= zlen (post ++ x)
        \/ o = Fail (rx_err (sk_conn s)) /\ x = rx_bytes (sk_conn s) /\ zlen (post ++ x) < n).
Proof.
  intros H. destruct (Ensure_spec n s g1 pre post g2 H)
    as (o & x & s' & g2' & He & (Hx & _ & _ & _ & _ & _ & Hr) & Ho).
  by exists o, x, s', g2'.
Qed.

Lemma EnsureBufferBytes_spec_witness :
  let s := NewSocket (mkTCPConn [[Byte.x01]; [Byte.x02; Byte.x03]] EOF [] []) in
  exists o x s' g2',
    Buffer_EnsureBufferBytes 2 (mkbuf (Some s) [] [] [] []) = (o, mkbuf (Some s') [] [] ([] ++ x) g2')
    /\ rx_bytes (sk_conn s) = x ++ rx_bytes (sk_conn s')
    /\ to_uint 64 (recv_bytes s') = to_uint 64 (recv_bytes s + zlen x)
    /\ (o = Ret tt /\ 2 <= zlen ([] ++ x)
        \/ o = Fail (rx_err (sk_conn s)) /\ x = rx_bytes (sk_conn s) /\ zlen ([] ++ x) < 2).
Proof.
  intros s. apply (EnsureBufferBytes_spec 2 s [] [] [] []).
  repeat constructor; discriminate.
Defined.
