(* ===== verification/Codec.v ===== *)
(** * Encoders and decoders on a buffer

    Three predicates by which the codec files state and compose what a piece of
    code does to the buffer it is given:
    - [encodes m bs]: [m] writes exactly [bs] when there is room for it, and
      returns an encoding error, without a panic, when there is not;
    - [decodes m bs v]: started in front of [bs], [m] returns [v] and stops
      behind it, whatever follows;
    - [reads L n Q m]: on any input of at most [L] bytes [m] ends without a
      panic, only moves the cursor forward, and if it returns a value it has
      consumed at least [n] bytes and the value satisfies [Q]. *)

From Stdlib Require Import ZArith Lia Strings.Byte.
From stdpp Require Import base tactics list.
From S2P Require Import Prelude Constants Buffer.
Open Scope Z_scope.

Arguments be_bytes : simpl never.
Arguments be_val : simpl never.
Arguments le_bytes : simpl never.

Definition is_enc_err (e : error) : Prop :=
  match e with
  | Error c _ => c = ERROR_RTMP_AMF0_ENCODE \/ c = ERROR_RTMP_MESSAGE_ENCODE
  | _ => False
  end.

Definition fits (m : M Buffer unit) (bs : list byte) : Prop :=
  forall c g1 pre g2 room rest, zlen room = zlen bs ->
    m (mkbuf c g1 pre (room ++ rest) g2) = (Ret tt, mkbuf c g1 (pre ++ bs) rest g2).

Definition overflows (m : M Buffer unit) (bs : list byte) : Prop :=
  forall c g1 pre g2 post, zlen post < zlen bs ->
    exists e s', m (mkbuf c g1 pre post g2) = (Fail e, s') /\ is_enc_err e.

Definition encodes (m : M Buffer unit) (bs : list byte) : Prop := fits m bs /\ overflows m bs.

Definition decodes {A} (m : M Buffer A) (bs : list byte) (v : A) : Prop :=
  forall c g1 pre g2 rest,
    m (mkbuf c g1 pre (bs ++ rest) g2) = (Ret v, mkbuf c g1 (pre ++ bs) rest g2).

Definition reads {A} (L n : Z) (Q : A -> Prop) (m : M Buffer A) : Prop :=
  forall c g1 pre post g2, zlen post <= L ->
    exists o a b, post = a ++ b
      /\ m (mkbuf c g1 pre post g2) = (o, mkbuf c g1 (pre ++ a) b g2)
      /\ match o with
         | Ret v => n <= zlen a /\ Q v
         | Fail _ => True
         | _ => False
         end.

(** ** Encoding *)

Lemma encodes_ret : encodes (ret tt) [].
Proof.
  split.
  - intros c g1 pre g2 room rest H. assert (room = []) as -> by (apply zlen_0_nil; zlen_solve).
    unfold ret. by rewrite app_nil_r.
  - intros c g1 pre g2 post H. pose proof (zlen_nonneg post).
    change (zlen (@nil byte)) with 0 in H. lia.
Qed.

Lemma fits_bind m1 m2 b1 b2 : fits m1 b1 -> fits m2 b2 -> fits (do* m1 in m2) (b1 ++ b2).
Proof.
  intros H1 H2 c g1 pre g2 room rest Hr. rewrite zlen_app in Hr.
  pose proof (zlen_nonneg b1). pose proof (zlen_nonneg b2).
  destruct (split_at room (zlen b1)) as (r1 & r2 & -> & Hr1); [lia|].
  rewrite zlen_app in Hr. rewrite <- app_assoc.
  rewrite (bind_Ret _ _ _ _ _ (H1 c g1 pre g2 r1 (r2 ++ rest) Hr1)).
  rewrite H2 by lia. by rewrite app_assoc.
Qed.

Lemma encodes_bind m1 m2 b1 b2 :
  encodes m1 b1 -> encodes m2 b2 -> encodes (do* m1 in m2) (b1 ++ b2).
Proof.
  intros [F1 O1] [F2 O2]. split; [by apply fits_bind|].
  intros c g1 pre g2 post Hp. rewrite zlen_app in Hp.
  destruct (Z.lt_ge_cases (zlen post) (zlen b1)) as [Hlt|Hge].
  - destruct (O1 c g1 pre g2 post Hlt) as (e & s' & He & Hd).
    exists e, s'. by rewrite (bind_Fail _ _ _ _ _ He).
  - destruct (split_at post (zlen b1)) as (r1 & r2 & -> & Hr1); [pose proof (zlen_nonneg b1); lia|].
    rewrite (bind_Ret _ _ _ _ _ (F1 c g1 pre g2 r1 r2 Hr1)).
    apply O2. rewrite zlen_app in Hp. lia.
Qed.

(** A computation that first checks for the room its first write needs. *)
Lemma encodes_guard (n : Z) (e : error) (m : M Buffer unit) bs :
  is_enc_err e -> n = zlen bs -> fits m bs ->
  encodes (let* ok := requires n in guard* ok else e in m) bs.
Proof.
  intros He -> Hf. split.
  - intros c g1 pre g2 room rest Hr. unfold bind at 1, gets.
    rewrite mkbuf_Requires, (proj2 (Z.leb_le _ _)) by zlen_solve. by apply Hf.
  - intros c g1 pre g2 post Hp. unfold bind at 1, gets.
    rewrite mkbuf_Requires, (proj2 (Z.leb_gt _ _)) by lia. unfold fail. eauto.
Qed.

Lemma encodes_guard_bind (n : Z) (e : error) (m1 m2 : M Buffer unit) b1 b2 :
  is_enc_err e -> n = zlen b1 -> fits m1 b1 -> encodes m2 b2 ->
  encodes (let* ok := requires n in guard* ok else e in do* m1 in m2) (b1 ++ b2).
Proof.
  intros He -> Hf [F2 O2]. pose proof (zlen_nonneg b1). pose proof (zlen_nonneg b2). split.
  - intros c g1 pre g2 room rest Hr. unfold bind at 1, gets.
    rewrite mkbuf_Requires, (proj2 (Z.leb_le _ _)) by zlen_solve. by apply fits_bind.
  - intros c g1 pre g2 post Hp. unfold bind at 1, gets. rewrite mkbuf_Requires.
    destruct (Z.leb_spec (zlen b1) (zlen post)); [|unfold fail; eauto].
    destruct (split_at post (zlen b1)) as (r1 & r2 & -> & Hr1); [lia|].
    rewrite (bind_Ret _ _ _ _ _ (Hf c g1 pre g2 r1 r2 Hr1)).
    apply O2. rewrite !zlen_app in *. lia.
Qed.

(** The same check in front of two writes and what follows them. *)
Lemma encodes_guard_assoc (n : Z) (e : error) (m1 m2 m3 : M Buffer unit) b1 b2 :
  is_enc_err e -> n = zlen b1 -> fits (do* m1 in m2) b1 -> encodes m3 b2 ->
  encodes (let* ok := requires n in guard* ok else e in do* m1 in do* m2 in m3) (b1 ++ b2).
Proof.
  intros He Hn Hf H3. destruct (encodes_guard_bind n e _ m3 b1 b2 He Hn Hf H3) as [F O].
  assert (forall s, (let* ok := requires n in guard* ok else e in do* m1 in do* m2 in m3) s
    = (let* ok := requires n in guard* ok else e in do* (do* m1 in m2) in m3) s) as Heq.
  { intros s. unfold bind, gets. destruct (Buffer_Requires n s); [|done].
    by destruct (m1 s) as [[] ?]. }
  split; [intros c g1 pre g2 room rest Hr; rewrite Heq; by apply F|].
  intros c g1 pre g2 post Hp. rewrite Heq. by apply O.
Qed.

Lemma fits_WriteByte v : fits (Buffer_WriteByte v) [v].
Proof.
  intros c g1 pre g2 room rest Hr. destruct room as [|x [|]]; try by (exfalso; zlen_solve).
  apply mkbuf_WriteByte.
Qed.

Ltac fits_num L :=
  intros c g1 pre g2 room rest Hr; apply L; unfold zlen in Hr;
  rewrite ?length_be_bytes, ?length_le_bytes in Hr; lia.

Lemma fits_WriteUInt16 v : fits (Buffer_WriteUInt16 v) (be_bytes 2 v).
Proof. fits_num mkbuf_WriteUInt16. Qed.

Lemma fits_WriteUInt24 v : fits (Buffer_WriteUInt24 v) (be_bytes 3 v).
Proof. fits_num mkbuf_WriteUInt24. Qed.

Lemma fits_WriteUInt32 v : fits (Buffer_WriteUInt32 v) (be_bytes 4 v).
Proof. fits_num mkbuf_WriteUInt32. Qed.

Lemma fits_WriteUInt32Le v : fits (Buffer_WriteUInt32Le v) (le_bytes 4 v).
Proof. fits_num mkbuf_WriteUInt32Le. Qed.

Lemma fits_WriteFloat64 v : fits (Buffer_WriteFloat64 v) (be_bytes 8 v).
Proof. fits_num mkbuf_WriteFloat64. Qed.

Lemma fits_Write v : fits (Buffer_Write v) v.
Proof. intros c g1 pre g2 room rest Hr. by apply mkbuf_Write. Qed.

#[export] Hint Resolve fits_bind fits_WriteByte fits_WriteUInt16 fits_WriteUInt24 fits_WriteUInt32
  fits_WriteUInt32Le fits_WriteFloat64 fits_Write encodes_ret : gort.

(** ** Decoding *)

Lemma decodes_ret {A} (v : A) : decodes (ret v) [] v.
Proof. intros c g1 pre g2 rest. unfold ret. by rewrite app_nil_r. Qed.

Lemma decodes_bind {A B} (m : M Buffer A) (k : A -> M Buffer B) b1 b2 a v :
  decodes m b1 a -> decodes (k a) b2 v -> decodes (bind m k) (b1 ++ b2) v.
Proof.
  intros H1 H2 c g1 pre g2 rest. rewrite <- app_assoc.
  rewrite (bind_Ret _ _ _ _ _ (H1 c g1 pre g2 (b2 ++ rest))), H2. by rewrite app_assoc.
Qed.

Lemma decodes_map {A B} (m : M Buffer A) (f : A -> B) bs a :
  decodes m bs a -> decodes (let* x := m in ret (f x)) bs (f a).
Proof.
  intros H. rewrite <- (app_nil_r bs). eapply decodes_bind; [exact H|]. apply decodes_ret.
Qed.

(** A check for input that is there. *)
Lemma decodes_guard {A} (n : Z) (e : error) (m : M Buffer A) bs v :
  n <= zlen bs -> decodes m bs v ->
  decodes (let* ok := requires n in guard* ok else e in m) bs v.
Proof.
  intros Hn Hd c g1 pre g2 rest. unfold bind at 1, gets.
  rewrite mkbuf_Requires, (proj2 (Z.leb_le _ _)) by zlen_solve. apply Hd.
Qed.

Lemma decodes_ReadByte b : decodes Buffer_ReadByte [b] b.
Proof. intros c g1 pre g2 rest. apply mkbuf_ReadByte. Qed.

Ltac decodes_num L :=
  intros; intros c g1 pre g2 rest; rewrite L by (apply length_be_bytes || apply length_le_bytes);
  rewrite ?be_val_bytes_small, ?le_val_bytes_small by done; done.

Lemma decodes_ReadUInt16 v : 0 <= v < 2 ^ 16 -> decodes Buffer_ReadUInt16 (be_bytes 2 v) v.
Proof. decodes_num mkbuf_ReadUInt16. Qed.

Lemma decodes_ReadUInt24 v : 0 <= v < 2 ^ 24 -> decodes Buffer_ReadUInt24 (be_bytes 3 v) v.
Proof. decodes_num mkbuf_ReadUInt24. Qed.

Lemma decodes_ReadUInt32 v : 0 <= v < 2 ^ 32 -> decodes Buffer_ReadUInt32 (be_bytes 4 v) v.
Proof. decodes_num mkbuf_ReadUInt32. Qed.

Lemma decodes_ReadUInt32Le v : 0 <= v < 2 ^ 32 -> decodes Buffer_ReadUInt32Le (le_bytes 4 v) v.
Proof. decodes_num mkbuf_ReadUInt32Le. Qed.

Lemma decodes_ReadFloat64 v : 0 <= v < 2 ^ 64 -> decodes Buffer_ReadFloat64 (be_bytes 8 v) v.
Proof. decodes_num mkbuf_ReadFloat64. Qed.

Lemma decodes_Read n bs : n = zlen bs -> decodes (Buffer_Read n) bs bs.
Proof. intros Hn c g1 pre g2 rest. by apply mkbuf_Read. Qed.

#[export] Hint Resolve decodes_ret decodes_ReadByte decodes_ReadUInt16 decodes_ReadUInt24
  decodes_ReadUInt32 decodes_ReadUInt32Le decodes_ReadFloat64 decodes_Read : gort.

(** ** Reading arbitrary input *)

Lemma reads_ret {A} L (Q : A -> Prop) v : Q v -> reads L 0 Q (ret v).
Proof.
  intros HQ c g1 pre post g2 _. exists (Ret v), [], post. rewrite app_nil_r.
  repeat split; try done.
Qed.

Lemma reads_fail {A} L n (Q : A -> Prop) e : reads L n Q (fail e).
Proof.
  intros c g1 pre post g2 _. exists (Fail e), [], post. by rewrite app_nil_r.
Qed.

Lemma reads_bind {A B} L n1 n2 (Q1 : A -> Prop) (Q2 : B -> Prop) m (k : A -> M Buffer B) :
  reads L n1 Q1 m -> (forall v, Q1 v -> reads (L - n1) n2 Q2 (k v)) ->
  reads L (n1 + n2) Q2 (bind m k).
Proof.
  intros H1 H2 c g1 pre post g2 Hp.
  destruct (H1 c g1 pre post g2 Hp) as (o & a & b & -> & He & Ho).
  unfold bind. rewrite He. destruct o as [v|e|p|]; try done; [|by exists (Fail e), a, b].
  destruct Ho as [Hn HQ]. rewrite zlen_app in Hp.
  destruct (H2 v HQ c g1 (pre ++ a) b g2) as (o & a2 & b2 & -> & He2 & Ho2); [lia|].
  exists o, (a ++ a2), b2. rewrite He2, <- !app_assoc. split; [done|]. split; [done|].
  destruct o; try done. destruct Ho2. split; [rewrite zlen_app; lia|done].
Qed.

Lemma reads_weaken {A} L L' n n' (Q Q' : A -> Prop) m :
  reads L n Q m -> L' <= L -> n' <= n -> (forall v, Q v -> Q' v) -> reads L' n' Q' m.
Proof.
  intros H HL Hn HQ c g1 pre post g2 Hp.
  destruct (H c g1 pre post g2) as (o & a & b & -> & He & Ho); [lia|].
  exists o, a, b. repeat split; try done. destruct o; try done. destruct Ho. split; [lia|auto].
Qed.

(** After a successful check for [n] bytes, [m] may assume them. *)
Lemma reads_guard {A} L k n (Q : A -> Prop) e m :
  (forall c g1 pre a b g2, zlen a = n -> zlen (a ++ b) <= L ->
     exists o a' b', a ++ b = a' ++ b'
       /\ m (mkbuf c g1 pre (a ++ b) g2) = (o, mkbuf c g1 (pre ++ a') b' g2)
       /\ match o with Ret v => k <= zlen a' /\ Q v | Fail _ => True | _ => False end) ->
  0 <= n ->
  reads L k Q (let* ok := requires n in guard* ok else e in m).
Proof.
  intros Hm Hn c g1 pre post g2 Hp. unfold bind at 1, gets. rewrite mkbuf_Requires.
  destruct (Z.leb_spec n (zlen post)).
  - destruct (split_at post n) as (a & b & -> & Ha); [lia|]. by apply Hm.
  - exists (Fail e), [], post. by rewrite app_nil_r.
Qed.

(** The usual case: the check is followed by a read of those [n] bytes. *)
Lemma reads_guard_bind {A B} L n n2 (Q1 : A -> Prop) (Q : B -> Prop) e
    (m : M Buffer A) (k : A -> M Buffer B) :
  0 <= n ->
  (forall c g1 pre a b g2, zlen a = n -> exists v, Q1 v
     /\ m (mkbuf c g1 pre (a ++ b) g2) = (Ret v, mkbuf c g1 (pre ++ a) b g2)) ->
  (forall v, Q1 v -> reads (L - n) n2 Q (k v)) ->
  reads L (n + n2) Q (let* ok := requires n in guard* ok else e in bind m k).
Proof.
  intros Hn Hm Hk. apply reads_guard; [|done].
  intros c g1 pre a b g2 Ha Hp. rewrite zlen_app in Hp.
  destruct (Hm c g1 pre a b g2 Ha) as (v & HQ1 & He).
  rewrite (bind_Ret _ _ _ _ _ He).
  destruct (Hk v HQ1 c g1 (pre ++ a) b g2) as (o & a2 & b2 & -> & He2 & Ho); [lia|].
  exists o, (a ++ a2), b2. rewrite He2, <- !app_assoc. split; [done|]. split; [done|].
  destruct o; try done. destruct Ho. split; [rewrite zlen_app; lia|done].
Qed.

(** What the typed reads return on the bytes they need. *)
Definition reader {A} (n : Z) (Q : A -> Prop) (m : M Buffer A) : Prop :=
  forall c g1 pre a b g2, zlen a = n -> exists v, Q v
    /\ m (mkbuf c g1 pre (a ++ b) g2) = (Ret v, mkbuf c g1 (pre ++ a) b g2).

Lemma reader_ReadByte : reader 1 (fun _ => True) Buffer_ReadByte.
Proof.
  intros c g1 pre a b g2 Ha. destruct a as [|x [|]]; try by (exfalso; zlen_solve).
  exists x. split; [done|]. apply mkbuf_ReadByte.
Qed.

Ltac reader_num L :=
  intros c g1 pre a b g2 Ha; exists (be_val a); split;
  [ pose proof (be_val_range a) as Hr; rewrite Ha in Hr; exact Hr
  | apply L; unfold zlen in Ha; lia ].

Lemma reader_ReadUInt16 : reader 2 (fun v => 0 <= v < 256 ^ 2) Buffer_ReadUInt16.
Proof. reader_num mkbuf_ReadUInt16. Qed.

Lemma reader_ReadUInt24 : reader 3 (fun v => 0 <= v < 256 ^ 3) Buffer_ReadUInt24.
Proof. reader_num mkbuf_ReadUInt24. Qed.

Lemma reader_ReadUInt32Le : reader 4 (fun v => 0 <= v < 256 ^ 4) Buffer_ReadUInt32Le.
Proof.
  intros c g1 pre a b g2 Ha. exists (le_val a). split; [|apply mkbuf_ReadUInt32Le; unfold zlen in Ha; lia].
  unfold le_val. pose proof (be_val_range (rev a)) as Hr.
  assert (zlen (rev a) = 4) as Hl by (unfold zlen in *; by rewrite length_rev). rewrite Hl in Hr. exact Hr.
Qed.

Lemma reader_ReadUInt32 : reader 4 (fun v => 0 <= v < 256 ^ 4) Buffer_ReadUInt32.
Proof. reader_num mkbuf_ReadUInt32. Qed.

Lemma reader_ReadFloat64 : reader 8 (fun v => 0 <= v < 256 ^ 8) Buffer_ReadFloat64.
Proof. reader_num mkbuf_ReadFloat64. Qed.

Lemma reader_Read n : reader n (fun v => zlen v = n) (Buffer_Read n).
Proof. intros c g1 pre a b g2 Ha. exists a. split; [done|]. by apply mkbuf_Read. Qed.

Lemma reads_guard_reader {A} L n (Q : A -> Prop) e (m : M Buffer A) :
  0 <= n -> reader n Q m ->
  reads L n Q (let* ok := requires n in guard* ok else e in m).
Proof.
  intros Hn Hm. apply reads_guard; [|done].
  intros c g1 pre a b g2 Ha _. destruct (Hm c g1 pre a b g2 Ha) as (v & HQ & He).
  exists (Ret v), a, b. repeat split; try done. lia.
Qed.

(** [if c { return e }] in front of a read. *)
Lemma reads_if {A} L n (Q : A -> Prop) (c : bool) e m :
  (c = true -> reads L n Q m) -> reads L n Q (guard* c else e in m).
Proof. destruct c; [auto|intros _; apply reads_fail]. Qed.

(** Sequencing without counting the bytes consumed. *)
Lemma reads_then {A B} L n (Q1 : A -> Prop) (Q2 : B -> Prop) m (k : A -> M Buffer B) :
  reads L n Q1 m -> 0 <= n -> (forall v, Q1 v -> reads L 0 Q2 (k v)) -> reads L 0 Q2 (bind m k).
Proof.
  intros H1 Hn H2. eapply reads_weaken; [eapply (reads_bind L n 0); [exact H1|]|lia..|done].
  intros v Hv. eapply reads_weaken; [by apply H2|lia..|done].
Qed.

Lemma reads_guard_then {A B} L n (Q1 : A -> Prop) (Q : B -> Prop) e m (k : A -> M Buffer B) :
  0 <= n -> reader n Q1 m -> (forall v, Q1 v -> reads L 0 Q (k v)) ->
  reads L 0 Q (let* ok := requires n in guard* ok else e in bind m k).
Proof.
  intros Hn Hm Hk. eapply reads_weaken; [eapply (reads_guard_bind L n 0); [done|exact Hm|]|lia..|done].
  intros v Hv. eapply reads_weaken; [by apply Hk|lia..|done].
Qed.

(** A field that may be missing at the end of the input. *)
Lemma reads_empty {A} L n (Q : A -> Prop) (k0 k : M Buffer A) :
  reads L n Q k0 -> reads L n Q k ->
  reads L n Q (let* empty := gets Buffer_Empty in if (empty : bool) then k0 else k).
Proof.
  intros H0 H1 c g1 pre post g2 Hp. unfold bind, gets. rewrite mkbuf_Empty.
  destruct (zlen post <=? 0); [by apply H0|by apply H1].
Qed.

(** Two reads behind one check. *)
Lemma reader_bind {A B C} n1 n2 (Q1 : A -> Prop) (Q2 : B -> Prop) (m1 : M Buffer A)
    (m2 : M Buffer B) (f : A -> B -> C) :
  0 <= n1 -> 0 <= n2 -> reader n1 Q1 m1 -> reader n2 Q2 m2 ->
  reader (n1 + n2) (fun v => exists a b, v = f a b /\ Q1 a /\ Q2 b)
    (let* a := m1 in let* b := m2 in ret (f a b)).
Proof.
  intros Hn1 Hn2 H1 H2 c g1 pre x b g2 Hx.
  destruct (split_at x n1) as (x1 & x2 & -> & Hx1); [lia|]. rewrite zlen_app in Hx.
  destruct (H1 c g1 pre x1 (x2 ++ b) g2 Hx1) as (v1 & HQ1 & E1).
  destruct (H2 c g1 (pre ++ x1) x2 b g2 ltac:(lia)) as (v2 & HQ2 & E2).
  exists (f v1 v2). split; [eauto|]. rewrite <- app_assoc.
  rewrite (bind_Ret _ _ _ _ _ E1), (bind_Ret _ _ _ _ _ E2). unfold ret. by rewrite app_assoc.
Qed.
