(* ===== verification/Float64.v ===== *)
(** * The float64 operations the code uses

    A [float64] is its IEEE 754 binary64 bit pattern (see Buffer).  Comparison
    with [==] and conversion from integers are the only operations of the code
    on it; conversion goes through the Standard Library's specification of
    binary64 ([SpecFloat], precision 53, emax 1024). *)

From Stdlib Require Import ZArith Lia Floats.SpecFloat.
From stdpp Require Import base tactics.
From S2P Require Import Prelude.
Open Scope Z_scope.

Definition f64_exponent (v : Z) : Z := Z.land (Z.shiftr v 52) 2047.
Definition f64_mantissa (v : Z) : Z := v mod 2 ^ 52.
Definition f64_is_nan (v : Z) : bool := (f64_exponent v =? 2047) && negb (f64_mantissa v =? 0).
Definition f64_is_zero (v : Z) : bool := v mod 2 ^ 63 =? 0.

(** Go's [==] on float64: NaN differs from everything, the two zeros are equal. *)
Definition f64_eqb (a b : Z) : bool :=
  if f64_is_nan a || f64_is_nan b then false
  else if f64_is_zero a && f64_is_zero b then true
  else a =? b.

(** [math.Float64bits] of a binary64 number. *)
Definition f64_bits (x : spec_float) : Z :=
  let sign (s : bool) := if s then 2 ^ 63 else 0 in
  match x with
  | S754_zero s => sign s
  | S754_infinity s => sign s + 2047 * 2 ^ 52
  | S754_nan => 0x7FF8000000000001
  | S754_finite s m e =>
      if Z.pos m <? 2 ^ 52 then sign s + Z.pos m
      else sign s + (e + 1075) * 2 ^ 52 + (Z.pos m - 2 ^ 52)
  end.

(** [float64(z)]: the nearest binary64 number, ties to even. *)
Definition float64_of_int (z : Z) : Z := f64_bits (binary_normalize 53 1024 z 0 false).

(** [int(v)]: truncation; a number that an int cannot hold is the least int, as on
    amd64. *)
Definition int_of_float64 (v : Z) : Z :=
  let e := f64_exponent v in
  let m := if e =? 0 then 0 else 2 ^ 52 + f64_mantissa v in
  let a := Z.shiftl m (e - 1075) in
  if (e =? 2047) || (2 ^ 63 <=? a) then - 2 ^ 63
  else if 2 ^ 63 <=? v then - a else a.

Definition f64_1 : Z := float64_of_int 1.
Definition f64_0 : Z := 0.

Lemma f64_1_bits : f64_1 = 0x3FF0000000000000.
Proof. reflexivity. Qed.

Lemma f64_eqb_refl v : f64_is_nan v = false -> f64_eqb v v = true.
Proof. unfold f64_eqb. intros ->. simpl. destruct (f64_is_zero v); [done|]. apply Z.eqb_refl. Qed.

(** ** The conversion of an integer is a binary64 number *)

Lemma digits2_log2 p : Z.pos (digits2_pos p) = Z.log2 (Z.pos p) + 1.
Proof.
  induction p as [p IH|p IH|]; [..|done]; cbn [digits2_pos]; rewrite Pos2Z.inj_succ, IH.
  - rewrite (Pos2Z.inj_xI p), Z.log2_succ_double; lia.
  - rewrite (Pos2Z.inj_xO p), Z.log2_double; lia.
Qed.

Lemma iter_pos_nat {A} (f : A -> A) p x : iter_pos f p x = Nat.iter (Pos.to_nat p) f x.
Proof.
  revert x. induction p as [p IH|p IH|]; intros x; cbn [iter_pos]; rewrite ?IH.
  - rewrite Pos2Nat.inj_xI, <- Nat.iter_add. replace (S (2 * Pos.to_nat p)) with (Pos.to_nat p + Pos.to_nat p + 1)%nat by lia.
    by rewrite (Nat.iter_add _ 1).
  - rewrite Pos2Nat.inj_xO, <- Nat.iter_add. f_equal. lia.
  - done.
Qed.

Lemma shr_1_half r : 0 <= shr_m r -> shr_m (shr_1 r) = shr_m r / 2.
Proof.
  destruct r as [[|[p|p|]|p] x y]; cbn [shr_m shr_1]; intros H; [done|..|done|lia].
  - rewrite (Pos2Z.inj_xI p). apply (Z.div_unique _ _ _ 1); lia.
  - rewrite (Pos2Z.inj_xO p). apply (Z.div_unique _ _ _ 0); lia.
Qed.

Lemma shr_iter n r : 0 <= shr_m r -> shr_m (Nat.iter n shr_1 r) = shr_m r / 2 ^ Z.of_nat n.
Proof.
  intros Hr. induction n as [|n IH]; [by rewrite Z.div_1_r|]. rewrite Nat.iter_succ.
  rewrite shr_1_half by (rewrite IH; apply Z.div_pos; lia).
  rewrite IH, Z.div_div, Nat2Z.inj_succ, Z.pow_succ_r by lia. f_equal. lia.
Qed.

(** The mantissas of 53 digits, and the one that rounding may add. *)
Definition mantissa53 (m : Z) : Prop := 2 ^ 52 <= m < 2 ^ 53.

(** A number with its exponent, cut to 53 digits; the exponents of the integers are
    far from the least one. *)
Lemma shr_fexp_53 p e r e' :
  - 1000 <= Z.pos (digits2_pos p) + e -> 53 <= Z.pos (digits2_pos p) ->
  shr_fexp 53 1024 (Z.pos p) e loc_Exact = (r, e') ->
  e' = Z.pos (digits2_pos p) + e - 53 /\ mantissa53 (shr_m r).
Proof.
  intros Hd Hp. unfold shr_fexp, shr. cbn [Zdigits2]. set (d := Z.pos (digits2_pos p)) in *.
  assert (fexp 53 1024 (d + e) = d + e - 53) as -> by (unfold fexp, emin; lia).
  assert (Z.log2 (Z.pos p) = d - 1) as Hl by (unfold d; rewrite digits2_log2; lia).
  pose proof (Z.log2_spec (Z.pos p) ltac:(lia)) as [Hlo Hhi]. rewrite Hl in Hlo, Hhi.
  replace (d + e - 53 - e) with (d - 53) by lia.
  destruct (d - 53) as [|n|n] eqn:Hn; [..|lia]; intros [= <- <-]; cbn [shr_record_of_loc].
  - split; [lia|]. cbn [shr_m]. replace (d - 1) with 52 in Hlo by lia. replace (Z.succ (d - 1)) with 53 in Hhi by lia. by split.
  - split; [lia|]. rewrite iter_pos_nat, shr_iter by done. cbn [shr_m]. rewrite positive_nat_Z.
    replace (d - 1) with (52 + Z.pos n) in Hlo by lia. replace (Z.succ (d - 1)) with (53 + Z.pos n) in Hhi by lia.
    rewrite Z.pow_add_r in Hlo, Hhi by lia. pose proof (Z.pow_pos_nonneg 2 (Z.pos n) ltac:(lia) ltac:(lia)).
    split; [apply Z.div_le_lower_bound; lia|apply Z.div_lt_upper_bound; lia].
Qed.

(** A number of 53 digits stays as it is but for its rounding. *)
Lemma round_53 s p e :
  - 1000 <= Z.pos (digits2_pos p) + e -> 53 <= Z.pos (digits2_pos p) ->
  match binary_round_aux 53 1024 s (Z.pos p) e loc_Exact with
  | S754_finite s' m e' => s' = s /\ mantissa53 (Z.pos m) /\ - 1053 <= e' <= 971
  | S754_infinity s' => s' = s
  | _ => False
  end.
Proof.
  intros Hd Hp. unfold binary_round_aux. destruct (shr_fexp 53 1024 (Z.pos p) e loc_Exact) as [r e1] eqn:H1.
  apply shr_fexp_53 in H1 as [-> [Hlo Hhi]]; [|done|done].
  set (m2 := round_nearest_even (shr_m r) (loc_of_shr_record r)).
  assert (2 ^ 52 <= m2 <= 2 ^ 53) as Hm2.
  { unfold m2. destruct r as [m x y]. cbn [shr_m] in *. destruct x, y; cbn [loc_of_shr_record round_nearest_even]; try lia.
    destruct (Z.even m); lia. }
  destruct m2 as [|q|q]; [lia| |lia].
  assert (53 <= Z.pos (digits2_pos q) <= 54) as Hq.
  { rewrite digits2_log2. pose proof (Z.log2_le_mono (2 ^ 52) (Z.pos q) ltac:(lia)) as L1.
    pose proof (Z.log2_le_mono (Z.pos q) (2 ^ 53) ltac:(lia)) as L2. rewrite Z.log2_pow2 in L1, L2 by lia. lia. }
  destruct (shr_fexp 53 1024 (Z.pos q) _ loc_Exact) as [r2 e2] eqn:H2. apply shr_fexp_53 in H2 as [-> Hm]; [|lia|lia].
  destruct (shr_m r2) as [|m|m]; [by destruct Hm|..|by destruct Hm].
  destruct (Z.leb_spec (Z.pos (digits2_pos q) + (Z.pos (digits2_pos p) + e - 53) - 53) (1024 - 53)); [|done].
  split; [done|]. split; [done|]. lia.
Qed.

Lemma shift_digits p d :
  Z.pos (digits2_pos (Pos.iter xO p d)) = Z.pos (digits2_pos p) + Z.pos d.
Proof.
  rewrite Pos2Nat.inj_iter. rewrite <- (positive_nat_Z d). induction (Pos.to_nat d) as [|n IH]; [cbn; lia|]. cbn [nat_rect].
  cbn [digits2_pos]. lia.
Qed.

Lemma float64_of_int_range z : 0 <= float64_of_int z < 2 ^ 64.
Proof.
  assert (forall s p, match binary_round 53 1024 s p 0 with
    | S754_finite s' m e' => s' = s /\ mantissa53 (Z.pos m) /\ - 1053 <= e' <= 971
    | S754_infinity s' => s' = s
    | _ => False
    end) as H.
  { intros s p. unfold binary_round, shl_align. rewrite Z.add_0_r, Z.sub_0_r.
    assert (fexp 53 1024 (Z.pos (digits2_pos p)) = Z.pos (digits2_pos p) - 53) as -> by (unfold fexp, emin; lia).
    destruct (Z.pos (digits2_pos p) - 53) as [|n|n] eqn:Hn; apply round_53; rewrite ?shift_digits; lia. }
  unfold float64_of_int, binary_normalize. destruct z as [|p|p]; [done|specialize (H false p)|specialize (H true p)];
    destruct (binary_round _ _ _ _ _) as [s|s| |s m e]; try done; cbn [f64_bits]; try (subst s; lia).
  - destruct H as (-> & [H1 H2] & H3). destruct (Z.ltb_spec (Z.pos m) (2 ^ 52)); lia.
  - destruct H as (-> & [H1 H2] & H3). destruct (Z.ltb_spec (Z.pos m) (2 ^ 52)); lia.
Qed.
