(* ===== verification/Amf0.v ===== *)
(** * amf0.go: AMF0 values, their codec and the ordered property table

    The values are those of the source: an [Amf0Any] is a marker with a dynamic
    value, objects and ECMA arrays hold a table that keeps the insertion order
    of its keys beside the map.  The map [properties] is an association list
    with one entry per key; Go leaves the iteration order of a map open, and
    the one iteration of the source ([Size]) is a sum, which does not depend on
    it.  The codec's state is its stream, a [Buffer].

    The reader is recursive on the nesting of the data; [fuel] bounds it, and
    one more than the bytes left in the stream is always enough
    ([amf0_read_safe]). *)

From Stdlib Require Import ZArith Lia Strings.Byte.
From stdpp Require Import base list.
From S2P Require Import Prelude Constants Buffer Float64.
Open Scope Z_scope.

(** ** Data *)

Inductive Amf0Any : Type :=
| mkAmf0Any (Marker : byte) (Value : Amf0Value)
with Amf0Value : Type :=
| VNil
| VString (v : gostring)
| VBool (v : bool)
| VFloat64 (v : Z)
| VObject (v : Amf0Object)
| VEcmaArray (v : Amf0EcmaArray)
with Amf0Object : Type :=
| mkAmf0Object (marker : byte) (properties : Amf0UnSortedHashtable)
with Amf0EcmaArray : Type :=
| mkAmf0EcmaArray (marker : byte) (count : Z) (properties : Amf0UnSortedHashtable)
with Amf0UnSortedHashtable : Type :=
| mkHashtable (property_index : list gostring) (properties : list (gostring * Amf0Any)).

Definition Marker (r : Amf0Any) : byte := let '(mkAmf0Any m _) := r in m.
Definition Value (r : Amf0Any) : Amf0Value := let '(mkAmf0Any _ v) := r in v.
Definition ht_index (h : Amf0UnSortedHashtable) : list gostring := let '(mkHashtable i _) := h in i.
Definition ht_props (h : Amf0UnSortedHashtable) : list (gostring * Amf0Any) :=
  let '(mkHashtable _ p) := h in p.
Definition obj_properties (o : Amf0Object) : Amf0UnSortedHashtable := let '(mkAmf0Object _ p) := o in p.
Definition ecma_properties (a : Amf0EcmaArray) : Amf0UnSortedHashtable :=
  let '(mkAmf0EcmaArray _ _ p) := a in p.

(** ** The map of the table *)

Fixpoint map_get (k : gostring) (m : list (gostring * Amf0Any)) : option Amf0Any :=
  match m with
  | [] => None
  | (k', v) :: m => if decide (k = k') then Some v else map_get k m
  end.

Fixpoint map_set (k : gostring) (v : Amf0Any) (m : list (gostring * Amf0Any)) :
    list (gostring * Amf0Any) :=
  match m with
  | [] => [(k, v)]
  | (k', v') :: m => if decide (k = k') then (k', v) :: m else (k', v') :: map_set k v m
  end.

(** ** Accessors of [Amf0Any]

    [r.Value.(T)] panics when the dynamic type is not [T]. *)

Definition Amf0Any_IsNil (r : Amf0Any) : bool :=
  match Value r with VNil => true | _ => false end.

Definition Amf0Any_IsObjectEof (r : Amf0Any) : bool := bool_decide (Marker r = AMF0_ObjectEnd).

Definition Amf0Any_Object (r : Amf0Any) : outcome (option Amf0Object) :=
  if decide (Marker r = AMF0_Object)
  then match Value r with VObject v => Ret (Some v) | _ => Panic TypeAssertion end
  else Ret None.

Definition Amf0Any_EcmaArray (r : Amf0Any) : outcome (option Amf0EcmaArray) :=
  if decide (Marker r = AMF0_EcmaArray)
  then match Value r with VEcmaArray v => Ret (Some v) | _ => Panic TypeAssertion end
  else Ret None.

Definition Amf0Any_String (r : Amf0Any) : outcome (option gostring) :=
  if decide (Marker r = AMF0_String)
  then match Value r with VString v => Ret (Some v) | _ => Panic TypeAssertion end
  else Ret None.

Definition Amf0Any_Number (r : Amf0Any) : outcome (option float64) :=
  if decide (Marker r = AMF0_Number)
  then match Value r with VFloat64 v => Ret (Some v) | _ => Panic TypeAssertion end
  else Ret None.

Definition Amf0Any_Boolean (r : Amf0Any) : outcome (option bool) :=
  if decide (Marker r = AMF0_Boolean)
  then match Value r with VBool v => Ret (Some v) | _ => Panic TypeAssertion end
  else Ret None.

(** ** Constructors *)

Definition NewAmf0UnSortedHashtable : Amf0UnSortedHashtable := mkHashtable [] [].
Definition NewAmf0Object : Amf0Object := mkAmf0Object AMF0_Object NewAmf0UnSortedHashtable.
Definition NewAmf0EcmaArray : Amf0EcmaArray :=
  mkAmf0EcmaArray AMF0_EcmaArray 0 NewAmf0UnSortedHashtable.
Definition NewAmf0Null : Amf0Any := mkAmf0Any AMF0_Null VNil.
Definition NewAmf0Undefined : Amf0Any := mkAmf0Any AMF0_Undefined VNil.

(** The argument of [NewAmf0], an [interface{}]. *)
Inductive interface : Type :=
| IBool (v : bool)
| IString (v : gostring)
| IInt (v : Z)
| IFloat64 (v : Z)
| IObject (v : Amf0Object)
| IEcmaArray (v : Amf0EcmaArray)
| IOther.

Definition NewAmf0 (v : interface) : option Amf0Any :=
  match v with
  | IBool t => Some (mkAmf0Any AMF0_Boolean (VBool t))
  | IString t => Some (mkAmf0Any AMF0_String (VString t))
  | IInt t => Some (mkAmf0Any AMF0_Number (VFloat64 (float64_of_int t)))
  | IFloat64 t => Some (mkAmf0Any AMF0_Number (VFloat64 t))
  | IObject t => Some (mkAmf0Any AMF0_Object (VObject t))
  | IEcmaArray t => Some (mkAmf0Any AMF0_EcmaArray (VEcmaArray t))
  | IOther => None
  end.

(** ** The property table *)

Definition Amf0UnSortedHashtable_Count (h : Amf0UnSortedHashtable) : Z := zlen (ht_props h).

Definition Amf0UnSortedHashtable_Set (k : gostring) (v : option Amf0Any)
    (h : Amf0UnSortedHashtable) : outcome Amf0UnSortedHashtable :=
  match v with
  | None => Fail (Error ERROR_GO_AMF0_NIL_PROPERTY
                    (str "AMF0 object property value should never be nil"))
  | Some v =>
      let index := match map_get k (ht_props h) with
                   | None => ht_index h ++ [k]
                   | Some _ => ht_index h
                   end in
      Ret (mkHashtable index (map_set k v (ht_props h)))
  end.

Definition Amf0UnSortedHashtable_GetPropertyString (k : gostring) (h : Amf0UnSortedHashtable) :
    outcome (option gostring) :=
  match map_get k (ht_props h) with
  | None => Ret None
  | Some prop => Amf0Any_String prop
  end.

Definition Amf0UnSortedHashtable_GetPropertyNumber (k : gostring) (h : Amf0UnSortedHashtable) :
    outcome (option float64) :=
  match map_get k (ht_props h) with
  | None => Ret None
  | Some prop => Amf0Any_Number prop
  end.

Definition omap {A B} (f : A -> B) (o : outcome A) : outcome B :=
  match o with
  | Ret a => Ret (f a)
  | Fail e => Fail e
  | Panic p => Panic p
  | OutOfFuel => OutOfFuel
  end.

Definition Amf0Object_Set (k : gostring) (v : option Amf0Any) (o : Amf0Object) :
    outcome Amf0Object :=
  let '(mkAmf0Object m p) := o in
  omap (mkAmf0Object m) (Amf0UnSortedHashtable_Set k v p).

Definition Amf0Object_GetPropertyString (k : gostring) (o : Amf0Object) : outcome (option gostring) :=
  Amf0UnSortedHashtable_GetPropertyString k (obj_properties o).

Definition Amf0Object_GetPropertyNumber (k : gostring) (o : Amf0Object) : outcome (option float64) :=
  Amf0UnSortedHashtable_GetPropertyNumber k (obj_properties o).

(** [count] is a uint32, and is set from the table behind an error too. *)
Definition Amf0EcmaArray_Set (k : gostring) (v : option Amf0Any) : M Amf0EcmaArray unit := fun a =>
  let '(mkAmf0EcmaArray m _ p) := a in
  let counted p := mkAmf0EcmaArray m (to_uint 32 (Amf0UnSortedHashtable_Count p)) p in
  match Amf0UnSortedHashtable_Set k v p with
  | Ret p => (Ret tt, counted p)
  | Fail e => (Fail e, counted p)
  | Panic x => (Panic x, a)
  | OutOfFuel => (OutOfFuel, a)
  end.

(** [Set] for a caller that gives the array up behind an error. *)
Definition ecma_set (k : gostring) (v : option Amf0Any) (a : Amf0EcmaArray) : outcome Amf0EcmaArray :=
  let '(o, a) := Amf0EcmaArray_Set k v a in omap (fun _ => a) o.

Definition Amf0EcmaArray_GetPropertyString (k : gostring) (a : Amf0EcmaArray) :
    outcome (option gostring) :=
  Amf0UnSortedHashtable_GetPropertyString k (ecma_properties a).

Definition Amf0EcmaArray_GetPropertyNumber (k : gostring) (a : Amf0EcmaArray) :
    outcome (option float64) :=
  Amf0UnSortedHashtable_GetPropertyNumber k (ecma_properties a).

(** ** Sizes *)

Definition Amf0SizeUtf8 (v : gostring) : Z := 2 + zlen v.
Definition Amf0SizeString (v : gostring) : Z := 1 + Amf0SizeUtf8 v.
Definition Amf0SizeNumber : Z := 1 + 8.
Definition Amf0SizeNullOrUndefined : Z := 1.
Definition Amf0SizeBoolean : Z := 1 + 1.
Definition Amf0SizeObjectEOF : Z := 2 + 1.

Definition oplus (a b : outcome Z) : outcome Z :=
  match a with
  | Ret x => omap (Z.add x) b
  | o => o
  end.

(** [Size] of an any, an object, an array and a table; the accessors [Object()]
    and [EcmaArray()] are inlined so that the recursion is structural. *)
Fixpoint Amf0Any_Size (r : Amf0Any) : outcome Z :=
  let '(mkAmf0Any m val) := r in
  if decide (m = AMF0_String) then
    match val with VString v => Ret (Amf0SizeString v) | _ => Panic TypeAssertion end
  else if decide (m = AMF0_Boolean) then Ret Amf0SizeBoolean
  else if decide (m = AMF0_Number) then Ret Amf0SizeNumber
  else if decide (m = AMF0_Null \/ m = AMF0_Undefined) then Ret Amf0SizeNullOrUndefined
  else if decide (m = AMF0_ObjectEnd) then Ret Amf0SizeObjectEOF
  else if decide (m = AMF0_Object) then
    match val with VObject v => Amf0Object_Size v | _ => Panic TypeAssertion end
  else if decide (m = AMF0_EcmaArray) then
    match val with VEcmaArray v => Amf0EcmaArray_Size v | _ => Panic TypeAssertion end
  else Ret 0
with Amf0Object_Size (o : Amf0Object) : outcome Z :=
  let '(mkAmf0Object _ p) := o in
  omap (fun n => if n <=? 0 then 0 else n + 1 + Amf0SizeObjectEOF) (Amf0UnSortedHashtable_Size p)
with Amf0EcmaArray_Size (a : Amf0EcmaArray) : outcome Z :=
  let '(mkAmf0EcmaArray _ _ p) := a in
  omap (fun n => if n <=? 0 then 0 else n + 1 + 4 + Amf0SizeObjectEOF) (Amf0UnSortedHashtable_Size p)
with Amf0UnSortedHashtable_Size (h : Amf0UnSortedHashtable) : outcome Z :=
  let '(mkHashtable _ props) := h in
  if zlen props <=? 0 then Ret 0 else
  (fix sum (l : list (gostring * Amf0Any)) : outcome Z :=
     match l with
     | [] => Ret 0
     | (k, v) :: l => oplus (omap (Z.add (Amf0SizeUtf8 k)) (Amf0Any_Size v)) (sum l)
     end) props.

(** ** The codec: primitive values *)

Definition enc_err (d : gostring) : error := Error ERROR_RTMP_AMF0_ENCODE d.
Definition dec_err (d : gostring) : error := Error ERROR_RTMP_AMF0_DECODE d.

Definition Amf0Codec_ReadUtf8 : M Buffer gostring :=
  let* ok := requires 2 in
  guard* ok else dec_err (str "amf0 utf8 len requires 2bytes") in
  let* len := Buffer_ReadUInt16 in
  if len <=? 0 then ret [] else
  let* ok := requires len in
  guard* ok else dec_err (str "amf0 utf8 data requires more bytes") in
  Buffer_Read len.

Definition Amf0Codec_WriteUtf8 (v : gostring) : M Buffer unit :=
  let* ok := requires 2 in
  guard* ok else enc_err (str "amf0 write string length failed") in
  do* Buffer_WriteUInt16 (to_uint 16 (zlen v)) in
  if zlen v <=? 0 then ret tt else
  let* ok := requires (zlen v) in
  guard* ok else enc_err (str "amf0 write string data failed") in
  Buffer_Write v.

Definition Amf0Codec_ReadString : M Buffer gostring :=
  let* ok := requires 1 in
  guard* ok else dec_err (str "amf0 string requires 1bytes marker") in
  let* marker := Buffer_ReadByte in
  guard* (bool_decide (marker = AMF0_String)) else dec_err (str "amf0 string marker invalid") in
  Amf0Codec_ReadUtf8.

Definition Amf0Codec_WriteString (v : gostring) : M Buffer unit :=
  let* ok := requires 1 in
  guard* ok else enc_err (str "amf0 write string marker failed") in
  do* Buffer_WriteByte AMF0_String in
  Amf0Codec_WriteUtf8 v.

Definition Amf0Codec_ReadNumber : M Buffer float64 :=
  let* ok := requires 1 in
  guard* ok else dec_err (str "amf0 number requires 1bytes marker") in
  let* marker := Buffer_ReadByte in
  guard* (bool_decide (marker = AMF0_Number)) else dec_err (str "amf0 number marker invalid") in
  let* ok := requires 8 in
  guard* ok else dec_err (str "amf0 number requires 8bytes value") in
  Buffer_ReadFloat64.

Definition Amf0Codec_WriteNumber (v : float64) : M Buffer unit :=
  let* ok := requires 1 in
  guard* ok else enc_err (str "amf0 write number marker failed") in
  do* Buffer_WriteByte AMF0_Number in
  let* ok := requires 8 in
  guard* ok else enc_err (str "amf0 write number value failed") in
  Buffer_WriteFloat64 v.

Definition Amf0Codec_WriteNull : M Buffer unit :=
  let* ok := requires 1 in
  guard* ok else enc_err (str "amf0 write null marker failed") in
  Buffer_WriteByte AMF0_Null.

(** The error of a short read is the encoding code in the source. *)
Definition Amf0Codec_ReadNull : M Buffer unit :=
  let* ok := requires 1 in
  guard* ok else enc_err (str "amf0 read null marker failed") in
  do* Buffer_ReadByte in
  ret tt.

Definition Amf0Codec_WriteUndefined : M Buffer unit :=
  let* ok := requires 1 in
  guard* ok else enc_err (str "amf0 write undefined marker failed") in
  Buffer_WriteByte AMF0_Undefined.

Definition Amf0Codec_ReadBoolean : M Buffer bool :=
  let* ok := requires 1 in
  guard* ok else dec_err (str "amf0 bool requires 1bytes marker") in
  let* marker := Buffer_ReadByte in
  guard* (bool_decide (marker = AMF0_Boolean)) else dec_err (str "amf0 bool marker invalid") in
  let* ok := requires 1 in
  guard* ok else dec_err (str "amf0 bool requires 8bytes value") in
  let* b := Buffer_ReadByte in
  ret (negb (bool_decide (b = Byte.x00))).

Definition Amf0Codec_WriteBoolean (v : bool) : M Buffer unit :=
  let* ok := requires 1 in
  guard* ok else enc_err (str "amf0 write bool marker failed") in
  do* Buffer_WriteByte AMF0_Boolean in
  let* ok := requires 1 in
  guard* ok else enc_err (str "amf0 write bool value failed") in
  if v then Buffer_WriteByte Byte.x01 else Buffer_WriteByte Byte.x00.

Definition Amf0Codec_WriteObjectEOF : M Buffer unit :=
  let* ok := requires 2 in
  guard* ok else enc_err (str "amf0 write object eof value failed") in
  do* Buffer_WriteUInt16 0 in
  let* ok := requires 1 in
  guard* ok else enc_err (str "amf0 write object eof marker failed") in
  Buffer_WriteByte AMF0_ObjectEnd.

(** ** Writing values *)

(** The loop of [Amf0UnSortedHashtable.Write] over [property_index]; [props] maps
    each key of the table to the write of its value.  A key with no entry reads
    as the nil pointer, which [Write] dereferences. *)
Fixpoint write_properties (index : list gostring) (props : list (gostring * M Buffer unit)) :
    M Buffer unit :=
  match index with
  | [] => ret tt
  | k :: index =>
      do* Amf0Codec_WriteUtf8 k in
      do* match List.find (fun kv => bool_decide (kv.1 = k)) props with
          | Some (_, write) => write
          | None => gopanic NilDereference
          end in
      write_properties index props
  end.

Fixpoint Amf0Any_Write (r : Amf0Any) : M Buffer unit :=
  let '(mkAmf0Any m val) := r in
  if decide (m = AMF0_String) then
    match val with VString v => Amf0Codec_WriteString v | _ => gopanic TypeAssertion end
  else if decide (m = AMF0_Boolean) then
    match val with VBool v => Amf0Codec_WriteBoolean v | _ => gopanic TypeAssertion end
  else if decide (m = AMF0_Number) then
    match val with VFloat64 v => Amf0Codec_WriteNumber v | _ => gopanic TypeAssertion end
  else if decide (m = AMF0_Null) then Amf0Codec_WriteNull
  else if decide (m = AMF0_Undefined) then Amf0Codec_WriteUndefined
  else if decide (m = AMF0_ObjectEnd) then Amf0Codec_WriteObjectEOF
  else if decide (m = AMF0_Object) then
    match val with VObject v => Amf0Object_Write v | _ => gopanic TypeAssertion end
  else if decide (m = AMF0_EcmaArray) then
    match val with VEcmaArray v => Amf0EcmaArray_Write v | _ => gopanic TypeAssertion end
  else ret tt
with Amf0Object_Write (o : Amf0Object) : M Buffer unit :=
  let '(mkAmf0Object _ p) := o in
  let* ok := requires 1 in
  guard* ok else enc_err (str "amf0 write object marker failed") in
  do* Buffer_WriteByte AMF0_Object in
  do* Amf0UnSortedHashtable_Write p in
  Amf0Codec_WriteObjectEOF
with Amf0EcmaArray_Write (a : Amf0EcmaArray) : M Buffer unit :=
  let '(mkAmf0EcmaArray _ count p) := a in
  let* ok := requires 1 in
  guard* ok else enc_err (str "amf0 write EcmaArray marker failed") in
  do* Buffer_WriteByte AMF0_EcmaArray in
  let* ok := requires 4 in
  guard* ok else enc_err (str "amf0 write ecma_array count failed") in
  do* Buffer_WriteUInt32 count in
  do* Amf0UnSortedHashtable_Write p in
  Amf0Codec_WriteObjectEOF
with Amf0UnSortedHashtable_Write (h : Amf0UnSortedHashtable) : M Buffer unit :=
  let '(mkHashtable index props) := h in
  write_properties index (List.map (fun kv => let '(k, v) := kv in (k, Amf0Any_Write v)) props).

Definition Amf0Codec_WriteObject (v : Amf0Object) : M Buffer unit := Amf0Object_Write v.
Definition Amf0Codec_WriteEcmaArray (v : Amf0EcmaArray) : M Buffer unit := Amf0EcmaArray_Write v.

(** ** Reading values *)

Definition hex_digit (n : Z) : byte := byte_of_Z (if n <? 10 then 48 + n else 87 + n).

(** [fmt.Sprintf("%#x", b)] of a byte. *)
Definition hex_byte (b : byte) : gostring :=
  let n := uint8_to_Z b in
  str "0x" ++ (if n <? 16 then [hex_digit n] else [hex_digit (n / 16); hex_digit (n mod 16)]).

(** [Amf0Object.Read] with the property loop as a parameter. *)
Definition Amf0Object_Read_with (props : Amf0Object -> M Buffer Amf0Object) (r : Amf0Object) :
    M Buffer Amf0Object :=
  let* ok := requires 1 in
  guard* ok else dec_err (str "amf0 object requires 1bytes marker") in
  let* marker := Buffer_ReadByte in
  guard* (bool_decide (marker = AMF0_Object)) else dec_err (str "amf0 object marker invalid") in
  props (mkAmf0Object marker (obj_properties r)).

Definition Amf0EcmaArray_Read_with (props : Amf0EcmaArray -> M Buffer Amf0EcmaArray)
    (r : Amf0EcmaArray) : M Buffer Amf0EcmaArray :=
  let* ok := requires 1 in
  guard* ok else dec_err (str "amf0 EcmaArray requires 1bytes marker") in
  let* marker := Buffer_ReadByte in
  guard* (bool_decide (marker = AMF0_EcmaArray)) else dec_err (str "amf0 EcmaArray marker invalid") in
  let* ok := requires 4 in
  guard* ok else dec_err (str "amf0 read ecma_array count failed") in
  let* count := Buffer_ReadUInt32 in
  props (mkAmf0EcmaArray marker count (ecma_properties r)).

(** [Amf0Any.Read] on the receiver [r], whose [Value] survives the markers that
    carry none; and the loop [for !codec.stream.Empty()] of [Amf0Object.Read]
    and [Amf0EcmaArray.Read], which differ in the [Set] they call only. *)
Fixpoint Amf0Any_Read_fuel (fuel : nat) (r : Amf0Any) : M Buffer Amf0Any :=
  match fuel with
  | O => out_of_fuel
  | S fuel =>
      let* ok := requires 1 in
      guard* ok else dec_err (str "amf0 any requires 1bytes marker") in
      let* m := Buffer_ReadByte in
      do* Buffer_Skip (-1) in
      if decide (m = AMF0_String) then
        let* v := Amf0Codec_ReadString in ret (mkAmf0Any m (VString v))
      else if decide (m = AMF0_Boolean) then
        let* v := Amf0Codec_ReadBoolean in ret (mkAmf0Any m (VBool v))
      else if decide (m = AMF0_Number) then
        let* v := Amf0Codec_ReadNumber in ret (mkAmf0Any m (VFloat64 v))
      else if decide (m = AMF0_Null \/ m = AMF0_Undefined \/ m = AMF0_ObjectEnd) then
        do* Buffer_ReadByte in ret (mkAmf0Any m (Value r))
      else if decide (m = AMF0_Object) then
        let* v := Amf0Object_Read_with (read_properties Amf0Object_Set fuel) NewAmf0Object in
        ret (mkAmf0Any m (VObject v))
      else if decide (m = AMF0_EcmaArray) then
        let* v := Amf0EcmaArray_Read_with (read_properties ecma_set fuel) NewAmf0EcmaArray in
        ret (mkAmf0Any m (VEcmaArray v))
      else
        fail (Error ERROR_RTMP_AMF0_INVALID (str "invalid amf0 message type. marker=" ++ hex_byte m))
  end
with read_properties {T : Type} (set : gostring -> option Amf0Any -> T -> outcome T)
    (fuel : nat) (r : T) {struct fuel} : M Buffer T :=
  match fuel with
  | O => out_of_fuel
  | S fuel =>
      let* empty := gets Buffer_Empty in
      if (empty : bool) then ret r else
      let* property_name := Amf0Codec_ReadUtf8 in
      let* property_value := Amf0Any_Read_fuel fuel (mkAmf0Any Byte.x00 VNil) in
      if (zlen property_name <=? 0) || Amf0Any_IsNil property_value
         || Amf0Any_IsObjectEof property_value
      then ret r
      else
        let* r := lift (set property_name (Some property_value) r) in
        read_properties set fuel r
  end.

(** The bound for a read: one more than the bytes left. *)
Definition read_fuel (s : Buffer) : nat := S (Z.to_nat (Buffer_Left s)).

Definition Amf0Any_Read (r : Amf0Any) : M Buffer Amf0Any := fun s =>
  Amf0Any_Read_fuel (read_fuel s) r s.

Definition Amf0Object_Read (r : Amf0Object) : M Buffer Amf0Object := fun s =>
  Amf0Object_Read_with (read_properties Amf0Object_Set (read_fuel s)) r s.

Definition Amf0EcmaArray_Read (r : Amf0EcmaArray) : M Buffer Amf0EcmaArray := fun s =>
  Amf0EcmaArray_Read_with (read_properties ecma_set (read_fuel s)) r s.

Definition Amf0Codec_ReadObject : M Buffer Amf0Object := Amf0Object_Read NewAmf0Object.
Definition Amf0Codec_ReadEcmaArray : M Buffer Amf0EcmaArray := Amf0EcmaArray_Read NewAmf0EcmaArray.
