(* ===== verification/Amf0Facts.v ===== *)
(** * Correctness of the AMF0 codec

    [enc_any] is the AMF0 wire format as a function of the value; [wf_any] the
    values a client of the package can build or receive: marker and dynamic
    type agree, strings fit their 16-bit length, tables list every key once
    and in the order of its entries.  Writing a well-formed value produces
    [enc_any], reading [enc_any] gives the value back, [Size] is its length,
    and reading arbitrary bytes ends without a panic in a well-formed value or
    an error. *)

From Stdlib Require Import ZArith Lia Strings.Byte.
From stdpp Require Import base tactics list.
From S2P Require Import Prelude Constants Buffer Float64 Codec Amf0.
Open Scope Z_scope.

(** ** The wire format *)

Definition enc_utf8 (s : gostring) : list byte := be_bytes 2 (zlen s) ++ s.
Definition enc_string (s : gostring) : list byte := AMF0_String :: enc_utf8 s.
Definition enc_number (v : Z) : list byte := AMF0_Number :: be_bytes 8 v.
Definition enc_boolean (b : bool) : list byte := [AMF0_Boolean; if b then Byte.x01 else Byte.x00].
Definition enc_eof : list byte := be_bytes 2 0 ++ [AMF0_ObjectEnd].

Arguments enc_utf8 : simpl never.
Arguments enc_string : simpl never.
Arguments enc_number : simpl never.
Arguments enc_boolean : simpl never.
Arguments enc_eof : simpl never.

Fixpoint enc_any (r : Amf0Any) : list byte :=
  let '(mkAmf0Any m val) := r in
  match val with
  | VNil => [m]
  | VString s => enc_string s
  | VBool b => enc_boolean b
  | VFloat64 v => enc_number v
  | VObject o => enc_object o
  | VEcmaArray a => enc_ecma a
  end
with enc_object (o : Amf0Object) : list byte :=
  let '(mkAmf0Object _ p) := o in [AMF0_Object] ++ enc_table p ++ enc_eof
with enc_ecma (a : Amf0EcmaArray) : list byte :=
  let '(mkAmf0EcmaArray _ n p) := a in [AMF0_EcmaArray] ++ be_bytes 4 n ++ enc_table p ++ enc_eof
with enc_table (h : Amf0UnSortedHashtable) : list byte :=
  let '(mkHashtable _ props) := h in
  concat (List.map (fun kv => let '(k, v) := kv in enc_utf8 k ++ enc_any v) props).

(** ** Well-formed values *)

Definition str_ok (s : gostring) : Prop := zlen s < 2 ^ 16.
Definition key_ok (k : gostring) : Prop := k <> [] /\ str_ok k.
Definition f64_ok (v : Z) : Prop := 0 <= v < 2 ^ 64.

Fixpoint wf_any (r : Amf0Any) : Prop :=
  let '(mkAmf0Any m val) := r in
  match val with
  | VNil => m = AMF0_Null \/ m = AMF0_Undefined
  | VString s => m = AMF0_String /\ str_ok s
  | VBool _ => m = AMF0_Boolean
  | VFloat64 v => m = AMF0_Number /\ f64_ok v
  | VObject o => m = AMF0_Object /\ wf_object o
  | VEcmaArray a => m = AMF0_EcmaArray /\ wf_ecma a
  end
with wf_object (o : Amf0Object) : Prop :=
  let '(mkAmf0Object m p) := o in m = AMF0_Object /\ wf_table p
with wf_ecma (a : Amf0EcmaArray) : Prop :=
  let '(mkAmf0EcmaArray m n p) := a in
  m = AMF0_EcmaArray /\ 0 <= n < 2 ^ 32
  /\ (ht_props p = [] \/ n = to_uint 32 (zlen (ht_props p))) /\ wf_table p
with wf_table (h : Amf0UnSortedHashtable) : Prop :=
  let '(mkHashtable index props) := h in
  index = props.*1 /\ NoDup props.*1
  /\ fold_right (fun kv P => let '(k, v) := kv in
       key_ok k /\ wf_any v /\ Amf0Any_IsNil v = false /\ P) True props.

(** What [Amf0UnSortedHashtable.Set] is given when it is called by the code. *)
Definition prop_ok (kv : gostring * Amf0Any) : Prop :=
  key_ok kv.1 /\ wf_any kv.2 /\ Amf0Any_IsNil kv.2 = false.

(** No object or array, at any depth, without properties: [Size] counts such a
    value as 0 bytes although [Write] gives it four or eight. *)
Fixpoint full_any (r : Amf0Any) : Prop :=
  let '(mkAmf0Any _ val) := r in
  match val with
  | VObject o => full_object o
  | VEcmaArray a => full_ecma a
  | _ => True
  end
with full_object (o : Amf0Object) : Prop := let '(mkAmf0Object _ p) := o in full_table p
with full_ecma (a : Amf0EcmaArray) : Prop := let '(mkAmf0EcmaArray _ _ p) := a in full_table p
with full_table (h : Amf0UnSortedHashtable) : Prop :=
  let '(mkHashtable _ props) := h in
  props <> [] /\ fold_right (fun kv P => let '(_, v) := kv in full_any v /\ P) True props.

(** ** Induction on values *)

Section Amf0Any_induction.
Context (P : Amf0Any -> Prop).
Context (Pnil : forall m, P (mkAmf0Any m VNil)).
Context (Pstr : forall m s, P (mkAmf0Any m (VString s))).
Context (Pbool : forall m b, P (mkAmf0Any m (VBool b))).
Context (Pnum : forall m v, P (mkAmf0Any m (VFloat64 v))).
Context (Pobj : forall m m' index props, Forall (fun kv => P kv.2) props ->
  P (mkAmf0Any m (VObject (mkAmf0Object m' (mkHashtable index props))))).
Context (Pecma : forall m m' n index props, Forall (fun kv => P kv.2) props ->
  P (mkAmf0Any m (VEcmaArray (mkAmf0EcmaArray m' n (mkHashtable index props))))).

Fixpoint Amf0Any_nested_ind (r : Amf0Any) : P r :=
  let fix go (l : list (gostring * Amf0Any)) : Forall (fun kv => P kv.2) l :=
    match l with
    | [] => Forall_nil_2 _
    | (k, v) :: l => Forall_cons_2 _ (k, v) l (Amf0Any_nested_ind v) (go l)
    end in
  match r with
  | mkAmf0Any m VNil => Pnil m
  | mkAmf0Any m (VString s) => Pstr m s
  | mkAmf0Any m (VBool b) => Pbool m b
  | mkAmf0Any m (VFloat64 v) => Pnum m v
  | mkAmf0Any m (VObject (mkAmf0Object m' (mkHashtable i p))) => Pobj m m' i p (go p)
  | mkAmf0Any m (VEcmaArray (mkAmf0EcmaArray m' n (mkHashtable i p))) => Pecma m m' n i p (go p)
  end.
End Amf0Any_induction.

(** ** The table *)

Lemma wf_table_props index props :
  wf_table (mkHashtable index props) <->
  index = props.*1 /\ NoDup props.*1 /\ Forall prop_ok props.
Proof.
  simpl. assert (H : fold_right (fun kv P => let '(k, v) := kv in
    key_ok k /\ wf_any v /\ Amf0Any_IsNil v = false /\ P) True props <-> Forall prop_ok props).
  { induction props as [|[k v] l IH]; simpl; [by rewrite Forall_nil|].
    rewrite Forall_cons, IH. unfold prop_ok. simpl. tauto. }
  by rewrite H.
Qed.

Lemma full_table_props index props :
  full_table (mkHashtable index props) <-> props <> [] /\ Forall (fun kv => full_any kv.2) props.
Proof.
  simpl. assert (H : fold_right (fun kv P => let '(_, v) := kv in full_any v /\ P) True props
    <-> Forall (fun kv : gostring * Amf0Any => full_any kv.2) props).
  { induction props as [|[k v] l IH]; simpl; [by rewrite Forall_nil|].
    by rewrite Forall_cons, IH. }
  by rewrite H.
Qed.

Lemma map_get_None k m : map_get k m = None <-> k ∉ m.*1.
Proof.
  induction m as [|[k' v] m IH]; simpl; [by split; [intros _; apply not_elem_of_nil|]|].
  rewrite not_elem_of_cons, <- IH. case_decide; [by split; [|intros []]|tauto].
Qed.

Lemma map_set_new k v m : map_get k m = None -> map_set k v m = m ++ [(k, v)].
Proof.
  induction m as [|[k' v'] m IH]; simpl; [done|]. case_decide; [done|].
  intros E. by rewrite (IH E).
Qed.

Lemma map_set_keys k v m x : map_get k m = Some x -> (map_set k v m).*1 = m.*1.
Proof.
  induction m as [|[k' v'] m IH]; simpl; [done|]. case_decide; [done|].
  intros E. rewrite !fmap_cons. f_equal. by apply IH.
Qed.

Lemma map_get_set k v m : map_get k (map_set k v m) = Some v.
Proof. induction m as [|[k' v'] m IH]; simpl; repeat (case_decide; simpl); done. Qed.

Lemma map_get_set_ne k k' v m : k <> k' -> map_get k (map_set k' v m) = map_get k m.
Proof.
  intros Hne. induction m as [|[k2 v2] m IH]; simpl; [by rewrite decide_False|].
  case_decide; simpl; subst; [by rewrite !decide_False|]. by rewrite IH.
Qed.

Lemma map_set_Forall (Q : gostring * Amf0Any -> Prop) k v m :
  Forall Q m -> Q (k, v) -> Forall Q (map_set k v m).
Proof.
  intros Hm Hq. induction Hm as [|[k' v'] m H Hm IH]; simpl; [by repeat constructor|].
  case_decide; subst; by constructor.
Qed.

(** [Set] keeps tables well-formed. *)
Lemma table_Set_wf k v h :
  wf_table h -> prop_ok (k, v) ->
  exists h', Amf0UnSortedHashtable_Set k (Some v) h = Ret h' /\ wf_table h'.
Proof.
  destruct h as [index props]. rewrite wf_table_props. intros (-> & Hnd & Hp) Hkv.
  eexists. split; [reflexivity|]. apply wf_table_props. simpl.
  destruct (map_get k props) as [x|] eqn:E.
  - rewrite (map_set_keys _ _ _ x) by done. repeat split; try done. by apply map_set_Forall.
  - rewrite map_set_new by done. rewrite fmap_app. simpl. split; [done|].
    split; [|by apply Forall_app; split; [|apply Forall_singleton]].
    apply NoDup_app. split; [done|]. split; [|apply NoDup_singleton].
    intros y Hy Hk%list_elem_of_singleton. subst. by apply map_get_None in E.
Qed.

(** ** Writing *)

Lemma enc_err_is d : is_enc_err (enc_err d).
Proof. by left. Qed.

#[local] Hint Resolve enc_err_is : gort.

Lemma encodes_WriteUtf8 s : str_ok s -> encodes (Amf0Codec_WriteUtf8 s) (enc_utf8 s).
Proof.
  intros Hs. unfold Amf0Codec_WriteUtf8, enc_utf8, str_ok in *. pose proof (zlen_nonneg s).
  apply encodes_guard_bind; [apply enc_err_is|done|..].
  - unfold to_uint. rewrite Z.mod_small by lia. apply fits_WriteUInt16.
  - destruct (Z.leb_spec (zlen s) 0).
    + rewrite (zlen_0_nil s) by done. apply encodes_ret.
    + apply encodes_guard; auto with gort.
Qed.

Lemma encodes_WriteString s : str_ok s -> encodes (Amf0Codec_WriteString s) (enc_string s).
Proof.
  intros. apply (encodes_guard_bind 1 _ _ _ [AMF0_String]); auto with gort.
  by apply encodes_WriteUtf8.
Qed.

Lemma encodes_WriteNumber v : encodes (Amf0Codec_WriteNumber v) (enc_number v).
Proof.
  apply (encodes_guard_bind 1 _ _ _ [AMF0_Number]); auto with gort.
  apply encodes_guard; auto with gort.
Qed.

Lemma encodes_WriteBoolean b : encodes (Amf0Codec_WriteBoolean b) (enc_boolean b).
Proof.
  apply (encodes_guard_bind 1 _ _ _ [AMF0_Boolean]); auto with gort.
  apply encodes_guard; [auto with gort|done|]. destruct b; apply fits_WriteByte.
Qed.

Lemma encodes_WriteNull : encodes Amf0Codec_WriteNull [AMF0_Null].
Proof. apply encodes_guard; auto with gort. Qed.

Lemma encodes_WriteUndefined : encodes Amf0Codec_WriteUndefined [AMF0_Undefined].
Proof. apply encodes_guard; auto with gort. Qed.

Lemma encodes_WriteObjectEOF : encodes Amf0Codec_WriteObjectEOF enc_eof.
Proof.
  apply encodes_guard_bind; auto with gort. apply encodes_guard; auto with gort.
Qed.

#[export] Hint Resolve encodes_WriteUtf8 encodes_WriteString encodes_WriteNumber
  encodes_WriteBoolean encodes_WriteNull encodes_WriteUndefined encodes_WriteObjectEOF : gort.

Lemma find_action (props : list (gostring * Amf0Any)) k v :
  NoDup props.*1 -> (k, v) ∈ props ->
  List.find (fun kv => bool_decide (kv.1 = k))
    (List.map (fun kv => let '(k, v) := kv in (k, Amf0Any_Write v)) props)
  = Some (k, Amf0Any_Write v).
Proof.
  induction props as [|[k' v'] l IH]; simpl; [by intros _ ?%not_elem_of_nil|].
  intros [Hk Hnd]%NoDup_cons [Heq|Hin]%elem_of_cons.
  - injection Heq as -> ->. by rewrite bool_decide_eq_true_2.
  - rewrite bool_decide_eq_false_2; [by apply IH|]. simpl. intros ->.
    apply Hk. apply (list_elem_of_fmap_2 fst _ _ Hin).
Qed.

(** The write loop on a tail [l] of the table. *)
Lemma encodes_properties (l props : list (gostring * Amf0Any)) :
  NoDup props.*1 -> l ⊆ props -> Forall prop_ok l ->
  Forall (fun kv => wf_any kv.2 -> encodes (Amf0Any_Write kv.2) (enc_any kv.2)) l ->
  encodes (write_properties l.*1
             (List.map (fun kv => let '(k, v) := kv in (k, Amf0Any_Write v)) props))
    (concat (List.map (fun kv => let '(k, v) := kv in enc_utf8 k ++ enc_any v) l)).
Proof.
  intros Hnd. induction l as [|[k v] l IH]; simpl; intros Hsub Hp He; [apply encodes_ret|].
  apply Forall_cons in Hp as [([_ Hk] & Hv & _) Hp]. apply Forall_cons in He as [Hev He].
  rewrite <- app_assoc. apply (encodes_bind (Amf0Codec_WriteUtf8 k) _ (enc_utf8 k)); [by apply encodes_WriteUtf8|].
  rewrite (find_action props k v) by (done || apply Hsub; left).
  apply encodes_bind; [by apply Hev|]. apply IH; [|done..].
  intros x Hx. apply Hsub. by right.
Qed.

Lemma encodes_table index props :
  wf_table (mkHashtable index props) ->
  Forall (fun kv => wf_any kv.2 -> encodes (Amf0Any_Write kv.2) (enc_any kv.2)) props ->
  encodes (Amf0UnSortedHashtable_Write (mkHashtable index props)) (enc_table (mkHashtable index props)).
Proof.
  intros (-> & Hnd & Hp)%wf_table_props He. by apply encodes_properties.
Qed.

Lemma encodes_any r : wf_any r -> encodes (Amf0Any_Write r) (enc_any r).
Proof.
  induction r as [m|m s|m b|m v|m m' index props IH|m m' n index props IH] using Amf0Any_nested_ind.
  - intros [-> | ->]; simpl; auto with gort.
  - intros [-> Hs]; simpl; auto with gort.
  - intros ->; simpl; auto with gort.
  - intros [-> _]; simpl; auto with gort.
  - intros [-> [-> Hw]]. apply (encodes_guard_bind 1 _ _ _ [AMF0_Object]); auto with gort.
    apply encodes_bind; [by apply encodes_table|apply encodes_WriteObjectEOF].
  - intros [-> [-> (Hn & _ & Hw)]]. apply (encodes_guard_bind 1 _ _ _ [AMF0_EcmaArray]); auto with gort.
    apply encodes_guard_bind; auto with gort.
    apply encodes_bind; [by apply encodes_table|apply encodes_WriteObjectEOF].
Qed.

Lemma encodes_object o : wf_object o -> encodes (Amf0Object_Write o) (enc_object o).
Proof. intros H. by apply (encodes_any (mkAmf0Any AMF0_Object (VObject o))). Qed.

Lemma encodes_ecma a : wf_ecma a -> encodes (Amf0EcmaArray_Write a) (enc_ecma a).
Proof. intros H. by apply (encodes_any (mkAmf0Any AMF0_EcmaArray (VEcmaArray a))). Qed.

(** ** Sizes *)

Lemma zlen_enc_utf8 s : zlen (enc_utf8 s) = Amf0SizeUtf8 s.
Proof. unfold enc_utf8, Amf0SizeUtf8. rewrite zlen_app. unfold zlen at 1. by rewrite length_be_bytes. Qed.

Lemma zlen_enc_string s : zlen (enc_string s) = Amf0SizeString s.
Proof. unfold enc_string. by rewrite zlen_cons, zlen_enc_utf8. Qed.

Lemma zlen_enc_number v : zlen (enc_number v) = Amf0SizeNumber.
Proof. unfold enc_number. rewrite zlen_cons. unfold zlen. by rewrite length_be_bytes. Qed.

Lemma zlen_enc_boolean b : zlen (enc_boolean b) = Amf0SizeBoolean.
Proof. done. Qed.

Lemma zlen_enc_eof : zlen enc_eof = Amf0SizeObjectEOF.
Proof. done. Qed.

#[export] Hint Rewrite zlen_enc_utf8 zlen_enc_string zlen_enc_number zlen_enc_boolean zlen_enc_eof : gort.

Lemma size_properties (l : list (gostring * Amf0Any)) :
  Forall (fun kv => Amf0Any_Size kv.2 = Ret (zlen (enc_any kv.2))) l ->
  (fix sum (l : list (gostring * Amf0Any)) : outcome Z :=
     match l with
     | [] => Ret 0
     | (k, v) :: l => oplus (omap (Z.add (Amf0SizeUtf8 k)) (Amf0Any_Size v)) (sum l)
     end) l
  = Ret (zlen (concat (List.map (fun kv => let '(k, v) := kv in enc_utf8 k ++ enc_any v) l))).
Proof.
  induction 1 as [|[k v] l Hv Hl IH]; [done|]. cbn [List.map concat]. rewrite IH.
  simpl in Hv. rewrite Hv. cbn [omap oplus]. by rewrite !zlen_app, zlen_enc_utf8.
Qed.

Lemma size_table index props :
  props <> [] ->
  Forall (fun kv => Amf0Any_Size kv.2 = Ret (zlen (enc_any kv.2))) props ->
  Amf0UnSortedHashtable_Size (mkHashtable index props) = Ret (zlen (enc_table (mkHashtable index props)))
  /\ 0 < zlen (enc_table (mkHashtable index props)).
Proof.
  intros Hne Hs. split.
  - cbn [Amf0UnSortedHashtable_Size]. rewrite (proj2 (Z.leb_gt _ _)).
    { by apply size_properties. }
    destruct props; [done|]. rewrite zlen_cons. pose proof (zlen_nonneg props). lia.
  - destruct props as [|[k v] l]; [done|]. cbn [enc_table List.map concat].
    rewrite !zlen_app, zlen_enc_utf8. unfold Amf0SizeUtf8.
    pose proof (zlen_nonneg k). pose proof (zlen_nonneg (enc_any v)).
    match goal with |- context [concat ?x] => pose proof (zlen_nonneg (concat x)) end. lia.
Qed.

Lemma size_table_IH index props :
  wf_table (mkHashtable index props) -> full_table (mkHashtable index props) ->
  Forall (fun kv => wf_any kv.2 -> full_any kv.2 -> Amf0Any_Size kv.2 = Ret (zlen (enc_any kv.2))) props ->
  Amf0UnSortedHashtable_Size (mkHashtable index props) = Ret (zlen (enc_table (mkHashtable index props)))
  /\ 0 < zlen (enc_table (mkHashtable index props)).
Proof.
  intros (_ & _ & Hp)%wf_table_props [Hne Hfull]%full_table_props IH.
  apply size_table; [done|]. rewrite Forall_forall in *.
  intros kv Hin. apply IH; [done|apply Hp|apply Hfull]; done.
Qed.

Lemma size_any r : wf_any r -> full_any r -> Amf0Any_Size r = Ret (zlen (enc_any r)).
Proof.
  induction r as [m|m s|m b|m v|m m' index props IH|m m' n index props IH] using Amf0Any_nested_ind.
  - by intros [-> | ->] _.
  - intros [-> _] _. cbn -[zlen]. by rewrite zlen_enc_string.
  - by intros -> _.
  - intros [-> _] _. cbn -[zlen]. by rewrite zlen_enc_number.
  - intros [-> [-> Hw]] Hfull. destruct (size_table_IH index props Hw Hfull IH) as [E Hpos].
    change (Amf0Any_Size _) with
      (omap (fun n => if n <=? 0 then 0 else n + 1 + Amf0SizeObjectEOF)
         (Amf0UnSortedHashtable_Size (mkHashtable index props))).
    rewrite E. cbn [omap]. rewrite (proj2 (Z.leb_gt _ _)) by done.
    change (enc_any _) with ([AMF0_Object] ++ enc_table (mkHashtable index props) ++ enc_eof).
    rewrite !zlen_app, zlen_enc_eof. f_equal. change (zlen [AMF0_Object]) with 1. lia.
  - intros [-> (-> & _ & _ & Hw)] Hfull. destruct (size_table_IH index props Hw Hfull IH) as [E Hpos].
    change (Amf0Any_Size _) with
      (omap (fun n => if n <=? 0 then 0 else n + 1 + 4 + Amf0SizeObjectEOF)
         (Amf0UnSortedHashtable_Size (mkHashtable index props))).
    rewrite E. cbn [omap]. rewrite (proj2 (Z.leb_gt _ _)) by done.
    change (enc_any _) with
      ([AMF0_EcmaArray] ++ be_bytes 4 n ++ enc_table (mkHashtable index props) ++ enc_eof).
    rewrite !zlen_app, zlen_enc_eof. f_equal. change (zlen [AMF0_EcmaArray]) with 1.
    change (zlen (be_bytes 4 n)) with 4. lia.
Qed.

Lemma size_object o : wf_object o -> full_object o -> Amf0Object_Size o = Ret (zlen (enc_object o)).
Proof. intros Hw Hf. by apply (size_any (mkAmf0Any AMF0_Object (VObject o))). Qed.

(** ** Reading what was written *)

Lemma decodes_ReadUtf8 s : str_ok s -> decodes Amf0Codec_ReadUtf8 (enc_utf8 s) s.
Proof.
  intros Hs. unfold str_ok in Hs. pose proof (zlen_nonneg s).
  unfold Amf0Codec_ReadUtf8. apply decodes_guard.
  { rewrite zlen_enc_utf8. unfold Amf0SizeUtf8. lia. }
  unfold enc_utf8. eapply decodes_bind; [apply decodes_ReadUInt16; lia|].
  destruct (Z.leb_spec (zlen s) 0).
  - rewrite (zlen_0_nil s) by done. apply decodes_ret.
  - apply decodes_guard; [lia|]. by apply decodes_Read.
Qed.

Lemma decodes_ReadString s : str_ok s -> decodes Amf0Codec_ReadString (enc_string s) s.
Proof.
  intros Hs. apply decodes_guard; [apply zlen_cons_pos|].
  apply (decodes_bind _ _ [AMF0_String] (enc_utf8 s) AMF0_String); [apply decodes_ReadByte|].
  by apply decodes_ReadUtf8.
Qed.

Lemma decodes_ReadNumber v : f64_ok v -> decodes Amf0Codec_ReadNumber (enc_number v) v.
Proof.
  intros Hv. apply decodes_guard; [rewrite zlen_enc_number; done|].
  apply (decodes_bind _ _ [AMF0_Number] (be_bytes 8 v) AMF0_Number); [apply decodes_ReadByte|].
  apply decodes_guard; [unfold zlen; by rewrite length_be_bytes|]. by apply decodes_ReadFloat64.
Qed.

Lemma decodes_ReadBoolean b : decodes Amf0Codec_ReadBoolean (enc_boolean b) b.
Proof.
  apply decodes_guard; [done|].
  apply (decodes_bind _ _ [AMF0_Boolean] _ AMF0_Boolean); [apply decodes_ReadByte|].
  apply decodes_guard; [done|].
  destruct b; eapply (decodes_bind _ _ [_] []); eauto with gort; apply decodes_ret.
Qed.

#[export] Hint Resolve decodes_ReadUtf8 decodes_ReadString decodes_ReadNumber decodes_ReadBoolean : gort.

(** Looking at the marker and stepping back. *)
Lemma decodes_peek {A} (k : byte -> M Buffer A) x bs v e :
  decodes (k x) (x :: bs) v ->
  decodes (let* ok := requires 1 in guard* ok else e in
           let* m := Buffer_ReadByte in do* Buffer_Skip (-1) in k m) (x :: bs) v.
Proof.
  intros H. apply decodes_guard; [apply zlen_cons_pos|].
  intros c g1 pre g2 rest. cbn [app].
  rewrite (bind_Ret _ _ _ _ _ (mkbuf_ReadByte c g1 pre g2 x (bs ++ rest))).
  rewrite (bind_Ret _ _ _ _ _ (mkbuf_Skip_back c g1 pre g2 (-1) [x] (bs ++ rest) eq_refl)).
  apply H.
Qed.

Lemma decodes_nonempty {A} (k0 k : M Buffer A) bs v :
  0 < zlen bs -> decodes k bs v ->
  decodes (let* empty := gets Buffer_Empty in if (empty : bool) then k0 else k) bs v.
Proof.
  intros Hb H c g1 pre g2 rest. unfold bind, gets.
  rewrite mkbuf_Empty, (proj2 (Z.leb_gt _ _)) by zlen_solve. apply H.
Qed.

(** What reading one encoded value gives, with a bound above its length. *)
Definition read_back (v : Amf0Any) : Prop :=
  forall fuel r, Value r = VNil -> zlen (enc_any v) < Z.of_nat fuel ->
    decodes (Amf0Any_Read_fuel fuel r) (enc_any v) v.

Lemma decodes_end fuel r :
  Value r = VNil -> (0 < fuel)%nat ->
  decodes (Amf0Any_Read_fuel fuel r) [AMF0_ObjectEnd] (mkAmf0Any AMF0_ObjectEnd VNil).
Proof.
  intros Hr Hf. destruct fuel as [|fuel]; [lia|]. cbn [Amf0Any_Read_fuel].
  apply decodes_peek. simpl. rewrite Hr.
  apply (decodes_map Buffer_ReadByte (fun _ => mkAmf0Any AMF0_ObjectEnd VNil) [AMF0_ObjectEnd] AMF0_ObjectEnd).
  apply decodes_ReadByte.
Qed.

Section Properties_loop.
Context {T : Type} (set : gostring -> option Amf0Any -> T -> outcome T).
Context (mkT : list (gostring * Amf0Any) -> T).
Context (Hset : forall acc k v, k ∉ acc.*1 -> set k (Some v) (mkT acc) = Ret (mkT (acc ++ [(k, v)]))).

Definition enc_props (l : list (gostring * Amf0Any)) : list byte :=
  concat (List.map (fun kv => let '(k, v) := kv in enc_utf8 k ++ enc_any v) l).

Lemma decodes_properties fuel acc l :
  Forall prop_ok l -> NoDup (acc ++ l).*1 -> Forall (fun kv => read_back kv.2) l ->
  zlen (enc_props l ++ enc_eof) < Z.of_nat fuel ->
  decodes (read_properties set fuel (mkT acc)) (enc_props l ++ enc_eof) (mkT (acc ++ l)).
Proof.
  revert acc l. induction fuel as [|fuel IH]; intros acc l Hp Hnd Hb Hf;
    [pose proof (zlen_nonneg (enc_props l ++ enc_eof)); lia|].
  rewrite zlen_app, zlen_enc_eof in Hf. unfold Amf0SizeObjectEOF in Hf.
  pose proof (zlen_nonneg (enc_props l)).
  cbn [read_properties]. apply decodes_nonempty.
  { rewrite zlen_app, zlen_enc_eof. unfold Amf0SizeObjectEOF. lia. }
  destruct l as [|[k v] l].
  - rewrite app_nil_r. change (enc_props [] ++ enc_eof) with (enc_utf8 [] ++ [AMF0_ObjectEnd] ++ []).
    eapply decodes_bind; [by apply decodes_ReadUtf8|].
    eapply decodes_bind; [apply decodes_end; [done|lia]|]. apply decodes_ret.
  - apply Forall_cons in Hp as [([Hk1 Hk2] & Hv & Hnil) Hp]. apply Forall_cons in Hb as [Hbv Hb].
    simpl in Hk1, Hk2, Hv, Hnil, Hbv.
    change (enc_props ((k, v) :: l)) with ((enc_utf8 k ++ enc_any v) ++ enc_props l) in *.
    rewrite !zlen_app, zlen_enc_utf8 in Hf. unfold Amf0SizeUtf8 in Hf.
    pose proof (zlen_nonneg k). pose proof (zlen_nonneg (enc_any v)). pose proof (zlen_nonneg (enc_props l)).
    rewrite <- !app_assoc. eapply decodes_bind; [by apply decodes_ReadUtf8|].
    eapply decodes_bind; [apply Hbv; [done|lia]|].
    rewrite fmap_app, fmap_cons in Hnd.
    assert ((zlen k <=? 0) = false) as -> by (apply Z.leb_gt; destruct k; [done|zlen_solve]).
    assert (Amf0Any_IsObjectEof v = false) as ->.
    { apply bool_decide_eq_false_2. destruct v as [m []]; simpl in Hv, Hnil; destruct_and?; subst; done. }
    rewrite Hnil. cbn [orb].
    assert (k ∉ acc.*1) as Hacc.
    { apply NoDup_app in Hnd as (_ & Hd & _). intros Hin. apply (Hd k Hin). by left. }
    intros c g1 pre g2 rest. unfold bind at 1, lift. rewrite Hset by done.
    replace (acc ++ (k, v) :: l) with ((acc ++ [(k, v)]) ++ l) by (by rewrite <- app_assoc).
    apply IH; [done| |done|].
    + rewrite <- app_assoc, fmap_app. exact Hnd.
    + rewrite zlen_app, zlen_enc_eof. unfold Amf0SizeObjectEOF. lia.
Qed.
End Properties_loop.

Definition object_of (m : byte) (acc : list (gostring * Amf0Any)) : Amf0Object :=
  mkAmf0Object m (mkHashtable acc.*1 acc).

Definition ecma_of (m : byte) (n : Z) (acc : list (gostring * Amf0Any)) : Amf0EcmaArray :=
  mkAmf0EcmaArray m (match acc with [] => n | _ => to_uint 32 (zlen acc) end) (mkHashtable acc.*1 acc).

Lemma object_of_Set m acc k v :
  k ∉ acc.*1 -> Amf0Object_Set k (Some v) (object_of m acc) = Ret (object_of m (acc ++ [(k, v)])).
Proof.
  intros Hk%map_get_None. simpl. rewrite Hk, map_set_new by done.
  unfold object_of. by rewrite fmap_app.
Qed.

Lemma ecma_of_Set m n acc k v :
  k ∉ acc.*1 -> ecma_set k (Some v) (ecma_of m n acc) = Ret (ecma_of m n (acc ++ [(k, v)])).
Proof.
  intros Hk%map_get_None. unfold ecma_of.
  cbn [ecma_set Amf0EcmaArray_Set Amf0UnSortedHashtable_Set omap ht_props ht_index]. rewrite Hk, map_set_new by done.
  unfold Amf0UnSortedHashtable_Count. cbn [ht_props]. rewrite fmap_app. by destruct acc.
Qed.

Lemma decodes_object_with fuel index props :
  wf_table (mkHashtable index props) -> Forall (fun kv => read_back kv.2) props ->
  zlen (enc_object (mkAmf0Object AMF0_Object (mkHashtable index props))) <= Z.of_nat fuel ->
  decodes (Amf0Object_Read_with (read_properties Amf0Object_Set fuel) NewAmf0Object)
    (enc_object (mkAmf0Object AMF0_Object (mkHashtable index props)))
    (mkAmf0Object AMF0_Object (mkHashtable index props)).
Proof.
  intros (-> & Hnd & Hp)%wf_table_props Hb Hf.
  change (enc_object _) with ([AMF0_Object] ++ enc_props props ++ enc_eof) in *.
  rewrite zlen_app in Hf. change (zlen [AMF0_Object]) with 1 in Hf.
  apply decodes_guard; [apply zlen_cons_pos|].
  eapply decodes_bind; [apply decodes_ReadByte|]. rewrite bool_decide_eq_true_2 by done.
  apply (decodes_properties _ (object_of AMF0_Object) (object_of_Set _) fuel [] props); try done. lia.
Qed.

Lemma decodes_ecma_with fuel n index props :
  wf_ecma (mkAmf0EcmaArray AMF0_EcmaArray n (mkHashtable index props)) ->
  Forall (fun kv => read_back kv.2) props ->
  zlen (enc_ecma (mkAmf0EcmaArray AMF0_EcmaArray n (mkHashtable index props))) <= Z.of_nat fuel ->
  decodes (Amf0EcmaArray_Read_with (read_properties ecma_set fuel) NewAmf0EcmaArray)
    (enc_ecma (mkAmf0EcmaArray AMF0_EcmaArray n (mkHashtable index props)))
    (mkAmf0EcmaArray AMF0_EcmaArray n (mkHashtable index props)).
Proof.
  intros (_ & Hn & Hcnt & (-> & Hnd & Hp)%wf_table_props) Hb Hf.
  change (enc_ecma _) with ([AMF0_EcmaArray] ++ be_bytes 4 n ++ enc_props props ++ enc_eof) in *.
  pose proof (zlen_nonneg (enc_props props ++ enc_eof)).
  rewrite !(zlen_app [_]), (zlen_app (be_bytes 4 n)) in Hf.
  change (zlen [AMF0_EcmaArray]) with 1 in Hf. change (zlen (be_bytes 4 n)) with 4 in Hf.
  apply decodes_guard; [apply zlen_cons_pos|].
  eapply decodes_bind; [apply decodes_ReadByte|]. rewrite bool_decide_eq_true_2 by done.
  apply decodes_guard; [rewrite zlen_app; change (zlen (be_bytes 4 n)) with 4; lia|].
  eapply decodes_bind; [by apply decodes_ReadUInt32|].
  pose proof (decodes_properties _ (ecma_of AMF0_EcmaArray n) (ecma_of_Set _ _) fuel [] props
    Hp Hnd Hb ltac:(lia)) as H1.
  replace (mkAmf0EcmaArray AMF0_EcmaArray n (mkHashtable props.*1 props))
    with (ecma_of AMF0_EcmaArray n ([] ++ props)); [done|].
  unfold ecma_of. simpl in *. destruct Hcnt as [Hc|Hc]; [by rewrite Hc|]. destruct props; [done|]. by rewrite Hc.
Qed.

Lemma read_back_any v : wf_any v -> read_back v.
Proof.
  induction v as [m|m s|m b|m v|m m' index props IH|m m' n index props IH] using Amf0Any_nested_ind;
    intros Hw fuel r Hr Hf;
    (destruct fuel as [|fuel];
       [exfalso; revert Hf; apply Z.le_ngt, zlen_nonneg|]).
  - apply decodes_peek. rewrite 3!decide_False by (destruct Hw as [-> | ->]; done).
    rewrite decide_True by (destruct Hw; tauto). rewrite Hr.
    apply (decodes_map Buffer_ReadByte (fun _ => mkAmf0Any m VNil) [m] m), decodes_ReadByte.
  - destruct Hw as [-> Hs]. apply decodes_peek. simpl.
    apply (decodes_map _ (fun v => mkAmf0Any AMF0_String (VString v))). by apply decodes_ReadString.
  - simpl in Hw; subst m. apply decodes_peek. simpl.
    apply (decodes_map _ (fun v => mkAmf0Any AMF0_Boolean (VBool v)) (enc_boolean b)), decodes_ReadBoolean.
  - destruct Hw as [-> Hs]. apply decodes_peek. simpl.
    apply (decodes_map _ (fun v => mkAmf0Any AMF0_Number (VFloat64 v))). by apply decodes_ReadNumber.
  - destruct Hw as [-> [-> Hw]]. apply decodes_peek. simpl.
    apply (decodes_map _ (fun v => mkAmf0Any AMF0_Object (VObject v))).
    apply decodes_object_with; [done| |change (enc_object _) with (enc_any (mkAmf0Any AMF0_Object (VObject (mkAmf0Object AMF0_Object (mkHashtable index props))))); lia].
    apply wf_table_props in Hw as (_ & _ & Hp). rewrite Forall_forall in *.
    intros kv Hin. apply IH, Hp; done.
  - destruct Hw as [-> Hw]. pose proof Hw as (-> & _ & _ & (_ & _ & Hp)%wf_table_props).
    apply decodes_peek. simpl.
    apply (decodes_map _ (fun v => mkAmf0Any AMF0_EcmaArray (VEcmaArray v))).
    apply decodes_ecma_with; [done| |change (enc_ecma _) with (enc_any (mkAmf0Any AMF0_EcmaArray (VEcmaArray (mkAmf0EcmaArray AMF0_EcmaArray n (mkHashtable index props))))); lia].
    rewrite Forall_forall in *. intros kv Hin. apply IH, Hp; done.
Qed.

(** A bound computed from the buffer covers the encoding in front of the cursor. *)
Lemma read_fuel_mkbuf c g1 pre bs rest g2 :
  zlen bs < Z.of_nat (read_fuel (mkbuf c g1 pre (bs ++ rest) g2)).
Proof.
  unfold read_fuel. rewrite mkbuf_Left, zlen_app.
  pose proof (zlen_nonneg bs). pose proof (zlen_nonneg rest). lia.
Qed.

Lemma decodes_any v r : wf_any v -> Value r = VNil -> decodes (Amf0Any_Read r) (enc_any v) v.
Proof.
  intros Hw Hr c g1 pre g2 rest. unfold Amf0Any_Read. apply read_back_any; [done..|].
  apply read_fuel_mkbuf.
Qed.

Lemma decodes_object o : wf_object o -> decodes Amf0Codec_ReadObject (enc_object o) o.
Proof.
  destruct o as [m [index props]]. intros [-> Hw] c g1 pre g2 rest.
  unfold Amf0Codec_ReadObject, Amf0Object_Read. apply decodes_object_with; [done| |].
  - apply wf_table_props in Hw as (_ & _ & Hp). rewrite Forall_forall in *.
    intros kv Hin. by apply read_back_any, Hp.
  - apply Z.lt_le_incl, read_fuel_mkbuf.
Qed.

#[export] Hint Resolve decodes_any decodes_object encodes_any encodes_object encodes_ecma : gort.

(** ** Reading arbitrary bytes *)

(** What a read can return: a well-formed value, or the end marker. *)
Definition read_ok (v : Amf0Any) : Prop := wf_any v \/ v = mkAmf0Any AMF0_ObjectEnd VNil.

Lemma reads_ReadUtf8 L : reads L 2 str_ok Amf0Codec_ReadUtf8.
Proof.
  apply (reads_guard_bind L 2 0 (fun v => 0 <= v < 256 ^ 2)); [done|apply reader_ReadUInt16|].
  intros v Hv. destruct (Z.leb_spec v 0); [by apply reads_ret|].
  eapply (reads_weaken (L - 2) _ v); [apply reads_guard_reader; [lia|apply reader_Read]|lia..|].
  intros s Hs. unfold str_ok. rewrite Hs. lia.
Qed.

Lemma reads_ReadString L : reads L 3 str_ok Amf0Codec_ReadString.
Proof.
  apply (reads_guard_bind L 1 2 (fun _ => True)); [done|apply reader_ReadByte|].
  intros v _. case_bool_decide; [apply reads_ReadUtf8|apply reads_fail].
Qed.

Lemma reads_ReadNumber L : reads L 9 f64_ok Amf0Codec_ReadNumber.
Proof.
  apply (reads_guard_bind L 1 8 (fun _ => True)); [done|apply reader_ReadByte|].
  intros v _. case_bool_decide; [|apply reads_fail].
  by apply reads_guard_reader, reader_ReadFloat64.
Qed.

Lemma reads_ReadBoolean L : reads L 2 (fun _ => True) Amf0Codec_ReadBoolean.
Proof.
  apply (reads_guard_bind L 1 1 (fun _ => True)); [done|apply reader_ReadByte|].
  intros v _. case_bool_decide; [|apply reads_fail].
  apply (reads_guard_bind _ 1 0 (fun _ => True)); [done|apply reader_ReadByte|].
  intros b _. by apply reads_ret.
Qed.

(** [reads] for an input that starts with the byte [x]. *)
Definition reads_at {A} (L n : Z) (Q : A -> Prop) (x : byte) (m : M Buffer A) : Prop :=
  forall c g1 pre post g2, zlen (x :: post) <= L ->
    exists o a b, x :: post = a ++ b
      /\ m (mkbuf c g1 pre (x :: post) g2) = (o, mkbuf c g1 (pre ++ a) b g2)
      /\ match o with Ret v => n <= zlen a /\ Q v | Fail _ => True | _ => False end.

Lemma reads_reads_at {A} L n (Q : A -> Prop) x m : reads L n Q m -> reads_at L n Q x m.
Proof. intros H c g1 pre post g2 Hp. by apply H. Qed.

Lemma reads_at_ReadByte {A} L (Q : A -> Prop) x v :
  Q v -> reads_at L 1 Q x (do* Buffer_ReadByte in ret v).
Proof.
  intros HQ c g1 pre post g2 _. exists (Ret v), [x], post.
  rewrite (bind_Ret _ _ _ _ _ (mkbuf_ReadByte c g1 pre g2 x post)). done.
Qed.

Lemma reads_peek {A} L n (Q : A -> Prop) (k : byte -> M Buffer A) e :
  (forall x, reads_at L n Q x (k x)) ->
  reads L n Q (let* ok := requires 1 in guard* ok else e in
               let* m := Buffer_ReadByte in do* Buffer_Skip (-1) in k m).
Proof.
  intros Hk. apply reads_guard; [|done]. intros c g1 pre a b g2 Ha Hp.
  destruct a as [|x [|]]; try by (exfalso; zlen_solve). cbn [app] in *.
  rewrite (bind_Ret _ _ _ _ _ (mkbuf_ReadByte c g1 pre g2 x b)).
  rewrite (bind_Ret _ _ _ _ _ (mkbuf_Skip_back c g1 pre g2 (-1) [x] b eq_refl)).
  by apply Hk.
Qed.

Lemma reads_map {A B} L n (Q : A -> Prop) (Q' : B -> Prop) (m : M Buffer A) (f : A -> B) :
  reads L n Q m -> (forall v, Q v -> Q' (f v)) -> reads L n Q' (let* v := m in ret (f v)).
Proof.
  intros H Hf. rewrite <- (Z.add_0_r n). eapply reads_bind; [exact H|].
  intros v Hv. by apply reads_ret, Hf.
Qed.

Lemma ecma_Set_wf k v a :
  wf_ecma a -> prop_ok (k, v) ->
  exists a', ecma_set k (Some v) a = Ret a' /\ wf_ecma a'.
Proof.
  destruct a as [m n p]. intros (-> & _ & _ & Hw) Hkv.
  destruct (table_Set_wf k v p Hw Hkv) as (p' & Hs & Hw').
  unfold ecma_set, Amf0EcmaArray_Set. rewrite Hs. eexists. split; [reflexivity|].
  unfold wf_ecma. split; [done|]. split; [by apply Z.mod_pos_bound|]. split; [by right|done].
Qed.

Lemma object_Set_wf k v o :
  wf_object o -> prop_ok (k, v) ->
  exists o', Amf0Object_Set k (Some v) o = Ret o' /\ wf_object o'.
Proof.
  destruct o as [m p]. intros [-> Hw] Hkv.
  destruct (table_Set_wf k v p Hw Hkv) as (p' & Hs & Hw').
  cbn [Amf0Object_Set]. rewrite Hs. eexists. by split.
Qed.

Definition set_preserves {T} (I : T -> Prop) (set : gostring -> option Amf0Any -> T -> outcome T) : Prop :=
  forall k v r, I r -> prop_ok (k, v) -> exists r', set k (Some v) r = Ret r' /\ I r'.

Definition loop_reads (fuel : nat) : Prop :=
  forall T set (I : T -> Prop), set_preserves I set ->
  forall L r, L < Z.of_nat fuel -> I r -> reads L 0 I (read_properties set fuel r).

Lemma wf_empty_object : wf_object NewAmf0Object.
Proof. split; [done|]. by apply wf_table_props; repeat constructor. Qed.

Lemma reads_object_with fuel L :
  loop_reads fuel -> L <= Z.of_nat fuel ->
  reads L 1 wf_object (Amf0Object_Read_with (read_properties Amf0Object_Set fuel) NewAmf0Object).
Proof.
  intros Hl HL. apply (reads_guard_bind L 1 0 (fun _ => True)); [done|apply reader_ReadByte|].
  intros m _. case_bool_decide; [|apply reads_fail].
  apply Hl; [intros k v r; apply object_Set_wf|lia|]. subst. apply wf_empty_object.
Qed.

Lemma reads_ecma_with fuel L :
  loop_reads fuel -> L <= Z.of_nat fuel ->
  reads L 1 wf_ecma (Amf0EcmaArray_Read_with (read_properties ecma_set fuel) NewAmf0EcmaArray).
Proof.
  intros Hl HL. apply (reads_guard_bind L 1 0 (fun _ => True)); [done|apply reader_ReadByte|].
  intros m _. case_bool_decide; [|apply reads_fail].
  eapply (reads_weaken _ _ 4 0); [|reflexivity|lia|done].
  apply (reads_guard_bind _ 4 0 (fun v => 0 <= v < 256 ^ 4)); [done|apply reader_ReadUInt32|].
  intros n Hn. apply Hl; [intros k v r; apply ecma_Set_wf|lia|]. subst.
  split; [done|]. split; [lia|]. split; [by left|]. apply wf_empty_object.
Qed.

Lemma reads_any_step fuel L r :
  loop_reads fuel -> L <= Z.of_nat fuel -> Value r = VNil ->
  reads L 1 read_ok (Amf0Any_Read_fuel (S fuel) r).
Proof.
  intros Hl HL Hr. cbn [Amf0Any_Read_fuel]. apply reads_peek. intros m.
  destruct (decide (m = AMF0_String)).
  { eapply reads_reads_at, (reads_weaken L L 3); [eapply reads_map; [apply reads_ReadString|]|lia..|done].
    intros v Hv. by left. }
  destruct (decide (m = AMF0_Boolean)).
  { eapply reads_reads_at, (reads_weaken L L 2); [eapply reads_map; [apply reads_ReadBoolean|]|lia..|done].
    intros v Hv. by left. }
  destruct (decide (m = AMF0_Number)).
  { eapply reads_reads_at, (reads_weaken L L 9); [eapply reads_map; [apply reads_ReadNumber|]|lia..|done].
    intros v Hv. by left. }
  destruct (decide (m = AMF0_Null \/ m = AMF0_Undefined \/ m = AMF0_ObjectEnd)) as [Hm|].
  { apply reads_at_ReadByte. rewrite Hr.
    destruct Hm as [-> | [-> | ->]]; [by left; left|by left; right|by right]. }
  destruct (decide (m = AMF0_Object)).
  { eapply reads_reads_at, reads_map; [by apply reads_object_with|]. intros v Hv. by left. }
  destruct (decide (m = AMF0_EcmaArray)); [|apply reads_reads_at, reads_fail].
  eapply reads_reads_at, reads_map; [by apply reads_ecma_with|]. intros v Hv. by left.
Qed.

Lemma read_ok_prop k v :
  str_ok k -> read_ok v -> ((zlen k <=? 0) || Amf0Any_IsNil v || Amf0Any_IsObjectEof v) = false ->
  prop_ok (k, v).
Proof.
  intros Hk Hv Hc. apply orb_false_iff in Hc as [[Hz Hn]%orb_false_iff Ho].
  split; [|split; [|done]].
  - split; [|done]. simpl. intros ->. done.
  - destruct Hv as [Hv| ->]; [done|]. simpl in Hn. done.
Qed.

Lemma reads_vacuous {A} L n (Q : A -> Prop) m : L < 0 -> reads L n Q m.
Proof. intros HL c g1 pre post g2 Hp. pose proof (zlen_nonneg post). lia. Qed.

Lemma loop_reads_all fuel : loop_reads fuel.
Proof.
  induction fuel as [fuel IH] using lt_wf_ind. intros T set I Hset L r HL HI.
  destruct fuel as [|fuel]; [apply reads_vacuous; lia|].
  cbn [read_properties]. apply reads_empty; [by apply reads_ret|].
  eapply (reads_weaken L L (2 + (1 + 0)) 0); [|lia..|done].
  eapply reads_bind; [apply reads_ReadUtf8|]. intros k Hk.
  eapply (reads_bind _ 1 0 read_ok).
  { destruct fuel as [|fuel]; [apply reads_vacuous; lia|].
    apply reads_any_step; [apply IH; lia|lia|done]. }
  intros v Hv. destruct ((_ || _) || _) eqn:Hc; [by apply reads_ret|].
  destruct (Hset k v r HI (read_ok_prop k v Hk Hv Hc)) as (r' & Hs & HI').
  assert (reads (L - 2 - 1) 0 I (read_properties set fuel r')) as Hr by (apply IH; [lia|done|lia|done]).
  intros c g1 pre post g2 Hp. unfold bind, lift. rewrite Hs. by apply Hr.
Qed.

Lemma reads_any L r : Value r = VNil -> reads L 1 read_ok (Amf0Any_Read r).
Proof.
  intros Hr c g1 pre post g2 Hp. unfold Amf0Any_Read, read_fuel. rewrite mkbuf_Left.
  pose proof (zlen_nonneg post).
  apply (reads_any_step _ (zlen post) r); [apply loop_reads_all|lia|done|done].
Qed.

Lemma reads_object L : reads L 1 wf_object Amf0Codec_ReadObject.
Proof.
  intros c g1 pre post g2 Hp. unfold Amf0Codec_ReadObject, Amf0Object_Read, read_fuel.
  rewrite mkbuf_Left. pose proof (zlen_nonneg post).
  apply (reads_object_with _ (zlen post)); [apply loop_reads_all|lia|done].
Qed.

#[export] Hint Resolve reads_ReadUtf8 reads_ReadString reads_ReadNumber reads_ReadBoolean
  reads_any reads_object : gort.

(** A value with a number, a nested array and a boolean, for the witnesses. *)
Definition sample_any : Amf0Any :=
  mkAmf0Any AMF0_Object (VObject (mkAmf0Object AMF0_Object (mkHashtable [str "a"; str "b"]
    [(str "a", mkAmf0Any AMF0_Number (VFloat64 f64_1));
     (str "b", mkAmf0Any AMF0_EcmaArray (VEcmaArray (mkAmf0EcmaArray AMF0_EcmaArray 1
        (mkHashtable [str "c"] [(str "c", mkAmf0Any AMF0_Boolean (VBool true))]))))]))).

Lemma sample_wf : wf_any sample_any.
Proof.
  assert (forall l : list gostring, bool_decide (NoDup l) = true -> NoDup l) as Hnd
    by (intros l; apply bool_decide_eq_true_1).
  cbn -[Z.pow]. unfold key_ok, str_ok, f64_ok.
  repeat split; try (apply Hnd; reflexivity); try discriminate; try (right; reflexivity).
Qed.

(** ** Properties *)

(** C13. AMF0 round trip: a well-formed value written into a buffer of exactly the
    length of its encoding, and read back from the start of what was written,
    is the same value, with the cursor at the end both times; nested objects and
    ECMA arrays, the order of the properties and every bit of the numbers
    included. *)
Theorem amf0_write_read v r pre room rest :
  wf_any v -> Value r = VNil -> zlen room = zlen (enc_any v) ->
  exists bs,
    Amf0Any_Write v (stream pre (room ++ rest)) = (Ret tt, stream (pre ++ bs) rest)
    /\ Amf0Any_Read r (stream pre (bs ++ rest)) = (Ret v, stream (pre ++ bs) rest).
Proof.
  intros Hw Hr Hl. exists (enc_any v). destruct (encodes_any v Hw) as [Hf _].
  split; [by apply Hf|by apply decodes_any].
Qed.

Lemma amf0_write_read_witness :
  exists bs,
    Amf0Any_Write sample_any (stream [] (make_bytes 32 ++ [])) = (Ret tt, stream ([] ++ bs) [])
    /\ Amf0Any_Read NewAmf0Null (stream [] (bs ++ [])) = (Ret sample_any, stream ([] ++ bs) []).
Proof. apply (amf0_write_read sample_any NewAmf0Null [] (make_bytes 32) []); [apply sample_wf|done|done]. Defined.

(** The sizes of an object and an array without properties: [Size] is 0, [Write]
    needs 4 and 8 bytes. *)
Example empty_sizes :
  Amf0Object_Size NewAmf0Object = Ret 0 /\ zlen (enc_object NewAmf0Object) = 4
  /\ Amf0EcmaArray_Size NewAmf0EcmaArray = Ret 0 /\ zlen (enc_ecma NewAmf0EcmaArray) = 8.
Proof. by vm_compute. Qed.

(** C30. [Size] announces what [Write] needs, for a well-formed value in which no
    object and no array is without properties (for those [Size] is 0, see
    [empty_sizes]): it is the exact number of bytes written, and with a single byte less
    in the buffer [Write] returns an encoding error instead of panicking. *)
Theorem amf0_size_exact v :
  wf_any v -> full_any v ->
  exists bs, Amf0Any_Size v = Ret (zlen bs)
    /\ (forall pre room rest, zlen room = zlen bs ->
          Amf0Any_Write v (stream pre (room ++ rest)) = (Ret tt, stream (pre ++ bs) rest))
    /\ (forall pre post, zlen post < zlen bs ->
          exists e s', Amf0Any_Write v (stream pre post) = (Fail e, s') /\ is_enc_err e).
Proof.
  intros Hw Hf. exists (enc_any v). destruct (encodes_any v Hw) as [Hfit Hov].
  split; [by apply size_any|]. split; intros; [by apply Hfit|by apply Hov].
Qed.

Lemma amf0_size_exact_witness :
  exists bs, Amf0Any_Size sample_any = Ret (zlen bs)
    /\ (forall pre room rest, zlen room = zlen bs ->
          Amf0Any_Write sample_any (stream pre (room ++ rest)) = (Ret tt, stream (pre ++ bs) rest))
    /\ (forall pre post, zlen post < zlen bs ->
          exists e s', Amf0Any_Write sample_any (stream pre post) = (Fail e, s') /\ is_enc_err e).
Proof. apply (amf0_size_exact sample_any); [apply sample_wf|repeat split; discriminate]. Defined.

(** C27. Reading an AMF0 value from arbitrary bytes ends, never panics, and never
    moves the cursor outside the bytes it was given; when it returns a value,
    the value is well-formed (every key of a table once and non-empty, markers
    and dynamic types agreeing, the count of an ECMA array that of its table)
    or the object-end marker, and at least one byte was consumed. *)
Theorem amf0_read_safe r pre post :
  Value r = VNil ->
  exists o a b, post = a ++ b
    /\ Amf0Any_Read r (stream pre post) = (o, stream (pre ++ a) b)
    /\ ((exists e, o = Fail e) \/ (exists v, o = Ret v /\ read_ok v /\ 1 <= zlen a)).
Proof.
  intros Hr. destruct (reads_any (zlen post) r Hr None [] pre post [] ltac:(lia))
    as (o & a & b & Hp & He & Ho).
  exists o, a, b. split; [done|]. split; [done|].
  destruct o; try done; [|by left; eauto]. right. destruct Ho. eauto.
Qed.

Lemma amf0_read_safe_witness :
  exists o a b, [Byte.x03; Byte.x00; Byte.x01] = a ++ b
    /\ Amf0Any_Read NewAmf0Null (stream [] [Byte.x03; Byte.x00; Byte.x01]) = (o, stream ([] ++ a) b)
    /\ ((exists e, o = Fail e) \/ (exists v, o = Ret v /\ read_ok v /\ 1 <= zlen a)).
Proof. apply (amf0_read_safe NewAmf0Null [] [Byte.x03; Byte.x00; Byte.x01]). reflexivity. Defined.

(** A property whose value is null or undefined ends the object it is in:
    reading stops there, returns the properties read before it, and leaves the
    rest of the object, [rest], in the stream.  (The comment of the loop has the
    object end at the end marker.) *)
Theorem null_property_ends_object k m pre rest :
  key_ok k -> m = AMF0_Null \/ m = AMF0_Undefined ->
  Amf0Codec_ReadObject (stream pre ([AMF0_Object] ++ enc_utf8 k ++ [m] ++ rest))
  = (Ret NewAmf0Object, stream (pre ++ [AMF0_Object] ++ enc_utf8 k ++ [m]) rest).
Proof.
  intros [Hk Hs] Hm.
  unfold Amf0Codec_ReadObject, Amf0Object_Read.
  replace ([AMF0_Object] ++ enc_utf8 k ++ [m] ++ rest)
    with (([AMF0_Object] ++ enc_utf8 k ++ [m] ++ []) ++ rest) by (by rewrite <- !app_assoc).
  set (fuel := read_fuel _).
  assert (2 < fuel)%nat as Hf.
  { unfold fuel, read_fuel. rewrite mkbuf_Left, !zlen_app, zlen_enc_utf8. unfold Amf0SizeUtf8.
    pose proof (zlen_nonneg k). pose proof (zlen_nonneg rest). change (zlen [AMF0_Object]) with 1.
    change (zlen [m]) with 1. change (zlen (@nil byte)) with 0. lia. }
  clearbody fuel. destruct fuel as [|fuel]; [lia|].
  enough (decodes (Amf0Object_Read_with (read_properties Amf0Object_Set (S fuel)) NewAmf0Object)
            ([AMF0_Object] ++ enc_utf8 k ++ [m] ++ []) NewAmf0Object) as H.
  { rewrite (H None [] pre [] rest). by rewrite !app_nil_r. }
  apply decodes_guard; [apply zlen_cons_pos|].
  eapply decodes_bind; [apply decodes_ReadByte|]. rewrite bool_decide_eq_true_2 by done.
  cbn [read_properties]. apply decodes_nonempty.
  { rewrite zlen_app, zlen_enc_utf8. unfold Amf0SizeUtf8.
    pose proof (zlen_nonneg k). pose proof (zlen_nonneg ([m] ++ [])). lia. }
  eapply decodes_bind; [by apply decodes_ReadUtf8|].
  eapply (decodes_bind _ _ _ _ (mkAmf0Any m VNil)).
  { apply (read_back_any (mkAmf0Any m VNil)); [done..|]. change (zlen _) with 1. lia. }
  cbn [Amf0Any_IsNil Value]. rewrite orb_true_r. apply decodes_ret.
Qed.

Lemma null_property_ends_object_witness :
  Amf0Codec_ReadObject (stream [] ([AMF0_Object] ++ enc_utf8 (str "audio") ++ [AMF0_Null]
    ++ enc_utf8 (str "tcUrl") ++ enc_string (str "rtmp://h/a") ++ enc_eof))
  = (Ret NewAmf0Object, stream ([] ++ [AMF0_Object] ++ enc_utf8 (str "audio") ++ [AMF0_Null])
      (enc_utf8 (str "tcUrl") ++ enc_string (str "rtmp://h/a") ++ enc_eof)).
Proof.
  apply (null_property_ends_object (str "audio") AMF0_Null []
    (enc_utf8 (str "tcUrl") ++ enc_string (str "rtmp://h/a") ++ enc_eof));
    [by split|by left].
Defined.
