(* ===== verification/Table.v ===== *)
(** * The property table against finite maps

    [Amf0UnSortedHashtable] keeps a slice of keys beside a Go map.  The reference is
    a finite map ([gmap]) with the keys in the order in which they were first set:
    after any sequence of [Set] the table finds, counts and writes what the
    reference says. *)

From Stdlib Require Import ZArith Lia Strings.Byte.
From stdpp Require Import base tactics list gmap fin_maps.
From S2P Require Import Prelude Constants Buffer Float64 Codec Amf0 Amf0Facts.
Open Scope Z_scope.

(** ** The reference *)

Abbreviation entries := (list (gostring * Amf0Any)).

(** The last value of every key. *)
Definition ref_map (l : entries) : gmap gostring Amf0Any := list_to_map (reverse l).

(** The keys in the order of their first appearance. *)
Definition ref_keys (l : entries) : list gostring := reverse (remove_dups (reverse l.*1)).

Lemma ref_map_snoc l k v : ref_map (l ++ [(k, v)]) = <[k := v]> (ref_map l).
Proof. unfold ref_map. by rewrite reverse_snoc. Qed.

Lemma ref_keys_snoc l k v :
  ref_keys (l ++ [(k, v)]) = ref_keys l ++ match ref_map l !! k with Some _ => [] | None => [k] end.
Proof.
  unfold ref_keys, ref_map. rewrite fmap_app, reverse_app. simpl.
  assert (k ∈ reverse l.*1 <-> (list_to_map (reverse l) : gmap gostring Amf0Any) !! k <> None) as Hk.
  { rewrite <- fmap_reverse, <- not_elem_of_list_to_map. split; [tauto|]. intros H. by apply dec_stable. }
  destruct (list_to_map (reverse l) !! k); case_decide.
  - by rewrite app_nil_r.
  - destruct H. by apply Hk.
  - by destruct (proj1 Hk H).
  - by rewrite reverse_cons.
Qed.

(** ** The table *)

(** One [Set] after the other, as a caller writes them. *)
Fixpoint set_entries (l : entries) (h : Amf0UnSortedHashtable) : outcome Amf0UnSortedHashtable :=
  match l with
  | [] => Ret h
  | (k, v) :: l =>
      match Amf0UnSortedHashtable_Set k (Some v) h with
      | Ret h => set_entries l h
      | o => o
      end
  end.

Lemma set_entries_snoc l k v h h' :
  set_entries l h = Ret h' ->
  set_entries (l ++ [(k, v)]) h = Amf0UnSortedHashtable_Set k (Some v) h'.
Proof. revert h. induction l as [|[k' v'] l IH]; intros h; [by intros [= ->]|]. apply IH. Qed.

(** The table is the reference. *)
Definition represents (l : entries) (h : Amf0UnSortedHashtable) : Prop :=
  (forall k, map_get k (ht_props h) = ref_map l !! k)
  /\ ht_index h = ref_keys l /\ ht_index h = (ht_props h).*1
  /\ zlen (ht_props h) = Z.of_nat (size (ref_map l)).

Lemma represents_Set l k v h :
  represents l h -> exists h', Amf0UnSortedHashtable_Set k (Some v) h = Ret h' /\ represents (l ++ [(k, v)]) h'.
Proof.
  destruct h as [index props]. intros (Hm & Hi & Hp & Hn). cbn [ht_props ht_index] in *.
  eexists. split; [reflexivity|]. unfold represents. cbn [ht_props ht_index].
  rewrite ref_keys_snoc, ref_map_snoc, <- Hm. split.
  { intros k'. destruct (decide (k' = k)) as [->|Hne].
    - by rewrite map_get_set, lookup_insert_eq.
    - by rewrite map_get_set_ne, lookup_insert_ne. }
  destruct (map_get k props) as [x|] eqn:E.
  - assert (ref_map l !! k = Some x) as Hx by (by rewrite <- Hm). rewrite app_nil_r, (map_set_keys _ _ _ x) by done.
    split; [done|]. split; [done|]. rewrite map_size_insert_Some, <- Hn by (by rewrite Hx). unfold zlen. f_equal.
    rewrite <- (length_fmap fst), (map_set_keys _ _ _ x), length_fmap; done.
  - assert (ref_map l !! k = None) as Hx by (by rewrite <- Hm). rewrite map_set_new by done.
    split; [by rewrite Hi|]. split; [by rewrite fmap_app, Hp|].
    rewrite (map_size_insert_None _ _ _ Hx), zlen_app. change (zlen [(k, v)]) with 1. lia.
Qed.

Lemma set_entries_represents l :
  exists h, set_entries l NewAmf0UnSortedHashtable = Ret h /\ represents l h.
Proof.
  induction l as [|[k v] l (h & Hs & Hr)] using rev_ind; [by exists NewAmf0UnSortedHashtable|].
  destruct (represents_Set _ k v _ Hr) as (h' & He & Hr'). exists h'. split; [|done].
  by rewrite (set_entries_snoc _ _ _ _ _ Hs).
Qed.

Lemma set_entries_wf l h : Forall prop_ok l -> wf_table h -> exists h', set_entries l h = Ret h' /\ wf_table h'.
Proof.
  intros Hl. revert h. induction Hl as [|[k v] l Hp _ IH]; intros h Hw; [by exists h|].
  destruct (table_Set_wf k v h Hw Hp) as (h' & He & Hw'). cbn [set_entries]. rewrite He. by apply IH.
Qed.

(** The bytes of the entries of a map, in the order of [keys]. *)
Definition enc_ref (m : gmap gostring Amf0Any) (keys : list gostring) : list byte :=
  concat (List.map (fun k => enc_utf8 k ++ match m !! k with Some v => enc_any v | None => [] end) keys).

Lemma enc_ref_props l props :
  NoDup props.*1 -> (forall k, map_get k props = ref_map l !! k) ->
  enc_ref (ref_map l) props.*1 = concat (List.map (fun kv => let '(k, v) := kv in enc_utf8 k ++ enc_any v) props).
Proof.
  intros Hnd Hm. unfold enc_ref. f_equal.
  assert (forall k v, (k, v) ∈ props -> map_get k props = Some v) as Hget.
  { clear Hm. induction props as [|[k' v'] props IH]; [by intros ? ? ?%not_elem_of_nil|].
    apply NoDup_cons in Hnd as [Hk Hnd]. intros k v [[= -> ->]|Hin]%elem_of_cons; simpl; [by rewrite decide_True|].
    rewrite decide_False; [by apply IH|]. intros ->. apply Hk. by apply (list_elem_of_fmap_2 fst _ (k', v)). }
  change (props.*1) with (List.map fst props). rewrite List.map_map. apply map_ext_in. intros [k v] Hin.
  cbn [fst]. rewrite <- Hm, (Hget k v); [done|]. by apply list_elem_of_In.
Qed.

(** ** Properties *)

(** C29. The property table is a map with insertion order: after any sequence of [Set]
    on a new table, in which keys may be set again, [GetPropertyString] and
    [GetPropertyNumber] answer for the last value of the key, [Count] is the number
    of different keys, the keys are listed in the order in which they were first
    set, and [Write] writes each key once, in that order, with its last value. *)
Theorem table_equals_map l :
  exists h, set_entries l NewAmf0UnSortedHashtable = Ret h
    /\ (forall k, Amf0UnSortedHashtable_GetPropertyString k h
                  = match ref_map l !! k with Some v => Amf0Any_String v | None => Ret None end)
    /\ (forall k, Amf0UnSortedHashtable_GetPropertyNumber k h
                  = match ref_map l !! k with Some v => Amf0Any_Number v | None => Ret None end)
    /\ Amf0UnSortedHashtable_Count h = Z.of_nat (size (ref_map l))
    /\ ht_index h = ref_keys l
    /\ (Forall prop_ok l -> encodes (Amf0UnSortedHashtable_Write h) (enc_ref (ref_map l) (ref_keys l))).
Proof.
  destruct (set_entries_represents l) as (h & Hs & Hm & Hi & Hp & Hn). exists h. split; [done|].
  unfold Amf0UnSortedHashtable_GetPropertyString, Amf0UnSortedHashtable_GetPropertyNumber.
  split; [intros k; by rewrite Hm|]. split; [intros k; by rewrite Hm|]. split; [done|]. split; [done|].
  intros Hl. destruct (set_entries_wf l NewAmf0UnSortedHashtable Hl) as (h' & Hs' & Hw);
    [by apply wf_table_props; repeat constructor|].
  rewrite Hs in Hs'. injection Hs' as <-. destruct h as [index props]. cbn [ht_index ht_props] in *.
  pose proof Hw as (_ & Hnd & _)%wf_table_props. rewrite <- Hi, Hp, (enc_ref_props l) by done.
  rewrite Hp in Hw. apply (encodes_table props.*1 props Hw). apply Forall_true. intros kv. apply encodes_any.
Qed.
