(* ===== verification/Messages.v ===== *)
(** * messages.go: messages, their headers and the chunk stream cache

    A [*Message] reachable from one place only is a value.  [Payload] is [None]
    for a nil slice.  The counters [ReceivedPayloadLength] and
    [SentPayloadLength] are ints; the header fields are unsigned integers of
    the width the source gives them. *)

From Stdlib Require Import ZArith Lia Strings.Byte.
From stdpp Require Import base list.
From S2P Require Import Prelude Constants.
Open Scope Z_scope.

Record MessageHeader := mkMessageHeader {
  MessageType : byte;
  PayloadLength : Z;
  TimestampDelta : Z;
  StreamId : Z;
  Timestamp : Z }.

(** [&MessageHeader{}]. *)
Definition zero_header : MessageHeader := mkMessageHeader Byte.x00 0 0 0 0.

Record Message := mkMessage {
  Header : MessageHeader;
  Payload : option (list byte);
  ReceivedPayloadLength : Z;
  PerferCid : Z;
  SentPayloadLength : Z }.

Definition NewMessage : Message := mkMessage zero_header None 0 0 0.

(** The copy owns its header and shares the payload. *)
Definition Message_Copy (r : Message) : Message :=
  {| Header := Header r; Payload := Payload r;
     ReceivedPayloadLength := ReceivedPayloadLength r;
     PerferCid := PerferCid r; SentPayloadLength := SentPayloadLength r |}.

Record ChunkStream := mkChunkStream {
  cs_FMT : byte;
  cs_CId : Z;
  cs_Header : MessageHeader;
  cs_ExtendedTimestamp : bool;
  cs_Msg : option Message;
  cs_MsgCount : Z }.

Definition NewChunkStream (cid : Z) : ChunkStream :=
  mkChunkStream Byte.x00 cid zero_header false None 0.

(** ** Message types *)

Definition is_type (t : byte) (r : MessageHeader) : bool := bool_decide (MessageType r = t).

Definition MessageHeader_IsAmf0Command (r : MessageHeader) : bool := is_type RTMP_MSG_AMF0CommandMessage r.
Definition MessageHeader_IsAmf3Command (r : MessageHeader) : bool := is_type RTMP_MSG_AMF3CommandMessage r.
Definition MessageHeader_IsAmf0Data (r : MessageHeader) : bool := is_type RTMP_MSG_AMF0DataMessage r.
Definition MessageHeader_IsAmf3Data (r : MessageHeader) : bool := is_type RTMP_MSG_AMF3DataMessage r.
Definition MessageHeader_IsWindowAcknowledgementSize (r : MessageHeader) : bool :=
  is_type RTMP_MSG_WindowAcknowledgementSize r.
Definition MessageHeader_IsSetChunkSize (r : MessageHeader) : bool := is_type RTMP_MSG_SetChunkSize r.
Definition MessageHeader_IsUserControlMessage (r : MessageHeader) : bool :=
  is_type RTMP_MSG_UserControlMessage r.
Definition MessageHeader_IsVideo (r : MessageHeader) : bool := is_type RTMP_MSG_VideoMessage r.
Definition MessageHeader_IsAudio (r : MessageHeader) : bool := is_type RTMP_MSG_AudioMessage r.
Definition MessageHeader_IsAggregate (r : MessageHeader) : bool := is_type RTMP_MSG_AggregateMessage r.
