(* ===== verification/Packets.v ===== *)
(** * messages.go: the packets, their codecs and [DecodePacket]

    One record per packet type with the fields of the source.  The interfaces
    [Decoder] and [Encoder] are type classes with one instance per type that
    implements them.  [Decode] is applied to a receiver and returns the receiver
    it leaves behind; after an error the half-filled packet is dropped, as the
    callers of [DecodePacket] do.  Pointer fields are set by every constructor
    and never nil. *)

From Stdlib Require Import ZArith Lia Strings.Byte.
From stdpp Require Import base list.
From S2P Require Import Prelude Constants Buffer Float64 Amf0 Messages.
Open Scope Z_scope.

(** ** Interfaces *)

Class Decoder (P : Type) := { Decode : P -> M Buffer P }.

(** The error of a command name that is not the expected one. *)
Definition name_err (expect actual : gostring) : error :=
  dec_err (str "amf0 decode name failed. expect=" ++ expect ++ str ", actual=" ++ actual).

Definition msg_dec_err (d : gostring) : error := Error ERROR_RTMP_MESSAGE_DECODE d.
Definition msg_enc_err (d : gostring) : error := Error ERROR_RTMP_MESSAGE_ENCODE d.

(** [if a := NewAmf0(v); a != nil && a.Size() > 0 { o.Set(k, a) }], the body of the
    setters of the packets that carry an object; the error of [Set] is dropped. *)
Definition set_property (k : gostring) (v : interface) (o : Amf0Object) : outcome Amf0Object :=
  match NewAmf0 v with
  | None => Ret o
  | Some a =>
      match Amf0Any_Size a with
      | Ret n =>
          if 0 <? n then
            match Amf0Object_Set k (Some a) o with
            | Ret o' => Ret o'
            | Fail _ => Ret o
            | Panic p => Panic p
            | OutOfFuel => OutOfFuel
            end
          else Ret o
      | Fail e => Fail e
      | Panic p => Panic p
      | OutOfFuel => OutOfFuel
      end
  end.

(** [if o.Size() > 0 { codec.WriteObject(o) }]. *)
Definition write_nonempty (o : Amf0Object) : M Buffer unit :=
  let* n := lift (Amf0Object_Size o) in
  if 0 <? n then Amf0Codec_WriteObject o else ret tt.

(** ** ConnectAppPacket *)

Record ConnectAppPacket := mkConnectApp {
  cap_CommandName : gostring;
  cap_TransactionId : Z;
  cap_CommandObject : Amf0Object }.

Definition NewConnectAppPacket : ConnectAppPacket := mkConnectApp [] f64_1 NewAmf0Object.

Definition ConnectAppPacket_Set (k : gostring) (v : interface) (r : ConnectAppPacket) :
    outcome ConnectAppPacket :=
  omap (mkConnectApp (cap_CommandName r) (cap_TransactionId r)) (set_property k v (cap_CommandObject r)).

Definition ConnectAppPacket_Decode (r : ConnectAppPacket) : M Buffer ConnectAppPacket :=
  let* name := Amf0Codec_ReadString in
  guard* bool_decide (name = AMF0_COMMAND_CONNECT) else name_err AMF0_COMMAND_CONNECT name in
  let* tid := Amf0Codec_ReadNumber in
  guard* f64_eqb tid f64_1 else dec_err (str "amf0 decode connect transaction_id failed.") in
  let* obj := Amf0Codec_ReadObject in
  ret (mkConnectApp name tid obj).

Definition ConnectAppPacket_GetPerferCid (r : ConnectAppPacket) : Z := RTMP_CID_OverConnection.
Definition ConnectAppPacket_GetMessageType (r : ConnectAppPacket) : byte := RTMP_MSG_AMF0CommandMessage.

Definition ConnectAppPacket_GetSize (r : ConnectAppPacket) : outcome Z :=
  oplus (Ret (Amf0SizeString (cap_CommandName r) + Amf0SizeNumber))
        (Amf0Object_Size (cap_CommandObject r)).

Definition ConnectAppPacket_Encode (r : ConnectAppPacket) : M Buffer unit :=
  do* Amf0Codec_WriteString (cap_CommandName r) in
  do* Amf0Codec_WriteNumber (cap_TransactionId r) in
  write_nonempty (cap_CommandObject r).

(** ** ConnectAppResPacket *)

Record ConnectAppResPacket := mkConnectAppRes {
  car_CommandName : gostring;
  car_TransactionId : Z;
  car_Props : Amf0Object;
  car_Info : Amf0Object }.

Definition NewConnectAppResPacket : ConnectAppResPacket :=
  mkConnectAppRes AMF0_COMMAND_RESULT f64_1 NewAmf0Object NewAmf0Object.

Definition ConnectAppResPacket_PropsSet (k : gostring) (v : interface) (r : ConnectAppResPacket) :
    outcome ConnectAppResPacket :=
  omap (fun o => mkConnectAppRes (car_CommandName r) (car_TransactionId r) o (car_Info r))
       (set_property k v (car_Props r)).

Definition ConnectAppResPacket_InfoSet (k : gostring) (v : interface) (r : ConnectAppResPacket) :
    outcome ConnectAppResPacket :=
  omap (mkConnectAppRes (car_CommandName r) (car_TransactionId r) (car_Props r))
       (set_property k v (car_Info r)).

Definition ConnectAppResPacket_GetPerferCid (r : ConnectAppResPacket) : Z := RTMP_CID_OverConnection.
Definition ConnectAppResPacket_GetMessageType (r : ConnectAppResPacket) : byte :=
  RTMP_MSG_AMF0CommandMessage.

Definition ConnectAppResPacket_GetSize (r : ConnectAppResPacket) : outcome Z :=
  oplus (oplus (Ret (Amf0SizeString (car_CommandName r) + Amf0SizeNumber))
               (Amf0Object_Size (car_Props r)))
        (Amf0Object_Size (car_Info r)).

Definition ConnectAppResPacket_Encode (r : ConnectAppResPacket) : M Buffer unit :=
  do* Amf0Codec_WriteString (car_CommandName r) in
  do* Amf0Codec_WriteNumber (car_TransactionId r) in
  do* write_nonempty (car_Props r) in
  write_nonempty (car_Info r).

(** ** SetWindowAckSizePacket *)

Record SetWindowAckSizePacket := mkSetWindowAckSize { AcknowledgementWindowSize : Z }.

Definition NewSetWindowAckSizePacket : SetWindowAckSizePacket := mkSetWindowAckSize 0.

Definition SetWindowAckSizePacket_Decode (r : SetWindowAckSizePacket) : M Buffer SetWindowAckSizePacket :=
  let* ok := requires 4 in
  guard* ok else msg_dec_err (str "decode ack window size failed.") in
  let* v := Buffer_ReadUInt32 in
  ret (mkSetWindowAckSize v).

Definition SetWindowAckSizePacket_GetPerferCid (r : SetWindowAckSizePacket) : Z := RTMP_CID_ProtocolControl.
Definition SetWindowAckSizePacket_GetMessageType (r : SetWindowAckSizePacket) : byte :=
  RTMP_MSG_WindowAcknowledgementSize.
Definition SetWindowAckSizePacket_GetSize (r : SetWindowAckSizePacket) : outcome Z := Ret 4.

Definition SetWindowAckSizePacket_Encode (r : SetWindowAckSizePacket) : M Buffer unit :=
  let* ok := requires 4 in
  guard* ok else msg_enc_err (str "encode ack size packet failed.") in
  Buffer_WriteUInt32 (AcknowledgementWindowSize r).

(** ** SetChunkSizePacket *)

Record SetChunkSizePacket := mkSetChunkSize { ChunkSize : Z }.

Definition NewSetChunkSizePacket : SetChunkSizePacket := mkSetChunkSize RTMP_DEFAULT_CHUNK_SIZE.

(** The second check overwrites the error of the first. *)
Definition SetChunkSizePacket_Decode (r : SetChunkSizePacket) : M Buffer SetChunkSizePacket :=
  let* ok := requires 4 in
  guard* ok else msg_dec_err (str "decode chunk size failed.") in
  let* v := Buffer_ReadUInt32 in
  guard* negb (RTMP_MAX_CHUNK_SIZE <? v) else Error ERROR_RTMP_CHUNK_SIZE (str "exceed max chunk size.") in
  guard* negb (v <? RTMP_MIN_CHUNK_SIZE) else Error ERROR_RTMP_CHUNK_SIZE (str "atleast min chunk size.") in
  ret (mkSetChunkSize v).

Definition SetChunkSizePacket_GetPerferCid (r : SetChunkSizePacket) : Z := RTMP_CID_ProtocolControl.
Definition SetChunkSizePacket_GetMessageType (r : SetChunkSizePacket) : byte := RTMP_MSG_SetChunkSize.
Definition SetChunkSizePacket_GetSize (r : SetChunkSizePacket) : outcome Z := Ret 4.

Definition SetChunkSizePacket_Encode (r : SetChunkSizePacket) : M Buffer unit :=
  let* ok := requires 4 in
  guard* ok else msg_enc_err (str "encode chunk packet failed.") in
  Buffer_WriteUInt32 (ChunkSize r).

(** ** SetPeerBandwidthPacket *)

Record SetPeerBandwidthPacket := mkSetPeerBandwidth { Bandwidth : Z; BandwidthType : byte }.

Definition SetPeerBandwidthPacket_GetPerferCid (r : SetPeerBandwidthPacket) : Z := RTMP_CID_ProtocolControl.
Definition SetPeerBandwidthPacket_GetMessageType (r : SetPeerBandwidthPacket) : byte :=
  RTMP_MSG_SetPeerBandwidth.
Definition SetPeerBandwidthPacket_GetSize (r : SetPeerBandwidthPacket) : outcome Z := Ret 5.

Definition SetPeerBandwidthPacket_Encode (r : SetPeerBandwidthPacket) : M Buffer unit :=
  let* ok := requires 5 in
  guard* ok else msg_enc_err (str "encode set bandwidth packet failed.") in
  do* Buffer_WriteUInt32 (Bandwidth r) in
  Buffer_WriteByte (BandwidthType r).

(** ** OnBWDonePacket *)

Record OnBWDonePacket := mkOnBWDone {
  bwd_CommandName : gostring;
  bwd_TransactionId : Z;
  bwd_Args : Amf0Any }.

Definition NewOnBWDonePacket : OnBWDonePacket := mkOnBWDone AMF0_COMMAND_ON_BW_DONE f64_0 NewAmf0Null.

Definition OnBWDonePacket_GetPerferCid (r : OnBWDonePacket) : Z := RTMP_CID_OverConnection.
Definition OnBWDonePacket_GetMessageType (r : OnBWDonePacket) : byte := RTMP_MSG_AMF0CommandMessage.

Definition OnBWDonePacket_GetSize (r : OnBWDonePacket) : outcome Z :=
  Ret (Amf0SizeString (bwd_CommandName r) + Amf0SizeNumber + Amf0SizeNullOrUndefined).

Definition OnBWDonePacket_Encode (r : OnBWDonePacket) : M Buffer unit :=
  do* Amf0Codec_WriteString (bwd_CommandName r) in
  do* Amf0Codec_WriteNumber (bwd_TransactionId r) in
  Amf0Any_Write (bwd_Args r).

(** ** CreateStreamPacket *)

Record CreateStreamPacket := mkCreateStream {
  crs_CommandName : gostring;
  crs_TransactionId : Z;
  crs_CommandObject : Amf0Any }.

Definition NewCreateStreamPacket : CreateStreamPacket :=
  mkCreateStream AMF0_COMMAND_CREATE_STREAM (float64_of_int 2) NewAmf0Null.

Definition CreateStreamPacket_Decode (r : CreateStreamPacket) : M Buffer CreateStreamPacket :=
  let* name := Amf0Codec_ReadString in
  guard* negb (bool_decide (name = []) || negb (bool_decide (name = AMF0_COMMAND_CREATE_STREAM)))
    else name_err AMF0_COMMAND_CREATE_STREAM name in
  let* tid := Amf0Codec_ReadNumber in
  let* obj := Amf0Any_Read (crs_CommandObject r) in
  ret (mkCreateStream name tid obj).

Definition CreateStreamPacket_GetPerferCid (r : CreateStreamPacket) : Z := RTMP_CID_OverConnection.
Definition CreateStreamPacket_GetMessageType (r : CreateStreamPacket) : byte := RTMP_MSG_AMF0CommandMessage.

Definition CreateStreamPacket_GetSize (r : CreateStreamPacket) : outcome Z :=
  Ret (Amf0SizeString (crs_CommandName r) + Amf0SizeNumber + Amf0SizeNullOrUndefined).

Definition CreateStreamPacket_Encode (r : CreateStreamPacket) : M Buffer unit :=
  do* Amf0Codec_WriteString (crs_CommandName r) in
  do* Amf0Codec_WriteNumber (crs_TransactionId r) in
  Amf0Any_Write (crs_CommandObject r).

(** ** CreateStreamResPacket *)

Record CreateStreamResPacket := mkCreateStreamRes {
  csr_CommandName : gostring;
  csr_TransactionId : Z;
  csr_CommandObject : Amf0Any;
  csr_StreamId : Z }.

Definition NewCreateStreamResPacket (transaction_id stream_id : Z) : CreateStreamResPacket :=
  mkCreateStreamRes AMF0_COMMAND_RESULT transaction_id NewAmf0Null stream_id.

Definition CreateStreamResPacket_Decode (r : CreateStreamResPacket) : M Buffer CreateStreamResPacket :=
  let* name := Amf0Codec_ReadString in
  guard* negb (bool_decide (name = []) || negb (bool_decide (name = AMF0_COMMAND_RESULT)))
    else name_err AMF0_COMMAND_RESULT name in
  let* tid := Amf0Codec_ReadNumber in
  let* obj := Amf0Any_Read (csr_CommandObject r) in
  let* sid := Amf0Codec_ReadNumber in
  ret (mkCreateStreamRes name tid obj sid).

Definition CreateStreamResPacket_GetPerferCid (r : CreateStreamResPacket) : Z := RTMP_CID_OverConnection.
Definition CreateStreamResPacket_GetMessageType (r : CreateStreamResPacket) : byte :=
  RTMP_MSG_AMF0CommandMessage.

Definition CreateStreamResPacket_GetSize (r : CreateStreamResPacket) : outcome Z :=
  Ret (Amf0SizeString (csr_CommandName r) + Amf0SizeNumber + Amf0SizeNullOrUndefined + Amf0SizeNumber).

Definition CreateStreamResPacket_Encode (r : CreateStreamResPacket) : M Buffer unit :=
  do* Amf0Codec_WriteString (csr_CommandName r) in
  do* Amf0Codec_WriteNumber (csr_TransactionId r) in
  do* Amf0Any_Write (csr_CommandObject r) in
  Amf0Codec_WriteNumber (csr_StreamId r).

(** ** PlayPacket *)

Record PlayPacket := mkPlay {
  pl_CommandName : gostring;
  pl_TransactionId : Z;
  pl_CommandObject : Amf0Any;
  pl_StreamName : gostring;
  pl_Start : Z;
  pl_Duration : Z;
  pl_Reset : bool }.

Definition NewPlayPacket : PlayPacket :=
  mkPlay AMF0_COMMAND_PLAY f64_0 NewAmf0Null [] (float64_of_int (-2)) (float64_of_int (-1)) true.

(** [if !s.Empty() { v = read }]: a field that may be missing. *)
Definition optional {A} (default : A) (read : M Buffer A) : M Buffer A :=
  let* empty := gets Buffer_Empty in
  if (empty : bool) then ret default else read.

(** The reset field: a boolean, or a number compared with zero. *)
Definition read_reset : M Buffer bool :=
  let* v := Amf0Any_Read (mkAmf0Any Byte.x00 VNil) in
  let* b := lift (Amf0Any_Boolean v) in
  match b with
  | Some b => ret b
  | None =>
      let* n := lift (Amf0Any_Number v) in
      match n with
      | Some n => ret (negb (f64_eqb n f64_0))
      | None => fail (dec_err (str "amf0 invalid type, requires number or bool"))
      end
  end.

Definition PlayPacket_Decode (r : PlayPacket) : M Buffer PlayPacket :=
  let* name := Amf0Codec_ReadString in
  guard* negb (bool_decide (name = []) || negb (bool_decide (name = AMF0_COMMAND_PLAY)))
    else name_err AMF0_COMMAND_PLAY name in
  let* tid := Amf0Codec_ReadNumber in
  let* obj := Amf0Any_Read (pl_CommandObject r) in
  let* stream_name := Amf0Codec_ReadString in
  let* start := optional (pl_Start r) Amf0Codec_ReadNumber in
  let* duration := optional (pl_Duration r) Amf0Codec_ReadNumber in
  let* reset := optional (pl_Reset r) read_reset in
  ret (mkPlay name tid obj stream_name start duration reset).

Definition PlayPacket_GetPerferCid (r : PlayPacket) : Z := RTMP_CID_OverStream.
Definition PlayPacket_GetMessageType (r : PlayPacket) : byte := RTMP_MSG_AMF0CommandMessage.

Definition PlayPacket_GetSize (r : PlayPacket) : outcome Z :=
  Ret (Amf0SizeString (pl_CommandName r) + Amf0SizeNumber + Amf0SizeNullOrUndefined
       + Amf0SizeString (pl_StreamName r) + (Amf0SizeNumber + Amf0SizeNumber + Amf0SizeBoolean)).

Definition PlayPacket_Encode (r : PlayPacket) : M Buffer unit :=
  do* Amf0Codec_WriteString (pl_CommandName r) in
  do* Amf0Codec_WriteNumber (pl_TransactionId r) in
  do* Amf0Any_Write (pl_CommandObject r) in
  do* Amf0Codec_WriteString (pl_StreamName r) in
  do* Amf0Codec_WriteNumber (pl_Start r) in
  do* Amf0Codec_WriteNumber (pl_Duration r) in
  Amf0Codec_WriteBoolean (pl_Reset r).

(** ** PublishPacket *)

Record PublishPacket := mkPublish {
  pb_CommandName : gostring;
  pb_TransactionId : Z;
  pb_CommandObject : Amf0Any;
  pb_StreamName : gostring;
  pb_StreamType : gostring }.

Definition NewPublishPacket : PublishPacket :=
  mkPublish AMF0_COMMAND_PUBLISH f64_0 NewAmf0Null [] (str "live").

Definition PublishPacket_Decode (r : PublishPacket) : M Buffer PublishPacket :=
  let* name := Amf0Codec_ReadString in
  guard* negb (bool_decide (name = []) || negb (bool_decide (name = AMF0_COMMAND_PUBLISH)))
    else name_err AMF0_COMMAND_PUBLISH name in
  let* tid := Amf0Codec_ReadNumber in
  let* obj := Amf0Any_Read (pb_CommandObject r) in
  let* stream_name := Amf0Codec_ReadString in
  let* stream_type := optional (pb_StreamType r) Amf0Codec_ReadString in
  ret (mkPublish name tid obj stream_name stream_type).

Definition PublishPacket_GetPerferCid (r : PublishPacket) : Z := RTMP_CID_OverStream.
Definition PublishPacket_GetMessageType (r : PublishPacket) : byte := RTMP_MSG_AMF0CommandMessage.

Definition PublishPacket_GetSize (r : PublishPacket) : outcome Z :=
  Ret (Amf0SizeString (pb_CommandName r) + Amf0SizeNumber + Amf0SizeNullOrUndefined
       + Amf0SizeString (pb_StreamName r) + Amf0SizeString (pb_StreamType r)).

Definition PublishPacket_Encode (r : PublishPacket) : M Buffer unit :=
  do* Amf0Codec_WriteString (pb_CommandName r) in
  do* Amf0Codec_WriteNumber (pb_TransactionId r) in
  do* Amf0Any_Write (pb_CommandObject r) in
  do* Amf0Codec_WriteString (pb_StreamName r) in
  Amf0Codec_WriteString (pb_StreamType r).

(** ** UserControlPacket *)

Record UserControlPacket := mkUserControl { EventType : Z; EventData : Z; ExtraData : Z }.

Definition NewUserControlPacket : UserControlPacket := mkUserControl 0 0 0.

Definition UserControlPacket_Decode (r : UserControlPacket) : M Buffer UserControlPacket :=
  let* ok := requires 6 in
  guard* ok else msg_dec_err (str "decode user control failed") in
  let* event_type := Buffer_ReadUInt16 in
  let* event_data := Buffer_ReadUInt32 in
  if negb (event_type =? PCUCSetBufferLength)
  then ret (mkUserControl event_type event_data (ExtraData r)) else
  let* ok := requires 4 in
  guard* ok else msg_dec_err (str "decode PCUC set buffer length failed") in
  let* extra := Buffer_ReadUInt32 in
  ret (mkUserControl event_type event_data extra).

Definition UserControlPacket_GetPerferCid (r : UserControlPacket) : Z := RTMP_CID_ProtocolControl.
Definition UserControlPacket_GetMessageType (r : UserControlPacket) : byte := RTMP_MSG_UserControlMessage.

Definition UserControlPacket_GetSize (r : UserControlPacket) : outcome Z :=
  if EventType r =? PCUCSetBufferLength then Ret (2 + 4 + 4) else Ret (2 + 4).

Definition UserControlPacket_Encode (r : UserControlPacket) : M Buffer unit :=
  let* ok := requires 6 in
  guard* ok else msg_enc_err (str "encode user control failed") in
  do* Buffer_WriteUInt16 (EventType r) in
  do* Buffer_WriteUInt32 (EventData r) in
  if negb (EventType r =? PCUCSetBufferLength) then ret tt else
  let* ok := requires 4 in
  guard* ok else msg_enc_err (str "encode PCUC set buffer length failed") in
  Buffer_WriteUInt32 (ExtraData r).

(** ** OnStatusCallPacket *)

Record OnStatusCallPacket := mkOnStatusCall {
  osc_CommandName : gostring;
  osc_TransactionId : Z;
  osc_Args : Amf0Any;
  osc_Data : Amf0Object }.

Definition NewOnStatusCallPacket : OnStatusCallPacket :=
  mkOnStatusCall AMF0_COMMAND_ON_STATUS f64_0 NewAmf0Null NewAmf0Object.

Definition OnStatusCallPacket_Set (k : gostring) (v : interface) (r : OnStatusCallPacket) :
    outcome OnStatusCallPacket :=
  omap (mkOnStatusCall (osc_CommandName r) (osc_TransactionId r) (osc_Args r))
       (set_property k v (osc_Data r)).

Definition OnStatusCallPacket_GetPerferCid (r : OnStatusCallPacket) : Z := RTMP_CID_OverStream.
Definition OnStatusCallPacket_GetMessageType (r : OnStatusCallPacket) : byte := RTMP_MSG_AMF0CommandMessage.

Definition OnStatusCallPacket_GetSize (r : OnStatusCallPacket) : outcome Z :=
  oplus (Ret (Amf0SizeString (osc_CommandName r) + Amf0SizeNumber + Amf0SizeNullOrUndefined))
        (Amf0Object_Size (osc_Data r)).

Definition OnStatusCallPacket_Encode (r : OnStatusCallPacket) : M Buffer unit :=
  do* Amf0Codec_WriteString (osc_CommandName r) in
  do* Amf0Codec_WriteNumber (osc_TransactionId r) in
  do* Amf0Any_Write (osc_Args r) in
  Amf0Object_Write (osc_Data r).

(** ** SampleAccessPacket *)

Record SampleAccessPacket := mkSampleAccess {
  sa_CommandName : gostring;
  VideoSampleAccess : bool;
  AudioSampleAccess : bool }.

Definition NewSampleAccessPacket : SampleAccessPacket := mkSampleAccess AMF0_DATA_SAMPLE_ACCESS false false.

Definition SampleAccessPacket_GetPerferCid (r : SampleAccessPacket) : Z := RTMP_CID_OverStream.
Definition SampleAccessPacket_GetMessageType (r : SampleAccessPacket) : byte := RTMP_MSG_AMF0DataMessage.

Definition SampleAccessPacket_GetSize (r : SampleAccessPacket) : outcome Z :=
  Ret (Amf0SizeString (sa_CommandName r) + Amf0SizeBoolean + Amf0SizeBoolean).

Definition SampleAccessPacket_Encode (r : SampleAccessPacket) : M Buffer unit :=
  do* Amf0Codec_WriteString (sa_CommandName r) in
  do* Amf0Codec_WriteBoolean (VideoSampleAccess r) in
  Amf0Codec_WriteBoolean (AudioSampleAccess r).

(** ** OnStatusDataPacket *)

Record OnStatusDataPacket := mkOnStatusData { osd_CommandName : gostring; osd_Data : Amf0Object }.

Definition NewOnStatusDataPacket : OnStatusDataPacket := mkOnStatusData AMF0_COMMAND_ON_STATUS NewAmf0Object.

Definition OnStatusDataPacket_Set (k : gostring) (v : interface) (r : OnStatusDataPacket) :
    outcome OnStatusDataPacket :=
  omap (mkOnStatusData (osd_CommandName r)) (set_property k v (osd_Data r)).

Definition OnStatusDataPacket_GetPerferCid (r : OnStatusDataPacket) : Z := RTMP_CID_OverStream.
Definition OnStatusDataPacket_GetMessageType (r : OnStatusDataPacket) : byte := RTMP_MSG_AMF0DataMessage.

Definition OnStatusDataPacket_GetSize (r : OnStatusDataPacket) : outcome Z :=
  oplus (Ret (Amf0SizeString (osd_CommandName r))) (Amf0Object_Size (osd_Data r)).

Definition OnStatusDataPacket_Encode (r : OnStatusDataPacket) : M Buffer unit :=
  do* Amf0Codec_WriteString (osd_CommandName r) in
  Amf0Object_Write (osd_Data r).

(** ** CloseStreamPacket *)

Record CloseStreamPacket := mkCloseStream {
  cls_CommandName : gostring;
  cls_TransactionId : Z;
  cls_CommandObject : Amf0Any }.

Definition NewCloseStreamPacket : CloseStreamPacket :=
  mkCloseStream AMF0_COMMAND_CLOSE_STREAM f64_0 NewAmf0Null.

Definition CloseStreamPacket_Decode (r : CloseStreamPacket) : M Buffer CloseStreamPacket :=
  let* name := Amf0Codec_ReadString in
  guard* bool_decide (name = AMF0_COMMAND_CLOSE_STREAM) else name_err AMF0_COMMAND_CLOSE_STREAM name in
  let* tid := Amf0Codec_ReadNumber in
  let* obj := Amf0Any_Read (cls_CommandObject r) in
  ret (mkCloseStream name tid obj).

(** ** FMLEStartPacket *)

Record FMLEStartPacket := mkFMLEStart {
  fml_CommandName : gostring;
  fml_TransactionId : Z;
  fml_CommandObject : Amf0Any;
  fml_StreamName : gostring }.

Definition NewFMLEStartPacket : FMLEStartPacket :=
  mkFMLEStart AMF0_COMMAND_RELEASE_STREAM f64_0 NewAmf0Null [].

Definition FMLEStartPacket_Decode (r : FMLEStartPacket) : M Buffer FMLEStartPacket :=
  let* name := Amf0Codec_ReadString in
  guard* bool_decide (name = AMF0_COMMAND_RELEASE_STREAM) || bool_decide (name = AMF0_COMMAND_FC_PUBLISH)
         || bool_decide (name = AMF0_COMMAND_UNPUBLISH)
    else dec_err (str "amf0 decode name failed. expect=(" ++ AMF0_COMMAND_RELEASE_STREAM ++ str ","
                  ++ AMF0_COMMAND_FC_PUBLISH ++ str "," ++ AMF0_COMMAND_UNPUBLISH
                  ++ str "), actual=" ++ name) in
  let* tid := Amf0Codec_ReadNumber in
  let* obj := Amf0Any_Read (fml_CommandObject r) in
  let* stream_name := Amf0Codec_ReadString in
  ret (mkFMLEStart name tid obj stream_name).

(** ** FMLEStartResPacket *)

Record FMLEStartResPacket := mkFMLEStartRes {
  fmr_CommandName : gostring;
  fmr_TransactionId : Z;
  fmr_CommandObject : Amf0Any;
  fmr_Args : Amf0Any }.

Definition NewFMLEStartResPacket (transaction_id : Z) : FMLEStartResPacket :=
  mkFMLEStartRes AMF0_COMMAND_RESULT transaction_id NewAmf0Null NewAmf0Undefined.

Definition FMLEStartResPacket_GetPerferCid (r : FMLEStartResPacket) : Z := RTMP_CID_OverConnection.
Definition FMLEStartResPacket_GetMessageType (r : FMLEStartResPacket) : byte := RTMP_MSG_AMF0CommandMessage.

Definition FMLEStartResPacket_GetSize (r : FMLEStartResPacket) : outcome Z :=
  oplus (oplus (Ret (Amf0SizeString (fmr_CommandName r) + Amf0SizeNumber))
               (Amf0Any_Size (fmr_CommandObject r)))
        (Amf0Any_Size (fmr_Args r)).

Definition FMLEStartResPacket_Encode (r : FMLEStartResPacket) : M Buffer unit :=
  do* Amf0Codec_WriteString (fmr_CommandName r) in
  do* Amf0Codec_WriteNumber (fmr_TransactionId r) in
  do* Amf0Any_Write (fmr_CommandObject r) in
  Amf0Any_Write (fmr_Args r).

(** ** The interfaces and their implementations *)

#[export] Instance ConnectAppPacket_Decoder : Decoder ConnectAppPacket := {| Decode := ConnectAppPacket_Decode |}.
#[export] Instance SetWindowAckSizePacket_Decoder : Decoder SetWindowAckSizePacket :=
  {| Decode := SetWindowAckSizePacket_Decode |}.
#[export] Instance SetChunkSizePacket_Decoder : Decoder SetChunkSizePacket :=
  {| Decode := SetChunkSizePacket_Decode |}.
#[export] Instance CreateStreamPacket_Decoder : Decoder CreateStreamPacket :=
  {| Decode := CreateStreamPacket_Decode |}.
#[export] Instance CreateStreamResPacket_Decoder : Decoder CreateStreamResPacket :=
  {| Decode := CreateStreamResPacket_Decode |}.
#[export] Instance PlayPacket_Decoder : Decoder PlayPacket := {| Decode := PlayPacket_Decode |}.
#[export] Instance PublishPacket_Decoder : Decoder PublishPacket := {| Decode := PublishPacket_Decode |}.
#[export] Instance UserControlPacket_Decoder : Decoder UserControlPacket :=
  {| Decode := UserControlPacket_Decode |}.
#[export] Instance CloseStreamPacket_Decoder : Decoder CloseStreamPacket :=
  {| Decode := CloseStreamPacket_Decode |}.
#[export] Instance FMLEStartPacket_Decoder : Decoder FMLEStartPacket := {| Decode := FMLEStartPacket_Decode |}.

(** What the type assertions of [on_send_message] can tell of an [Encoder]. *)
Inductive sent_type : Type :=
| SentSetChunkSize (p : SetChunkSizePacket)
| SentConnectApp (p : ConnectAppPacket)
| SentCreateStream (p : CreateStreamPacket)
| SentOther.

Class Encoder (P : Type) := {
  GetPerferCid : P -> Z;
  GetMessageType : P -> byte;
  GetSize : P -> outcome Z;
  Encode : P -> M Buffer unit;
  type_of : P -> sent_type }.

#[export] Instance ConnectAppPacket_Encoder : Encoder ConnectAppPacket :=
  Build_Encoder _ ConnectAppPacket_GetPerferCid ConnectAppPacket_GetMessageType
    ConnectAppPacket_GetSize ConnectAppPacket_Encode SentConnectApp.
#[export] Instance ConnectAppResPacket_Encoder : Encoder ConnectAppResPacket :=
  Build_Encoder _ ConnectAppResPacket_GetPerferCid ConnectAppResPacket_GetMessageType
    ConnectAppResPacket_GetSize ConnectAppResPacket_Encode (fun _ => SentOther).
#[export] Instance SetWindowAckSizePacket_Encoder : Encoder SetWindowAckSizePacket :=
  Build_Encoder _ SetWindowAckSizePacket_GetPerferCid SetWindowAckSizePacket_GetMessageType
    SetWindowAckSizePacket_GetSize SetWindowAckSizePacket_Encode (fun _ => SentOther).
#[export] Instance SetChunkSizePacket_Encoder : Encoder SetChunkSizePacket :=
  Build_Encoder _ SetChunkSizePacket_GetPerferCid SetChunkSizePacket_GetMessageType
    SetChunkSizePacket_GetSize SetChunkSizePacket_Encode SentSetChunkSize.
#[export] Instance SetPeerBandwidthPacket_Encoder : Encoder SetPeerBandwidthPacket :=
  Build_Encoder _ SetPeerBandwidthPacket_GetPerferCid SetPeerBandwidthPacket_GetMessageType
    SetPeerBandwidthPacket_GetSize SetPeerBandwidthPacket_Encode (fun _ => SentOther).
#[export] Instance OnBWDonePacket_Encoder : Encoder OnBWDonePacket :=
  Build_Encoder _ OnBWDonePacket_GetPerferCid OnBWDonePacket_GetMessageType
    OnBWDonePacket_GetSize OnBWDonePacket_Encode (fun _ => SentOther).
#[export] Instance CreateStreamPacket_Encoder : Encoder CreateStreamPacket :=
  Build_Encoder _ CreateStreamPacket_GetPerferCid CreateStreamPacket_GetMessageType
    CreateStreamPacket_GetSize CreateStreamPacket_Encode SentCreateStream.
#[export] Instance CreateStreamResPacket_Encoder : Encoder CreateStreamResPacket :=
  Build_Encoder _ CreateStreamResPacket_GetPerferCid CreateStreamResPacket_GetMessageType
    CreateStreamResPacket_GetSize CreateStreamResPacket_Encode (fun _ => SentOther).
#[export] Instance PlayPacket_Encoder : Encoder PlayPacket :=
  Build_Encoder _ PlayPacket_GetPerferCid PlayPacket_GetMessageType
    PlayPacket_GetSize PlayPacket_Encode (fun _ => SentOther).
#[export] Instance PublishPacket_Encoder : Encoder PublishPacket :=
  Build_Encoder _ PublishPacket_GetPerferCid PublishPacket_GetMessageType
    PublishPacket_GetSize PublishPacket_Encode (fun _ => SentOther).
#[export] Instance UserControlPacket_Encoder : Encoder UserControlPacket :=
  Build_Encoder _ UserControlPacket_GetPerferCid UserControlPacket_GetMessageType
    UserControlPacket_GetSize UserControlPacket_Encode (fun _ => SentOther).
#[export] Instance OnStatusCallPacket_Encoder : Encoder OnStatusCallPacket :=
  Build_Encoder _ OnStatusCallPacket_GetPerferCid OnStatusCallPacket_GetMessageType
    OnStatusCallPacket_GetSize OnStatusCallPacket_Encode (fun _ => SentOther).
#[export] Instance SampleAccessPacket_Encoder : Encoder SampleAccessPacket :=
  Build_Encoder _ SampleAccessPacket_GetPerferCid SampleAccessPacket_GetMessageType
    SampleAccessPacket_GetSize SampleAccessPacket_Encode (fun _ => SentOther).
#[export] Instance OnStatusDataPacket_Encoder : Encoder OnStatusDataPacket :=
  Build_Encoder _ OnStatusDataPacket_GetPerferCid OnStatusDataPacket_GetMessageType
    OnStatusDataPacket_GetSize OnStatusDataPacket_Encode (fun _ => SentOther).
#[export] Instance FMLEStartResPacket_Encoder : Encoder FMLEStartResPacket :=
  Build_Encoder _ FMLEStartResPacket_GetPerferCid FMLEStartResPacket_GetMessageType
    FMLEStartResPacket_GetSize FMLEStartResPacket_Encode (fun _ => SentOther).

(** ** DecodePacket *)

(** The packets [DecodePacket] can return, by dynamic type. *)
Inductive packet : Type :=
| PConnectApp (p : ConnectAppPacket)
| PCreateStream (p : CreateStreamPacket)
| PPlay (p : PlayPacket)
| PPublish (p : PublishPacket)
| PCloseStream (p : CloseStreamPacket)
| PFMLEStart (p : FMLEStartPacket)
| PSetWindowAckSize (p : SetWindowAckSizePacket)
| PUserControl (p : UserControlPacket)
| PSetChunkSize (p : SetChunkSizePacket).

(** The map [requests], [None] when it is nil; keys are compared with [==]. *)
Definition requests_map : Type := option (list (Z * gostring)).

Definition HistoryRequestName (requests : requests_map) (transaction_id : Z) : gostring :=
  match requests with
  | None => []
  | Some l =>
      match List.find (fun kv => f64_eqb kv.1 transaction_id) l with
      | Some kv => kv.2
      | None => []
      end
  end.

(** [packet, err = pkt, pkt.Decode(stream)]. *)
Definition decode_as {P} `{Decoder P} (inj : P -> packet) (r : P) : M Buffer (option packet) :=
  let* p := Decode r in ret (Some (inj p)).

(** The [switch command]; the command with no packet type yields the nil packet. *)
Definition decode_command (command : gostring) : M Buffer (option packet) :=
  if decide (command = AMF0_COMMAND_CONNECT) then decode_as PConnectApp NewConnectAppPacket
  else if decide (command = AMF0_COMMAND_CREATE_STREAM) then decode_as PCreateStream NewCreateStreamPacket
  else if decide (command = AMF0_COMMAND_PLAY) then decode_as PPlay NewPlayPacket
  else if decide (command = AMF0_COMMAND_PUBLISH) then decode_as PPublish NewPublishPacket
  else if decide (command = AMF0_COMMAND_CLOSE_STREAM) then decode_as PCloseStream NewCloseStreamPacket
  else if decide (command = AMF0_COMMAND_RELEASE_STREAM) then decode_as PFMLEStart NewFMLEStartPacket
  else if decide (command = AMF0_COMMAND_FC_PUBLISH) then decode_as PFMLEStart NewFMLEStartPacket
  else if decide (command = AMF0_COMMAND_UNPUBLISH) then decode_as PFMLEStart NewFMLEStartPacket
  else ret None.

Definition is_command (header : MessageHeader) : bool :=
  MessageHeader_IsAmf0Command header || MessageHeader_IsAmf3Command header
  || MessageHeader_IsAmf0Data header || MessageHeader_IsAmf3Data header.

(** A response must answer a request that was sent. *)
Definition check_response (requests : requests_map) : M Buffer unit :=
  let* transaction_id := Amf0Codec_ReadNumber in
  do* modify Buffer_Reset in
  guard* negb (bool_decide (HistoryRequestName requests transaction_id = []))
    else Error ERROR_RTMP_NO_REQUEST (str "decode AMF0/AMF3 transaction request failed") in
  ret tt.

(** The body of [DecodePacket] on its stream. *)
Definition decode_stream (requests : requests_map) (header : MessageHeader) (payload : list byte) :
    M Buffer (option packet) :=
  if is_command header then
    let* more := requires 1 in
    do* (if MessageHeader_IsAmf3Command header && more then
           let* p := lift (slice payload 1 (zlen payload)) in modify (fun _ => NewRtmpStream p)
         else ret tt) in
    let* command := Amf0Codec_ReadString in
    do* (if bool_decide (command = AMF0_COMMAND_RESULT) || bool_decide (command = AMF0_COMMAND_ERROR)
         then check_response requests else ret tt) in
    do* modify Buffer_Reset in
    decode_command command
  else if MessageHeader_IsWindowAcknowledgementSize header
  then decode_as PSetWindowAckSize NewSetWindowAckSizePacket
  else if MessageHeader_IsUserControlMessage header
  then decode_as PUserControl NewUserControlPacket
  else if MessageHeader_IsSetChunkSize header
  then decode_as PSetChunkSize NewSetChunkSizePacket
  else ret None.

Definition DecodePacket (requests : requests_map) (header : MessageHeader) (payload : list byte) :
    outcome (option packet) :=
  (decode_stream requests header payload (NewRtmpStream payload)).1.
