(* ===== verification/PacketsFacts.v ===== *)
(** * The laws of the packets

    [LawfulEncoder] states what an implementation of [Encoder] promises to the
    protocol: a byte string [wire] for every [valid] packet, of the length that
    [GetSize] announces, which [Encode] writes.  [LawfulDecoder] states what an
    implementation of [Decoder] promises: on any bytes, no panic, and a packet
    that satisfies [decoded].  [RoundTrip] adds that decoding gives back what
    was encoded.  Every packet type of the package is an instance. *)

From Stdlib Require Import ZArith Lia Strings.Byte.
From stdpp Require Import base tactics list.
From S2P Require Import Prelude Constants Buffer Codec Float64 Amf0 Amf0Facts Messages Packets.
Open Scope Z_scope.

Class LawfulEncoder (P : Type) `{Encoder P} := {
  valid : P -> Prop;
  wire : P -> list byte;
  wire_pos p : valid p -> 0 < zlen (wire p);
  GetSize_wire p : valid p -> GetSize p = Ret (zlen (wire p));
  Encode_wire p : valid p -> encodes (Encode p) (wire p);
  cid_range p : 2 <= GetPerferCid p <= 63 }.

Class LawfulDecoder (P : Type) `{Decoder P} := {
  fresh : P -> Prop;
  decoded : P -> Prop;
  Decode_reads L p : fresh p -> reads L 0 decoded (Decode p) }.

Class RoundTrip (P : Type) `{LawfulEncoder P, Decoder P} := {
  start : P;
  faithful : P -> Prop;
  faithful_valid p : faithful p -> valid p;
  Decode_wire p : faithful p -> decodes (Decode start) (wire p) p }.

(** ** Fields *)

(** The command object or arguments of a command: null or undefined. *)
Definition null_ok (v : Amf0Any) : Prop := Value v = VNil /\ wf_any v.

(** An object that is either empty, and then left out, or full at every depth. *)
Definition obj_ok (o : Amf0Object) : Prop :=
  wf_object o /\ (ht_props (obj_properties o) = [] \/ full_object o).

Definition enc_nonempty (o : Amf0Object) : list byte :=
  match ht_props (obj_properties o) with
  | [] => []
  | _ => enc_object o
  end.

Lemma zlen_null v : null_ok v -> zlen (enc_any v) = Amf0SizeNullOrUndefined.
Proof. destruct v as [m val]. intros [H _]. simpl in H. by subst val. Qed.

Lemma null_wf v : null_ok v -> wf_any v.
Proof. by intros []. Qed.

Lemma null_NewAmf0Null : null_ok NewAmf0Null.
Proof. split; [done|by left]. Qed.

Lemma full_object_props o : full_object o -> ht_props (obj_properties o) <> [].
Proof. destruct o as [m [index props]]. by intros [? _]%full_table_props. Qed.

Lemma enc_nonempty_full o : full_object o -> enc_nonempty o = enc_object o.
Proof. intros H%full_object_props. unfold enc_nonempty. by destruct (ht_props _). Qed.

Lemma size_nonempty o : obj_ok o -> Amf0Object_Size o = Ret (zlen (enc_nonempty o)).
Proof.
  intros [Hw [He|Hf]]; [|rewrite enc_nonempty_full by done; by apply size_object].
  unfold enc_nonempty. rewrite He. destruct o as [m [index props]]. simpl in *. by subst props.
Qed.

Lemma encodes_nonempty o : obj_ok o -> encodes (write_nonempty o) (enc_nonempty o).
Proof.
  intros Ho. unfold write_nonempty.
  change (encodes (fun s => (let* n := lift (Amf0Object_Size o) in
    if 0 <? n then Amf0Codec_WriteObject o else ret tt) s) (enc_nonempty o)).
  unfold bind, lift. rewrite size_nonempty by done. destruct Ho as [Hw [He|Hf]].
  - unfold enc_nonempty. rewrite He. apply encodes_ret.
  - rewrite enc_nonempty_full by done.
    assert (0 < zlen (enc_object o)) as ->%Z.ltb_lt by (destruct o; cbn; apply zlen_cons_lt).
    by apply encodes_object.
Qed.

Lemma obj_ok_wf o : wf_object o -> full_object o -> obj_ok o.
Proof. split; auto. Qed.

Lemma msg_enc_err_is d : is_enc_err (msg_enc_err d).
Proof. by right. Qed.

#[export] Hint Resolve null_wf encodes_nonempty msg_enc_err_is null_NewAmf0Null : gort.

(** A chain of writes, field by field. *)
Ltac encode_fields :=
  cbn beta in *; repeat apply encodes_bind; eauto with gort.

(** The announced size against the length of the fields. *)
Ltac size_fields :=
  rewrite ?zlen_app, ?zlen_enc_string, ?zlen_enc_number, ?zlen_enc_boolean, ?zlen_null by done;
  cbn [oplus omap]; f_equal; lia.

(** ** Encoders *)

Ltac string_first := apply (zlen_cons_lt AMF0_String).

#[export] Program Instance ConnectAppPacket_Lawful : LawfulEncoder ConnectAppPacket := {|
  valid p := str_ok (cap_CommandName p) /\ obj_ok (cap_CommandObject p);
  wire p := enc_string (cap_CommandName p) ++ enc_number (cap_TransactionId p)
            ++ enc_nonempty (cap_CommandObject p) |}.
Next Obligation. intros p _. string_first. Qed.
Next Obligation.
  intros p [_ Ho]. change (GetSize p) with (ConnectAppPacket_GetSize p); unfold ConnectAppPacket_GetSize. rewrite size_nonempty by done. size_fields.
Qed.
Next Obligation. intros p []. encode_fields. Qed.
Next Obligation. done. Qed.

#[export] Program Instance ConnectAppResPacket_Lawful : LawfulEncoder ConnectAppResPacket := {|
  valid p := str_ok (car_CommandName p) /\ obj_ok (car_Props p) /\ obj_ok (car_Info p);
  wire p := enc_string (car_CommandName p) ++ enc_number (car_TransactionId p)
            ++ enc_nonempty (car_Props p) ++ enc_nonempty (car_Info p) |}.
Next Obligation. intros p _. string_first. Qed.
Next Obligation.
  intros p (_ & Ho & Hi). change (GetSize p) with (ConnectAppResPacket_GetSize p); unfold ConnectAppResPacket_GetSize.
  rewrite !size_nonempty by done. size_fields.
Qed.
Next Obligation. intros p (? & ? & ?). encode_fields. Qed.
Next Obligation. done. Qed.

#[export] Program Instance SetWindowAckSizePacket_Lawful : LawfulEncoder SetWindowAckSizePacket := {|
  valid p := True;
  wire p := be_bytes 4 (AcknowledgementWindowSize p) |}.
Next Obligation. done. Qed.
Next Obligation. done. Qed.
Next Obligation. intros p _. cbn beta. apply encodes_guard; auto with gort. Qed.
Next Obligation. done. Qed.

#[export] Program Instance SetChunkSizePacket_Lawful : LawfulEncoder SetChunkSizePacket := {|
  valid p := True;
  wire p := be_bytes 4 (ChunkSize p) |}.
Next Obligation. done. Qed.
Next Obligation. done. Qed.
Next Obligation. intros p _. cbn beta. apply encodes_guard; auto with gort. Qed.
Next Obligation. done. Qed.

#[export] Program Instance SetPeerBandwidthPacket_Lawful : LawfulEncoder SetPeerBandwidthPacket := {|
  valid p := True;
  wire p := be_bytes 4 (Bandwidth p) ++ [BandwidthType p] |}.
Next Obligation. done. Qed.
Next Obligation. done. Qed.
Next Obligation. intros p _. cbn beta. apply encodes_guard; auto with gort. Qed.
Next Obligation. done. Qed.

#[export] Program Instance OnBWDonePacket_Lawful : LawfulEncoder OnBWDonePacket := {|
  valid p := str_ok (bwd_CommandName p) /\ null_ok (bwd_Args p);
  wire p := enc_string (bwd_CommandName p) ++ enc_number (bwd_TransactionId p) ++ enc_any (bwd_Args p) |}.
Next Obligation. intros p _. string_first. Qed.
Next Obligation. intros p []. change (GetSize p) with (OnBWDonePacket_GetSize p); unfold OnBWDonePacket_GetSize. size_fields. Qed.
Next Obligation. intros p []. encode_fields. Qed.
Next Obligation. done. Qed.

#[export] Program Instance CreateStreamPacket_Lawful : LawfulEncoder CreateStreamPacket := {|
  valid p := str_ok (crs_CommandName p) /\ null_ok (crs_CommandObject p);
  wire p := enc_string (crs_CommandName p) ++ enc_number (crs_TransactionId p)
            ++ enc_any (crs_CommandObject p) |}.
Next Obligation. intros p _. string_first. Qed.
Next Obligation. intros p []. change (GetSize p) with (CreateStreamPacket_GetSize p); unfold CreateStreamPacket_GetSize. size_fields. Qed.
Next Obligation. intros p []. encode_fields. Qed.
Next Obligation. done. Qed.

#[export] Program Instance CreateStreamResPacket_Lawful : LawfulEncoder CreateStreamResPacket := {|
  valid p := str_ok (csr_CommandName p) /\ null_ok (csr_CommandObject p);
  wire p := enc_string (csr_CommandName p) ++ enc_number (csr_TransactionId p)
            ++ enc_any (csr_CommandObject p) ++ enc_number (csr_StreamId p) |}.
Next Obligation. intros p _. string_first. Qed.
Next Obligation. intros p []. change (GetSize p) with (CreateStreamResPacket_GetSize p); unfold CreateStreamResPacket_GetSize. size_fields. Qed.
Next Obligation. intros p []. encode_fields. Qed.
Next Obligation. done. Qed.

#[export] Program Instance PlayPacket_Lawful : LawfulEncoder PlayPacket := {|
  valid p := str_ok (pl_CommandName p) /\ null_ok (pl_CommandObject p) /\ str_ok (pl_StreamName p);
  wire p := enc_string (pl_CommandName p) ++ enc_number (pl_TransactionId p)
            ++ enc_any (pl_CommandObject p) ++ enc_string (pl_StreamName p)
            ++ enc_number (pl_Start p) ++ enc_number (pl_Duration p) ++ enc_boolean (pl_Reset p) |}.
Next Obligation. intros p _. string_first. Qed.
Next Obligation. intros p (? & ? & ?). change (GetSize p) with (PlayPacket_GetSize p); unfold PlayPacket_GetSize. size_fields. Qed.
Next Obligation. intros p (? & ? & ?). encode_fields. Qed.
Next Obligation. done. Qed.

#[export] Program Instance PublishPacket_Lawful : LawfulEncoder PublishPacket := {|
  valid p := str_ok (pb_CommandName p) /\ null_ok (pb_CommandObject p) /\ str_ok (pb_StreamName p)
             /\ str_ok (pb_StreamType p);
  wire p := enc_string (pb_CommandName p) ++ enc_number (pb_TransactionId p)
            ++ enc_any (pb_CommandObject p) ++ enc_string (pb_StreamName p)
            ++ enc_string (pb_StreamType p) |}.
Next Obligation. intros p _. string_first. Qed.
Next Obligation. intros p (? & ? & ? & ?). change (GetSize p) with (PublishPacket_GetSize p); unfold PublishPacket_GetSize. size_fields. Qed.
Next Obligation. intros p (? & ? & ? & ?). encode_fields. Qed.
Next Obligation. done. Qed.

(** The extra data is on the wire for [PCUCSetBufferLength] only. *)
Definition enc_extra (p : UserControlPacket) : list byte :=
  if EventType p =? PCUCSetBufferLength then be_bytes 4 (ExtraData p) else [].

#[export] Program Instance UserControlPacket_Lawful : LawfulEncoder UserControlPacket := {|
  valid p := True;
  wire p := (be_bytes 2 (EventType p) ++ be_bytes 4 (EventData p)) ++ enc_extra p |}.
Next Obligation. done. Qed.
Next Obligation.
  intros p _. change (GetSize p) with (UserControlPacket_GetSize p); unfold UserControlPacket_GetSize, enc_extra. by destruct (_ =? _).
Qed.
Next Obligation.
  intros p _. unfold Encode, UserControlPacket_Encoder, UserControlPacket_Encode, enc_extra.
  eapply (encodes_guard_assoc 6); [auto with gort|done|auto with gort|].
  destruct (_ =? _); simpl; [apply encodes_guard|]; auto with gort.
Qed.
Next Obligation. done. Qed.

#[export] Program Instance OnStatusCallPacket_Lawful : LawfulEncoder OnStatusCallPacket := {|
  valid p := str_ok (osc_CommandName p) /\ null_ok (osc_Args p)
             /\ wf_object (osc_Data p) /\ full_object (osc_Data p);
  wire p := enc_string (osc_CommandName p) ++ enc_number (osc_TransactionId p)
            ++ enc_any (osc_Args p) ++ enc_object (osc_Data p) |}.
Next Obligation. intros p _. string_first. Qed.
Next Obligation.
  intros p (? & ? & ? & ?). change (GetSize p) with (OnStatusCallPacket_GetSize p); unfold OnStatusCallPacket_GetSize.
  rewrite size_object by done. size_fields.
Qed.
Next Obligation. intros p (? & ? & ? & ?). encode_fields. Qed.
Next Obligation. done. Qed.

#[export] Program Instance SampleAccessPacket_Lawful : LawfulEncoder SampleAccessPacket := {|
  valid p := str_ok (sa_CommandName p);
  wire p := enc_string (sa_CommandName p) ++ enc_boolean (VideoSampleAccess p)
            ++ enc_boolean (AudioSampleAccess p) |}.
Next Obligation. intros p _. string_first. Qed.
Next Obligation. intros p ?. change (GetSize p) with (SampleAccessPacket_GetSize p); unfold SampleAccessPacket_GetSize. size_fields. Qed.
Next Obligation. intros p ?. encode_fields. Qed.
Next Obligation. done. Qed.

#[export] Program Instance OnStatusDataPacket_Lawful : LawfulEncoder OnStatusDataPacket := {|
  valid p := str_ok (osd_CommandName p) /\ wf_object (osd_Data p) /\ full_object (osd_Data p);
  wire p := enc_string (osd_CommandName p) ++ enc_object (osd_Data p) |}.
Next Obligation. intros p _. string_first. Qed.
Next Obligation.
  intros p (? & ? & ?). change (GetSize p) with (OnStatusDataPacket_GetSize p); unfold OnStatusDataPacket_GetSize.
  rewrite size_object by done. size_fields.
Qed.
Next Obligation. intros p (? & ? & ?). encode_fields. Qed.
Next Obligation. done. Qed.

#[export] Program Instance FMLEStartResPacket_Lawful : LawfulEncoder FMLEStartResPacket := {|
  valid p := str_ok (fmr_CommandName p)
             /\ (wf_any (fmr_CommandObject p) /\ full_any (fmr_CommandObject p))
             /\ wf_any (fmr_Args p) /\ full_any (fmr_Args p);
  wire p := enc_string (fmr_CommandName p) ++ enc_number (fmr_TransactionId p)
            ++ enc_any (fmr_CommandObject p) ++ enc_any (fmr_Args p) |}.
Next Obligation. intros p _. string_first. Qed.
Next Obligation.
  intros p (? & [? ?] & ? & ?). change (GetSize p) with (FMLEStartResPacket_GetSize p); unfold FMLEStartResPacket_GetSize.
  rewrite !size_any by done. size_fields.
Qed.
Next Obligation. intros p (? & [? ?] & ? & ?). encode_fields. Qed.
Next Obligation. done. Qed.

(** ** Decoders on arbitrary bytes *)

Lemma f64_eqb_1 v : f64_eqb v f64_1 = true -> v = f64_1.
Proof.
  unfold f64_eqb. destruct (f64_is_nan v || f64_is_nan f64_1); [done|].
  change (f64_is_zero f64_1) with false. rewrite andb_false_r. apply Z.eqb_eq.
Qed.

(** The check of a command name in its two spellings. *)
Lemma name_check (name expect : gostring) :
  negb (bool_decide (name = []) || negb (bool_decide (name = expect))) = true -> name = expect.
Proof.
  intros H%negb_true_iff%orb_false_elim. destruct H as [_ H%negb_false_iff].
  by apply bool_decide_eq_true_1 in H.
Qed.

(** The markers of a value that was read agree with its dynamic type, so the type
    assertions of the accessors hold. *)
Lemma read_ok_Boolean v : read_ok v -> exists b, Amf0Any_Boolean v = Ret b.
Proof.
  destruct v as [m val]. intros [Hv|[= -> ->]]; [|by eexists].
  unfold Amf0Any_Boolean. simpl. case_decide as Hm; [|by eexists]. rewrite Hm in Hv.
  destruct val; simpl in Hv; (eexists; reflexivity) || (exfalso; by intuition discriminate).
Qed.

Lemma read_ok_Number v : read_ok v -> exists n, Amf0Any_Number v = Ret n.
Proof.
  destruct v as [m val]. intros [Hv|[= -> ->]]; [|by eexists].
  unfold Amf0Any_Number. simpl. case_decide as Hm; [|by eexists]. rewrite Hm in Hv.
  destruct val; simpl in Hv; (eexists; reflexivity) || (exfalso; by intuition discriminate).
Qed.

Lemma reads_read_reset L : reads L 0 (fun _ => True) read_reset.
Proof.
  eapply reads_then; [by apply reads_any|done|]. intros v Hv.
  destruct (read_ok_Boolean v Hv) as [b Hb]. destruct (read_ok_Number v Hv) as [n Hn].
  intros c g1 pre post g2 Hp. unfold bind, lift. rewrite Hb, Hn.
  destruct b; [by apply (reads_ret L (fun _ => True))|].
  destruct n; [by apply (reads_ret L (fun _ => True))|by apply (reads_fail L 0)].
Qed.

Lemma reads_optional {A} L (Q : A -> Prop) d m :
  Q d -> reads L 0 Q m -> reads L 0 Q (optional d m).
Proof. intros. apply reads_empty; [by apply reads_ret|done]. Qed.

(** One step of a decoder: the next read of the chain, or the next check. *)
Ltac decode_step :=
  first
  [ apply reads_ret
  | apply reads_if; intros ?
  | eapply reads_then;
    [ first [ by apply reads_ReadString | by apply reads_ReadNumber | by apply reads_object
            | by apply reads_any ] | done | intros ? ? ] ].

Definition command_decoded (name : gostring) (n : gostring) (tid : Z) (obj : Amf0Any) : Prop :=
  n = name /\ f64_ok tid /\ read_ok obj.

#[export] Program Instance ConnectAppPacket_LawfulD : LawfulDecoder ConnectAppPacket := {|
  fresh _ := True;
  decoded p := cap_CommandName p = AMF0_COMMAND_CONNECT /\ cap_TransactionId p = f64_1
               /\ wf_object (cap_CommandObject p) |}.
Next Obligation.
  intros L p _. unfold Decode, ConnectAppPacket_Decoder, ConnectAppPacket_Decode. repeat decode_step.
  split; [by apply (bool_decide_eq_true_1 _)|]. split; [by apply f64_eqb_1|done].
Qed.

#[export] Program Instance SetWindowAckSizePacket_LawfulD : LawfulDecoder SetWindowAckSizePacket := {|
  fresh _ := True;
  decoded p := 0 <= AcknowledgementWindowSize p < 2 ^ 32 |}.
Next Obligation.
  intros L p _. eapply reads_guard_then; [done|apply reader_ReadUInt32|].
  intros v Hv. by apply reads_ret.
Qed.

#[export] Program Instance SetChunkSizePacket_LawfulD : LawfulDecoder SetChunkSizePacket := {|
  fresh _ := True;
  decoded p := RTMP_MIN_CHUNK_SIZE <= ChunkSize p <= RTMP_MAX_CHUNK_SIZE |}.
Next Obligation.
  intros L p _. eapply reads_guard_then; [done|apply reader_ReadUInt32|].
  intros v Hv. repeat decode_step. simpl. lia.
Qed.

#[export] Program Instance CreateStreamPacket_LawfulD : LawfulDecoder CreateStreamPacket := {|
  fresh p := Value (crs_CommandObject p) = VNil;
  decoded p := command_decoded AMF0_COMMAND_CREATE_STREAM
                 (crs_CommandName p) (crs_TransactionId p) (crs_CommandObject p) |}.
Next Obligation.
  intros L p Hp. unfold Decode, CreateStreamPacket_Decoder, CreateStreamPacket_Decode. repeat decode_step.
  split; [by apply name_check|done].
Qed.

#[export] Program Instance CreateStreamResPacket_LawfulD : LawfulDecoder CreateStreamResPacket := {|
  fresh p := Value (csr_CommandObject p) = VNil;
  decoded p := command_decoded AMF0_COMMAND_RESULT
                 (csr_CommandName p) (csr_TransactionId p) (csr_CommandObject p)
               /\ f64_ok (csr_StreamId p) |}.
Next Obligation.
  intros L p Hp. unfold Decode, CreateStreamResPacket_Decoder, CreateStreamResPacket_Decode.
  repeat decode_step. split; [split; [by apply name_check|done]|done].
Qed.

#[export] Program Instance PlayPacket_LawfulD : LawfulDecoder PlayPacket := {|
  fresh p := Value (pl_CommandObject p) = VNil /\ f64_ok (pl_Start p) /\ f64_ok (pl_Duration p);
  decoded p := command_decoded AMF0_COMMAND_PLAY
                 (pl_CommandName p) (pl_TransactionId p) (pl_CommandObject p)
               /\ str_ok (pl_StreamName p) /\ f64_ok (pl_Start p) /\ f64_ok (pl_Duration p) |}.
Next Obligation.
  intros L p (Hp & Hs & Hd). unfold Decode, PlayPacket_Decoder, PlayPacket_Decode.
  repeat decode_step.
  assert (reads L 0 f64_ok Amf0Codec_ReadNumber) as Hnum.
  { by apply (reads_weaken L L 9 0 f64_ok); auto with gort. }
  eapply reads_then; [by apply (reads_optional L f64_ok)|done|intros ? ?].
  eapply reads_then; [by apply (reads_optional L f64_ok)|done|intros ? ?].
  eapply reads_then; [apply (reads_optional L (fun _ => True)); [done|apply reads_read_reset]|done|intros ? _].
  apply reads_ret. split; [split; [by apply name_check|done]|done].
Qed.

#[export] Program Instance PublishPacket_LawfulD : LawfulDecoder PublishPacket := {|
  fresh p := Value (pb_CommandObject p) = VNil /\ str_ok (pb_StreamType p);
  decoded p := command_decoded AMF0_COMMAND_PUBLISH
                 (pb_CommandName p) (pb_TransactionId p) (pb_CommandObject p)
               /\ str_ok (pb_StreamName p) /\ str_ok (pb_StreamType p) |}.
Next Obligation.
  intros L p (Hp & Hs). unfold Decode, PublishPacket_Decoder, PublishPacket_Decode. repeat decode_step.
  assert (reads L 0 str_ok Amf0Codec_ReadString) as Hstr.
  { by apply (reads_weaken L L 3 0 str_ok); auto with gort. }
  eapply reads_then; [by apply (reads_optional L str_ok)|done|intros ? ?].
  apply reads_ret. split; [split; [by apply name_check|done]|done].
Qed.

#[export] Program Instance UserControlPacket_LawfulD : LawfulDecoder UserControlPacket := {|
  fresh p := 0 <= ExtraData p < 2 ^ 32;
  decoded p := 0 <= EventType p < 2 ^ 16 /\ 0 <= EventData p < 2 ^ 32 /\ 0 <= ExtraData p < 2 ^ 32 |}.
Next Obligation.
  intros L p Hp c g1 pre post g2 HL.
  set (k := fun v : Z * Z => if negb (v.1 =? PCUCSetBufferLength)
    then ret (mkUserControl v.1 v.2 (ExtraData p)) else
    let* ok := requires 4 in
    guard* ok else msg_dec_err (str "decode PCUC set buffer length failed") in
    let* extra := Buffer_ReadUInt32 in ret (mkUserControl v.1 v.2 extra)).
  destruct (reads_guard_then L 6 _ (fun p => 0 <= EventType p < 2 ^ 16 /\ 0 <= EventData p < 2 ^ 32
      /\ 0 <= ExtraData p < 2 ^ 32) (msg_dec_err (str "decode user control failed")) _ k ltac:(done)
    (reader_bind 2 4 _ _ _ _ pair ltac:(done) ltac:(done) reader_ReadUInt16 reader_ReadUInt32))
    with (c := c) (g1 := g1) (pre := pre) (post := post) (g2 := g2) as (o & a & b & -> & He & Ho); [|done|].
  { intros v (t & d & -> & Ht & Hd). unfold k. simpl. case_match; [by apply reads_ret|].
    eapply reads_guard_then; [done|apply reader_ReadUInt32|]. intros x Hx. by apply reads_ret. }
  exists o, a, b. split; [done|]. split; [|done]. rewrite <- He.
  unfold Decode, UserControlPacket_Decoder, UserControlPacket_Decode, bind, gets.
  destruct (Buffer_Requires 6 _); [|done].
  destruct (Buffer_ReadUInt16 _) as [[] s1]; try done.
  by destruct (Buffer_ReadUInt32 s1) as [[] s2].
Qed.

#[export] Program Instance CloseStreamPacket_LawfulD : LawfulDecoder CloseStreamPacket := {|
  fresh p := Value (cls_CommandObject p) = VNil;
  decoded p := command_decoded AMF0_COMMAND_CLOSE_STREAM
                 (cls_CommandName p) (cls_TransactionId p) (cls_CommandObject p) |}.
Next Obligation.
  intros L p Hp. unfold Decode, CloseStreamPacket_Decoder, CloseStreamPacket_Decode. repeat decode_step.
  split; [by apply (bool_decide_eq_true_1 _)|done].
Qed.

(** The three commands of a publisher that share a packet type. *)
Definition fmle_name (n : gostring) : Prop :=
  n = AMF0_COMMAND_RELEASE_STREAM \/ n = AMF0_COMMAND_FC_PUBLISH \/ n = AMF0_COMMAND_UNPUBLISH.

Lemma fmle_check n :
  bool_decide (n = AMF0_COMMAND_RELEASE_STREAM) || bool_decide (n = AMF0_COMMAND_FC_PUBLISH)
  || bool_decide (n = AMF0_COMMAND_UNPUBLISH) = true <-> fmle_name n.
Proof. unfold fmle_name. rewrite !orb_true_iff, !bool_decide_eq_true. tauto. Qed.

#[export] Program Instance FMLEStartPacket_LawfulD : LawfulDecoder FMLEStartPacket := {|
  fresh p := Value (fml_CommandObject p) = VNil;
  decoded p := fmle_name (fml_CommandName p) /\ f64_ok (fml_TransactionId p)
               /\ read_ok (fml_CommandObject p) /\ str_ok (fml_StreamName p) |}.
Next Obligation.
  intros L p Hp. unfold Decode, FMLEStartPacket_Decoder, FMLEStartPacket_Decode. repeat decode_step.
  split; [by apply fmle_check|done].
Qed.

(** ** Decoding what was encoded *)

Lemma decodes_if {A} (c : bool) e (m : M Buffer A) bs v :
  c = true -> decodes m bs v -> decodes (guard* c else e in m) bs v.
Proof. by intros ->. Qed.

Lemma name_check_refl (name : gostring) :
  name <> [] -> negb (bool_decide (name = []) || negb (bool_decide (name = name))) = true.
Proof. intros. by rewrite bool_decide_eq_false_2, bool_decide_eq_true_2. Qed.

Lemma decodes_optional {A} (d : A) m bs v :
  0 < zlen bs -> decodes m bs v -> decodes (optional d m) bs v.
Proof. apply decodes_nonempty. Qed.

Lemma decodes_read_reset b : decodes read_reset (enc_boolean b) b.
Proof.
  unfold read_reset. rewrite <- (app_nil_r (enc_boolean b)).
  eapply (decodes_bind _ _ (enc_boolean b) [] (mkAmf0Any AMF0_Boolean (VBool b))).
  - apply (decodes_any (mkAmf0Any AMF0_Boolean (VBool b)) (mkAmf0Any Byte.x00 VNil)); done.
  - apply decodes_ret.
Qed.

(** Project the fields of a packet, and nothing else. *)
Ltac fields :=
  cbn [cap_CommandName cap_TransactionId cap_CommandObject AcknowledgementWindowSize ChunkSize
       crs_CommandName crs_TransactionId crs_CommandObject
       csr_CommandName csr_TransactionId csr_CommandObject csr_StreamId
       pl_CommandName pl_TransactionId pl_CommandObject pl_StreamName pl_Start pl_Duration pl_Reset
       pb_CommandName pb_TransactionId pb_CommandObject pb_StreamName pb_StreamType
       EventType EventData ExtraData] in *.

(** A chain of reads, field by field; the last one has nothing behind it. *)
Ltac decode_field :=
  first
  [ apply decodes_if; [solve [by apply name_check_refl | by apply bool_decide_eq_true_2 | done]|]
  | eapply decodes_bind; [solve [eauto with gort]|] ].

#[export] Hint Resolve decodes_read_reset : gort.

(** The last read of a chain that goes on with checks. *)
Lemma decodes_last {A B} (m : M Buffer A) (k : A -> M Buffer B) bs a v :
  decodes m bs a -> decodes (k a) [] v -> decodes (bind m k) bs v.
Proof. intros. rewrite <- (app_nil_r bs). by eapply decodes_bind. Qed.

#[export] Program Instance ConnectAppPacket_RoundTrip : RoundTrip ConnectAppPacket := {|
  start := NewConnectAppPacket;
  faithful p := cap_CommandName p = AMF0_COMMAND_CONNECT /\ cap_TransactionId p = f64_1
                /\ wf_object (cap_CommandObject p) /\ full_object (cap_CommandObject p) |}.
Next Obligation. intros p (Hn & _ & Hw & Hf). split; [by rewrite Hn|by apply obj_ok_wf]. Qed.
Next Obligation.
  intros [name tid obj] (Hn & Ht & Hw & Hf). fields. subst name tid.
  unfold Decode, ConnectAppPacket_Decoder, ConnectAppPacket_Decode, wire, ConnectAppPacket_Lawful. fields. rewrite enc_nonempty_full by done.
  eapply decodes_bind; [by apply decodes_ReadString|]. decode_field.
  eapply decodes_bind; [by apply decodes_ReadNumber|]. decode_field.
  by apply (decodes_map _ (mkConnectApp AMF0_COMMAND_CONNECT f64_1)), decodes_object.
Qed.

#[export] Program Instance SetWindowAckSizePacket_RoundTrip : RoundTrip SetWindowAckSizePacket := {|
  start := NewSetWindowAckSizePacket;
  faithful p := 0 <= AcknowledgementWindowSize p < 2 ^ 32 |}.
Next Obligation. done. Qed.
Next Obligation.
  intros [v] Hv. apply decodes_guard; [done|]. by apply (decodes_map _ mkSetWindowAckSize), decodes_ReadUInt32.
Qed.

#[export] Program Instance SetChunkSizePacket_RoundTrip : RoundTrip SetChunkSizePacket := {|
  start := NewSetChunkSizePacket;
  faithful p := RTMP_MIN_CHUNK_SIZE <= ChunkSize p <= RTMP_MAX_CHUNK_SIZE |}.
Next Obligation. done. Qed.
Next Obligation.
  intros [v] Hv. unfold RTMP_MIN_CHUNK_SIZE, RTMP_MAX_CHUNK_SIZE in Hv. simpl in Hv.
  apply decodes_guard; [done|].
  eapply decodes_last; [apply decodes_ReadUInt32; simpl; lia|].
  apply decodes_if; [unfold RTMP_MAX_CHUNK_SIZE; simpl; lia|].
  apply decodes_if; [unfold RTMP_MIN_CHUNK_SIZE; simpl; lia|]. apply decodes_ret.
Qed.

(** The fields every command starts with. *)
Definition command_ok (name n : gostring) (tid : Z) (obj : Amf0Any) : Prop :=
  n = name /\ f64_ok tid /\ null_ok obj.

#[export] Program Instance CreateStreamPacket_RoundTrip : RoundTrip CreateStreamPacket := {|
  start := NewCreateStreamPacket;
  faithful p := command_ok AMF0_COMMAND_CREATE_STREAM
                  (crs_CommandName p) (crs_TransactionId p) (crs_CommandObject p) |}.
Next Obligation. intros p (Hn & _ & Ho). split; [by rewrite Hn|done]. Qed.
Next Obligation.
  intros [name tid obj] (Hn & Ht & Ho). fields. subst name. unfold Decode, CreateStreamPacket_Decoder, CreateStreamPacket_Decode, wire, CreateStreamPacket_Lawful. fields.
  eapply decodes_bind; [by apply decodes_ReadString|]. repeat decode_field.
  apply (decodes_map _ (mkCreateStream AMF0_COMMAND_CREATE_STREAM tid)). auto with gort.
Qed.

#[export] Program Instance CreateStreamResPacket_RoundTrip : RoundTrip CreateStreamResPacket := {|
  start := NewCreateStreamResPacket f64_0 f64_0;
  faithful p := command_ok AMF0_COMMAND_RESULT
                  (csr_CommandName p) (csr_TransactionId p) (csr_CommandObject p)
                /\ f64_ok (csr_StreamId p) |}.
Next Obligation. intros p ((Hn & _ & Ho) & _). split; [by rewrite Hn|done]. Qed.
Next Obligation.
  intros [name tid obj sid] ((Hn & Ht & Ho) & Hs). fields. subst name.
  unfold Decode, CreateStreamResPacket_Decoder, CreateStreamResPacket_Decode, wire, CreateStreamResPacket_Lawful. fields.
  eapply decodes_bind; [by apply decodes_ReadString|]. repeat decode_field.
  apply (decodes_map _ (mkCreateStreamRes AMF0_COMMAND_RESULT tid obj)). auto with gort.
Qed.

#[export] Program Instance PlayPacket_RoundTrip : RoundTrip PlayPacket := {|
  start := NewPlayPacket;
  faithful p := command_ok AMF0_COMMAND_PLAY (pl_CommandName p) (pl_TransactionId p) (pl_CommandObject p)
                /\ str_ok (pl_StreamName p) /\ f64_ok (pl_Start p) /\ f64_ok (pl_Duration p) |}.
Next Obligation. intros p ((Hn & _ & Ho) & Hs & _). split; [by rewrite Hn|done]. Qed.
Next Obligation.
  intros [name tid obj sn st du rs] ((Hn & Ht & Ho) & Hsn & Hst & Hdu). fields. subst name.
  unfold Decode, PlayPacket_Decoder, PlayPacket_Decode, wire, PlayPacket_Lawful. fields.
  eapply decodes_bind; [by apply decodes_ReadString|]. do 4 decode_field.
  eapply decodes_bind; [apply decodes_optional; [done|by apply decodes_ReadNumber]|].
  eapply decodes_bind; [apply decodes_optional; [done|by apply decodes_ReadNumber]|].
  apply (decodes_map _ (mkPlay AMF0_COMMAND_PLAY tid obj sn st du)).
  apply decodes_optional; [done|apply decodes_read_reset].
Qed.

#[export] Program Instance PublishPacket_RoundTrip : RoundTrip PublishPacket := {|
  start := NewPublishPacket;
  faithful p := command_ok AMF0_COMMAND_PUBLISH (pb_CommandName p) (pb_TransactionId p) (pb_CommandObject p)
                /\ str_ok (pb_StreamName p) /\ str_ok (pb_StreamType p) |}.
Next Obligation. intros p ((Hn & _ & Ho) & Hs & Ht). split; [by rewrite Hn|done]. Qed.
Next Obligation.
  intros [name tid obj sn ty] ((Hn & Ht & Ho) & Hsn & Hty). fields. subst name.
  unfold Decode, PublishPacket_Decoder, PublishPacket_Decode, wire, PublishPacket_Lawful. fields.
  eapply decodes_bind; [by apply decodes_ReadString|]. do 4 decode_field.
  apply (decodes_map _ (mkPublish AMF0_COMMAND_PUBLISH tid obj sn)).
  apply decodes_optional; [apply zlen_cons_lt|by apply decodes_ReadString].
Qed.

#[export] Program Instance UserControlPacket_RoundTrip : RoundTrip UserControlPacket := {|
  start := NewUserControlPacket;
  faithful p := 0 <= EventType p < 2 ^ 16 /\ 0 <= EventData p < 2 ^ 32 /\ 0 <= ExtraData p < 2 ^ 32
                /\ (EventType p <> PCUCSetBufferLength -> ExtraData p = 0) |}.
Next Obligation. done. Qed.
Next Obligation.
  intros [t d x] (Ht & Hd & Hx & Hz). fields.
  unfold Decode, UserControlPacket_Decoder, UserControlPacket_Decode, wire, UserControlPacket_Lawful, enc_extra.
  fields. rewrite <- app_assoc.
  apply decodes_guard.
  { rewrite !zlen_app. pose proof (zlen_nonneg (if t =? PCUCSetBufferLength then be_bytes 4 x else [])).
    unfold zlen at 1 2. rewrite !length_be_bytes. lia. }
  eapply decodes_bind; [by apply decodes_ReadUInt16|].
  eapply decodes_bind; [by apply decodes_ReadUInt32|].
  destruct (Z.eqb_spec t PCUCSetBufferLength) as [->|Hne]; simpl.
  - apply decodes_guard; [done|].
    by apply (decodes_map _ (mkUserControl PCUCSetBufferLength d)), decodes_ReadUInt32.
  - rewrite (Hz Hne). apply decodes_ret.
Qed.

(** The commands that are only decoded, in the form the peer sends them. *)
Definition enc_close (p : CloseStreamPacket) : list byte :=
  enc_string (cls_CommandName p) ++ enc_number (cls_TransactionId p) ++ enc_any (cls_CommandObject p).

Definition enc_fmle (p : FMLEStartPacket) : list byte :=
  enc_string (fml_CommandName p) ++ enc_number (fml_TransactionId p) ++ enc_any (fml_CommandObject p)
  ++ enc_string (fml_StreamName p).

Lemma decodes_close p :
  command_ok AMF0_COMMAND_CLOSE_STREAM (cls_CommandName p) (cls_TransactionId p) (cls_CommandObject p) ->
  decodes (Decode NewCloseStreamPacket) (enc_close p) p.
Proof.
  destruct p as [name tid obj]. intros (Hn & Ht & Ho). cbn in Hn, Ht, Ho. subst name.
  unfold Decode, CloseStreamPacket_Decoder, CloseStreamPacket_Decode, enc_close.
  cbn [cls_CommandName cls_TransactionId cls_CommandObject].
  eapply decodes_bind; [by apply decodes_ReadString|]. repeat decode_field.
  apply (decodes_map _ (mkCloseStream AMF0_COMMAND_CLOSE_STREAM tid)). auto with gort.
Qed.

Lemma fmle_name_ok n : fmle_name n -> str_ok n.
Proof. by intros [-> | [-> | ->]]. Qed.

Lemma decodes_fmle p :
  fmle_name (fml_CommandName p) -> f64_ok (fml_TransactionId p) -> null_ok (fml_CommandObject p) ->
  str_ok (fml_StreamName p) -> decodes (Decode NewFMLEStartPacket) (enc_fmle p) p.
Proof.
  destruct p as [name tid obj sn]. cbn. intros Hn Ht Ho Hs.
  unfold FMLEStartPacket_Decode, enc_fmle.
  cbn [fml_CommandName fml_TransactionId fml_CommandObject fml_StreamName].
  eapply decodes_bind; [by apply decodes_ReadString, fmle_name_ok|].
  apply decodes_if; [by apply fmle_check|]. repeat decode_field.
  apply (decodes_map _ (mkFMLEStart name tid obj)). auto with gort.
Qed.

(** ** DecodePacket *)

(** The packets in the form in which they arrive: message type, payload, and the
    packets the form determines. *)
Definition packet_type (p : packet) : byte :=
  match p with
  | PSetWindowAckSize p => GetMessageType p
  | PUserControl p => GetMessageType p
  | PSetChunkSize p => GetMessageType p
  | _ => RTMP_MSG_AMF0CommandMessage
  end.

Definition packet_wire (p : packet) : list byte :=
  match p with
  | PConnectApp p => wire p
  | PCreateStream p => wire p
  | PPlay p => wire p
  | PPublish p => wire p
  | PCloseStream p => enc_close p
  | PFMLEStart p => enc_fmle p
  | PSetWindowAckSize p => wire p
  | PUserControl p => wire p
  | PSetChunkSize p => wire p
  end.

Definition packet_ok (p : packet) : Prop :=
  match p with
  | PConnectApp p => faithful p
  | PCreateStream p => faithful p
  | PPlay p => faithful p
  | PPublish p => faithful p
  | PCloseStream p =>
      command_ok AMF0_COMMAND_CLOSE_STREAM (cls_CommandName p) (cls_TransactionId p) (cls_CommandObject p)
  | PFMLEStart p =>
      fmle_name (fml_CommandName p) /\ f64_ok (fml_TransactionId p) /\ null_ok (fml_CommandObject p)
      /\ str_ok (fml_StreamName p)
  | PSetWindowAckSize p => faithful p
  | PUserControl p => faithful p
  | PSetChunkSize p => faithful p
  end.

(** The postcondition of a decoding, by packet type. *)
Definition packet_decoded (p : packet) : Prop :=
  match p with
  | PConnectApp p => decoded p
  | PCreateStream p => decoded p
  | PPlay p => decoded p
  | PPublish p => decoded p
  | PCloseStream p => decoded p
  | PFMLEStart p => decoded p
  | PSetWindowAckSize p => decoded p
  | PUserControl p => decoded p
  | PSetChunkSize p => decoded p
  end.

Definition is_response (name : gostring) : bool :=
  bool_decide (name = AMF0_COMMAND_RESULT) || bool_decide (name = AMF0_COMMAND_ERROR).

(** A command is decoded from the start of its payload, less the first byte of an
    AMF3 command. *)
Definition command_payload (header : MessageHeader) (payload : list byte) : list byte :=
  if MessageHeader_IsAmf3Command header && (1 <=? zlen payload) then drop 1 payload else payload.

Lemma command_stream header payload :
  (let* more := requires 1 in
   if MessageHeader_IsAmf3Command header && more then
     let* p := lift (slice payload 1 (zlen payload)) in modify (fun _ => NewRtmpStream p)
   else ret tt) (stream [] payload) = (Ret tt, stream [] (command_payload header payload)).
Proof.
  unfold bind at 1, gets. rewrite mkbuf_Requires. unfold command_payload.
  destruct (MessageHeader_IsAmf3Command header); [|done]. simpl.
  destruct (Z.leb_spec 1 (zlen payload)) as [Hl|Hl]; [|done].
  destruct payload as [|b p]; [by apply Zle_not_lt in Hl|].
  unfold bind, lift. rewrite (slice_suffix [b] p) by done. unfold modify. simpl.
  by rewrite NewRtmpStream_stream.
Qed.

Lemma DecodePacket_command reqs header payload name rest :
  is_command header = true -> command_payload header payload = enc_string name ++ rest ->
  str_ok name -> is_response name = false ->
  DecodePacket reqs header payload = (decode_command name (stream [] (enc_string name ++ rest))).1.
Proof.
  intros Hc Hp Hn Hr. unfold DecodePacket, decode_stream. rewrite NewRtmpStream_stream, Hc.
  pose proof (command_stream header payload) as Hs. rewrite Hp in Hs.
  unfold bind at 1, gets. unfold bind at 1, gets in Hs.
  rewrite (bind_Ret _ _ _ _ _ Hs).
  rewrite (bind_Ret _ _ _ _ _ (decodes_ReadString name Hn None [] [] [] rest)).
  unfold is_response in Hr. rewrite Hr. done.
Qed.

Lemma decode_as_wire {P} `{Decoder P} (inj : P -> packet) r bs p :
  decodes (Decode r) bs p -> (decode_as inj r (stream [] bs)).1 = Ret (Some (inj p)).
Proof.
  intros Hd. unfold decode_as. specialize (Hd None [] [] [] []). rewrite app_nil_r in Hd.
  by rewrite (bind_Ret _ _ _ _ _ Hd).
Qed.

(** The dispatch of a command on its name. *)
Lemma DecodePacket_dispatch {P} `{Decoder P} (inj : P -> packet) (r p : P) reqs header payload name rest :
  is_command header = true -> command_payload header payload = enc_string name ++ rest ->
  str_ok name -> is_response name = false -> decode_command name = decode_as inj r ->
  decodes (Decode r) (enc_string name ++ rest) p ->
  DecodePacket reqs header payload = Ret (Some (inj p)).
Proof.
  intros Hc Hp Hn Hr Hd Hw. rewrite (DecodePacket_command _ _ _ name rest Hc Hp Hn Hr), Hd.
  by apply decode_as_wire.
Qed.

Lemma decode_command_packet reqs header payload p :
  packet_type p = RTMP_MSG_AMF0CommandMessage -> packet_ok p -> is_command header = true ->
  command_payload header payload = packet_wire p ->
  DecodePacket reqs header payload = Ret (Some p).
Proof.
  intros Ht Hok Hc Hp. destruct p as [p|p|p|p|p|p|p|p|p]; try discriminate Ht.
  - pose proof (Decode_wire p Hok) as Hd. destruct Hok as (Hn & _).
    eapply (DecodePacket_dispatch PConnectApp _ _ _ _ _ _ _ Hc Hp); [by rewrite Hn..|exact Hd].
  - pose proof (Decode_wire p Hok) as Hd. destruct Hok as (Hn & _).
    eapply (DecodePacket_dispatch PCreateStream _ _ _ _ _ _ _ Hc Hp); [by rewrite Hn..|exact Hd].
  - pose proof (Decode_wire p Hok) as Hd. destruct Hok as ((Hn & _) & _).
    eapply (DecodePacket_dispatch PPlay _ _ _ _ _ _ _ Hc Hp); [by rewrite Hn..|exact Hd].
  - pose proof (Decode_wire p Hok) as Hd. destruct Hok as ((Hn & _) & _).
    eapply (DecodePacket_dispatch PPublish _ _ _ _ _ _ _ Hc Hp); [by rewrite Hn..|exact Hd].
  - pose proof (decodes_close p Hok) as Hd. destruct Hok as (Hn & _).
    eapply (DecodePacket_dispatch PCloseStream _ _ _ _ _ _ _ Hc Hp); [by rewrite Hn..|exact Hd].
  - destruct Hok as (Hn & Ht' & Ho & Hs). pose proof (decodes_fmle p Hn Ht' Ho Hs) as Hd.
    eapply (DecodePacket_dispatch PFMLEStart _ _ _ _ _ _ _ Hc Hp);
      [by apply fmle_name_ok|by destruct Hn as [-> | [-> | ->]]..|exact Hd].
Qed.

(** What [DecodePacket] returns satisfies the postcondition of its type. *)
Definition result_ok (o : option packet) : Prop :=
  match o with Some p => packet_decoded p | None => True end.

Lemma reads_decode_as {P} `{LawfulDecoder P} L (inj : P -> packet) (r : P) :
  fresh r -> (forall p, decoded p -> packet_decoded (inj p)) ->
  reads L 0 result_ok (decode_as inj r).
Proof.
  intros Hr Hi. eapply reads_then; [by apply Decode_reads|done|]. intros p Hp. apply reads_ret. by apply Hi.
Qed.

Lemma reads_decode_command L name : reads L 0 result_ok (decode_command name).
Proof.
  unfold decode_command. repeat case_decide; try (by apply reads_decode_as); by apply reads_ret.
Qed.

(** A read from the start of a stream, with the stream reset behind it. *)
Lemma reads_reset {A} L n (Q : A -> Prop) m payload :
  reads L n Q m -> zlen payload <= L ->
  exists o s', m (stream [] payload) = (o, s') /\ Buffer_Reset s' = stream [] payload
    /\ match o with Ret v => Q v | Fail _ => True | _ => False end.
Proof.
  intros Hm HL. destruct (Hm None [] [] payload [] HL) as (o & a & b & -> & He & Ho).
  exists o, (stream ([] ++ a) b). split; [done|]. split; [by rewrite mkbuf_Reset|].
  destruct o; try done. by destruct Ho.
Qed.

Lemma check_response_spec reqs a b :
  exists o s', check_response reqs (stream a b) = (o, s') /\ safe o
    /\ (o = Ret tt -> s' = stream [] (a ++ b)).
Proof.
  destruct (reads_ReadNumber (zlen b) None [] a b [] ltac:(lia)) as (o & x & y & -> & He & Ho).
  unfold check_response, bind at 1. rewrite He. destruct o as [t|e| |]; try done; [|by eexists _, _].
  unfold bind, modify, ret, fail.
  destruct (negb _); eexists _, _; (split; [done|]); (split; [done|]); [|done].
  intros _. by rewrite mkbuf_Reset, app_assoc.
Qed.

Lemma DecodePacket_safe_lemma reqs header payload :
  match DecodePacket reqs header payload with
  | Ret o => result_ok o
  | Fail _ => True
  | Panic _ | OutOfFuel => False
  end.
Proof.
  assert (forall m, reads (zlen payload) 0 result_ok m ->
    match (m (stream [] payload)).1 with Ret o => result_ok o | Fail _ => True | _ => False end) as Hend.
  { intros m Hm. destruct (reads_reset _ _ _ _ payload Hm ltac:(lia)) as (o & s' & -> & _ & Ho). done. }
  unfold DecodePacket, decode_stream. rewrite NewRtmpStream_stream.
  destruct (is_command header).
  2: { destruct (MessageHeader_IsWindowAcknowledgementSize header); [by apply Hend, reads_decode_as|].
       destruct (MessageHeader_IsUserControlMessage header); [by apply Hend, reads_decode_as|].
       destruct (MessageHeader_IsSetChunkSize header); [by apply Hend, reads_decode_as|done]. }
  pose proof (command_stream header payload) as Hs. unfold bind at 1, gets in Hs.
  unfold bind at 1, gets. rewrite (bind_Ret _ _ _ _ _ Hs).
  clear Hend Hs. generalize (command_payload header payload). clear payload header. intros payload.
  destruct (reads_ReadString (zlen payload) None [] [] payload [] ltac:(lia)) as (o & a & b & -> & He & Ho).
  unfold bind at 1. rewrite He. destruct o as [name| | |]; try done.
  assert (exists o s', (if bool_decide (name = AMF0_COMMAND_RESULT) || bool_decide (name = AMF0_COMMAND_ERROR)
    then check_response reqs else ret tt) (stream a b) = (o, s') /\ safe o
    /\ (o = Ret tt -> Buffer_Reset s' = stream [] (a ++ b))) as (o & s' & Hr & Hsafe & Hreset).
  { destruct (_ || _); [|by eexists _, _]. destruct (check_response_spec reqs a b) as (o & s' & ? & ? & Hs).
    exists o, s'. split_and!; try done. intros Ht. by rewrite (Hs Ht), mkbuf_Reset. }
  unfold bind at 1. rewrite app_nil_l, Hr. destruct o as [[]| | |]; try done.
  unfold bind, modify. rewrite (Hreset eq_refl).
  destruct (reads_reset _ _ _ _ (a ++ b) (reads_decode_command (zlen (a ++ b)) name) ltac:(lia))
    as (o & s2 & -> & _ & Ho2). done.
Qed.

(** ** Properties *)

(** C11. [DecodePacket] gives back what was encoded, for a packet of the nine types it knows
    that has the form its command has on the wire ([packet_ok]): the name of its
    command, a null command object where the command has no other, strings of at most
    65535 bytes, numbers that fit their fields, for [connect] the transaction 1 and
    command objects that are not empty at any depth, for [SetChunkSize] a size from
    128 to 65536, no extra data but for a buffer length.  In the message type and the
    byte form in which the package (or, for closeStream and the FMLE commands, the
    peer) sends it, the result is that packet, whatever requests are outstanding; and
    a command in an AMF3 message, which has one more byte in front, is decoded
    likewise. *)
Theorem DecodePacket_wire reqs header p :
  packet_ok p ->
  (MessageType header = packet_type p ->
     DecodePacket reqs header (packet_wire p) = Ret (Some p))
  /\ (MessageType header = RTMP_MSG_AMF3CommandMessage ->
      packet_type p = RTMP_MSG_AMF0CommandMessage ->
      forall b, DecodePacket reqs header (b :: packet_wire p) = Ret (Some p)).
Proof.
  intros Hok. destruct header as [ty ? ? ? ?]. simpl. split.
  - intros ->. destruct p as [p|p|p|p|p|p|p|p|p];
      try (by apply decode_command_packet).
    + unfold DecodePacket. rewrite NewRtmpStream_stream.
      exact (decode_as_wire PSetWindowAckSize _ _ _ (Decode_wire p Hok)).
    + unfold DecodePacket. rewrite NewRtmpStream_stream.
      exact (decode_as_wire PUserControl _ _ _ (Decode_wire p Hok)).
    + unfold DecodePacket. rewrite NewRtmpStream_stream.
      exact (decode_as_wire PSetChunkSize _ _ _ (Decode_wire p Hok)).
  - intros -> Ht b. apply decode_command_packet; try done.
    unfold command_payload. rewrite (proj2 (Z.leb_le _ _)) by auto with gort. done.
Qed.

Definition sample_play : packet :=
  PPlay (mkPlay AMF0_COMMAND_PLAY f64_0 NewAmf0Null (str "livestream") f64_0 f64_1 true).

Definition typed_header (t : byte) : MessageHeader := mkMessageHeader t 0 0 0 0.

Lemma DecodePacket_wire_witness :
  DecodePacket None (typed_header RTMP_MSG_AMF0CommandMessage) (packet_wire sample_play) = Ret (Some sample_play)
  /\ DecodePacket None (typed_header RTMP_MSG_AMF3CommandMessage) (Byte.x00 :: packet_wire sample_play)
     = Ret (Some sample_play).
Proof.
  assert (packet_ok sample_play) as Hok by (repeat split; try done; by left).
  split.
  - exact (proj1 (DecodePacket_wire None (typed_header RTMP_MSG_AMF0CommandMessage) sample_play Hok) eq_refl).
  - exact (proj2 (DecodePacket_wire None (typed_header RTMP_MSG_AMF3CommandMessage) sample_play Hok) eq_refl eq_refl Byte.x00).
Defined.

(** C14. [DecodePacket] on arbitrary header and bytes ends without a panic: it
    returns an error, the nil packet, or a packet whose fields satisfy what its
    type demands ([packet_decoded]: the command name, the ranges of the
    numbers, the chunk size between 128 and 65536, well-formed objects). *)
Theorem DecodePacket_safe reqs header payload :
  match DecodePacket reqs header payload with
  | Ret o => result_ok o
  | Fail _ => True
  | Panic _ | OutOfFuel => False
  end.
Proof. apply DecodePacket_safe_lemma. Qed.

(** C37. A response ([_result] or [_error]) to transaction [tid] is an error unless a
    request with that transaction is on record; with one on record it decodes to
    the nil packet, whatever follows the transaction id.  With the nil map a
    protocol starts with, every response is therefore an error. *)
Theorem DecodePacket_response reqs header payload name tid rest :
  is_command header = true -> is_response name = true -> f64_ok tid ->
  command_payload header payload = enc_string name ++ enc_number tid ++ rest ->
  DecodePacket reqs header payload
  = (if decide (HistoryRequestName reqs tid = [])
     then Fail (Error ERROR_RTMP_NO_REQUEST (str "decode AMF0/AMF3 transaction request failed"))
     else Ret None)
  /\ HistoryRequestName None tid = [].
Proof.
  intros Hc Hr Ht Hp. split; [|done].
  assert (str_ok name) as Hn by (unfold is_response in Hr;
    apply orb_true_iff in Hr as [->%bool_decide_eq_true_1 | ->%bool_decide_eq_true_1]; done).
  unfold DecodePacket, decode_stream. rewrite NewRtmpStream_stream, Hc.
  pose proof (command_stream header payload) as Hs. rewrite Hp in Hs. unfold bind at 1, gets in Hs.
  unfold bind at 1, gets. rewrite (bind_Ret _ _ _ _ _ Hs).
  rewrite (bind_Ret _ _ _ _ _ (decodes_ReadString name Hn None [] [] [] _)).
  unfold is_response in Hr. rewrite Hr. unfold bind at 1, check_response.
  rewrite (bind_Ret _ _ _ _ _ (decodes_ReadNumber tid Ht None [] _ [] rest)).
  unfold bind, modify. destruct (decide (HistoryRequestName reqs tid = [])) as [Hh|Hh].
  - by rewrite bool_decide_eq_true_2.
  - rewrite bool_decide_eq_false_2 by done. simpl.
    by apply orb_true_iff in Hr as [->%bool_decide_eq_true_1 | ->%bool_decide_eq_true_1].
Qed.

Lemma DecodePacket_response_witness :
  DecodePacket (Some [(f64_1, str "connect")])
    (mkMessageHeader RTMP_MSG_AMF0CommandMessage 0 0 0 0)
    (enc_string AMF0_COMMAND_RESULT ++ enc_number f64_1 ++ [])
  = Ret None
  /\ HistoryRequestName None f64_1 = [].
Proof.
  apply (DecodePacket_response (Some [(f64_1, str "connect")])
    (mkMessageHeader RTMP_MSG_AMF0CommandMessage 0 0 0 0)
    (enc_string AMF0_COMMAND_RESULT ++ enc_number f64_1 ++ []) AMF0_COMMAND_RESULT f64_1 []); done.
Defined.
