(* ===== verification/Protocol.v ===== *)
(** * protocol.go: receiving chunks into messages, sending messages as chunks

    [protocol] is the data of the source's struct that the two directions work
    on; the queues, locks and the goroutines around them are the subject of
    [Goroutines].  The [*Socket] is shared by the protocol and its input
    buffer; it is kept once, inside [buffer] ([bf_conn]), and reached from
    there by both.  A [*ChunkStream] is owned by the map [chunkStreams]: the
    functions that update one in place run on the pair of the buffer and the
    chunk stream, and the pair is written back whatever their outcome. *)

From Stdlib Require Import ZArith Lia Strings.Byte.
From stdpp Require Import base list gmap.
From S2P Require Import Prelude Constants HPBuffer Socket Buffer Float64 Amf0 Messages Packets.
Open Scope Z_scope.

(** ** State *)

Record AckWindowSize := mkAckWindowSize { ack_window_size : Z; acked_size : Z }.

(** The difference is taken in 64 unsigned bits. *)
Definition AckWindowSize_ShouldAckRead (n : Z) (r : AckWindowSize) : bool :=
  if ack_window_size r <=? 0 then false
  else ack_window_size r <? to_uint 64 (n - acked_size r).

Record protocol := mkProtocol {
  requests : requests_map;
  chunkStreams : gmap Z ChunkStream;
  buffer : Buffer;
  inChunkSize : Z;
  inAckSize : AckWindowSize;
  outChunkSize : Z;
  outHeaderFmt0 : Buffer;
  outHeaderFmt3 : Buffer }.

Definition NewProtocol (conn : TCPConn) : protocol := {|
  requests := None;
  chunkStreams := ∅;
  buffer := NewRtmpBuffer (NewSocket conn);
  inChunkSize := RTMP_DEFAULT_CHUNK_SIZE;
  inAckSize := mkAckWindowSize 0 0;
  outChunkSize := RTMP_DEFAULT_CHUNK_SIZE;
  outHeaderFmt0 := NewRtmpStream (make_bytes RTMP_MAX_FMT0_HEADER_SIZE);
  outHeaderFmt3 := NewRtmpStream (make_bytes RTMP_MAX_FMT3_HEADER_SIZE) |}.

Definition set_requests v r := mkProtocol v (chunkStreams r) (buffer r) (inChunkSize r) (inAckSize r)
  (outChunkSize r) (outHeaderFmt0 r) (outHeaderFmt3 r).
Definition set_chunkStreams v r := mkProtocol (requests r) v (buffer r) (inChunkSize r) (inAckSize r)
  (outChunkSize r) (outHeaderFmt0 r) (outHeaderFmt3 r).
Definition set_buffer v r := mkProtocol (requests r) (chunkStreams r) v (inChunkSize r) (inAckSize r)
  (outChunkSize r) (outHeaderFmt0 r) (outHeaderFmt3 r).
Definition set_inChunkSize v r := mkProtocol (requests r) (chunkStreams r) (buffer r) v (inAckSize r)
  (outChunkSize r) (outHeaderFmt0 r) (outHeaderFmt3 r).
Definition set_inAckSize v r := mkProtocol (requests r) (chunkStreams r) (buffer r) (inChunkSize r) v
  (outChunkSize r) (outHeaderFmt0 r) (outHeaderFmt3 r).
Definition set_outChunkSize v r := mkProtocol (requests r) (chunkStreams r) (buffer r) (inChunkSize r)
  (inAckSize r) v (outHeaderFmt0 r) (outHeaderFmt3 r).
Definition set_outHeaderFmt0 v r := mkProtocol (requests r) (chunkStreams r) (buffer r) (inChunkSize r)
  (inAckSize r) (outChunkSize r) v (outHeaderFmt3 r).
Definition set_outHeaderFmt3 v r := mkProtocol (requests r) (chunkStreams r) (buffer r) (inChunkSize r)
  (inAckSize r) (outChunkSize r) (outHeaderFmt0 r) v.

(** [r.conn.Write(b)], the count discarded. *)
Definition conn_Write (b : list byte) : M protocol unit := fun r =>
  match bf_conn (buffer r) with
  | None => (Panic NilDereference, r)
  | Some s =>
      let '(o, s') := Socket_Write b s in
      (omap (fun _ => tt) o, set_buffer {| bf_buf := bf_buf (buffer r); bf_conn := Some s' |} r)
  end.

Definition conn_RecvBytes (r : protocol) : Z :=
  match bf_conn (buffer r) with Some s => Socket_RecvBytes s | None => 0 end.

(** ** Receiving *)

(** The format is two bits of the first byte, the chunk stream id the other six,
    or one or two bytes that follow. *)
Definition read_basic_header : M Buffer (Z * Z * Z) :=
  do* Buffer_EnsureBufferBytes 1 in
  let* b := Buffer_ReadByte in
  let cid := Z.land (uint8_to_Z b) 63 in
  let format := Z.land (Z.shiftr (uint8_to_Z b) 6) 3 in
  if cid =? 0 then
    do* Buffer_EnsureBufferBytes 1 in
    let* b1 := Buffer_ReadByte in
    ret (format, 64 + uint8_to_Z b1, 2)
  else if cid =? 1 then
    do* Buffer_EnsureBufferBytes 2 in
    let* b1 := Buffer_ReadByte in
    let* b2 := Buffer_ReadByte in
    ret (format, 64 + uint8_to_Z b1 + uint8_to_Z b2 * 256, 3)
  else ret (format, cid, 1).

(** The state of the functions that fill a chunk stream. *)
Definition on_buf {A} (m : M Buffer A) : M (Buffer * ChunkStream) A :=
  zoom fst (fun b s => (b, s.2)) m.
Definition upd (f : ChunkStream -> ChunkStream) : M (Buffer * ChunkStream) unit :=
  modify (fun s => (s.1, f s.2)).
Definition the {A} (f : ChunkStream -> A) : M (Buffer * ChunkStream) A := gets (fun s => f s.2).

Definition set_Header v c := mkChunkStream (cs_FMT c) (cs_CId c) v (cs_ExtendedTimestamp c) (cs_Msg c) (cs_MsgCount c).
Definition set_ExtendedTimestamp v c := mkChunkStream (cs_FMT c) (cs_CId c) (cs_Header c) v (cs_Msg c) (cs_MsgCount c).
Definition set_Msg v c := mkChunkStream (cs_FMT c) (cs_CId c) (cs_Header c) (cs_ExtendedTimestamp c) v (cs_MsgCount c).
Definition set_MsgCount v c := mkChunkStream (cs_FMT c) (cs_CId c) (cs_Header c) (cs_ExtendedTimestamp c) (cs_Msg c) v.

Definition set_MessageType v h := mkMessageHeader v (PayloadLength h) (TimestampDelta h) (StreamId h) (Timestamp h).
Definition set_PayloadLength v h := mkMessageHeader (MessageType h) v (TimestampDelta h) (StreamId h) (Timestamp h).
Definition set_TimestampDelta v h := mkMessageHeader (MessageType h) (PayloadLength h) v (StreamId h) (Timestamp h).
Definition set_StreamId v h := mkMessageHeader (MessageType h) (PayloadLength h) (TimestampDelta h) v (Timestamp h).
Definition set_Timestamp v h := mkMessageHeader (MessageType h) (PayloadLength h) (TimestampDelta h) (StreamId h) v.

Definition upd_header (f : MessageHeader -> MessageHeader) : M (Buffer * ChunkStream) unit :=
  upd (fun c => set_Header (f (cs_Header c)) c).

(** [uint64] addition. *)
Definition add64 (a b : Z) : Z := to_uint 64 (a + b).

(** The fields of a chunk message header of format 0, 1 or 2. *)
Definition read_header_fields (format : Z) : M (Buffer * ChunkStream) unit :=
  let* delta := on_buf Buffer_ReadUInt24 in
  do* upd_header (set_TimestampDelta delta) in
  do* upd (set_ExtendedTimestamp (RTMP_EXTENDED_TIMESTAMP <=? delta)) in
  do* (if RTMP_EXTENDED_TIMESTAMP <=? delta then upd_header (set_Timestamp RTMP_EXTENDED_TIMESTAMP)
       else if format =? RTMP_FMT_TYPE0 then upd_header (set_Timestamp delta)
       else upd_header (fun h => set_Timestamp (add64 (Timestamp h) delta) h)) in
  if format <=? RTMP_FMT_TYPE1 then
    let* len := on_buf Buffer_ReadUInt24 in
    do* upd_header (set_PayloadLength len) in
    let* payload := the (fun c => match cs_Msg c with Some m => Payload m | None => None end) in
    guard* match payload with None => true | Some p => zlen p =? len end
      else Error ERROR_RTMP_PACKET_SIZE (str "cached message size should never change") in
    let* ty := on_buf Buffer_ReadByte in
    do* upd_header (set_MessageType ty) in
    if format =? RTMP_FMT_TYPE0 then
      let* sid := on_buf Buffer_ReadUInt32Le in
      upd_header (set_StreamId sid)
    else ret tt
  else ret tt.

(** The extended timestamp, which a sender may leave out of the chunks that
    continue a message: it is taken back when it is not the one expected. *)
Definition read_extended_timestamp (mh_size : Z) : M (Buffer * ChunkStream) Z :=
  let* extended := the cs_ExtendedTimestamp in
  if (extended : bool) then
    do* on_buf (Buffer_EnsureBufferBytes 4) in
    let* timestamp := on_buf Buffer_ReadUInt32 in
    let* ts := the (fun c => Timestamp (cs_Header c)) in
    if (RTMP_EXTENDED_TIMESTAMP <? ts) && negb (ts =? timestamp) then
      do* on_buf (Buffer_Skip (-4)) in
      ret (mh_size + 4 - 4)
    else
      do* upd_header (set_Timestamp timestamp) in
      ret (mh_size + 4)
  else ret mh_size.

Definition read_message_header (format : Z) : M (Buffer * ChunkStream) Z :=
  let* is_fresh_packet := the (fun c => match cs_Msg c with None => true | Some _ => false end) in
  let* count := the cs_MsgCount in
  guard* negb ((count =? 0) && negb (format =? RTMP_FMT_TYPE0))
    else Error ERROR_RTMP_CHUNK_START (str "protocol error, fmt of first chunk must be 0") in
  guard* negb (negb is_fresh_packet && (format =? RTMP_FMT_TYPE0))
    else Error ERROR_RTMP_CHUNK_START (str "protocol error, unexpect start of new chunk") in
  do* (if (is_fresh_packet : bool) then upd (set_Msg (Some NewMessage)) else ret tt) in
  let* mh_size := lift (index [11; 7; 3; 0] format) in
  do* on_buf (Buffer_EnsureBufferBytes mh_size) in
  do* (if format <=? RTMP_FMT_TYPE2 then read_header_fields format
       else
         let* extended := the cs_ExtendedTimestamp in
         if is_fresh_packet && negb extended
         then upd_header (fun h => set_Timestamp (add64 (Timestamp h) (TimestampDelta h)) h)
         else ret tt) in
  let* mh_size := read_extended_timestamp mh_size in
  let* h := the cs_Header in
  guard* negb (to_int32 (PayloadLength h) <? 0)
    else Error ERROR_RTMP_MSG_INVLIAD_SIZE (str "chunk packet should never be negative") in
  do* upd (fun c => match cs_Msg c with
                    | Some m => set_Msg (Some (mkMessage (cs_Header c) (Payload m)
                                  (ReceivedPayloadLength m) (PerferCid m) (SentPayloadLength m))) c
                    | None => c
                    end) in
  do* upd (fun c => set_MsgCount (cs_MsgCount c + 1) c) in
  ret mh_size.

(** [chunk.Msg], dereferenced. *)
Definition the_msg : M (Buffer * ChunkStream) Message :=
  let* m := the cs_Msg in
  match m with
  | Some m => ret m
  | None => gopanic NilDereference
  end.

Definition set_Payload v m := mkMessage (Header m) v (ReceivedPayloadLength m) (PerferCid m) (SentPayloadLength m).
Definition set_ReceivedPayloadLength v m := mkMessage (Header m) (Payload m) v (PerferCid m) (SentPayloadLength m).
Definition set_PerferCid v m := mkMessage (Header m) (Payload m) (ReceivedPayloadLength m) v (SentPayloadLength m).

Definition read_message_payload (in_chunk_size bh_size mh_size : Z) :
    M (Buffer * ChunkStream) (option Message) :=
  let* h := the cs_Header in
  if to_int32 (PayloadLength h) <=? 0 then
    let* msg := the cs_Msg in
    do* upd (set_Msg None) in
    do* on_buf (Buffer_Consume (mh_size + bh_size)) in
    ret msg
  else
    let* m := the_msg in
    let payload_size := Z.min (PayloadLength h - ReceivedPayloadLength m) in_chunk_size in
    let payload := match Payload m with None => make_bytes (PayloadLength (Header m)) | Some p => p end in
    do* upd (set_Msg (Some (set_Payload (Some payload) m))) in
    do* on_buf (Buffer_EnsureBufferBytes payload_size) in
    do* lift (slice payload (ReceivedPayloadLength m) (ReceivedPayloadLength m + payload_size)) in
    let* data := on_buf (Buffer_Read payload_size) in
    let payload := copy_at payload (ReceivedPayloadLength m) payload_size data in
    let received := ReceivedPayloadLength m + payload_size in
    do* upd (set_Msg (Some (set_ReceivedPayloadLength received (set_Payload (Some payload) m)))) in
    do* on_buf (Buffer_Consume (mh_size + bh_size + payload_size)) in
    if received =? zlen payload then
      let* msg := the cs_Msg in
      do* upd (set_Msg None) in
      ret msg
    else ret None.

(** Run a step on the chunk stream [cid] of the map and on the buffer. *)
Definition on_chunk {A} (cid : Z) (m : M (Buffer * ChunkStream) A) : M protocol A := fun r =>
  let chunk := match chunkStreams r !! cid with Some c => c | None => NewChunkStream cid end in
  let '(o, (b, c)) := m (buffer r, chunk) in
  (o, set_chunkStreams (<[cid := c]> (chunkStreams r)) (set_buffer b r)).

Definition recv_interlaced_message : M protocol (option Message) :=
  let* '(format, cid, bh_size) := zoom buffer set_buffer read_basic_header in
  let* mh_size := on_chunk cid (read_message_header format) in
  let* size := gets inChunkSize in
  let* msg := on_chunk cid (read_message_payload size bh_size mh_size) in
  ret (option_map (set_PerferCid cid) msg).

(** ** Sending *)

(** The timestamp written behind the header when it does not fit 24 bits. *)
Definition write_extended (ts : Z) : M Buffer unit :=
  if RTMP_EXTENDED_TIMESTAMP <? ts then Buffer_WriteUInt32 (to_uint 32 ts) else ret tt.

Definition write_fmt0 (msg : Message) : M Buffer unit :=
  let h := Header msg in
  do* Buffer_WriteByte (byte_of_Z (Z.lor 0 (uint8_to_Z (byte_of_Z (Z.land (PerferCid msg) 63))))) in
  do* (if RTMP_EXTENDED_TIMESTAMP <? Timestamp h then Buffer_WriteUInt24 0xFFFFFF
       else Buffer_WriteUInt24 (to_uint 32 (Timestamp h))) in
  do* Buffer_WriteUInt24 (PayloadLength h) in
  do* Buffer_WriteByte (MessageType h) in
  do* Buffer_WriteUInt32Le (StreamId h) in
  write_extended (Timestamp h).

Definition write_fmt3 (msg : Message) : M Buffer unit :=
  do* Buffer_WriteByte (byte_of_Z (Z.lor 0xC0 (uint8_to_Z (byte_of_Z (Z.land (PerferCid msg) 63))))) in
  write_extended (Timestamp (Header msg)).

(** Fill a header cache from its start and return the bytes written. *)
Definition header_bytes (view : protocol -> Buffer) (set : Buffer -> protocol -> protocol)
    (write : M Buffer unit) : M protocol (list byte) :=
  zoom view set
    (do* modify Buffer_Reset in
     do* write in
     fun b => (Buffer_WrittenBytes b, b)).

(** A round of the loop [for len(msg.Payload) > msg.SentPayloadLength]: a chunk;
    [payload] is [msg.Payload], nil and empty being the same here, [sent] is
    [msg.SentPayloadLength], whose new value is the result. *)
Definition send_round (msg : Message) (payload : list byte) (sent : Z) : M protocol Z :=
  let sent := Z.max 0 sent in
  let* real_header :=
    (if sent <=? 0 then header_bytes outHeaderFmt0 set_outHeaderFmt0 (write_fmt0 msg)
     else header_bytes outHeaderFmt3 set_outHeaderFmt3 (write_fmt3 msg)) in
  do* conn_Write real_header in
  if 0 <? zlen payload then
    let* size := gets outChunkSize in
    let payload_size := Z.min size (zlen payload - sent) in
    let* data := lift (slice payload sent (sent + payload_size)) in
    do* conn_Write data in
    ret (sent + payload_size)
  else ret sent.

Fixpoint send_chunks (fuel : nat) (msg : Message) (payload : list byte) (sent : Z) : M protocol unit :=
  match fuel with
  | O => out_of_fuel
  | S fuel =>
      if sent <? zlen payload then
        let* sent := send_round msg payload sent in
        send_chunks fuel msg payload sent
      else ret tt
  end.

(** The message taken from the queue, sent as chunks.  Every round with a payload
    sends at least one byte of it while [outChunkSize > 0]; two more rounds are
    enough. *)
Definition send_message (msg : Message) : M protocol unit :=
  let payload := match Payload msg with Some p => p | None => [] end in
  send_chunks (S (S (List.length payload))) msg payload (-1).

(** The chunk stream id and the message; the payload is the slice the stream was
    made on. *)
Definition EncodeMessage {P} `{Encoder P} (pkt : P) : outcome (Z * Message) :=
  let cid := GetPerferCid pkt in
  match GetSize pkt with
  | Ret size =>
      if size <=? 0 then Ret (cid, NewMessage) else
      match Encode pkt (NewRtmpStream (make_bytes size)) with
      | (Ret _, s) =>
          Ret (cid, mkMessage (set_PayloadLength (to_uint 32 size)
                                 (set_MessageType (GetMessageType pkt) zero_header))
                      (Some (bl_buf (hp_buffer (bf_buf s)))) 0 0 0)
      | (Fail e, _) => Fail e
      | (Panic p, _) => Panic p
      | (OutOfFuel, _) => OutOfFuel
      end
  | Fail e => Fail e
  | Panic p => Panic p
  | OutOfFuel => OutOfFuel
  end.

(** A write to the map; keys equal by [==] are one key. *)
Definition requests_set (k : Z) (v : gostring) (m : requests_map) : outcome requests_map :=
  match m with
  | None => Panic NilMapWrite
  | Some l => Ret (Some ((k, v) :: List.filter (fun kv => negb (f64_eqb kv.1 k)) l))
  end.

Definition record_request (k : Z) (v : gostring) : M protocol unit :=
  let* m := gets requests in
  let* m' := lift (requests_set k v m) in
  modify (set_requests m').

Definition on_send_message {P} `{Encoder P} (pkt : P) : M protocol unit :=
  match type_of pkt with
  | SentSetChunkSize p => modify (set_outChunkSize (ChunkSize p))
  | SentConnectApp p => record_request (cap_TransactionId p) (cap_CommandName p)
  | SentCreateStream p => record_request (crs_TransactionId p) (crs_CommandName p)
  | SentOther => ret tt
  end.

(** ** Control messages *)

Definition DecodeMessage (reqs : requests_map) (msg : option Message) : outcome (option packet) :=
  match msg with
  | None => Ret None
  | Some m =>
      match Payload m with
      | None => Ret None
      | Some p => DecodePacket reqs (Header m) p
      end
  end.

(** Not implemented in the source: nothing is sent. *)
Definition response_acknowledgement_message : M protocol unit := ret tt.

Definition on_recv_message (msg : Message) : M protocol unit :=
  let* r := get in
  if AckWindowSize_ShouldAckRead (conn_RecvBytes r) (inAckSize r) then response_acknowledgement_message
  else
    let h := Header msg in
    let* pkt :=
      (if MessageHeader_IsSetChunkSize h || MessageHeader_IsUserControlMessage h
          || MessageHeader_IsWindowAcknowledgementSize h
       then lift (DecodeMessage (requests r) (Some msg))
       else ret None) in
    match pkt with
    | Some (PSetChunkSize p) => modify (set_inChunkSize (ChunkSize p))
    | Some (PSetWindowAckSize p) =>
        if 0 <? AcknowledgementWindowSize p
        then modify (set_inAckSize (mkAckWindowSize (AcknowledgementWindowSize p) (acked_size (inAckSize r))))
        else ret tt
    | _ => ret tt
    end.

(** One round of the receiving goroutine, up to the message it queues. *)
Definition recv_job : M protocol (option Message) :=
  let* msg := recv_interlaced_message in
  match msg with
  | None => ret None
  | Some m =>
      if (ReceivedPayloadLength m <=? 0) || (PayloadLength (Header m) <=? 0) then ret None
      else
        do* on_recv_message m in
        ret (Some m)
  end.

(** The stream of a message, set by [SendMessage] when the caller gives one. *)
Definition set_stream (stream_id : Z) (m : Message) : Message :=
  if 0 <? stream_id
  then mkMessage (set_StreamId stream_id (Header m)) (Payload m) (ReceivedPayloadLength m) (PerferCid m)
         (SentPayloadLength m)
  else m.
