(* ===== verification/ChunkSend.v ===== *)
(** * Sending: a message goes out as its chunks

    [message_chunks size msg] is what the code makes of a message: a format 0 header
    with the first piece of the payload, then the other pieces, each of at most
    [size] bytes, behind format 3 headers.  The sending loop writes exactly these
    bytes, or a prefix of them when the connection fails; for the messages that the
    RTMP format can carry they are the chunk form of the format ([rtmp_chunks]). *)

From Stdlib Require Import ZArith Lia Strings.Byte.
From stdpp Require Import base tactics list gmap.
From S2P Require Import Prelude Constants HPBuffer Socket Buffer Codec Amf0 Messages Packets PacketsFacts Protocol.
Open Scope Z_scope.

(** ** The chunk form of a message

    [rtmp_chunks] is the format of the RTMP specification, in the words of the
    comments of protocol.go; [message_chunks] is what the code sends, for any
    message.  For the messages that the format can carry ([sendable]) they are the
    same; the code differs at the timestamp 0xFFFFFF, where it leaves the extended
    timestamp out, and for chunk stream ids of more than six bits. *)

(** The extended timestamp is present for values from 0xFFFFFF on. *)
Definition rtmp_extended (ts : Z) : list byte := if 0xFFFFFF <=? ts then be_bytes 4 ts else [].

Definition rtmp_first_header (msg : Message) : list byte :=
  [byte_of_Z (PerferCid msg)] ++ be_bytes 3 (Z.min (Timestamp (Header msg)) 0xFFFFFF)
  ++ be_bytes 3 (PayloadLength (Header msg)) ++ [MessageType (Header msg)] ++ le_bytes 4 (StreamId (Header msg))
  ++ rtmp_extended (Timestamp (Header msg)).

Definition rtmp_next_header (msg : Message) : list byte :=
  [byte_of_Z (3 * 64 + PerferCid msg)] ++ rtmp_extended (Timestamp (Header msg)).

Definition ext_bytes (ts : Z) : list byte :=
  if RTMP_EXTENDED_TIMESTAMP <? ts then be_bytes 4 (to_uint 32 ts) else [].

Definition fmt0_header (cid : Z) (h : MessageHeader) : list byte :=
  [byte_of_Z (Z.land cid 63)]
  ++ be_bytes 3 (if RTMP_EXTENDED_TIMESTAMP <? Timestamp h then 0xFFFFFF else to_uint 32 (Timestamp h))
  ++ be_bytes 3 (PayloadLength h) ++ [MessageType h] ++ le_bytes 4 (StreamId h)
  ++ ext_bytes (Timestamp h).

Definition fmt3_header (cid : Z) (h : MessageHeader) : list byte :=
  [byte_of_Z (Z.lor 0xC0 (Z.land cid 63))] ++ ext_bytes (Timestamp h).

(** The pieces of at most [size] bytes of a payload of at most [n] bytes. *)
Fixpoint pieces (n : nat) (size : Z) (p : list byte) : list (list byte) :=
  match n, p with
  | S n, _ :: _ => take (Z.to_nat size) p :: pieces n size (drop (Z.to_nat size) p)
  | _, _ => []
  end.

Definition payload_of (msg : Message) : list byte :=
  match Payload msg with Some p => p | None => [] end.

Definition tail_chunks (size : Z) (msg : Message) (p : list byte) : list (list byte) :=
  List.map (fun x => fmt3_header (PerferCid msg) (Header msg) ++ x) (pieces (List.length p) size p).

Definition message_chunks (size : Z) (msg : Message) : list (list byte) :=
  let p := payload_of msg in
  (fmt0_header (PerferCid msg) (Header msg) ++ take (Z.to_nat size) p)
  :: tail_chunks size msg (drop (Z.to_nat size) p).

(** The messages of the format: a chunk stream id of one byte, the length of the
    payload in the header, fields that fit, and a timestamp other than 0xFFFFFF. *)
Definition hdr_sendable (h : MessageHeader) : Prop :=
  0 <= PayloadLength h < 2 ^ 24 /\ 0 <= StreamId h < 2 ^ 32
  /\ 0 <= Timestamp h < 2 ^ 32 /\ Timestamp h <> RTMP_EXTENDED_TIMESTAMP.

Definition sendable (msg : Message) : Prop :=
  2 <= PerferCid msg <= 63 /\ PayloadLength (Header msg) = zlen (payload_of msg) /\ hdr_sendable (Header msg).

(** The payload in pieces of [size] bytes, each behind a header. *)
Definition rtmp_chunks (size : Z) (msg : Message) : list (list byte) :=
  let p := payload_of msg in
  (rtmp_first_header msg ++ take (Z.to_nat size) p)
  :: List.map (fun x => rtmp_next_header msg ++ x)
       (pieces (List.length p) size (drop (Z.to_nat size) p)).

Lemma pieces_nil n size : pieces n size [] = [].
Proof. by destruct n. Qed.

Lemma pieces_fuel n m size p :
  0 < size -> (List.length p <= n)%nat -> (List.length p <= m)%nat -> pieces n size p = pieces m size p.
Proof.
  revert m p. induction n as [|n IH]; intros m p Hs Hn Hm.
  - destruct p; simpl in Hn; [|lia]. by rewrite !pieces_nil.
  - destruct p as [|x p]; [by rewrite !pieces_nil|]. destruct m as [|m]; simpl in Hm; [lia|].
    simpl. f_equal. apply IH; [done|..]; rewrite length_drop; simpl in *; lia.
Qed.

Lemma tail_chunks_cons size msg p :
  0 < size -> p <> [] ->
  tail_chunks size msg p
  = (fmt3_header (PerferCid msg) (Header msg) ++ take (Z.to_nat size) p)
    :: tail_chunks size msg (drop (Z.to_nat size) p).
Proof.
  intros Hs Hp. unfold tail_chunks. destruct p as [|x p]; [done|]. cbn [List.length pieces List.map].
  do 2 f_equal. apply pieces_fuel; [done|rewrite length_drop; simpl; lia|done].
Qed.

Lemma tail_chunks_nil size msg : tail_chunks size msg [] = [].
Proof. done. Qed.

(** ** The headers *)

Lemma uint8_land63 z : uint8_to_Z (byte_of_Z (Z.land z 63)) = Z.land z 63.
Proof.
  rewrite uint8_of_Z. apply Z.mod_small.
  change 63 with (Z.ones 6). rewrite Z.land_ones by lia. lia.
Qed.

Lemma zlen_ext ts : zlen (ext_bytes ts) <= 4.
Proof. unfold ext_bytes. destruct (_ <? _); done. Qed.

Lemma fits_ret : fits (ret tt) [].
Proof. apply encodes_ret. Qed.

Lemma fits_extended ts : fits (write_extended ts) (ext_bytes ts).
Proof. unfold write_extended, ext_bytes. destruct (_ <? _); auto using fits_ret with gort. Qed.

Lemma fits_fmt0 msg : fits (write_fmt0 msg) (fmt0_header (PerferCid msg) (Header msg)).
Proof.
  unfold write_fmt0, fmt0_header. rewrite uint8_land63, Z.lor_0_l.
  apply fits_bind; [auto with gort|].
  apply fits_bind; [destruct (_ <? _); auto with gort|].
  do 3 (apply fits_bind; [auto with gort|]). apply fits_extended.
Qed.

Lemma fits_fmt3 msg : fits (write_fmt3 msg) (fmt3_header (PerferCid msg) (Header msg)).
Proof.
  unfold write_fmt3, fmt3_header. rewrite uint8_land63.
  apply fits_bind; auto using fits_extended with gort.
Qed.

Lemma zlen_fmt0 cid h : zlen (fmt0_header cid h) <= RTMP_MAX_FMT0_HEADER_SIZE.
Proof.
  unfold fmt0_header. pose proof (zlen_ext (Timestamp h)). unfold RTMP_MAX_FMT0_HEADER_SIZE.
  rewrite !zlen_app, !zlen_be_bytes, zlen_le_bytes, !zlen_singleton. lia.
Qed.

Lemma zlen_fmt3 cid h : zlen (fmt3_header cid h) <= RTMP_MAX_FMT3_HEADER_SIZE.
Proof.
  unfold fmt3_header. pose proof (zlen_ext (Timestamp h)). unfold RTMP_MAX_FMT3_HEADER_SIZE.
  rewrite zlen_app, zlen_singleton. lia.
Qed.

(** ** The state of the sending side *)

(** A header cache: a stream on [n] bytes. *)
Definition cache (n : Z) (b : Buffer) : Prop :=
  exists pre post, b = stream pre post /\ zlen (pre ++ post) = n.

Definition out_ok (r : protocol) : Prop :=
  is_Some (bf_conn (buffer r))
  /\ cache RTMP_MAX_FMT0_HEADER_SIZE (outHeaderFmt0 r) /\ cache RTMP_MAX_FMT3_HEADER_SIZE (outHeaderFmt3 r).

(** The connection takes every write in full. *)
Definition quiet (r : protocol) : Prop :=
  forall s, bf_conn (buffer r) = Some s -> tx_script (sk_conn s) = [].

(** [r'] is [r] after [w] was sent: only the connection and the header caches differ. *)
Definition sent_by (w : list byte) (r r' : protocol) : Prop :=
  requests r' = requests r /\ chunkStreams r' = chunkStreams r
  /\ inChunkSize r' = inChunkSize r /\ inAckSize r' = inAckSize r /\ outChunkSize r' = outChunkSize r
  /\ bf_buf (buffer r') = bf_buf (buffer r)
  /\ (exists s s', bf_conn (buffer r) = Some s /\ bf_conn (buffer r') = Some s' /\ wrote w s s')
  /\ out_ok r' /\ (quiet r -> quiet r').

Lemma sent_refl r : out_ok r -> sent_by [] r r.
Proof.
  intros Ho. destruct (Ho) as ([s Hs] & _). unfold sent_by. split_and!; try done.
  exists s, s. split_and!; try done. unfold wrote. by rewrite app_nil_r.
Qed.

Lemma sent_trans w1 w2 r1 r2 r3 : sent_by w1 r1 r2 -> sent_by w2 r2 r3 -> sent_by (w1 ++ w2) r1 r3.
Proof.
  unfold sent_by. intros (H1 & H2 & H3 & H4 & H5 & H6 & (s1 & s2 & Hs1 & Hs2 & Hw) & _ & Hq)
    (K1 & K2 & K3 & K4 & K5 & K6 & (s2' & s3 & Ks1 & Ks2 & Kw) & Ho & Kq).
  split_and!; try congruence; try tauto.
  exists s1, s3. split_and!; try done. rewrite Hs2 in Ks1. injection Ks1 as <-.
  unfold wrote in *. destruct Kw as (-> & -> & -> & ->), Hw as (-> & -> & -> & ->).
  by rewrite app_assoc.
Qed.

(** One write: all of [b], or a prefix of it and an error. *)
Definition sends {A} (m : M protocol A) (w : list byte) (r : protocol) (Q : A -> protocol -> Prop) : Prop :=
  exists o r' k, m r = (o, r') /\ sent_by (take k w) r r'
    /\ match o with
       | Ret a => take k w = w /\ Q a r'
       | Fail _ => ~ quiet r
       | _ => False
       end.

Lemma conn_Write_sends b r : out_ok r -> sends (conn_Write b) b r (fun _ _ => True).
Proof.
  intros ([s Hs] & Hc0 & Hc3). unfold sends, conn_Write. rewrite Hs.
  destruct (Socket_Write_spec b s) as (o & s' & k & He & Hw & Ho). rewrite He.
  exists (omap (fun _ => tt) o), (set_buffer {| bf_buf := bf_buf (buffer r); bf_conn := Some s' |} r), k.
  split; [done|].
  assert (tx_script (sk_conn s) = [] -> tx_script (sk_conn s') = [] /\ o = Ret (zlen b)) as Hq.
  { intros Hsc. destruct (Socket_Write_full b s Hsc) as (s2 & He2 & _ & ?).
    rewrite He in He2. by injection He2 as -> <-. }
  split.
  - unfold sent_by. simpl. split_and!; try done.
    + by exists s, s'.
    + intros Hqr s2 [= <-]. by apply Hq, Hqr.
  - destruct o; simpl; try done; [tauto|]. intros Hqr. by destruct (Hq (Hqr s Hs)).
Qed.

Lemma sends_bind {A B} (m : M protocol A) (k : A -> M protocol B) w1 w2 r (Q : B -> protocol -> Prop) :
  sends m w1 r (fun a r' => out_ok r' -> outChunkSize r' = outChunkSize r -> sends (k a) w2 r' Q) ->
  sends (bind m k) (w1 ++ w2) r Q.
Proof.
  intros (o & r1 & j & He & Hs & Ho). unfold sends, bind. rewrite He.
  assert (out_ok r1 /\ outChunkSize r1 = outChunkSize r /\ (quiet r -> quiet r1)) as (Hok & Hsz & Hq)
    by (unfold sent_by in Hs; tauto).
  destruct o as [a|e| |]; try done.
  - destruct Ho as [Hj Hk]. destruct (Hk Hok Hsz) as (o2 & r2 & j2 & He2 & Hs2 & Ho2). rewrite He2.
    exists o2, r2, (List.length w1 + j2)%nat. rewrite take_app_add. split; [done|].
    split; [rewrite Hj in Hs; by eapply sent_trans|].
    destruct o2; try done; [|tauto]. destruct Ho2 as [-> HQ]. done.
  - assert (exists i, take i (w1 ++ w2) = take j w1) as [i Hi].
    { destruct (decide (j <= List.length w1)%nat); [exists j; by apply take_app_le|].
      exists (List.length w1). by rewrite take_app_length, take_ge by lia. }
    exists (Fail e), r1, i. by rewrite Hi.
Qed.

(** The last write of a chain. *)
Lemma sends_bind_last {A B} (m : M protocol A) (k : A -> M protocol B) w r (Q : B -> protocol -> Prop) :
  sends m w r (fun a r' => out_ok r' -> outChunkSize r' = outChunkSize r -> sends (k a) [] r' Q) ->
  sends (bind m k) w r Q.
Proof. intros H. apply sends_bind in H. by rewrite app_nil_r in H. Qed.

Lemma sends_weaken {A} (m : M protocol A) w r (Q Q' : A -> protocol -> Prop) :
  sends m w r Q -> (forall a r', Q a r' -> Q' a r') -> sends m w r Q'.
Proof.
  intros (o & r' & k & He & Hs & Ho) HQ. exists o, r', k. split_and!; try done.
  destruct o; try done. destruct Ho. auto.
Qed.

Lemma sends_ret {A} (a : A) r (Q : A -> protocol -> Prop) : out_ok r -> Q a r -> sends (ret a) [] r Q.
Proof. intros Ho HQ. exists (Ret a), r, 0%nat. split_and!; try done. by apply sent_refl. Qed.

(** Filling a header cache sends nothing and returns the header. *)
Lemma header_bytes_sends view set write hd n r :
  cache n (view r) -> fits write hd -> zlen hd <= n ->
  (forall b, cache n b -> sent_by [] r (set b r)) ->
  sends (header_bytes view set write) [] r (fun b _ => b = hd).
Proof.
  intros (pre & post & Hc & Hl) Hf Hn Hset. unfold sends, header_bytes, zoom.
  destruct (split_at (pre ++ post) (zlen hd)) as (room & rest & Hpp & Hroom);
    [pose proof (zlen_nonneg hd); lia|].
  unfold bind at 1, modify. rewrite Hc, mkbuf_Reset, Hpp.
  rewrite (bind_Ret _ _ _ _ _ (Hf None [] [] [] room rest Hroom)).
  rewrite mkbuf_WrittenBytes. eexists _, _, 0%nat. split; [done|]. split; [|done].
  apply Hset. exists hd, rest. split; [done|]. rewrite Hpp in Hl. rewrite zlen_app in *. lia.
Qed.

Lemma sent_caches r f0 f3 :
  out_ok r -> cache RTMP_MAX_FMT0_HEADER_SIZE f0 -> cache RTMP_MAX_FMT3_HEADER_SIZE f3 ->
  sent_by [] r (set_outHeaderFmt0 f0 (set_outHeaderFmt3 f3 r)).
Proof.
  intros ([s Hs] & _) H0 H3. unfold sent_by. split_and!; try done.
  exists s, s. split_and!; try done. unfold wrote. by rewrite app_nil_r.
Qed.

Lemma header_fmt0_sends msg r :
  out_ok r ->
  sends (header_bytes outHeaderFmt0 set_outHeaderFmt0 (write_fmt0 msg)) [] r
    (fun b _ => b = fmt0_header (PerferCid msg) (Header msg)).
Proof.
  intros Ho. apply (header_bytes_sends _ _ _ _ RTMP_MAX_FMT0_HEADER_SIZE);
    [apply Ho|apply fits_fmt0|apply zlen_fmt0|].
  intros b Hb. apply (sent_caches r b (outHeaderFmt3 r) Ho Hb), Ho.
Qed.

Lemma header_fmt3_sends msg r :
  out_ok r ->
  sends (header_bytes outHeaderFmt3 set_outHeaderFmt3 (write_fmt3 msg)) [] r
    (fun b _ => b = fmt3_header (PerferCid msg) (Header msg)).
Proof.
  intros Ho. apply (header_bytes_sends _ _ _ _ RTMP_MAX_FMT3_HEADER_SIZE);
    [apply Ho|apply fits_fmt3|apply zlen_fmt3|].
  intros b Hb. apply (sent_caches r (outHeaderFmt0 r) b Ho); [apply Ho|done].
Qed.

(** ** The loop *)

Lemma zlen_take {A} (l : list A) n : 0 <= n -> zlen (take (Z.to_nat n) l) = Z.min n (zlen l).
Proof. intros. unfold zlen. rewrite length_take. lia. Qed.

Lemma take_nonempty {A} (l : list A) n : 0 < n -> l <> [] -> take (Z.to_nat n) l <> [].
Proof.
  intros Hn Hl Ht. apply (f_equal zlen) in Ht. rewrite zlen_take in Ht by lia.
  destruct l as [|x l]; [done|]. pose proof (zlen_cons_pos x l). change (zlen []) with 0 in Ht. lia.
Qed.

(** One chunk: its header, then its piece of the payload. *)
Lemma piece_sends (m : M protocol (list byte)) hd done todo r :
  out_ok r -> 0 <= outChunkSize r -> sends m [] r (fun b _ => b = hd) -> todo <> [] ->
  let piece := take (Z.to_nat (outChunkSize r)) todo in
  let payload := done ++ todo in
  sends (let* real_header := m in
         do* conn_Write real_header in
         if 0 <? zlen payload then
           let* size := gets outChunkSize in
           let payload_size := Z.min size (zlen payload - zlen done) in
           let* data := lift (slice payload (zlen done) (zlen done + payload_size)) in
           do* conn_Write data in
           ret (zlen done + payload_size)
         else ret (zlen done))
    (hd ++ piece) r (fun n _ => n = zlen (done ++ piece)).
Proof.
  intros Ho Hpos Hm Hp piece payload. apply (sends_bind _ _ []).
  eapply sends_weaken; [exact Hm|]. intros b r1 -> Ho1 Hsz1.
  apply sends_bind. eapply sends_weaken; [by apply conn_Write_sends|]. intros _ r2 _ Ho2 Hsz2.
  assert (0 < zlen payload) as ->%Z.ltb_lt.
  { unfold payload. rewrite zlen_app. destruct todo as [|x todo]; [done|].
    pose proof (zlen_nonneg done). pose proof (zlen_cons_lt x todo). lia. }
  assert (Z.min (outChunkSize r2) (zlen payload - zlen done) = zlen piece) as Hmin.
  { unfold payload, piece. rewrite zlen_take, zlen_app by lia. rewrite Hsz2, Hsz1. lia. }
  assert (slice payload (zlen done) (zlen done + zlen piece) = Ret piece) as Hsl.
  { unfold payload. rewrite <- (take_drop (Z.to_nat (outChunkSize r)) todo) at 1. by apply slice_app. }
  unfold sends, bind at 1, gets. cbv zeta. rewrite Hmin. unfold bind at 1, lift. rewrite Hsl.
  apply sends_bind_last. eapply sends_weaken; [by apply conn_Write_sends|]. intros _ r3 _ Ho3 Hsz3.
  apply sends_ret; [done|]. by rewrite zlen_app.
Qed.

(** The first round, whatever the payload, and a round behind it. *)
Lemma send_round_first msg p r :
  out_ok r -> 0 <= outChunkSize r ->
  sends (send_round msg p (-1))
    (fmt0_header (PerferCid msg) (Header msg) ++ take (Z.to_nat (outChunkSize r)) p) r
    (fun n _ => n = zlen (take (Z.to_nat (outChunkSize r)) p)).
Proof.
  intros Ho Hs. unfold send_round. change (Z.max 0 (-1)) with (zlen (@nil byte)).
  change (zlen (@nil byte) <=? 0) with true. destruct p as [|x p].
  - rewrite take_nil, app_nil_r.
    apply (sends_bind _ _ []). eapply sends_weaken; [by apply header_fmt0_sends|]. intros b r1 -> Ho1 _.
    apply sends_bind_last.
    eapply sends_weaken; [by apply conn_Write_sends|]. intros _ r2 _ Ho2 _. by apply sends_ret.
  - apply (piece_sends _ _ [] (x :: p)); [done|done|by apply header_fmt0_sends|done].
Qed.

Lemma send_round_next msg done todo r :
  out_ok r -> 0 <= outChunkSize r -> done <> [] -> todo <> [] ->
  sends (send_round msg (done ++ todo) (zlen done))
    (fmt3_header (PerferCid msg) (Header msg) ++ take (Z.to_nat (outChunkSize r)) todo) r
    (fun n _ => n = zlen (done ++ take (Z.to_nat (outChunkSize r)) todo)).
Proof.
  intros Ho Hs Hd Ht. unfold send_round.
  assert (0 < zlen done) as Hpos by (destruct done; [done|apply zlen_cons_lt]).
  rewrite Z.max_r, (proj2 (Z.leb_gt _ _)) by lia.
  apply piece_sends; [done|done|by apply header_fmt3_sends|done].
Qed.

(** The chunks behind the first one. *)
Lemma send_tail fuel msg done todo r :
  out_ok r -> 0 < outChunkSize r -> done <> [] -> (List.length todo < fuel)%nat ->
  sends (send_chunks fuel msg (done ++ todo) (zlen done))
    (concat (tail_chunks (outChunkSize r) msg todo)) r (fun _ _ => True).
Proof.
  revert done todo r. induction fuel as [|fuel IH]; intros done todo r Ho Hs Hd Hf; [lia|].
  cbn [send_chunks]. destruct (decide (todo = [])) as [->|Ht].
  { rewrite app_nil_r, Z.ltb_irrefl. by apply sends_ret. }
  set (n := Z.to_nat (outChunkSize r)).
  assert (0 < zlen todo) as Hpos by (destruct todo; [done|apply zlen_cons_lt]).
  rewrite tail_chunks_cons by done. cbn [concat]. fold n.
  rewrite (proj2 (Z.ltb_lt _ _)) by (rewrite zlen_app; lia).
  apply sends_bind. eapply sends_weaken; [apply send_round_next; try done; lia|].
  intros k r' -> Ho' Hsz. fold n. rewrite <- (take_drop n todo) at 1. rewrite app_assoc, <- Hsz.
  apply IH; [done|lia|by destruct done|]. rewrite length_drop. unfold zlen in Hpos. unfold n. lia.
Qed.

(** The whole loop: the chunks of the message, from the first. *)
Lemma send_message_sends msg r :
  out_ok r -> 0 < outChunkSize r ->
  sends (send_message msg) (concat (message_chunks (outChunkSize r) msg)) r (fun _ _ => True).
Proof.
  intros Ho Hs. unfold send_message, message_chunks. fold (payload_of msg).
  set (p := payload_of msg). set (n := Z.to_nat (outChunkSize r)). cbn [concat].
  remember (S (List.length p)) as fuel. cbn [send_chunks].
  rewrite (proj2 (Z.ltb_lt _ _)) by (pose proof (zlen_nonneg p); lia).
  apply sends_bind. eapply sends_weaken; [apply send_round_first; [done|lia]|]. fold n.
  intros k r' -> Ho' Hsz. destruct (decide (p = [])) as [->|Hp].
  - rewrite take_nil, drop_nil. subst fuel. by apply sends_ret.
  - rewrite <- (take_drop n p) at 1. rewrite <- Hsz. apply send_tail; [done|lia|by apply take_nonempty|].
    subst fuel. rewrite length_drop. lia.
Qed.

(** ** The format *)

Lemma basic_header_bytes cid :
  2 <= cid <= 63 -> Z.land cid 63 = cid /\ Z.lor 0xC0 cid = 3 * 64 + cid.
Proof.
  intros Hc. assert (forallb (fun n => (Z.land (Z.of_nat n) 63 =? Z.of_nat n)
    && (Z.lor 0xC0 (Z.of_nat n) =? 3 * 64 + Z.of_nat n)) (seq 0 64) = true) as H by reflexivity.
  rewrite forallb_forall in H. specialize (H (Z.to_nat cid)). rewrite in_seq, Z2Nat.id, andb_true_iff, !Z.eqb_eq in H by lia.
  apply H. lia.
Qed.

(** What the code sends is the format, for what the format can carry. *)
Lemma rtmp_chunks_sent size msg : 0 < size -> sendable msg -> rtmp_chunks size msg = message_chunks size msg.
Proof.
  intros Hs (Hc & _ & _ & _ & Ht & Hne). destruct (basic_header_bytes _ Hc) as [H1 H2].
  assert (rtmp_extended (Timestamp (Header msg)) = ext_bytes (Timestamp (Header msg))) as He.
  { unfold rtmp_extended, ext_bytes, to_uint. unfold RTMP_EXTENDED_TIMESTAMP in *. rewrite Z.mod_small by lia.
    destruct (Z.leb_spec 0xFFFFFF (Timestamp (Header msg))), (Z.ltb_spec 0xFFFFFF (Timestamp (Header msg))); done || lia. }
  unfold rtmp_chunks, message_chunks, tail_chunks, rtmp_first_header, rtmp_next_header, fmt0_header, fmt3_header.
  assert (Z.min (Timestamp (Header msg)) 0xFFFFFF = (if RTMP_EXTENDED_TIMESTAMP <? Timestamp (Header msg)
    then 0xFFFFFF else to_uint 32 (Timestamp (Header msg)))) as ->.
  { unfold to_uint, RTMP_EXTENDED_TIMESTAMP in *. rewrite Z.mod_small by lia.
    destruct (Z.ltb_spec 0xFFFFFF (Timestamp (Header msg))); lia. }
  rewrite H1, H2, He. do 2 f_equal. apply pieces_fuel; [done|rewrite length_drop; lia|done].
Qed.

(** ** Properties *)

(** C16. A message is sent as its chunks: for a positive chunk size and a message that
    the format can carry ([sendable]: a chunk stream id from 2 to 63, the length of
    the payload in the header, a timestamp other than 0xFFFFFF) the loop ends,
    without a panic, and what it has put on the connection is the chunk form of the
    message in the RTMP format ([rtmp_chunks]: a format 0 header, pieces of at most
    [outChunkSize] bytes, format 3 headers between them, the extended timestamp
    behind each header from 0xFFFFFF on) or, if a write fails, a prefix of it; a
    connection that takes every write in full gets all of it.  Nothing else of the
    protocol changes, what is still to be read from the connection included, but
    the two header caches, which stay usable. *)
Theorem send_message_chunks msg r s :
  out_ok r -> bf_conn (buffer r) = Some s -> 0 < outChunkSize r -> sendable msg ->
  let w := concat (rtmp_chunks (outChunkSize r) msg) in
  exists o r' s' k,
    send_message msg r = (o, r')
    /\ bf_conn (buffer r') = Some s' /\ tx (sk_conn s') = tx (sk_conn s) ++ take k w
    /\ rx (sk_conn s') = rx (sk_conn s) /\ rx_err (sk_conn s') = rx_err (sk_conn s) /\ recv_bytes s' = recv_bytes s
    /\ bf_buf (buffer r') = bf_buf (buffer r)
    /\ requests r' = requests r /\ chunkStreams r' = chunkStreams r /\ inChunkSize r' = inChunkSize r
    /\ inAckSize r' = inAckSize r /\ outChunkSize r' = outChunkSize r /\ out_ok r'
    /\ ((o = Ret tt /\ take k w = w) \/ (exists e, o = Fail e /\ tx_script (sk_conn s) <> [])).
Proof.
  intros Ho Hs Hsz Hm w. destruct (send_message_sends msg r Ho Hsz) as (o & r' & k & He & Hsent & Hout).
  rewrite <- (rtmp_chunks_sent _ _ Hsz Hm) in Hsent, Hout. fold w in Hsent, Hout.
  destruct (Hsent) as (H1 & H2 & H3 & H4 & H5 & H6 & (s1 & s2 & Hs1 & Hs2 & Hw) & Hok & _).
  rewrite Hs in Hs1. injection Hs1 as <-. destruct Hw as (Ht & Hr & Hre & Hrb).
  exists o, r', s2, k. split_and!; try done.
  destruct o as [[]|e| |]; try done; [left; tauto|]. right. exists e. split; [done|].
  intros Hsc. apply Hout. intros s' Hs'. rewrite Hs in Hs'. by injection Hs' as <-.
Qed.

Lemma NewProtocol_out_ok conn : out_ok (NewProtocol conn).
Proof.
  split; [by eexists|]. split; (eexists [], _; split; [apply NewRtmpStream_stream|done]).
Qed.

Definition sample_message : Message :=
  mkMessage (mkMessageHeader RTMP_MSG_AudioMessage 300 0 1 40) (Some (make_bytes 300)) 0 5 0.

Lemma send_message_chunks_witness :
  let r := NewProtocol (mkTCPConn [] EOF [] []) in
  let w := concat (rtmp_chunks 128 sample_message) in
  exists o r' s' k,
    send_message sample_message r = (o, r')
    /\ bf_conn (buffer r') = Some s' /\ tx (sk_conn s') = [] ++ take k w
    /\ rx (sk_conn s') = [] /\ rx_err (sk_conn s') = EOF /\ recv_bytes s' = 0
    /\ bf_buf (buffer r') = bf_buf (buffer r)
    /\ requests r' = requests r /\ chunkStreams r' = chunkStreams r /\ inChunkSize r' = inChunkSize r
    /\ inAckSize r' = inAckSize r /\ outChunkSize r' = outChunkSize r /\ out_ok r'
    /\ ((o = Ret tt /\ take k w = w) \/ (exists e, o = Fail e /\ [] <> @nil tx_answer)).
Proof.
  apply (send_message_chunks sample_message (NewProtocol (mkTCPConn [] EOF [] []))
    (NewSocket (mkTCPConn [] EOF [] []))); [apply NewProtocol_out_ok|done|done|].
  unfold sendable, hdr_sendable. split_and!; (reflexivity || by vm_compute).
Defined.

(** The message of a packet. *)
Definition message_of {P} `{LawfulEncoder P} (p : P) : Message :=
  mkMessage (mkMessageHeader (GetMessageType p) (to_uint 32 (zlen (wire p))) 0 0 0) (Some (wire p)) 0 0 0.

Lemma EncodeMessage_message {P} `{LawfulEncoder P} (p : P) :
  valid p -> EncodeMessage p = Ret (GetPerferCid p, message_of p).
Proof.
  intros Hv. unfold EncodeMessage. rewrite GetSize_wire by done.
  pose proof (wire_pos p Hv) as Hpos. rewrite (proj2 (Z.leb_gt _ _)) by lia.
  destruct (Encode_wire p Hv) as [Hf _].
  assert (zlen (make_bytes (zlen (wire p))) = zlen (wire p)) as Hl by (apply zlen_make_bytes; lia).
  pose proof (Hf None [] [] [] _ [] Hl) as He. rewrite app_nil_r in He.
  rewrite NewRtmpStream_stream, He. unfold mkbuf, mkhp. simpl. by rewrite !app_nil_r.
Qed.
