(* ===== verification/Feed.v ===== *)
(** * Reading from a connection, whatever its segmentation

    [feed net v b] says that the buffer [b], with its connection, is at a point
    described by the view [v]: [vpre] was read since the last [Consume],
    [vinp] is all that is still to come, from the buffer or from the network,
    and at least the next [vk] bytes of it are in the buffer already.  How the
    network cuts [vinp] into segments is not part of the view.  [wpb] and [wp]
    are weakest preconditions over views, for computations on the buffer and on
    the buffer with a chunk stream: a result satisfies [Q], an error [E], and
    panics and exhausted loop bounds are excluded. *)

From Stdlib Require Import ZArith Lia Strings.Byte.
From stdpp Require Import base tactics list.
From S2P Require Import Prelude Constants HPBuffer Socket Buffer Codec Messages Packets Protocol.
Open Scope Z_scope.

(** What the connection keeps: the error at its end and its sending side. *)
Record net := mkNet { net_err : error; net_script : list tx_answer; net_tx : list byte }.

Record view := mkview { vk : Z; vpre : list byte; vinp : list byte }.

Definition feed (n : net) (v : view) (b : Buffer) : Prop :=
  exists s g1 post g2,
    b = mkbuf (Some s) g1 (vpre v) post g2
    /\ rx_ok (sk_conn s) /\ rx_err (sk_conn s) = net_err n
    /\ tx_script (sk_conn s) = net_script n /\ tx (sk_conn s) = net_tx n
    /\ post ++ rx_bytes (sk_conn s) = vinp v /\ vk v <= zlen post.

Section Wp.
Context (n : net).

Definition wpb {A} (m : M Buffer A) (E : error -> Prop) (Q : A -> view -> Prop) (v : view) : Prop :=
  forall b, feed n v b ->
    exists o b', m b = (o, b')
      /\ match o with
         | Ret a => exists v', feed n v' b' /\ Q a v'
         | Fail e => E e
         | _ => False
         end.

Definition wp {A} (m : M (Buffer * ChunkStream) A) (E : error -> Prop)
    (Q : A -> view -> ChunkStream -> Prop) (v : view) (c : ChunkStream) : Prop :=
  forall b, feed n v b ->
    exists o b' c', m (b, c) = (o, (b', c'))
      /\ match o with
         | Ret a => exists v', feed n v' b' /\ Q a v' c'
         | Fail e => E e
         | _ => False
         end.

(** ** Rules for the buffer *)

Lemma wpb_ret {A} (a : A) E Q v : Q a v -> wpb (ret a) E Q v.
Proof. intros HQ b Hb. exists (Ret a), b. split; [done|]. by exists v. Qed.

Lemma wpb_bind {A B} (m : M Buffer A) (k : A -> M Buffer B) E Q v :
  wpb m E (fun a v' => wpb (k a) E Q v') v -> wpb (bind m k) E Q v.
Proof.
  intros Hm b Hb. destruct (Hm b Hb) as (o & b' & He & Ho). unfold bind. rewrite He.
  destruct o as [a|e| |]; try done; [|by eexists _, _].
  destruct Ho as (v' & Hv & Hk). by apply Hk.
Qed.

Lemma wpb_mono {A} (m : M Buffer A) E (Q Q' : A -> view -> Prop) v :
  wpb m E Q v -> (forall a v', Q a v' -> Q' a v') -> wpb m E Q' v.
Proof.
  intros Hm HQ b Hb. destruct (Hm b Hb) as (o & b' & He & Ho). exists o, b'. split; [done|].
  destruct o; try done. destruct Ho as (v' & ? & ?). eauto.
Qed.

Lemma feed_weaken k k' pre inp b : k' <= k -> feed n (mkview k pre inp) b -> feed n (mkview k' pre inp) b.
Proof. intros Hk (s & g1 & post & g2 & H). exists s, g1, post, g2. simpl in *. intuition lia. Qed.

(** Refilling: the bytes are there, or the input ends before them. *)
Lemma wpb_ensure j E (Q : unit -> view -> Prop) k pre inp :
  (j <= zlen inp -> Q tt (mkview j pre inp)) -> (zlen inp < j -> E (net_err n)) ->
  wpb (Buffer_EnsureBufferBytes j) E Q (mkview k pre inp).
Proof.
  intros HQ HE b (s & g1 & post & g2 & -> & Hok & Herr & Hsc & Htx & Hinp & Hk). simpl in *.
  destruct (Ensure_spec j s g1 pre post g2 Hok) as (o & x & s' & g2' & He & Hr & Ho).
  exists o, (mkbuf (Some s') g1 pre (post ++ x) g2'). split; [done|].
  destruct Hr as (Hrx & Hok' & Herr' & Hsc' & Htx' & _).
  assert (zlen inp = zlen (post ++ x) + zlen (rx_bytes (sk_conn s'))) as Hlen
    by (rewrite <- Hinp, Hrx, app_assoc, zlen_app; done).
  destruct Ho as [[-> Hj]|(-> & -> & Hj)].
  - exists (mkview j pre inp). split; [|apply HQ; pose proof (zlen_nonneg (rx_bytes (sk_conn s'))); lia].
    exists s', g1, (post ++ x), g2'. simpl. rewrite <- app_assoc, <- Hrx, Herr', Hsc', Htx'. done.
  - rewrite Herr. apply HE. rewrite <- Hinp. done.
Qed.

(** Reading bytes that were ensured. *)
Lemma wpb_decodes {A} (m : M Buffer A) bs a E Q k pre inp :
  decodes m bs a -> zlen bs <= k -> Q a (mkview (k - zlen bs) (pre ++ bs) inp) ->
  wpb m E Q (mkview k pre (bs ++ inp)).
Proof.
  intros Hd Hk HQ b (s & g1 & post & g2 & -> & Hok & Herr & Hsc & Htx & Hinp & Hp). simpl in *.
  assert (exists post', post = bs ++ post' /\ inp = post' ++ rx_bytes (sk_conn s)) as (post' & -> & ->).
  { destruct (split_at post (zlen bs)) as (p1 & p2 & -> & Hl); [pose proof (zlen_nonneg bs); lia|].
    rewrite <- app_assoc in Hinp. exists p2.
    apply app_inj_1 in Hinp as [-> <-]; [done|]. unfold zlen in Hl. lia. }
  rewrite Hd. eexists _, _. split; [done|]. eexists. split; [|exact HQ].
  exists s, g1, post', g2. simpl. rewrite zlen_app in Hp. split_and!; try done. lia.
Qed.

Lemma wpb_reader {A} (m : M Buffer A) j (P : A -> Prop) E Q k pre inp :
  reader j P m -> 0 <= j <= k ->
  (forall a bs inp', inp = bs ++ inp' -> zlen bs = j -> P a -> Q a (mkview (k - j) (pre ++ bs) inp')) ->
  wpb m E Q (mkview k pre inp).
Proof.
  intros Hr Hj HQ b (s & g1 & post & g2 & -> & Hok & Herr & Hsc & Htx & Hinp & Hp). simpl in *.
  destruct (split_at post j) as (bs & post' & -> & Hl); [lia|].
  destruct (Hr (Some s) g1 pre bs post' g2 Hl) as (a & HP & ->).
  eexists _, _. split; [done|]. eexists. split; [|apply (HQ a bs (post' ++ rx_bytes (sk_conn s)));
    [by rewrite app_assoc|done|done]].
  exists s, g1, post', g2. simpl. rewrite zlen_app in Hp. split_and!; try done. lia.
Qed.

Lemma wpb_consume j E (Q : unit -> view -> Prop) k pre inp :
  j = zlen pre -> Q tt (mkview k [] inp) -> wpb (Buffer_Consume j) E Q (mkview k pre inp).
Proof.
  intros Hj HQ b (s & g1 & post & g2 & -> & H). simpl in *.
  destruct (mkbuf_Consume (Some s) g1 pre g2 j post Hj) as (g1' & g2' & ->).
  eexists _, _. split; [done|]. exists (mkview k [] inp). split; [|done]. by exists s, g1', post, g2'.
Qed.

Lemma wpb_skip_back j bs E (Q : unit -> view -> Prop) k pre inp :
  j = - zlen bs -> Q tt (mkview (k + zlen bs) pre (bs ++ inp)) ->
  wpb (Buffer_Skip j) E Q (mkview k (pre ++ bs) inp).
Proof.
  intros Hj HQ b (s & g1 & post & g2 & -> & H). simpl in *.
  rewrite (mkbuf_Skip_back _ _ _ _ _ _ _ Hj).
  eexists _, _. split; [done|]. eexists. split; [|exact HQ]. exists s, g1, (bs ++ post), g2. simpl.
  rewrite zlen_app. destruct H as (? & ? & ? & ? & <- & ?).
  split_and!; try done; [by rewrite app_assoc|lia].
Qed.

(** ** Rules for the buffer with a chunk stream *)

Lemma wp_ret {A} (a : A) E Q v c : Q a v c -> wp (ret a) E Q v c.
Proof. intros HQ b Hb. exists (Ret a), b, c. split; [done|]. by exists v. Qed.

Lemma wp_fail {A} e E Q v c : E e -> wp (A := A) (fail e) E Q v c.
Proof. intros HE b Hb. by exists (Fail e), b, c. Qed.

Lemma wp_bind {A B} (m : M (Buffer * ChunkStream) A) (k : A -> M _ B) E Q v c :
  wp m E (fun a v' c' => wp (k a) E Q v' c') v c -> wp (bind m k) E Q v c.
Proof.
  intros Hm b Hb. destruct (Hm b Hb) as (o & b' & c' & He & Ho). unfold bind. rewrite He.
  destruct o as [a|e| |]; try done; [|by eexists _, _, _].
  destruct Ho as (v' & Hv & Hk). by apply Hk.
Qed.

Lemma wp_mono {A} (m : M (Buffer * ChunkStream) A) E (Q Q' : A -> view -> ChunkStream -> Prop) v c :
  wp m E Q v c -> (forall a v' c', Q a v' c' -> Q' a v' c') -> wp m E Q' v c.
Proof.
  intros Hm HQ b Hb. destruct (Hm b Hb) as (o & b' & c' & He & Ho). exists o, b', c'. split; [done|].
  destruct o; try done. destruct Ho as (v' & ? & ?). eauto.
Qed.

Lemma wp_on_buf {A} (m : M Buffer A) E (Q : A -> view -> ChunkStream -> Prop) v c :
  wpb m E (fun a v' => Q a v' c) v -> wp (on_buf m) E Q v c.
Proof.
  intros Hm b Hb. destruct (Hm b Hb) as (o & b' & He & Ho). exists o, b', c.
  unfold on_buf, zoom. simpl. by rewrite He.
Qed.

Lemma wp_upd f E (Q : unit -> view -> ChunkStream -> Prop) v c : Q tt v (f c) -> wp (upd f) E Q v c.
Proof. intros HQ b Hb. exists (Ret tt), b, (f c). split; [done|]. by exists v. Qed.

Lemma wp_the {A} (f : ChunkStream -> A) E Q v c : Q (f c) v c -> wp (the f) E Q v c.
Proof. intros HQ b Hb. exists (Ret (f c)), b, c. split; [done|]. by exists v. Qed.

Lemma wp_lift {A} (a : A) o E Q v c : o = Ret a -> Q a v c -> wp (lift o) E Q v c.
Proof. intros -> HQ b Hb. exists (Ret a), b, c. split; [done|]. by exists v. Qed.

Lemma wp_guard {A} (cond : bool) e (m : M (Buffer * ChunkStream) A) E Q v c :
  (cond = false -> E e) -> (cond = true -> wp m E Q v c) -> wp (guard* cond else e in m) E Q v c.
Proof. destruct cond; intros HE Hm; [by apply Hm|]. apply wp_fail. by apply HE. Qed.

End Wp.
