(* ===== verification/ChunkRecv.v ===== *)
(** * Receiving: chunks are put together to the messages they came from

    The steps of [recv_interlaced_message] over views (see [Feed]): the headers,
    the payload, then the whole function for arbitrary input and for the chunks
    that a sender makes of a message. *)

From Stdlib Require Import ZArith Lia Strings.Byte.
From stdpp Require Import base tactics list gmap.
From S2P Require Import Prelude Constants HPBuffer Socket Buffer Codec Messages Packets PacketsFacts Protocol ChunkSend Feed.
Open Scope Z_scope.

(** ** A partially received message *)

(** [got] is the part of the payload of [m] that has arrived, [L] its length. *)
Definition partial (m : Message) (got : list byte) (L : Z) : Prop :=
  ReceivedPayloadLength m = zlen got
  /\ ((Payload m = None /\ got = [])
      \/ exists junk, Payload m = Some (got ++ junk) /\ zlen (got ++ junk) = L).

(** [m] with the payload [p] so far and room [junk] for the rest. *)
Definition received_msg (m : Message) (p junk : list byte) : Message :=
  mkMessage (Header m) (Some (p ++ junk)) (zlen p) (PerferCid m) (SentPayloadLength m).

Lemma to_int32_small z : 0 <= z < 2 ^ 31 -> to_int32 z = z.
Proof. intros. unfold to_int32. rewrite Z.mod_small; lia. Qed.

(** The payload allocated for [m], and the piece that goes in next. *)
Lemma partial_room m got L sz :
  partial m got L -> PayloadLength (Header m) = L -> 0 <= sz -> zlen got + sz <= L ->
  exists room junk,
    match Payload m with None => make_bytes (PayloadLength (Header m)) | Some p => p end
    = got ++ room ++ junk /\ zlen room = sz /\ zlen (got ++ room ++ junk) = L.
Proof.
  intros (_ & [[-> ->]|(junk & -> & Hl)]) HL Hsz Hle.
  - pose proof (zlen_nonneg (@nil byte)). change (zlen []) with 0 in *.
    destruct (split_at (make_bytes L) sz) as (room & junk & Hm & Hr); [rewrite zlen_make_bytes; lia|].
    exists room, junk. rewrite HL, Hm. split_and!; try done.
    cbn [app]. rewrite <- Hm. apply zlen_make_bytes. lia.
  - rewrite zlen_app in Hl. destruct (split_at junk sz) as (room & junk' & -> & Hr); [lia|].
    exists room, junk'. split_and!; try done. rewrite !zlen_app in *. lia.
Qed.

Section Steps.
Context (n : net).

(** One step of the payload: the piece that fits the chunk is appended, and the
    message comes out when it is complete. *)
Lemma wp_payload size bh mh E (Q : option Message -> view -> ChunkStream -> Prop) k pre inp c m got L :
  cs_Msg c = Some m -> PayloadLength (cs_Header c) = L -> PayloadLength (Header m) = L ->
  0 < L < 2 ^ 24 -> partial m got L -> zlen got < L -> 0 < size -> zlen pre = mh + bh ->
  let sz := Z.min (L - zlen got) size in
  (zlen inp < sz -> E (net_err n)) ->
  (forall piece inp' junk k', inp = piece ++ inp' -> zlen piece = sz ->
     zlen (got ++ piece ++ junk) = L ->
     let m' := received_msg m (got ++ piece) junk in
     if zlen (got ++ piece) =? L
     then junk = [] /\ Q (Some m') (mkview k' [] inp') (set_Msg None c)
     else Q None (mkview k' [] inp') (set_Msg (Some m') c)) ->
  wp n (read_message_payload size bh mh) E Q (mkview k pre inp) c.
Proof.
  intros Hm HL HL' Hrange Hpart Hlt Hsize Hpre sz HE HQ.
  destruct (partial_room m got L sz Hpart HL') as (room & junk & Hroom & Hrl & Hjl); [lia..|].
  destruct (Hpart) as (Hrecv & _).
  unfold read_message_payload. apply wp_bind, wp_the. rewrite HL, to_int32_small by lia.
  rewrite (proj2 (Z.leb_gt _ _)) by lia.
  apply wp_bind. unfold the_msg. apply wp_bind, wp_the. rewrite Hm. apply wp_ret.
  rewrite Hrecv, Hroom. fold sz. cbv zeta.
  apply wp_bind, wp_upd, wp_bind, wp_on_buf, wpb_ensure; [|done]. intros Hlen.
  destruct (split_at inp sz) as (piece & inp' & -> & Hpl); [lia|].
  apply wp_bind. eapply wp_lift; [by apply slice_app; [|rewrite <- Hrl]|].
  apply wp_bind, wp_on_buf. eapply wpb_decodes; [by apply decodes_Read|lia|].
  rewrite (copy_at_app got room junk piece) by congruence.
  apply wp_bind, wp_upd, wp_bind, wp_on_buf, wpb_consume; [rewrite zlen_app; lia|].
  assert (zlen (got ++ piece) = zlen got + sz) as Hgp by (rewrite zlen_app; lia).
  assert (zlen (got ++ piece ++ junk) = L) as Htot by (rewrite !zlen_app in *; lia).
  specialize (HQ piece inp' junk (sz - zlen piece) eq_refl Hpl Htot). cbv zeta in HQ.
  rewrite Htot. rewrite Hgp in HQ. unfold received_msg in HQ. rewrite Hgp, <- app_assoc in HQ.
  destruct (zlen got + sz =? L); [|by apply wp_ret].
  destruct HQ as [_ HQ]. by apply wp_bind, wp_the, wp_bind, wp_upd, wp_ret.
Qed.

(** A message without payload comes out at once. *)
Lemma wp_payload_empty size bh mh E (Q : option Message -> view -> ChunkStream -> Prop) k pre inp c :
  PayloadLength (cs_Header c) = 0 -> zlen pre = mh + bh ->
  Q (cs_Msg c) (mkview k [] inp) (set_Msg None c) ->
  wp n (read_message_payload size bh mh) E Q (mkview k pre inp) c.
Proof.
  intros HL Hpre HQ. unfold read_message_payload. apply wp_bind, wp_the. rewrite HL.
  change (to_int32 0 <=? 0) with true. cbv iota.
  by apply wp_bind, wp_the, wp_bind, wp_upd, wp_bind, wp_on_buf, wpb_consume, wp_ret; [lia|].
Qed.

End Steps.

(** ** Arbitrary input *)

Definition hdr_ok (h : MessageHeader) : Prop :=
  0 <= PayloadLength h < 2 ^ 24 /\ 0 <= TimestampDelta h < 2 ^ 24
  /\ 0 <= StreamId h < 2 ^ 32 /\ 0 <= Timestamp h < 2 ^ 64.

(** A chunk stream between two chunks: a message that is being received has some
    of its payload, and not all. *)
Definition chunk_ok (c : ChunkStream) : Prop :=
  hdr_ok (cs_Header c) /\ 0 <= cs_MsgCount c
  /\ match cs_Msg c with
     | None => True
     | Some m => exists got, partial m got (PayloadLength (cs_Header c))
                   /\ 0 < zlen got < PayloadLength (cs_Header c)
     end.

(** A chunk stream between the header and the payload of a chunk. *)
Definition mid_ok (c : ChunkStream) : Prop :=
  hdr_ok (cs_Header c) /\ 0 < cs_MsgCount c
  /\ exists m got, cs_Msg c = Some m /\ Header m = cs_Header c
       /\ partial m got (PayloadLength (cs_Header c))
       /\ (zlen got < PayloadLength (cs_Header c) \/ PayloadLength (cs_Header c) = 0).

(** The errors of a chunk that breaks the protocol. *)
Definition protocol_err (e : error) : Prop :=
  match e with
  | Error c _ => c = ERROR_RTMP_CHUNK_START \/ c = ERROR_RTMP_PACKET_SIZE \/ c = ERROR_RTMP_MSG_INVLIAD_SIZE
  | _ => False
  end.

(** [c'] holds a message under way like [c], with another header. *)
Definition same_msg (c c' : ChunkStream) : Prop :=
  cs_Msg c' = cs_Msg c /\ cs_MsgCount c' = cs_MsgCount c.

Definition mh_bytes (format : Z) : Z :=
  if format =? 0 then 11 else if format =? 1 then 7 else if format =? 2 then 3 else 0.

(** The length in the header is the one of the payload already allocated, if any. *)
Definition len_kept (c c' : ChunkStream) : Prop :=
  PayloadLength (cs_Header c') = PayloadLength (cs_Header c)
  \/ forall m p, cs_Msg c = Some m -> Payload m = Some p -> zlen p = PayloadLength (cs_Header c').

Section Safe.
Context (n : net) (E : error -> Prop) (HE : forall e, protocol_err e -> E e) (Hnet : E (net_err n)).

Lemma wp_read {A} (m : M Buffer A) j (P : A -> Prop) Q k pre inp c :
  reader j P m -> 0 <= j <= k ->
  (forall a bs inp', inp = bs ++ inp' -> zlen bs = j -> P a -> Q a (mkview (k - j) (pre ++ bs) inp') c) ->
  wp n (on_buf m) E Q (mkview k pre inp) c.
Proof. intros Hr Hj HQ. apply wp_on_buf. by eapply wpb_reader. Qed.

(** The timestamp fields: any of the three updates keeps a well-formed header. *)
Definition timestamp_fields (format delta : Z) (c : ChunkStream) : ChunkStream :=
  let h := set_TimestampDelta delta (cs_Header c) in
  let ts := if RTMP_EXTENDED_TIMESTAMP <=? delta then RTMP_EXTENDED_TIMESTAMP
            else if format =? RTMP_FMT_TYPE0 then delta else add64 (Timestamp h) delta in
  set_Header (set_Timestamp ts h) (set_ExtendedTimestamp (RTMP_EXTENDED_TIMESTAMP <=? delta) c).

Lemma timestamp_fields_ok format delta c :
  hdr_ok (cs_Header c) -> 0 <= delta < 2 ^ 24 -> hdr_ok (cs_Header (timestamp_fields format delta c)).
Proof.
  intros (H1 & H2 & H3 & H4) Hd. unfold hdr_ok, timestamp_fields. simpl. split_and!; try lia;
    (destruct (_ <=? _); [done|]); destruct (_ =? _); try lia; unfold add64, to_uint; lia.
Qed.

Lemma wp_timestamp format (Q : unit -> view -> ChunkStream -> Prop) m k pre inp c :
  3 <= k ->
  (forall delta bs inp', inp = bs ++ inp' -> zlen bs = 3 -> 0 <= delta < 2 ^ 24 ->
     wp n m E Q (mkview (k - 3) (pre ++ bs) inp') (timestamp_fields format delta c)) ->
  wp n (let* delta := on_buf Buffer_ReadUInt24 in
        do* upd_header (set_TimestampDelta delta) in
        do* upd (set_ExtendedTimestamp (RTMP_EXTENDED_TIMESTAMP <=? delta)) in
        do* (if RTMP_EXTENDED_TIMESTAMP <=? delta then upd_header (set_Timestamp RTMP_EXTENDED_TIMESTAMP)
             else if format =? RTMP_FMT_TYPE0 then upd_header (set_Timestamp delta)
             else upd_header (fun h => set_Timestamp (add64 (Timestamp h) delta) h)) in
        m) E Q (mkview k pre inp) c.
Proof.
  intros Hk Hm. apply wp_bind. eapply wp_read; [apply reader_ReadUInt24|lia|].
  intros delta bs inp' Hi Hb Hd. specialize (Hm delta bs inp' Hi Hb Hd).
  apply wp_bind, wp_upd, wp_bind, wp_upd, wp_bind. unfold timestamp_fields in Hm.
  destruct (RTMP_EXTENDED_TIMESTAMP <=? delta); [by apply wp_upd|].
  destruct (format =? RTMP_FMT_TYPE0); by apply wp_upd.
Qed.

Lemma wp_fields_safe format (Q : unit -> view -> ChunkStream -> Prop) k pre inp c :
  0 <= format <= 2 -> hdr_ok (cs_Header c) -> mh_bytes format <= k ->
  (forall bs inp' c' k', inp = bs ++ inp' -> zlen bs = mh_bytes format -> same_msg c c' ->
     hdr_ok (cs_Header c') -> len_kept c c' -> Q tt (mkview k' (pre ++ bs) inp') c') ->
  wp n (read_header_fields format) E Q (mkview k pre inp) c.
Proof.
  intros Hf Hh Hk HQ. unfold read_header_fields.
  assert (3 <= mh_bytes format) as Hmh by (unfold mh_bytes; repeat case_match; lia).
  apply wp_timestamp; [lia|]. intros delta b1 inp1 -> Hb1 Hd.
  pose proof (timestamp_fields_ok format delta c Hh Hd) as Hh1.
  set (c1 := timestamp_fields format delta c) in *.
  assert (same_msg c c1) as Hs1 by done.
  destruct (Z.leb_spec format RTMP_FMT_TYPE1) as [Hf1|Hf1]; unfold RTMP_FMT_TYPE1 in *.
  2: { apply wp_ret. apply (HQ b1 inp1); try done; [|by left].
       rewrite Hb1. unfold mh_bytes. by assert (format = 2) as -> by lia. }
  assert (7 <= mh_bytes format) as Hmh7 by (unfold mh_bytes; repeat case_match; lia).
  apply wp_bind. eapply wp_read; [apply reader_ReadUInt24|lia|]. intros len b2 inp2 -> Hb2 Hlen.
  apply wp_bind, wp_upd, wp_bind, wp_the, wp_guard; [intros _; apply HE; simpl; tauto|]. intros Hg.
  apply wp_bind. eapply wp_read; [apply reader_ReadByte|lia|]. intros ty b3 inp3 -> Hb3 _.
  apply wp_bind, wp_upd.
  assert (hdr_ok (set_MessageType ty (set_PayloadLength len (cs_Header c1)))) as Hh2
    by (destruct Hh1 as (? & ? & ? & ?); done).
  assert (forall h', PayloadLength h' = len -> len_kept c (set_Header h' c1)) as Hkept.
  { intros h' Hl. right. intros m p Hm Hp. simpl in *. rewrite Hm in Hg. rewrite Hp in Hg. lia. }
  destruct (Z.eqb_spec format RTMP_FMT_TYPE0) as [->|Hf0]; unfold RTMP_FMT_TYPE0 in *.
  - apply wp_bind. eapply wp_read; [apply reader_ReadUInt32Le|cbn in *; lia|].
    intros sid b4 inp4 -> Hb4 Hsid. apply wp_upd. rewrite <- !app_assoc.
    apply (HQ (b1 ++ b2 ++ b3 ++ b4)); try done.
    + by rewrite <- !app_assoc.
    + rewrite !zlen_app. cbn. lia.
    + destruct Hh2 as (? & ? & ? & ?). done.
    + by apply Hkept.
  - apply wp_ret. rewrite <- !app_assoc. apply (HQ (b1 ++ b2 ++ b3)); try done.
    + by rewrite <- !app_assoc.
    + rewrite !zlen_app. assert (format = 1) as -> by lia. cbn. lia.
    + by apply Hkept.
Qed.

(** The extended timestamp is read, or was not there and nothing moves. *)
Lemma wp_extended_safe mh (Q : Z -> view -> ChunkStream -> Prop) k pre inp c :
  hdr_ok (cs_Header c) ->
  (forall bs inp' ts k', inp = bs ++ inp' -> 0 <= ts < 2 ^ 64 ->
     Q (mh + zlen bs) (mkview k' (pre ++ bs) inp') (set_Header (set_Timestamp ts (cs_Header c)) c)) ->
  wp n (read_extended_timestamp mh) E Q (mkview k pre inp) c.
Proof.
  intros Hh HQ. unfold read_extended_timestamp. apply wp_bind, wp_the.
  assert (forall k', Q mh (mkview k' pre inp) c) as Hnone.
  { intros k'. specialize (HQ [] inp (Timestamp (cs_Header c)) k' eq_refl).
    destruct Hh as (_ & _ & _ & Hts). specialize (HQ Hts).
    rewrite app_nil_r, zlen_nil, Z.add_0_r in HQ. by destruct c as [? ? [] ? ? ?]. }
  destruct (cs_ExtendedTimestamp c); [|by apply wp_ret].
  apply wp_bind, wp_on_buf, wpb_ensure; [|done]. intros Hlen.
  apply wp_bind. eapply wp_read; [apply reader_ReadUInt32|lia|]. intros ts bs inp' -> Hb Hts.
  apply wp_bind, wp_the. destruct (_ && _).
  - apply wp_bind, wp_on_buf, (wpb_skip_back n (-4) bs); [lia|]. apply wp_ret.
    replace (mh + 4 - 4) with mh by lia. apply Hnone.
  - apply wp_bind, wp_upd, wp_ret. rewrite <- Hb. apply HQ; [done|]. cbn in Hts. lia.
Qed.

(** The message that is under way when a chunk starts, made when there is none. *)
Definition open_msg (c : ChunkStream) : ChunkStream :=
  match cs_Msg c with None => set_Msg (Some NewMessage) c | Some _ => c end.

Lemma open_msg_ok c :
  chunk_ok c ->
  exists m got, cs_Msg (open_msg c) = Some m /\ partial m got (PayloadLength (cs_Header c))
    /\ cs_Header (open_msg c) = cs_Header c /\ cs_MsgCount (open_msg c) = cs_MsgCount c
    /\ ((Payload m = None /\ got = []) \/ 0 < zlen got < PayloadLength (cs_Header c)).
Proof.
  intros (Hh & Hc & Hm). unfold open_msg. destruct (cs_Msg c) as [m|] eqn:E0.
  - destruct Hm as (got & Hp & Hg). exists m, got. split_and!; try done. by right.
  - exists NewMessage, []. split_and!; try done; [|by left]. split; [done|by left].
Qed.

(** After the header fields of any format the message still fits its header. *)
Lemma partial_kept m got c c' :
  cs_Msg c = Some m -> partial m got (PayloadLength (cs_Header c)) -> len_kept c c' ->
  (Payload m = None /\ got = []) \/ 0 < zlen got < PayloadLength (cs_Header c) ->
  0 <= PayloadLength (cs_Header c') ->
  partial m got (PayloadLength (cs_Header c'))
  /\ (zlen got < PayloadLength (cs_Header c') \/ PayloadLength (cs_Header c') = 0).
Proof.
  intros Hm (Hr & Hp) Hk Hg Hpos. destruct Hp as [[Hp ->]|(junk & Hp & Hl)].
  - split; [split; [done|by left]|]. change (zlen []) with 0. lia.
  - destruct Hg as [[Hn _]|Hg]; [congruence|].
    assert (PayloadLength (cs_Header c') = PayloadLength (cs_Header c)) as ->.
    { destruct Hk as [Hk|Hk]; [done|]. rewrite <- (Hk m _ Hm Hp). done. }
    split; [split; [done|right; eauto]|lia].
Qed.

Lemma wp_header_safe format (Q : Z -> view -> ChunkStream -> Prop) k pre inp c :
  0 <= format <= 3 -> chunk_ok c ->
  (forall bs inp' c' k', inp = bs ++ inp' -> mid_ok c' -> Q (zlen bs) (mkview k' (pre ++ bs) inp') c') ->
  wp n (read_message_header format) E Q (mkview k pre inp) c.
Proof.
  intros Hf Hc HQ. unfold read_message_header. pose proof (Hc) as (Hh & Hcount & _).
  destruct (open_msg_ok c Hc) as (m & got & Hm & Hpart & Hoh & Hoc & Hgot).
  apply wp_bind, wp_the, wp_bind, wp_the.
  apply wp_guard; [intros _; apply HE; simpl; tauto|intros _].
  apply wp_guard; [intros _; apply HE; simpl; tauto|intros _].
  apply wp_bind.
  eapply (wp_mono _ _ _ (fun _ v' c' => v' = mkview k pre inp /\ c' = open_msg c)).
  { unfold open_msg. destruct (cs_Msg c); [by apply wp_ret|by apply wp_upd]. }
  intros _ v0 c0 [-> ->]. set (c0 := open_msg c) in *.
  apply wp_bind, (wp_lift _ (mh_bytes format)).
  { unfold mh_bytes. assert (format = 0 \/ format = 1 \/ format = 2 \/ format = 3) as [-> | [-> | [-> | ->]]]; lia || done. }
  apply wp_bind, wp_on_buf, wpb_ensure; [|done]. intros Hlen. apply wp_bind.
  (* the fields of the header, or the implied timestamp of format 3 *)
  eapply (wp_mono _ _ _ (fun _ v' c' => exists bs inp' k', v' = mkview k' (pre ++ bs) inp'
    /\ inp = bs ++ inp' /\ zlen bs = mh_bytes format /\ same_msg c0 c' /\ hdr_ok (cs_Header c')
    /\ len_kept c0 c')).
  { destruct (Z.leb_spec format RTMP_FMT_TYPE2) as [Hf2|Hf2]; unfold RTMP_FMT_TYPE2 in *.
    - apply wp_fields_safe; [lia|by rewrite Hoh|done|]. intros bs inp' c' k' -> Hb Hs Hh' Hk. eauto 10.
    - assert (format = 3) as -> by lia. apply wp_bind, wp_the.
      destruct (_ && _); [apply wp_upd|apply wp_ret]; exists [], inp; eexists; rewrite app_nil_r;
        (split; [done|]); split_and!; try done; try (by left); try (by rewrite Hoh).
      destruct Hh as (? & ? & ? & ?). rewrite Hoh. unfold hdr_ok, add64, to_uint. simpl. lia. }
  intros _ v1 c1 (bs & inp' & k1 & -> & -> & Hb & [Hs1 Hs2] & Hh1 & Hk1).
  apply wp_bind, wp_extended_safe; [done|]. intros bs2 inp2 ts k2 -> Hts.
  apply wp_bind, wp_the, wp_guard; [intros _; apply HE; simpl; tauto|intros _].
  apply wp_bind, wp_upd, wp_bind, wp_upd, wp_ret. rewrite <- Hb, <- zlen_app, <- app_assoc.
  apply HQ; [by rewrite app_assoc|].
  rewrite Hm in Hs1. rewrite <- Hoh in Hpart, Hgot. destruct (Hh1) as (Hl1 & Hd1 & Hi1 & _).
  destruct (partial_kept m got c0 c1 Hm Hpart Hk1 Hgot) as [Hp1 Hg1]; [lia|].
  cbn [cs_Msg set_Header]. rewrite Hs1. unfold mid_ok. cbn. split_and!; try done; [lia|].
  eexists _, got. split; [done|]. split; [done|]. split; [|done]. destruct Hp1 as [? ?]. split; done.
Qed.

(** The payload step on any input keeps the chunk stream in order; a message that
    comes out is complete. *)
Definition complete (msg : Message) : Prop :=
  hdr_ok (Header msg)
  /\ (if PayloadLength (Header msg) =? 0 then ReceivedPayloadLength msg = 0
      else exists p, Payload msg = Some p /\ zlen p = PayloadLength (Header msg)
             /\ ReceivedPayloadLength msg = zlen p).

Lemma wp_payload_safe size bh mh (Q : option Message -> view -> ChunkStream -> Prop) k pre inp c :
  mid_ok c -> 0 < size -> zlen pre = mh + bh ->
  (forall o inp' bs c' k', inp = bs ++ inp' -> chunk_ok c' ->
     (forall msg, o = Some msg -> complete msg) -> Q o (mkview k' [] inp') c') ->
  wp n (read_message_payload size bh mh) E Q (mkview k pre inp) c.
Proof.
  intros (Hh & Hcount & m & got & Hm & Hmh & Hpart & Hg) Hsize Hpre HQ.
  destruct (Hh) as (Hl & _). destruct (Z.eqb_spec (PayloadLength (cs_Header c)) 0) as [Hz|Hz].
  - apply wp_payload_empty; [done..|]. apply (HQ _ inp []); [done|split_and!; [done|simpl; lia|done]|].
    rewrite Hm. intros msg [= <-]. split; [by rewrite Hmh|]. rewrite Hmh, Hz. simpl.
    destruct Hpart as (Hr & [[_ ->]|(junk & _ & Hj)]); [done|].
    rewrite Hr. rewrite Hz, zlen_app in Hj. pose proof (zlen_nonneg got). pose proof (zlen_nonneg junk). lia.
  - destruct Hg as [Hg|Hg]; [|done].
    eapply (wp_payload n _ _ _ _ _ _ _ _ _ m got _ Hm eq_refl); try done; [by rewrite Hmh|lia|].
    intros piece inp' junk k' -> Hpl Htot m'.
    pose proof (zlen_nonneg got). pose proof (zlen_nonneg junk).
    destruct (Z.eqb_spec (zlen (got ++ piece)) (PayloadLength (cs_Header c))) as [He|He].
    + assert (junk = []) as -> by (apply zlen_0_nil; rewrite !zlen_app in *; lia). split; [done|].
      apply (HQ _ inp' piece); [done|split_and!; [done|simpl; lia|done]|].
      intros msg [= <-]. split; [by rewrite <- Hmh in Hh|]. unfold m'. simpl. rewrite Hmh.
      rewrite (proj2 (Z.eqb_neq _ _)) by done. exists (got ++ piece).
      by rewrite app_nil_r.
    + apply (HQ _ inp' piece); [done|split_and!; [done|simpl; lia|]|done]. simpl.
      exists (got ++ piece). split.
      { split; [done|]. right. exists junk. split; [done|]. by rewrite <- app_assoc. }
      rewrite !zlen_app in *. lia.
Qed.

End Safe.

(** ** The whole of [recv_interlaced_message] *)

Definition chunk_of (r : protocol) (cid : Z) : ChunkStream :=
  match chunkStreams r !! cid with Some c => c | None => NewChunkStream cid end.

(** [r] with the buffer [b] and the chunk stream [cid] updated to [c]. *)
Definition step_to (r : protocol) (b : Buffer) (cid : Z) (c : ChunkStream) : protocol :=
  set_chunkStreams (<[cid := c]> (chunkStreams r)) (set_buffer b r).

(** The header and the payload of one chunk, on its chunk stream. *)
Definition read_chunk (size format bh : Z) : M (Buffer * ChunkStream) (option Message) :=
  let* mh := read_message_header format in read_message_payload size bh mh.

Lemma recv_wp n E (Q : Z -> option Message -> view -> ChunkStream -> Prop) v r :
  feed n v (buffer r) ->
  wpb n read_basic_header E (fun x v1 =>
    wp n (read_chunk (inChunkSize r) x.1.1 x.2) E (Q x.1.2) v1 (chunk_of r x.1.2)) v ->
  exists o r', recv_interlaced_message r = (o, r')
    /\ match o with
       | Ret msg => exists cid m v' c' b', r' = step_to r b' cid c' /\ feed n v' b'
           /\ Q cid m v' c' /\ msg = option_map (set_PerferCid cid) m
       | Fail e => E e
       | _ => False
       end.
Proof.
  intros Hf Hb. destruct (Hb _ Hf) as (o1 & b1 & He1 & Ho1).
  unfold recv_interlaced_message, bind at 1, zoom. rewrite He1.
  destruct o1 as [[[format cid] bh]|e| |]; try done; [|by eexists _, _].
  destruct Ho1 as (v1 & Hf1 & Hc). simpl in Hc.
  destruct (Hc _ Hf1) as (o2 & b2 & c2 & He2 & Ho2). unfold read_chunk, bind in He2.
  unfold bind at 1, on_chunk at 1. cbn [buffer chunkStreams set_buffer]. fold (chunk_of r cid).
  destruct (read_message_header format (b1, chunk_of r cid)) as [[mh|e| |] [b c]];
    [|injection He2 as <- <- <-; first [done | by eexists _, _]..].
  unfold bind at 1, gets. cbn [inChunkSize set_chunkStreams set_buffer].
  unfold bind at 1, on_chunk. cbn [buffer chunkStreams set_chunkStreams set_buffer].
  rewrite lookup_insert_eq, He2. cbv beta iota zeta.
  destruct o2 as [m|e| |]; try done; [|by eexists _, _].
  destruct Ho2 as (v' & Hf' & HQ). eexists _, _. split; [done|].
  exists cid, m, v', c2, b2. split_and!; try done. unfold step_to, set_chunkStreams, set_buffer. cbn.
  by rewrite insert_insert_eq.
Qed.

Lemma land63_range z : 0 <= Z.land z 63 < 64.
Proof. change 63 with (Z.ones 6). rewrite Z.land_ones by lia. lia. Qed.

Lemma land3_range z : 0 <= Z.land z 3 <= 3.
Proof.
  assert (Z.land z 3 = z mod 4) as -> by exact (Z.land_ones z 2 ltac:(lia)). lia.
Qed.

(** The basic header of any input: one to three bytes. *)
Lemma wpb_basic_safe n (E : error -> Prop) (Q : Z * Z * Z -> view -> Prop) k pre inp :
  E (net_err n) ->
  (forall format cid bs inp' k', inp = bs ++ inp' -> 1 <= zlen bs -> 0 <= format <= 3 -> 2 <= cid ->
     Q (format, cid, zlen bs) (mkview k' (pre ++ bs) inp')) ->
  wpb n read_basic_header E Q (mkview k pre inp).
Proof.
  intros HE HQ. unfold read_basic_header. apply wpb_bind, wpb_ensure; [|done]. intros _.
  apply wpb_bind. eapply wpb_reader; [apply reader_ReadByte|lia|]. intros b bs inp1 -> Hb _.
  pose proof (land63_range (uint8_to_Z b)). pose proof (land3_range (Z.shiftr (uint8_to_Z b) 6)).
  destruct (Z.eqb_spec (Z.land (uint8_to_Z b) 63) 0); [|destruct (Z.eqb_spec (Z.land (uint8_to_Z b) 63) 1)].
  - apply wpb_bind, wpb_ensure; [|done]. intros _.
    apply wpb_bind. eapply wpb_reader; [apply reader_ReadByte|lia|]. intros b1 bs1 inp2 -> Hb1 _.
    apply wpb_ret. rewrite <- app_assoc. pose proof (uint8_range b1).
    assert (zlen (bs ++ bs1) = 2) as <- by (rewrite zlen_app; lia).
    apply HQ; [by rewrite app_assoc|rewrite zlen_app; lia|lia..].
  - apply wpb_bind, wpb_ensure; [|done]. intros _.
    apply wpb_bind. eapply wpb_reader; [apply reader_ReadByte|lia|]. intros b1 bs1 inp2 -> Hb1 _.
    apply wpb_bind. eapply wpb_reader; [apply reader_ReadByte|lia|]. intros b2 bs2 inp3 -> Hb2 _.
    apply wpb_ret. rewrite <- !app_assoc. pose proof (uint8_range b1). pose proof (uint8_range b2).
    assert (zlen (bs ++ bs1 ++ bs2) = 3) as Hl by (rewrite !zlen_app; lia).
    generalize dependent (Z.land (Z.shiftr (uint8_to_Z b) 6) 3). intros format Hfmt. rewrite <- Hl.
    apply HQ; [by rewrite <- !app_assoc|lia..].
  - apply wpb_ret. rewrite <- Hb. apply HQ; [done|lia..].
Qed.

(** The protocol between two chunks. *)
Definition proto_ok (r : protocol) : Prop :=
  0 < inChunkSize r /\ map_Forall (fun _ c => chunk_ok c) (chunkStreams r).

Lemma NewChunkStream_ok cid : chunk_ok (NewChunkStream cid).
Proof. unfold chunk_ok, hdr_ok. simpl. split_and!; lia || done. Qed.

Lemma chunk_of_ok r cid : proto_ok r -> chunk_ok (chunk_of r cid).
Proof.
  intros [_ Hm]. unfold chunk_of. destruct (chunkStreams r !! cid) as [c|] eqn:Hc; [|apply NewChunkStream_ok].
  by apply (Hm cid).
Qed.

Lemma recv_safe_lemma n inp k0 r :
  proto_ok r -> feed n (mkview k0 [] inp) (buffer r) ->
  exists o r', recv_interlaced_message r = (o, r')
    /\ match o with
       | Ret msg =>
           proto_ok r'
           /\ (exists bs inp' k, inp = bs ++ inp' /\ 1 <= zlen bs /\ feed n (mkview k [] inp') (buffer r'))
           /\ (exists cid, forall cid', cid' <> cid -> chunkStreams r' !! cid' = chunkStreams r !! cid')
           /\ outChunkSize r' = outChunkSize r /\ inChunkSize r' = inChunkSize r
           /\ (forall m, msg = Some m -> complete m)
       | Fail e => e = net_err n \/ protocol_err e
       | _ => False
       end.
Proof.
  intros Hr Hf. set (E := fun e => e = net_err n \/ protocol_err e).
  destruct (recv_wp n E (fun cid m v' c' => chunk_ok c' /\ (forall msg, m = Some msg -> complete msg)
    /\ exists bs inp' k, v' = mkview k [] inp' /\ inp = bs ++ inp' /\ 1 <= zlen bs)
    (mkview k0 [] inp) r Hf) as (o & r' & He & Ho).
  { apply wpb_basic_safe; [by left|]. intros format cid bs inp' k' -> Hb Hfmt Hcid. simpl.
    apply wp_bind, wp_header_safe; [by right|by left|done|by apply chunk_of_ok|].
    intros bs2 inp2 c' k2 -> Hmid. apply wp_payload_safe; [by left|done|apply Hr|rewrite zlen_app; lia|].
    intros m inp3 bs3 c3 k3 -> Hc3 Hm. split; [done|]. split; [done|].
    exists (bs ++ bs2 ++ bs3), inp3, k3. rewrite <- !app_assoc. split_and!; try done.
    rewrite !zlen_app. pose proof (zlen_nonneg bs2). pose proof (zlen_nonneg bs3). lia. }
  exists o, r'. split; [done|]. destruct o as [msg|e| |]; try done.
  destruct Ho as (cid & m & v' & c' & b' & -> & Hf' & (Hc' & Hm & bs & inp' & k & -> & -> & Hb) & ->).
  split_and!.
  - split; [apply Hr|]. apply map_Forall_insert_2; [done|apply Hr].
  - by exists bs, inp', k.
  - exists cid. intros cid' Hne. unfold step_to. cbn. by rewrite lookup_insert_ne.
  - done.
  - done.
  - intros msg Hmsg. destruct m as [m|]; [|done]. injection Hmsg as <-. by apply (Hm m).
Qed.

(** ** Properties *)

(** C8. Receiving a chunk is safe on any input: whatever bytes the peer sends, in
    whatever segments, [recv_interlaced_message] ends without a panic.  It
    fails with the error of the connection or with a protocol error; or it
    consumes at least one byte, leaves the buffer at the start of the next
    chunk and every chunk stream in order (the one of the chunk changed, all
    others as they were), and a message it returns is complete. *)
Theorem recv_interlaced_message_safe n inp r :
  proto_ok r -> feed n (mkview 0 [] inp) (buffer r) ->
  exists o r', recv_interlaced_message r = (o, r')
    /\ match o with
       | Ret msg =>
           proto_ok r'
           /\ (exists bs inp' k, inp = bs ++ inp' /\ 1 <= zlen bs /\ feed n (mkview k [] inp') (buffer r'))
           /\ (exists cid, forall cid', cid' <> cid -> chunkStreams r' !! cid' = chunkStreams r !! cid')
           /\ (forall m, msg = Some m -> complete m)
       | Fail e => e = net_err n \/ protocol_err e
       | _ => False
       end.
Proof.
  intros Hr Hf. destruct (recv_safe_lemma n inp 0 r Hr Hf) as (o & r' & He & Ho).
  exists o, r'. split; [done|]. destruct o; try done. tauto.
Qed.

Lemma NewProtocol_feed conn :
  rx_ok conn ->
  feed (mkNet (rx_err conn) (tx_script conn) (tx conn)) (mkview 0 [] (rx_bytes conn))
    (buffer (NewProtocol conn)).
Proof. intros Hok. exists (NewSocket conn), [], [], []. by split_and!. Qed.

Lemma NewProtocol_ok conn : proto_ok (NewProtocol conn).
Proof. split; [done|]. apply map_Forall_empty. Qed.

Lemma recv_interlaced_message_safe_witness :
  let conn := mkTCPConn [[Byte.xc4]; [Byte.x00; Byte.x01]] EOF [] [] in
  exists o r', recv_interlaced_message (NewProtocol conn) = (o, r')
    /\ match o with
       | Ret msg =>
           proto_ok r'
           /\ (exists bs inp' k, [Byte.xc4; Byte.x00; Byte.x01] = bs ++ inp' /\ 1 <= zlen bs
                /\ feed (mkNet EOF [] []) (mkview k [] inp') (buffer r'))
           /\ (exists cid, forall cid', cid' <> cid ->
                chunkStreams r' !! cid' = chunkStreams (NewProtocol conn) !! cid')
           /\ (forall m, msg = Some m -> complete m)
       | Fail e => e = EOF \/ protocol_err e
       | _ => False
       end.
Proof.
  apply (recv_interlaced_message_safe (mkNet EOF [] []) [Byte.xc4; Byte.x00; Byte.x01]
    (NewProtocol (mkTCPConn [[Byte.xc4]; [Byte.x00; Byte.x01]] EOF [] [])));
    [apply NewProtocol_ok|apply (NewProtocol_feed (mkTCPConn [[Byte.xc4]; [Byte.x00; Byte.x01]] EOF [] []))].
  repeat constructor; discriminate.
Defined.
