(* ===== verification/Reassembly.v ===== *)
(** * The chunks of a sender, received

    What the receiver makes of the chunks of [ChunkSend]: one message on one chunk
    stream, then any interleaving of chunk streams, then the two protocols
    end to end. *)

From Stdlib Require Import ZArith Lia Strings.Byte.
From stdpp Require Import base tactics list gmap.
From S2P Require Import Prelude Constants HPBuffer Socket Buffer Codec Messages Packets PacketsFacts Protocol ChunkSend Feed ChunkRecv.
Open Scope Z_scope.

(** ** Messages that survive the trip *)

(** The one-byte basic header and the 24 and 32 bit fields can hold the message.
    The timestamp 0xFFFFFF itself is sent without, and received with, the
    extended field. *)
Definition extended (h : MessageHeader) : bool := RTMP_EXTENDED_TIMESTAMP <? Timestamp h.

Definition wire_delta (h : MessageHeader) : Z := if extended h then 0xFFFFFF else Timestamp h.

(** The header on the other side: the field that carried the timestamp is kept as
    the delta. *)
Definition recv_header (h : MessageHeader) : MessageHeader :=
  mkMessageHeader (MessageType h) (PayloadLength h)
    (wire_delta h) (StreamId h) (Timestamp h).

(** The message on the other side. *)
Definition delivered (msg : Message) : Message :=
  mkMessage (recv_header (Header msg))
    (if zlen (payload_of msg) =? 0 then None else Some (payload_of msg))
    (zlen (payload_of msg)) (PerferCid msg) 0.

(** ** The headers *)

Lemma basic_byte cid f :
  2 <= cid <= 63 -> 0 <= f <= 3 ->
  Z.land (uint8_to_Z (byte_of_Z (f * 64 + cid))) 63 = cid
  /\ Z.land (Z.shiftr (uint8_to_Z (byte_of_Z (f * 64 + cid))) 6) 3 = f.
Proof.
  intros Hc Hf. rewrite uint8_of_small by lia. rewrite Z.shiftr_div_pow2 by lia.
  split; [rewrite (Z.land_ones _ 6) by lia|rewrite (Z.land_ones _ 2) by lia]; cbn; lia.
Qed.

Lemma fmt0_byte cid : 2 <= cid <= 63 -> byte_of_Z (Z.land cid 63) = byte_of_Z (0 * 64 + cid).
Proof. intros. f_equal. rewrite (Z.land_ones _ 6) by lia. cbn. lia. Qed.

Lemma fmt3_byte cid : 2 <= cid <= 63 -> byte_of_Z (Z.lor 0xC0 (Z.land cid 63)) = byte_of_Z (3 * 64 + cid).
Proof.
  intros. f_equal. rewrite (Z.land_ones _ 6), Z.mod_small by lia. rewrite Z.lor_comm.
  change 0xC0 with (Z.shiftl 3 6). rewrite lor_shiftl_add; lia.
Qed.

Section Headers.
Context (n : net) (E : error -> Prop).

Lemma wpb_basic_one f cid (Q : Z * Z * Z -> view -> Prop) k pre inp :
  2 <= cid <= 63 -> 0 <= f <= 3 ->
  (forall k', Q (f, cid, 1) (mkview k' (pre ++ [byte_of_Z (f * 64 + cid)]) inp)) ->
  wpb n read_basic_header E Q (mkview k pre (byte_of_Z (f * 64 + cid) :: inp)).
Proof.
  intros Hc Hf HQ. destruct (basic_byte cid f Hc Hf) as [H1 H2]. unfold read_basic_header.
  apply wpb_bind, wpb_ensure; [|pose proof (zlen_cons_pos (byte_of_Z (f * 64 + cid)) inp); lia]. intros _.
  apply wpb_bind. apply (wpb_decodes n _ [byte_of_Z (f * 64 + cid)] (byte_of_Z (f * 64 + cid)));
    [apply decodes_ReadByte|done|].
  cbv zeta. rewrite H1, H2. rewrite !(proj2 (Z.eqb_neq _ _)) by lia. apply wpb_ret, HQ.
Qed.

(** Reading the next field of the input. *)
Lemma wp_field {A} (m : M Buffer A) bs a Q k pre inp c :
  decodes m bs a -> zlen bs <= k -> Q a (mkview (k - zlen bs) (pre ++ bs) inp) c ->
  wp n (on_buf m) E Q (mkview k pre (bs ++ inp)) c.
Proof. intros. apply wp_on_buf. by eapply wpb_decodes. Qed.

(** The extended timestamp that was announced is read. *)
Lemma wp_extended mh (Q : Z -> view -> ChunkStream -> Prop) k pre inp c ts :
  0 <= ts < 2 ^ 32 -> cs_ExtendedTimestamp c = (RTMP_EXTENDED_TIMESTAMP <? ts) ->
  Timestamp (cs_Header c) = ts \/ Timestamp (cs_Header c) = RTMP_EXTENDED_TIMESTAMP ->
  ((RTMP_EXTENDED_TIMESTAMP <? ts) = false -> Timestamp (cs_Header c) = ts) ->
  (forall k', Q (mh + zlen (ext_bytes ts)) (mkview k' (pre ++ ext_bytes ts) inp)
      (set_Header (set_Timestamp ts (cs_Header c)) c)) ->
  wp n (read_extended_timestamp mh) E Q (mkview k pre (ext_bytes ts ++ inp)) c.
Proof.
  intros Hts Hext Hold Hno HQ. unfold read_extended_timestamp. apply wp_bind, wp_the. rewrite Hext.
  unfold ext_bytes in *. destruct (RTMP_EXTENDED_TIMESTAMP <? ts) eqn:Hx.
  - apply wp_bind, wp_on_buf, wpb_ensure; rewrite zlen_app, zlen_be_bytes; pose proof (zlen_nonneg inp); [|lia].
    intros _. apply wp_bind, (wp_field _ _ ts).
    { unfold to_uint. rewrite Z.mod_small by lia. by apply decodes_ReadUInt32. }
    { by rewrite zlen_be_bytes. }
    apply wp_bind, wp_the.
    assert ((RTMP_EXTENDED_TIMESTAMP <? Timestamp (cs_Header c)) && negb (Timestamp (cs_Header c) =? ts) = false)
      as -> by (destruct Hold as [-> | ->]; [rewrite Z.eqb_refl; apply andb_false_r|by rewrite Z.ltb_irrefl]).
    apply wp_bind, wp_upd, wp_ret. specialize (HQ (4 - zlen (be_bytes 4 (to_uint 32 ts)))).
    rewrite zlen_be_bytes in HQ at 1. exact HQ.
  - apply wp_ret. specialize (HQ k). rewrite app_nil_r, zlen_nil, Z.add_0_r in HQ.
    rewrite <- (Hno eq_refl) in HQ. by destruct c as [? ? [] ? ? ?].
Qed.

(** The chunk stream with the fields of a format 0 header, before the extended
    timestamp. *)
Definition fielded (c : ChunkStream) (h : MessageHeader) : ChunkStream :=
  mkChunkStream (cs_FMT c) (cs_CId c)
    (mkMessageHeader (MessageType h) (PayloadLength h) (wire_delta h) (StreamId h) (wire_delta h))
    (extended h) (cs_Msg c) (cs_MsgCount c).

Definition fmt0_fields (h : MessageHeader) : list byte :=
  be_bytes 3 (wire_delta h) ++ be_bytes 3 (PayloadLength h) ++ [MessageType h] ++ le_bytes 4 (StreamId h).

Lemma zlen_fmt0_fields h : zlen (fmt0_fields h) = 11.
Proof. unfold fmt0_fields. by rewrite !zlen_app, !zlen_be_bytes, zlen_le_bytes. Qed.

Lemma wire_delta_ok h :
  hdr_sendable h ->
  0 <= wire_delta h < 2 ^ 24 /\ (RTMP_EXTENDED_TIMESTAMP <=? wire_delta h) = extended h.
Proof.
  intros (_ & _ & Ht & Hne). unfold wire_delta, extended, RTMP_EXTENDED_TIMESTAMP in *.
  destruct (Z.ltb_spec 16777215 (Timestamp h)); [done|]. cbn. lia.
Qed.

Lemma wp_fields0 (Q : unit -> view -> ChunkStream -> Prop) k pre inp c h :
  hdr_sendable h -> match cs_Msg c with Some m => Payload m | None => None end = None -> 11 <= k ->
  (forall k', Q tt (mkview k' (pre ++ fmt0_fields h) inp) (fielded c h)) ->
  wp n (read_header_fields 0) E Q (mkview k pre (fmt0_fields h ++ inp)) c.
Proof.
  intros Hh Hm Hk HQ. destruct (wire_delta_ok h Hh) as [Hd Hx]. destruct Hh as (Hl & Hs & Ht & Hne).
  unfold read_header_fields, fmt0_fields in *. rewrite <- !app_assoc in *.
  apply wp_bind, (wp_field _ _ (wire_delta h)); [by apply decodes_ReadUInt24|rewrite zlen_be_bytes; lia|].
  rewrite zlen_be_bytes, Hx. apply wp_bind, wp_upd, wp_bind, wp_upd, wp_bind.
  apply (wp_mono _ _ _ (fun _ v' c' => v' = mkview (k - 3) (pre ++ be_bytes 3 (wire_delta h))
      (be_bytes 3 (PayloadLength h) ++ [MessageType h] ++ le_bytes 4 (StreamId h) ++ inp)
    /\ c' = mkChunkStream (cs_FMT c) (cs_CId c) (mkMessageHeader (MessageType (cs_Header c))
        (PayloadLength (cs_Header c)) (wire_delta h) (StreamId (cs_Header c)) (wire_delta h)) (extended h)
        (cs_Msg c) (cs_MsgCount c))).
  { unfold wire_delta. destruct (extended h); by apply wp_upd. }
  intros _ v' c' [-> ->]. change (0 <=? RTMP_FMT_TYPE1) with true. cbv iota.
  apply wp_bind, (wp_field _ _ (PayloadLength h)); [by apply decodes_ReadUInt24|rewrite zlen_be_bytes; lia|].
  rewrite zlen_be_bytes.
  apply wp_bind, wp_upd, wp_bind, wp_the. cbn [cs_Msg set_Header]. rewrite Hm. cbv iota.
  apply wp_bind, (wp_field _ _ (MessageType h)); [apply decodes_ReadByte|rewrite zlen_singleton; lia|].
  apply wp_bind, wp_upd. change (0 =? RTMP_FMT_TYPE0) with true. cbv iota.
  apply wp_bind, (wp_field _ _ (StreamId h)); [by apply decodes_ReadUInt32Le|rewrite zlen_le_bytes, zlen_singleton; lia|].
  apply wp_upd. rewrite <- !app_assoc. apply HQ.
Qed.

(** The chunk stream when the header of the first chunk of [msg] has been read. *)
Definition started (c : ChunkStream) (h : MessageHeader) : ChunkStream :=
  mkChunkStream (cs_FMT c) (cs_CId c) (recv_header h) (extended h)
    (Some (mkMessage (recv_header h) None 0 0 0)) (cs_MsgCount c + 1).

Lemma wp_header0 (Q : Z -> view -> ChunkStream -> Prop) k pre inp c h :
  hdr_sendable h -> cs_Msg c = None ->
  (forall k', Q (11 + zlen (ext_bytes (Timestamp h)))
      (mkview k' ((pre ++ fmt0_fields h) ++ ext_bytes (Timestamp h)) inp) (started c h)) ->
  wp n (read_message_header 0) E Q
    (mkview k pre (fmt0_fields h ++ ext_bytes (Timestamp h) ++ inp)) c.
Proof.
  intros Hh Hm HQ. pose proof (Hh) as (Hl & Hs & Ht & Hne).
  unfold read_message_header. apply wp_bind, wp_the. rewrite Hm. apply wp_bind, wp_the.
  apply wp_guard; [by rewrite andb_false_r|intros _]. apply wp_guard; [done|intros _].
  apply wp_bind, wp_upd, wp_bind, (wp_lift _ 11); [done|].
  pose proof (zlen_nonneg (ext_bytes (Timestamp h) ++ inp)).
  apply wp_bind, wp_on_buf, wpb_ensure; rewrite zlen_app, zlen_fmt0_fields; [intros _|lia].
  change (0 <=? RTMP_FMT_TYPE2) with true. cbv iota.
  apply wp_bind, wp_fields0; [done..|]. intros k1.
  apply wp_bind, wp_extended; [done|done|..].
  - cbn. unfold wire_delta. destruct (extended h); [by right|by left].
  - unfold fielded, wire_delta, extended. cbn. by intros ->.
  - intros k2. apply wp_bind, wp_the, wp_guard; [|intros _].
    + cbn. rewrite to_int32_small by (cbn; lia). rewrite negb_false_iff, Z.ltb_lt. lia.
    + apply wp_bind, wp_upd, wp_bind, wp_upd, wp_ret. apply HQ.
Qed.

(** The chunk stream when the header of a further chunk has been read. *)
Definition continued (c : ChunkStream) (m : Message) : ChunkStream :=
  mkChunkStream (cs_FMT c) (cs_CId c) (cs_Header c) (cs_ExtendedTimestamp c)
    (Some (mkMessage (cs_Header c) (Payload m) (ReceivedPayloadLength m) (PerferCid m) (SentPayloadLength m)))
    (cs_MsgCount c + 1).

Lemma wp_header3 (Q : Z -> view -> ChunkStream -> Prop) k pre inp c m h :
  hdr_sendable h -> cs_Msg c = Some m -> 0 < cs_MsgCount c ->
  cs_Header c = recv_header h -> cs_ExtendedTimestamp c = extended h ->
  (forall k', Q (0 + zlen (ext_bytes (Timestamp h))) (mkview k' (pre ++ ext_bytes (Timestamp h)) inp)
                (continued c m)) ->
  wp n (read_message_header 3) E Q (mkview k pre (ext_bytes (Timestamp h) ++ inp)) c.
Proof.
  intros (Hl & Hs & Ht & Hne) Hm Hc Hch Hx HQ.
  unfold read_message_header. apply wp_bind, wp_the. rewrite Hm. apply wp_bind, wp_the.
  rewrite (proj2 (Z.eqb_neq _ 0)) by lia. apply wp_guard; [done|intros _]. apply wp_guard; [done|intros _].
  apply wp_bind, wp_ret, wp_bind, (wp_lift _ 0); [done|].
  pose proof (zlen_nonneg (ext_bytes (Timestamp h) ++ inp)).
  apply wp_bind, wp_on_buf, wpb_ensure; [intros _|lia].
  change (3 <=? RTMP_FMT_TYPE2) with false. cbv iota.
  apply wp_bind, wp_bind, wp_the, wp_ret, wp_bind, wp_extended; [done|by rewrite Hx|by left; rewrite Hch|by rewrite Hch|].
  intros k1. apply wp_bind, wp_the, wp_guard; [|intros _].
  - cbn. rewrite Hch. cbn. rewrite to_int32_small by (cbn; lia). rewrite negb_false_iff, Z.ltb_lt. lia.
  - apply wp_bind, wp_upd. cbn [cs_Msg set_Header]. rewrite Hm. apply wp_bind, wp_upd, wp_ret.
    specialize (HQ k1). unfold continued in HQ. rewrite Hch in *. exact HQ.
Qed.

End Headers.

Lemma fmt0_header_eq cid h :
  2 <= cid <= 63 -> hdr_sendable h ->
  fmt0_header cid h = [byte_of_Z (0 * 64 + cid)] ++ fmt0_fields h ++ ext_bytes (Timestamp h).
Proof.
  intros Hc (_ & _ & Ht & _). unfold fmt0_header, fmt0_fields, wire_delta, extended, to_uint.
  rewrite fmt0_byte by done. rewrite Z.mod_small by done. by rewrite <- !app_assoc.
Qed.

Lemma fmt3_header_eq cid h :
  2 <= cid <= 63 -> fmt3_header cid h = [byte_of_Z (3 * 64 + cid)] ++ ext_bytes (Timestamp h).
Proof. intros Hc. unfold fmt3_header. by rewrite fmt3_byte. Qed.

(** ** One message on its chunk stream *)

(** The chunk stream between header and payload of a chunk of [msg], with [got] of
    the payload received. *)
Definition mid_message (c : ChunkStream) (msg : Message) (got : list byte) : Prop :=
  cs_Header c = recv_header (Header msg) /\ cs_ExtendedTimestamp c = extended (Header msg)
  /\ 0 < cs_MsgCount c
  /\ exists m, cs_Msg c = Some m /\ Header m = recv_header (Header msg)
       /\ PerferCid m = 0 /\ SentPayloadLength m = 0 /\ partial m got (PayloadLength (Header msg)).

(** The chunk stream between two chunks, with [todo] of the payload to come. *)
Definition expects (c : ChunkStream) (msg : Message) (todo : list byte) : Prop :=
  match todo with
  | [] => cs_Msg c = None /\ 0 <= cs_MsgCount c
  | _ => exists got, mid_message c msg got /\ payload_of msg = got ++ todo
  end.

(** What a chunk yields: the message, if nothing is left to come. *)
Definition yields (msg : Message) (todo : list byte) : option Message :=
  match todo with [] => Some (delivered msg) | _ => None end.

Section Message.
Context (n : net) (E : error -> Prop).

Lemma wp_piece size bh mh msg got todo (Q : option Message -> view -> ChunkStream -> Prop) k pre inp c :
  sendable msg -> payload_of msg = got ++ todo -> todo <> [] -> mid_message c msg got ->
  0 < size -> zlen pre = mh + bh ->
  (forall k' c' o, expects c' msg (drop (Z.to_nat size) todo) ->
     option_map (set_PerferCid (PerferCid msg)) o = yields msg (drop (Z.to_nat size) todo) ->
     Q o (mkview k' [] inp) c') ->
  wp n (read_message_payload size bh mh) E Q (mkview k pre (take (Z.to_nat size) todo ++ inp)) c.
Proof.
  intros (Hcid & HL & (Hlen & _)) Hpay Htodo (Hch & Hx & Hcount & m & Hm & Hmh & Hmc & Hms & Hpart) Hsize Hpre HQ.
  assert (0 < zlen todo) as Hpos by (destruct todo; [done|apply zlen_cons_lt]).
  rewrite Hpay, zlen_app in HL. pose proof (zlen_nonneg got).
  pose proof (zlen_take todo size ltac:(lia)) as Htake.
  eapply (wp_payload n _ _ _ _ _ _ _ _ _ m got (PayloadLength (Header msg)) Hm);
    try done; [by rewrite Hch|by rewrite Hmh|lia|lia|rewrite zlen_app; pose proof (zlen_nonneg inp); lia|].
  intros piece inp' junk k' Hinp Hpl Htot m'.
  apply app_inj_1 in Hinp as [<- <-]; [|unfold zlen in *; lia].
  set (t := take (Z.to_nat size) todo) in *.
  assert (zlen todo = zlen t + zlen (drop (Z.to_nat size) todo)) as Hsplit
    by (rewrite <- zlen_app; unfold t; by rewrite take_drop).
  pose proof (zlen_nonneg (drop (Z.to_nat size) todo)).
  destruct (Z.eqb_spec (zlen (got ++ t)) (PayloadLength (Header msg))) as [He|He]; rewrite zlen_app in He.
  - assert (drop (Z.to_nat size) todo = []) as Hnil by (apply zlen_0_nil; lia).
    assert (junk = []) as -> by (apply zlen_0_nil; rewrite !zlen_app in Htot; lia).
    assert (got ++ t = payload_of msg) as Hfull
      by (rewrite Hpay, <- (take_drop (Z.to_nat size) todo), Hnil, app_nil_r; done).
    split; [done|]. apply HQ; rewrite Hnil; [split; [done|cbn; lia]|].
    unfold m', received_msg, yields, delivered. rewrite app_nil_r, Hfull. cbn. rewrite Hmh, Hms.
    rewrite (proj2 (Z.eqb_neq _ _)); [done|]. rewrite Hpay, zlen_app. lia.
  - destruct (drop (Z.to_nat size) todo) as [|x todo'] eqn:Hdrop.
    { change (zlen []) with 0 in *. lia. }
    apply HQ; [|done]. exists (got ++ t). split.
    + split_and!; try done. exists m'. split_and!; try done. split; [done|]. right. exists junk.
      split; [done|]. by rewrite <- app_assoc.
    + rewrite Hpay, <- app_assoc. f_equal. unfold t. by rewrite <- Hdrop, take_drop.
Qed.

End Message.

Section Receive.
Context (n : net).

(** The first chunk of a message, on a chunk stream that expects none. *)
Lemma recv_first msg r k inp :
  sendable msg -> 0 < inChunkSize r ->
  cs_Msg (chunk_of r (PerferCid msg)) = None -> 0 <= cs_MsgCount (chunk_of r (PerferCid msg)) ->
  let size := Z.to_nat (inChunkSize r) in
  feed n (mkview k [] ((fmt0_header (PerferCid msg) (Header msg) ++ take size (payload_of msg)) ++ inp))
    (buffer r) ->
  exists b' c' k', recv_interlaced_message r
      = (Ret (yields msg (drop size (payload_of msg))), step_to r b' (PerferCid msg) c')
    /\ feed n (mkview k' [] inp) b' /\ expects c' msg (drop size (payload_of msg)).
Proof.
  intros Hsend Hsz Hm Hc size Hf. pose proof (Hsend) as (Hcid & HL & Hh).
  rewrite fmt0_header_eq, <- !app_assoc in Hf by done.
  destruct (recv_wp n (fun _ => False) (fun cid o v' c' => cid = PerferCid msg
    /\ option_map (set_PerferCid cid) o = yields msg (drop size (payload_of msg))
    /\ expects c' msg (drop size (payload_of msg)) /\ exists k', v' = mkview k' [] inp) _ r Hf)
    as (o & r' & He & Ho).
  { apply wpb_basic_one; [done|lia|]. intros k1. cbn [fst snd].
    apply wp_bind, wp_header0; [done..|]. intros k2.
    assert (mid_message (started (chunk_of r (PerferCid msg)) (Header msg)) msg []) as Hmid.
    { split_and!; try done; [cbn; lia|]. eexists. split; [done|]. split_and!; try done. split; [done|by left]. }
    destruct (decide (payload_of msg = [])) as [Hnil|Hne].
    - unfold size. rewrite Hnil, take_nil, drop_nil. cbn [app].
      apply wp_payload_empty; [cbn; by rewrite HL, Hnil|rewrite zlen_cons, zlen_app, zlen_fmt0_fields; lia|].
      split_and!; try done; [|split; [done|cbn; lia]|eauto].
      unfold yields, delivered. by rewrite Hnil.
    - eapply (wp_piece _ _ _ _ _ msg []); try done; [rewrite !zlen_app, zlen_fmt0_fields, zlen_singleton, zlen_nil; lia|].
      intros k' c' o Hex Ho. eauto. }
  destruct o as [o| | |]; try done.
  destruct Ho as (cid & m & v' & c' & b' & -> & Hf' & (-> & Hy & Hex & k' & ->) & ->).
  exists b', c', k'. by rewrite <- Hy.
Qed.

(** A further chunk. *)
Lemma recv_next msg r k inp todo :
  sendable msg -> 0 < inChunkSize r -> todo <> [] ->
  expects (chunk_of r (PerferCid msg)) msg todo ->
  let size := Z.to_nat (inChunkSize r) in
  feed n (mkview k [] ((fmt3_header (PerferCid msg) (Header msg) ++ take size todo) ++ inp)) (buffer r) ->
  exists b' c' k', recv_interlaced_message r
      = (Ret (yields msg (drop size todo)), step_to r b' (PerferCid msg) c')
    /\ feed n (mkview k' [] inp) b' /\ expects c' msg (drop size todo).
Proof.
  intros Hsend Hsz Hne Hex size Hf. pose proof (Hsend) as (Hcid & HL & Hh).
  assert (exists got, mid_message (chunk_of r (PerferCid msg)) msg got /\ payload_of msg = got ++ todo)
    as (got & Hmid & Hpay) by (by destruct todo).
  rewrite fmt3_header_eq, <- !app_assoc in Hf by done.
  destruct (recv_wp n (fun _ => False) (fun cid o v' c' => cid = PerferCid msg
    /\ option_map (set_PerferCid cid) o = yields msg (drop size todo)
    /\ expects c' msg (drop size todo) /\ exists k', v' = mkview k' [] inp) _ r Hf)
    as (o & r' & He & Ho).
  { apply wpb_basic_one; [done|lia|]. intros k1. cbn [fst snd].
    pose proof (Hmid) as (Hch & Hx & Hcount & m & Hm & Hmh & Hmc & Hms & Hpart).
    apply wp_bind. eapply wp_header3; [done..|]. intros k2.
    eapply (wp_piece _ _ _ _ _ msg got); try done.
    - split_and!; try done; [cbn; lia|]. eexists. split; [done|]. by split_and!.
    - rewrite !zlen_app, zlen_singleton, zlen_nil. lia.
    - intros k' c' o Hex' Ho. eauto. }
  destruct o as [o| | |]; try done.
  destruct Ho as (cid & m & v' & c' & b' & -> & Hf' & (-> & Hy & Hex' & k' & ->) & ->).
  exists b', c', k'. by rewrite <- Hy.
Qed.

End Receive.

(** ** Interleaved chunk streams *)

(** The messages under way, by chunk stream: each with the payload to come. *)
Definition next_pending (msg : Message) (todo : list byte) (P : gmap Z (Message * list byte)) :
    gmap Z (Message * list byte) :=
  match todo with
  | [] => delete (PerferCid msg) P
  | _ => <[PerferCid msg := (msg, todo)]> P
  end.

(** [interleaved size P l]: the list [l] of chunks, each with the message that is
    complete with it, is one in which every chunk stream carries the chunks of
    its messages in order, one message after the other, starting from the
    messages [P] under way.  How the chunk streams take turns is left open. *)
Inductive interleaved (size : Z) :
    gmap Z (Message * list byte) -> list (list byte * option Message) -> Prop :=
| il_nil P : interleaved size P []
| il_start P msg l :
    sendable msg -> P !! PerferCid msg = None ->
    let todo := drop (Z.to_nat size) (payload_of msg) in
    interleaved size (next_pending msg todo P) l ->
    interleaved size P
      ((fmt0_header (PerferCid msg) (Header msg) ++ take (Z.to_nat size) (payload_of msg), yields msg todo) :: l)
| il_next P msg rest l :
    P !! PerferCid msg = Some (msg, rest) ->
    let todo := drop (Z.to_nat size) rest in
    interleaved size (next_pending msg todo P) l ->
    interleaved size P
      ((fmt3_header (PerferCid msg) (Header msg) ++ take (Z.to_nat size) rest, yields msg todo) :: l).

(** The receiver is where [P] says. *)
Definition tracks (P : gmap Z (Message * list byte)) (r : protocol) : Prop :=
  forall cid,
    match P !! cid with
    | None => cs_Msg (chunk_of r cid) = None /\ 0 <= cs_MsgCount (chunk_of r cid)
    | Some (msg, todo) =>
        sendable msg /\ PerferCid msg = cid /\ todo <> [] /\ expects (chunk_of r cid) msg todo
    end.

(** No message is under way. *)
Definition idle (r : protocol) : Prop := tracks ∅ r.

Lemma tracks_step P r b msg c todo :
  tracks P r -> sendable msg -> expects c msg todo ->
  tracks (next_pending msg todo P) (step_to r b (PerferCid msg) c).
Proof.
  intros HP Hs Hex cid. unfold chunk_of, step_to. cbn [chunkStreams set_chunkStreams set_buffer].
  destruct (decide (cid = PerferCid msg)) as [->|Hne].
  - rewrite lookup_insert_eq. unfold next_pending.
    destruct todo as [|x todo]; [by rewrite lookup_delete_eq|by rewrite lookup_insert_eq].
  - rewrite lookup_insert_ne by done. specialize (HP cid). unfold next_pending.
    destruct todo; [by rewrite lookup_delete_ne|by rewrite lookup_insert_ne].
Qed.

(** [k] rounds of the receiver. *)
Fixpoint recv_all (k : nat) : M protocol (list (option Message)) :=
  match k with
  | O => ret []
  | S k =>
      let* m := recv_interlaced_message in
      let* l := recv_all k in
      ret (m :: l)
  end.

(** One chunk of an interleaving. *)
Lemma recv_one n P c o l r k inp :
  interleaved (inChunkSize r) P ((c, o) :: l) -> tracks P r -> 0 < inChunkSize r ->
  feed n (mkview k [] (c ++ inp)) (buffer r) ->
  exists P' b' cid ch k', recv_interlaced_message r = (Ret o, step_to r b' cid ch)
    /\ interleaved (inChunkSize r) P' l /\ tracks P' (step_to r b' cid ch) /\ feed n (mkview k' [] inp) b'
    /\ (forall m, o = Some m -> exists msg, sendable msg /\ m = delivered msg).
Proof.
  intros Hl HT Hpos Hf.
  assert (forall msg todo, sendable msg -> forall m, yields msg todo = Some m ->
    exists msg, sendable msg /\ m = delivered msg) as Hy
    by (intros msg [|? ?] Hs m [= <-]; eauto).
  inversion Hl as [|P0 msg l0 Hs HP todo Hl' Heq0 Heq|P0 msg rest l0 HP todo Hl' Heq0 Heq]; subst;
    pose proof (HT (PerferCid msg)) as Hw; rewrite HP in Hw.
  - destruct Hw as [Hm Hc].
    destruct (recv_first n msg r k _ Hs Hpos Hm Hc Hf) as (b' & c' & k' & He & Hf' & Hex).
    eexists _, b', (PerferCid msg), c', k'. split_and!; [exact He|exact Hl'|by apply tracks_step|done|by apply Hy].
  - destruct Hw as (Hs & _ & Hne & Hex0).
    destruct (recv_next n msg r k _ rest Hs Hpos Hne Hex0 Hf) as (b' & c' & k' & He & Hf' & Hex).
    eexists _, b', (PerferCid msg), c', k'. split_and!; [exact He|exact Hl'|by apply tracks_step|done|by apply Hy].
Qed.

Lemma recv_interleaved n P l r k inp :
  interleaved (inChunkSize r) P l -> tracks P r -> 0 < inChunkSize r ->
  feed n (mkview k [] (concat (List.map fst l) ++ inp)) (buffer r) ->
  exists r' k', recv_all (List.length l) r = (Ret (List.map snd l), r')
    /\ feed n (mkview k' [] inp) (buffer r').
Proof.
  revert P r k. induction l as [|[c o] l IH]; intros P r k Hl HT Hpos Hf; [by exists r, k|].
  cbn [List.map fst concat] in Hf. rewrite <- app_assoc in Hf.
  destruct (recv_one _ _ _ _ _ _ _ _ Hl HT Hpos Hf) as (P' & b' & cid & ch & k' & He & Hl' & HT' & Hf' & _).
  destruct (IH P' (step_to r b' cid ch) k' Hl' HT' Hpos Hf') as (r2 & k2 & He2 & Hf2).
  exists r2, k2. split; [|done]. cbn [recv_all List.length List.map snd].
  by rewrite (bind_Ret _ _ _ _ _ He), (bind_Ret _ _ _ _ _ He2).
Qed.

Lemma NewProtocol_idle conn : idle (NewProtocol conn).
Proof. intros cid. rewrite lookup_empty. unfold chunk_of. cbn. by rewrite lookup_empty. Qed.

(** ** One message after the other *)

Fixpoint tail_trace (f : nat) (size : Z) (msg : Message) (todo : list byte) :
    list (list byte * option Message) :=
  match f, todo with
  | S f, _ :: _ =>
      let rest := drop (Z.to_nat size) todo in
      (fmt3_header (PerferCid msg) (Header msg) ++ take (Z.to_nat size) todo, yields msg rest)
      :: tail_trace f size msg rest
  | _, _ => []
  end.

(** The chunks of a message with what each of them yields. *)
Definition message_trace (size : Z) (msg : Message) : list (list byte * option Message) :=
  let todo := drop (Z.to_nat size) (payload_of msg) in
  (fmt0_header (PerferCid msg) (Header msg) ++ take (Z.to_nat size) (payload_of msg), yields msg todo)
  :: tail_trace (List.length todo) size msg todo.

Lemma tail_trace_chunks f size msg todo :
  List.map fst (tail_trace f size msg todo)
  = List.map (fun x => fmt3_header (PerferCid msg) (Header msg) ++ x) (pieces f size todo).
Proof.
  revert todo. induction f as [|f IH]; intros todo; [done|]. destruct todo as [|x todo]; [done|].
  cbn [tail_trace pieces List.map fst]. by rewrite IH.
Qed.

Lemma message_trace_chunks size msg : List.map fst (message_trace size msg) = message_chunks size msg.
Proof.
  unfold message_trace, message_chunks, tail_chunks. cbn [List.map fst]. by rewrite tail_trace_chunks.
Qed.

Fixpoint somes (l : list (option Message)) : list Message :=
  match l with
  | [] => []
  | Some m :: l => m :: somes l
  | None :: l => somes l
  end.

Lemma somes_app l1 l2 : somes (l1 ++ l2) = somes l1 ++ somes l2.
Proof. induction l1 as [|[m|] l1 IH]; cbn; by rewrite ?IH. Qed.

Lemma tail_trace_yields f size msg todo :
  0 < size -> (List.length todo <= f)%nat ->
  somes (List.map snd (tail_trace f size msg todo)) = match todo with [] => [] | _ => [delivered msg] end.
Proof.
  intros Hs. revert todo. induction f as [|f IH]; intros todo Hf.
  { by destruct todo; [|cbn in Hf; lia]. }
  destruct todo as [|x todo]; [done|]. cbn [tail_trace List.map snd].
  assert ((List.length (drop (Z.to_nat size) (x :: todo)) <= f)%nat) as Hd
    by (rewrite length_drop; cbn in *; lia).
  specialize (IH _ Hd). unfold yields. destruct (drop (Z.to_nat size) (x :: todo)); cbn [somes]; by rewrite IH.
Qed.

Lemma message_trace_yields size msg :
  0 < size -> somes (List.map snd (message_trace size msg)) = [delivered msg].
Proof.
  intros Hs. unfold message_trace. cbn [List.map snd].
  pose proof (tail_trace_yields (List.length (drop (Z.to_nat size) (payload_of msg))) size msg _ Hs (le_n _)) as Ht.
  unfold yields at 1. destruct (drop (Z.to_nat size) (payload_of msg)); cbn [somes]; by rewrite Ht.
Qed.

Lemma next_pending_idem msg x todo P :
  next_pending msg todo (<[PerferCid msg := x]> P) = next_pending msg todo P.
Proof. unfold next_pending. destruct todo; [apply delete_insert_eq|apply insert_insert_eq]. Qed.

Lemma interleaved_tail f size msg todo l :
  0 < size -> (List.length todo <= f)%nat -> interleaved size ∅ l ->
  interleaved size (next_pending msg todo ∅) (tail_trace f size msg todo ++ l).
Proof.
  intros Hs. revert todo. induction f as [|f IH]; intros todo Hf Hl.
  - destruct todo; [|cbn in Hf; lia]. cbn. by rewrite delete_empty.
  - destruct todo as [|x todo]; [cbn; by rewrite delete_empty|]. cbn [tail_trace app].
    apply il_next; [by apply lookup_insert_eq|]. cbn [next_pending]. rewrite next_pending_idem.
    apply IH; [rewrite length_drop; cbn in *; lia|done].
Qed.

Lemma interleaved_messages size msgs :
  0 < size -> Forall sendable msgs ->
  interleaved size ∅ (concat (List.map (message_trace size) msgs)).
Proof.
  intros Hs. induction 1 as [|msg msgs Hm _ IH]; [constructor|]. cbn [List.map concat message_trace app].
  apply il_start; [done|by apply lookup_empty|]. by apply interleaved_tail.
Qed.

(** The sender's side of the same list. *)
Fixpoint send_all (msgs : list Message) : M protocol unit :=
  match msgs with
  | [] => ret tt
  | msg :: msgs => do* send_message msg in send_all msgs
  end.

Lemma send_all_sends size msgs r :
  out_ok r -> outChunkSize r = size -> 0 < size ->
  sends (send_all msgs) (concat (List.map (fun m => concat (message_chunks size m)) msgs)) r (fun _ _ => True).
Proof.
  intros Ho Hsz Hpos. revert r Ho Hsz. induction msgs as [|msg msgs IH]; intros r Ho Hsz.
  - by apply sends_ret.
  - cbn [send_all List.map concat]. apply sends_bind. subst size.
    eapply sends_weaken; [by apply send_message_sends|]. intros _ r' _ Ho' Hsz'. by apply IH.
Qed.

Lemma concat_traces size msgs :
  concat (List.map fst (concat (List.map (message_trace size) msgs)))
  = concat (List.map (fun m => concat (message_chunks size m)) msgs).
Proof.
  induction msgs as [|msg msgs IH]; [done|]. cbn [List.map concat].
  by rewrite map_app, concat_app, IH, message_trace_chunks.
Qed.

Lemma traces_yield size msgs :
  0 < size ->
  somes (List.map snd (concat (List.map (message_trace size) msgs))) = List.map delivered msgs.
Proof.
  intros Hs. induction msgs as [|msg msgs IH]; [done|]. cbn [List.map concat].
  by rewrite map_app, somes_app, IH, message_trace_yields.
Qed.

(** ** Properties *)


(** Two messages whose chunks alternate, and a connection that delivers them in two
    segments. *)
Definition video : Message :=
  mkMessage (mkMessageHeader RTMP_MSG_VideoMessage 130 0 1 0x2000000) (Some (make_bytes 130)) 0 4 0.
Definition audio : Message :=
  mkMessage (mkMessageHeader RTMP_MSG_AudioMessage 1 0 1 20) (Some [Byte.xaf]) 0 5 0.

Definition alternating : list (list byte * option Message) :=
  [(fmt0_header 4 (Header video) ++ make_bytes 128, None);
   (fmt0_header 5 (Header audio) ++ [Byte.xaf], Some (delivered audio));
   (fmt3_header 4 (Header video) ++ make_bytes 2, Some (delivered video))].

Definition two_segments : TCPConn :=
  let w := concat (List.map fst alternating) in mkTCPConn [take 7 w; drop 7 w] EOF [] [].

Lemma video_sendable : sendable video.
Proof. unfold sendable, hdr_sendable. split_and!; (reflexivity || by vm_compute). Qed.

Lemma audio_sendable : sendable audio.
Proof. unfold sendable, hdr_sendable. split_and!; (reflexivity || by vm_compute). Qed.

Lemma alternating_interleaved : interleaved 128 ∅ alternating.
Proof.
  apply (il_start 128 ∅ video); [apply video_sendable|done|].
  apply (il_start 128 _ audio); [apply audio_sendable|done|].
  apply (il_next 128 _ video (make_bytes 2)); [done|]. constructor.
Qed.


(** End to end: the messages a protocol sends over a connection that accepts
    them arrive, in order and each exactly once, at a protocol whose input chunk
    size is the sender's output chunk size, however the network cuts the bytes
    into segments. *)
Theorem send_receive_messages msgs r s :
  out_ok r -> bf_conn (buffer r) = Some s -> tx_script (sk_conn s) = [] -> 0 < outChunkSize r ->
  Forall sendable msgs ->
  exists r' s' w,
    send_all msgs r = (Ret tt, r') /\ bf_conn (buffer r') = Some s' /\ tx (sk_conn s') = tx (sk_conn s) ++ w
    /\ forall q n k inp,
         idle q -> inChunkSize q = outChunkSize r -> feed n (mkview k [] (w ++ inp)) (buffer q) ->
         exists rounds got q' k',
           recv_all rounds q = (Ret got, q') /\ somes got = List.map delivered msgs
           /\ feed n (mkview k' [] inp) (buffer q').
Proof.
  intros Ho Hs Hsc Hpos Hm.
  destruct (send_all_sends (outChunkSize r) msgs r Ho eq_refl Hpos) as (o & r' & j & He & Hsent & Hout).
  destruct Hsent as (_ & _ & _ & _ & _ & _ & (s1 & s' & Hs1 & Hs' & (Htx & _)) & _).
  rewrite Hs in Hs1. injection Hs1 as <-.
  assert (quiet r) as Hq by (intros s2 Hs2; rewrite Hs in Hs2; by injection Hs2 as <-).
  destruct o as [[]|e| |]; try done. destruct Hout as [Hw _]. rewrite Hw in Htx.
  eexists r', s', _. split_and!; [done|done|exact Htx|].
  intros q n k inp Hidle Hsz Hf. rewrite <- concat_traces, <- Hsz in Hf.
  destruct (recv_interleaved n ∅ (concat (List.map (message_trace (inChunkSize q)) msgs)) q k inp)
    as (q' & k' & Hr & Hf'); [apply interleaved_messages; [lia|done]|done|lia|done|].
  eexists _, _, q', k'. split; [exact Hr|]. split; [|done]. apply traces_yield. lia.
Qed.

Lemma send_receive_messages_witness :
  let r := NewProtocol (mkTCPConn [] EOF [] []) in
  exists r' s' w,
    send_all [video; audio] r = (Ret tt, r') /\ bf_conn (buffer r') = Some s' /\ tx (sk_conn s') = [] ++ w
    /\ forall q n k inp,
         idle q -> inChunkSize q = outChunkSize r -> feed n (mkview k [] (w ++ inp)) (buffer q) ->
         exists rounds got q' k',
           recv_all rounds q = (Ret got, q') /\ somes got = List.map delivered [video; audio]
           /\ feed n (mkview k' [] inp) (buffer q').
Proof.
  apply (send_receive_messages [video; audio] (NewProtocol (mkTCPConn [] EOF [] []))
    (NewSocket (mkTCPConn [] EOF [] []))); [apply NewProtocol_out_ok|done|done|done|].
  repeat constructor; (apply video_sendable || apply audio_sendable).
Defined.
