(* ===== verification/Limits.v ===== *)
(** * Sending at the limits: sizes on the wire, a chunk size of zero, a timestamp of 0xFFFFFF

    The number of chunks and bytes a message takes; the two values that the sending
    side accepts although the protocol does not work with them. *)

From Stdlib Require Import ZArith Lia Strings.Byte.
From stdpp Require Import base tactics list gmap.
From S2P Require Import Prelude Constants HPBuffer Socket Buffer Messages Packets Protocol ChunkSend Feed ChunkRecv Reassembly.
Open Scope Z_scope.

(** ** Sizes *)

(** [ceil (n / size)], and at least one chunk. *)
Definition chunk_count (size n : Z) : Z := Z.max 1 ((n + size - 1) / size).

Definition ext_size (ts : Z) : Z := if RTMP_EXTENDED_TIMESTAMP <? ts then 4 else 0.

(** The extended timestamp in the format, and where the code agrees with it. *)
Definition rtmp_ext_size (ts : Z) : Z := if RTMP_EXTENDED_TIMESTAMP <=? ts then 4 else 0.

Lemma rtmp_ext_size_sent ts : ts <> RTMP_EXTENDED_TIMESTAMP -> rtmp_ext_size ts = ext_size ts.
Proof.
  unfold rtmp_ext_size, ext_size.
  destruct (Z.leb_spec RTMP_EXTENDED_TIMESTAMP ts), (Z.ltb_spec RTMP_EXTENDED_TIMESTAMP ts); done || lia.
Qed.

Lemma zlen_ext_exact ts : zlen (ext_bytes ts) = ext_size ts.
Proof. unfold ext_bytes, ext_size. by destruct (_ <? _). Qed.

Lemma zlen_fmt0_exact cid h : zlen (fmt0_header cid h) = 12 + ext_size (Timestamp h).
Proof.
  unfold fmt0_header. rewrite !zlen_app, !zlen_be_bytes, zlen_le_bytes, !zlen_singleton, zlen_ext_exact. lia.
Qed.

Lemma zlen_fmt3_exact cid h : zlen (fmt3_header cid h) = 1 + ext_size (Timestamp h).
Proof. unfold fmt3_header. by rewrite zlen_app, zlen_singleton, zlen_ext_exact. Qed.

Lemma chunk_count_cons size n :
  0 < size -> size < n -> chunk_count size n = 1 + chunk_count size (n - size).
Proof.
  intros Hs Hn. unfold chunk_count. replace (n + size - 1) with (n - size + size - 1 + 1 * size) by lia.
  rewrite Z.div_add by lia. assert (1 <= (n - size + size - 1) / size) by (apply Z.div_le_lower_bound; lia). lia.
Qed.

Lemma chunk_count_one size n : 0 < size -> 0 <= n <= size -> chunk_count size n = 1.
Proof.
  intros Hs Hn. unfold chunk_count. assert ((n + size - 1) / size < 2) by (apply Z.div_lt_upper_bound; lia). lia.
Qed.

(** The chunks behind the first one. *)
Lemma tail_chunks_size size msg p :
  0 < size ->
  let n := if zlen p =? 0 then 0 else chunk_count size (zlen p) in
  zlen (tail_chunks size msg p) = n
  /\ zlen (concat (tail_chunks size msg p)) = zlen p + n * (1 + ext_size (Timestamp (Header msg))).
Proof.
  intros Hs. remember (List.length p) as k eqn:Hk. revert p Hk.
  induction k as [k IH] using lt_wf_ind. intros p ->.
  destruct p as [|x p]; [done|]. set (q := x :: p) in *.
  assert (0 < zlen q) as Hq by apply zlen_cons_lt. rewrite (proj2 (Z.eqb_neq (zlen q) 0)) by lia. cbn zeta.
  rewrite tail_chunks_cons by done. rewrite zlen_cons. cbn [concat]. rewrite !zlen_app, zlen_fmt3_exact, zlen_take by lia.
  assert (zlen (drop (Z.to_nat size) q) = Z.max 0 (zlen q - size)) as Hd by (unfold zlen in *; rewrite length_drop; lia).
  destruct (IH (List.length (drop (Z.to_nat size) q))) with (p := drop (Z.to_nat size) q) as [H1 H2];
    [rewrite length_drop; unfold zlen in Hq; lia|done|].
  rewrite H1, H2, Hd. destruct (Z.lt_ge_cases size (zlen q)).
  - rewrite (chunk_count_cons size (zlen q)) by lia. rewrite !Z.max_r, (proj2 (Z.eqb_neq (zlen q - size) 0)) by lia. lia.
  - rewrite (chunk_count_one size (zlen q)) by lia. rewrite Z.max_l by lia. cbn [Z.eqb]. lia.
Qed.

Lemma message_chunks_size size msg :
  0 < size ->
  zlen (message_chunks size msg) = chunk_count size (zlen (payload_of msg))
  /\ zlen (concat (message_chunks size msg))
     = zlen (payload_of msg) + 12 + ext_size (Timestamp (Header msg))
       + (chunk_count size (zlen (payload_of msg)) - 1) * (1 + ext_size (Timestamp (Header msg))).
Proof.
  intros Hs. unfold message_chunks. set (p := payload_of msg). rewrite zlen_cons. cbn [concat].
  rewrite !zlen_app, zlen_fmt0_exact, zlen_take by lia.
  assert (zlen (drop (Z.to_nat size) p) = Z.max 0 (zlen p - size)) as Hd by (unfold zlen; rewrite length_drop; lia).
  destruct (tail_chunks_size size msg (drop (Z.to_nat size) p) Hs) as [-> ->]. rewrite Hd.
  pose proof (zlen_nonneg p). destruct (Z.lt_ge_cases size (zlen p)).
  - rewrite (chunk_count_cons size (zlen p)) by lia. rewrite !Z.max_r, (proj2 (Z.eqb_neq (zlen p - size) 0)) by lia. lia.
  - rewrite (chunk_count_one size (zlen p)) by lia. rewrite Z.max_l by lia. cbn [Z.eqb]. lia.
Qed.

(** ** A chunk size of zero *)

(** A round sends a header and nothing of the payload. *)
Lemma send_round_zero msg p r sent :
  out_ok r -> quiet r -> outChunkSize r = 0 -> sent = -1 \/ sent = 0 ->
  exists r', send_round msg p sent r = (Ret 0, r') /\ sent_by (fmt0_header (PerferCid msg) (Header msg)) r r'.
Proof.
  intros Ho Hq Hz Hs. assert (send_round msg p sent = send_round msg p (-1)) as -> by (by destruct Hs as [-> | ->]).
  destruct (send_round_first msg p r Ho ltac:(lia)) as (o & r' & k & He & Hsent & Hout).
  rewrite Hz in Hsent, Hout. change (Z.to_nat 0) with 0%nat in *. rewrite take_0, app_nil_r in Hsent, Hout.
  destruct o as [n|e| |]; try done. destruct Hout as [Hk ->]. rewrite Hk in Hsent. by exists r'.
Qed.

Lemma send_chunks_zero fuel msg p r sent :
  out_ok r -> quiet r -> outChunkSize r = 0 -> p <> [] -> sent = -1 \/ sent = 0 ->
  exists r', send_chunks fuel msg p sent r = (OutOfFuel, r')
    /\ sent_by (concat (replicate fuel (fmt0_header (PerferCid msg) (Header msg)))) r r'.
Proof.
  intros Ho Hq Hz Hp. revert r sent Ho Hq Hz. induction fuel as [|fuel IH]; intros r sent Ho Hq Hz Hs.
  { exists r. split; [done|]. by apply sent_refl. }
  cbn [send_chunks replicate concat]. assert (0 < zlen p) by (destruct p; [done|apply zlen_cons_lt]).
  rewrite (proj2 (Z.ltb_lt sent (zlen p))) by lia.
  destruct (send_round_zero msg p r sent Ho Hq Hz Hs) as (r1 & He & Hs1). rewrite (bind_Ret _ _ _ _ _ He).
  pose proof Hs1 as (_ & _ & _ & _ & H5 & _ & _ & Ho1 & Hq1).
  destruct (IH r1 0) as (r2 & He2 & Hs2); [done|by apply Hq1|congruence|by right|].
  exists r2. split; [done|]. by eapply sent_trans.
Qed.

(** ** Properties *)

(** C34. The size of a message on the wire: on a connection that takes every write, with
    a positive chunk size and for a timestamp other than 0xFFFFFF (where the code
    leaves out what the format asks for, see [timestamp_boundary]), sending ends and
    has written exactly the payload, a header of 12 bytes for the first chunk, one
    byte for every further one, and four bytes more for each of them when the
    timestamp is extended, that is, 0xFFFFFF or more; the number of chunks is the
    payload divided by the chunk size, rounded up, and at least one. *)
Theorem sent_size msg r s :
  out_ok r -> bf_conn (buffer r) = Some s -> tx_script (sk_conn s) = [] -> 0 < outChunkSize r ->
  Timestamp (Header msg) <> RTMP_EXTENDED_TIMESTAMP ->
  let n := chunk_count (outChunkSize r) (zlen (payload_of msg)) in
  let ext := rtmp_ext_size (Timestamp (Header msg)) in
  exists r' s', send_message msg r = (Ret tt, r') /\ bf_conn (buffer r') = Some s'
    /\ zlen (tx (sk_conn s')) = zlen (tx (sk_conn s)) + zlen (payload_of msg) + 12 + ext + (n - 1) * (1 + ext).
Proof.
  intros Ho Hs Hsc Hz Ht n ext. destruct (send_message_sends msg r Ho Hz) as (o & r' & k & He & Hsent & Hout).
  destruct Hsent as (_ & _ & _ & _ & _ & _ & (s1 & s' & Hs1 & Hs' & Hw & _) & _).
  rewrite Hs in Hs1. injection Hs1 as <-.
  assert (quiet r) as Hq by (intros s2 Hs2; rewrite Hs in Hs2; by injection Hs2 as <-).
  destruct o as [[]|e| |]; try done. destruct Hout as [Hk _]. rewrite Hk in Hw.
  exists r', s'. split; [done|]. split; [done|]. rewrite Hw, zlen_app.
  destruct (message_chunks_size (outChunkSize r) msg Hz) as [_ ->]. rewrite <- (rtmp_ext_size_sent _ Ht). fold n ext. lia.
Qed.

Lemma sent_size_witness :
  let r := NewProtocol (mkTCPConn [] EOF [] []) in
  exists r' s', send_message video r = (Ret tt, r') /\ bf_conn (buffer r') = Some s'
    /\ zlen (tx (sk_conn s')) = zlen (@nil byte) + 130 + 12 + 4 + (2 - 1) * (1 + 4).
Proof.
  apply (sent_size video (NewProtocol (mkTCPConn [] EOF [] [])) (NewSocket (mkTCPConn [] EOF [] [])));
    [apply NewProtocol_out_ok|done|done|done|done].
Defined.

(** With an output chunk size of zero, which [SendPacket] of a
    [SetChunkSizePacket] sets without a check, sending a message with a payload
    never ends: after any number of rounds the loop still goes on, and each round
    has written one more header and nothing of the payload. *)
Theorem zero_chunk_size_diverges fuel msg r s :
  out_ok r -> bf_conn (buffer r) = Some s -> tx_script (sk_conn s) = [] -> outChunkSize r = 0 ->
  payload_of msg <> [] ->
  exists r' s', send_chunks fuel msg (payload_of msg) (-1) r = (OutOfFuel, r')
    /\ bf_conn (buffer r') = Some s'
    /\ tx (sk_conn s')
       = tx (sk_conn s) ++ concat (replicate fuel (fmt0_header (PerferCid msg) (Header msg))).
Proof.
  intros Ho Hs Hsc Hz Hp. destruct (send_chunks_zero fuel msg (payload_of msg) r (-1)) as (r' & He & Hsent);
    [done|intros s2 Hs2; rewrite Hs in Hs2; by injection Hs2 as <-|done|done|by left|].
  destruct Hsent as (_ & _ & _ & _ & _ & _ & (s1 & s' & Hs1 & Hs' & Hw & _) & _).
  rewrite Hs in Hs1. injection Hs1 as <-. by exists r', s'.
Qed.

Lemma zero_chunk_size_diverges_witness :
  let r := set_outChunkSize 0 (NewProtocol (mkTCPConn [] EOF [] [])) in
  exists r' s', send_chunks 1000 video (payload_of video) (-1) r = (OutOfFuel, r')
    /\ bf_conn (buffer r') = Some s'
    /\ tx (sk_conn s') = [] ++ concat (replicate 1000 (fmt0_header (PerferCid video) (Header video))).
Proof.
  apply (zero_chunk_size_diverges 1000 video (set_outChunkSize 0 (NewProtocol (mkTCPConn [] EOF [] [])))
    (NewSocket (mkTCPConn [] EOF [] []))); [apply (NewProtocol_out_ok (mkTCPConn [] EOF [] []))|done|done|done|done].
Defined.

(** The timestamp 0xFFFFFF: the sender writes it without the four bytes that the
    reader then expects, so the first bytes of the payload are taken for it, and
    the message does not arrive; one millisecond earlier it does. *)
Definition at_timestamp (ts : Z) : Message :=
  mkMessage (mkMessageHeader RTMP_MSG_AudioMessage 5 0 1 ts) (Some (make_bytes 5)) 0 5 0.

Definition wire_at (ts : Z) : TCPConn := mkTCPConn [concat (message_chunks 128 (at_timestamp ts))] EOF [] [].

Example timestamp_boundary :
  (recv_interlaced_message (NewProtocol (wire_at 0xFFFFFE))).1 = Ret (Some (delivered (at_timestamp 0xFFFFFE)))
  /\ (recv_interlaced_message (NewProtocol (wire_at 0xFFFFFF))).1 = Fail EOF
  /\ (recv_interlaced_message (NewProtocol (wire_at 0x1000000))).1 = Ret (Some (delivered (at_timestamp 0x1000000))).
Proof. by vm_compute. Qed.
