(* ===== verification/Control.v ===== *)
(** * The receiving goroutine: control messages and the loop

    [recv_job] is a round of the goroutine: a chunk, and when it completes a
    message, its effect on the protocol if it is a control message. *)

From Stdlib Require Import ZArith Lia Strings.Byte.
From stdpp Require Import base tactics list gmap.
From S2P Require Import Prelude Constants HPBuffer Socket Buffer Codec Float64 Amf0 Amf0Facts Messages Packets PacketsFacts Protocol ChunkSend Feed ChunkRecv.
Open Scope Z_scope.

(** The chunk size of the input is one the protocol allows. *)
Definition size_ok (r : protocol) : Prop := RTMP_MIN_CHUNK_SIZE <= inChunkSize r <= RTMP_MAX_CHUNK_SIZE.

(** Only the chunk size and the acknowledgement window may differ. *)
Definition controlled (r r' : protocol) : Prop :=
  requests r' = requests r /\ chunkStreams r' = chunkStreams r /\ buffer r' = buffer r
  /\ outChunkSize r' = outChunkSize r /\ outHeaderFmt0 r' = outHeaderFmt0 r /\ outHeaderFmt3 r' = outHeaderFmt3 r
  /\ acked_size (inAckSize r') = acked_size (inAckSize r).

Lemma on_recv_message_spec m r :
  size_ok r ->
  exists o r', on_recv_message m r = (o, r')
    /\ controlled r r' /\ size_ok r'
    /\ match o with Ret _ => True | Fail _ => r' = r | _ => False end.
Proof.
  intros Hs. unfold on_recv_message, bind at 1, get.
  assert (controlled r r) as Hc by done.
  destruct (AckWindowSize_ShouldAckRead _ _); [by exists (Ret tt), r|].
  destruct (_ || _ || _).
  2: { unfold bind, ret. by exists (Ret tt), r. }
  unfold bind, lift, DecodeMessage.
  destruct (Payload m) as [p|]; [|by exists (Ret tt), r].
  pose proof (DecodePacket_safe_lemma (requests r) (Header m) p) as Hd.
  destruct (DecodePacket (requests r) (Header m) p) as [o|e| |]; try done; [|by exists (Fail e), r].
  destruct o as [pkt|]; [|by exists (Ret tt), r].
  destruct pkt; try (by exists (Ret tt), r).
  - destruct (_ <? _); [|by exists (Ret tt), r].
    unfold modify. eexists _, _. split; [done|]. by split_and!.
  - unfold modify. eexists _, _. split; [done|]. by split_and!.
Qed.

(** A [SetChunkSize] message as the peer sends it. *)
Definition size_message (v t sid ts : Z) : Message :=
  mkMessage (mkMessageHeader RTMP_MSG_SetChunkSize 4 t sid ts) (Some (be_bytes 4 v)) 4 RTMP_CID_ProtocolControl 0.

(** What the peer may set: a valid [SetChunkSize] takes effect on the next chunk. *)
Lemma on_recv_SetChunkSize v r t sid ts :
  RTMP_MIN_CHUNK_SIZE <= v <= RTMP_MAX_CHUNK_SIZE ->
  AckWindowSize_ShouldAckRead (conn_RecvBytes r) (inAckSize r) = false ->
  on_recv_message (size_message v t sid ts) r
  = (Ret tt, set_inChunkSize v r).
Proof.
  intros Hv Ha. unfold on_recv_message, bind at 1, get. rewrite Ha. unfold size_message. cbn [Header].
  assert (DecodePacket (requests r) (mkMessageHeader RTMP_MSG_SetChunkSize 4 t sid ts) (be_bytes 4 v)
    = Ret (Some (PSetChunkSize (mkSetChunkSize v)))) as Hd.
  { unfold DecodePacket. rewrite NewRtmpStream_stream.
    exact (decode_as_wire PSetChunkSize _ _ _ (Decode_wire (mkSetChunkSize v) Hv)). }
  change (MessageHeader_IsSetChunkSize (mkMessageHeader RTMP_MSG_SetChunkSize 4 t sid ts)) with true.
  cbn [orb]. unfold bind, lift, DecodeMessage. cbn [Payload Header]. by rewrite Hd.
Qed.

(** ** A round of the goroutine *)

(** The state of the receiving side between two rounds. *)
Definition recv_ok (r : protocol) : Prop := proto_ok r /\ size_ok r.

Lemma recv_job_step n inp k r :
  recv_ok r -> feed n (mkview k [] inp) (buffer r) ->
  exists o r', recv_job r = (o, r')
    /\ match o with
       | Ret msg =>
           recv_ok r' /\ outChunkSize r' = outChunkSize r
           /\ (exists bs inp' k', inp = bs ++ inp' /\ 1 <= zlen bs /\ feed n (mkview k' [] inp') (buffer r'))
           /\ (forall m, msg = Some m -> complete m /\ 0 < PayloadLength (Header m))
       | Fail _ => True
       | _ => False
       end.
Proof.
  intros [Hp Hs] Hf. destruct (recv_safe_lemma n inp k r Hp Hf) as (o & r1 & He & Ho).
  unfold recv_job, bind at 1. rewrite He. destruct o as [msg|e| |]; try done; [|by eexists _, _].
  destruct Ho as (Hp1 & Hcons & _ & Hout & Hsz & Hm).
  assert (size_ok r1) as Hs1 by (unfold size_ok; by rewrite Hsz).
  destruct msg as [m|]; [|by eexists _, _; split_and!; try done; eauto].
  destruct (_ || _) eqn:Hemp; [by eexists _, _; split_and!; try done; eauto|].
  apply orb_false_elim in Hemp as [_ Hlen].
  destruct (on_recv_message_spec m r1 Hs1) as (o & r2 & He2 & (H1 & H2 & H3 & H4 & _) & Hs2 & Ho2).
  unfold bind. rewrite He2. destruct o as [[]|e| |]; try done; [|by eexists _, _].
  eexists _, _. split; [done|]. split_and!.
  - split; [|done]. split; [unfold size_ok, RTMP_MIN_CHUNK_SIZE in Hs2; lia|]. rewrite H2. apply Hp1.
  - congruence.
  - by rewrite H3.
  - intros m' [= <-]. split; [by apply Hm|]. lia.
Qed.

(** ** The loop *)

(** [for r.msg_io_err == nil { ... }] with the queue as the list of the messages put
    into it: the messages and the error that ends the loop. *)
Fixpoint recv_loop (fuel : nat) : M protocol (list Message * error) :=
  match fuel with
  | O => out_of_fuel
  | S fuel => fun r =>
      match recv_job r with
      | (Ret msg, r') =>
          (let* l := recv_loop fuel in
           ret (match msg with Some m => m :: l.1 | None => l.1 end, l.2)) r'
      | (Fail e, r') => (Ret ([], e), r')
      | (Panic p, r') => (Panic p, r')
      | (OutOfFuel, r') => (OutOfFuel, r')
      end
  end.

Lemma recv_loop_ends fuel n inp k r :
  recv_ok r -> feed n (mkview k [] inp) (buffer r) -> (List.length inp < fuel)%nat ->
  exists l e r', recv_loop fuel r = (Ret (l, e), r') /\ Forall complete l.
Proof.
  revert inp k r. induction fuel as [|fuel IH]; intros inp k r Hr Hf Hlen; [lia|].
  cbn [recv_loop]. destruct (recv_job_step n inp k r Hr Hf) as (o & r1 & He & Ho). rewrite He.
  destruct o as [msg|e| |]; try done; [|by exists [], e, r1].
  destruct Ho as (Hr1 & _ & (bs & inp' & k' & -> & Hb & Hf1) & Hm).
  destruct (IH inp' k' r1 Hr1 Hf1) as (l & e & r2 & He2 & Hl).
  { rewrite length_app in Hlen. unfold zlen in Hb. lia. }
  unfold bind. rewrite He2. eexists _, e, r2. split; [done|].
  destruct msg as [m|]; [|done]. constructor; [by apply Hm|done].
Qed.

(** ** Properties *)

Lemma NewProtocol_recv_ok conn : recv_ok (NewProtocol conn).
Proof. split; [apply NewProtocol_ok|done]. Qed.

Definition noise : TCPConn := mkTCPConn [[Byte.x02; Byte.x00]; make_bytes 20; [Byte.xff]] EOF [] [].

(** C15. The receiving loop ends: on a connection that delivers finitely many bytes
    and then an error, in whatever segments, the loop of the goroutine stops
    with an error after at most one round per byte, without a panic, and every
    message it has queued is complete. *)
Theorem recv_loop_terminates conn :
  rx_ok conn ->
  exists l e r', recv_loop (S (List.length (rx_bytes conn))) (NewProtocol conn) = (Ret (l, e), r')
    /\ Forall complete l.
Proof.
  intros Hok. eapply recv_loop_ends; [apply NewProtocol_recv_ok|by apply NewProtocol_feed|lia].
Qed.

Lemma recv_loop_terminates_witness :
  exists l e r', recv_loop (S (List.length (rx_bytes noise))) (NewProtocol noise) = (Ret (l, e), r')
    /\ Forall complete l.
Proof. apply (recv_loop_terminates noise). repeat constructor; discriminate. Defined.

(** C35. A [SetChunkSize] message of the peer with a size the protocol allows sets
    the chunk size of the input and nothing else, as long as the bytes received
    are within the acknowledgement window; once they exceed it, the message is
    passed over, as [on_recv_message] returns before it looks at it, and since
    [acked_size] is never advanced this does not change any more. *)
Theorem SetChunkSize_received v r t sid ts :
  RTMP_MIN_CHUNK_SIZE <= v <= RTMP_MAX_CHUNK_SIZE ->
  on_recv_message (size_message v t sid ts) r
  = (Ret tt, if AckWindowSize_ShouldAckRead (conn_RecvBytes r) (inAckSize r) then r else set_inChunkSize v r).
Proof.
  intros Hv. destruct (AckWindowSize_ShouldAckRead _ _) eqn:Ha.
  - unfold on_recv_message, bind, get. by rewrite Ha.
  - by apply on_recv_SetChunkSize.
Qed.

Lemma SetChunkSize_received_witness :
  on_recv_message (size_message 4096 0 0 0) (NewProtocol noise) = (Ret tt, set_inChunkSize 4096 (NewProtocol noise)).
Proof. apply (SetChunkSize_received 4096 (NewProtocol noise) 0 0 0). by vm_compute. Defined.
