(* ===== verification/Handshake.v ===== *)
(** * handshake.go: the simple handshake

    The state is the protocol with its [Handshake] data.  [io.ReadFull] reads from
    the socket itself, past the input buffer, into a slice of the exact size.
    The random source is a parameter: [rand i] is the value of the [i]-th call
    of [rand.Int()].  The last step of a successful handshake, the start of the
    two goroutines, is the return of [SimpleHandshake2Client] here. *)

From Stdlib Require Import ZArith Lia Strings.Byte.
From stdpp Require Import base tactics list gmap.
From S2P Require Import Prelude Constants HPBuffer Socket Buffer Messages Packets Protocol ChunkSend Feed ChunkRecv Reassembly.
Open Scope Z_scope.

Record Handshake := mkHandshake {
  c0c1 : option (list byte);
  s0s1s2 : option (list byte);
  c2 : option (list byte) }.

(** [&Handshake{}]. *)
Definition NewHandshake : Handshake := mkHandshake None None None.

Definition hs : Type := protocol * Handshake.

(** ** io.ReadFull on the socket *)

(** The bytes read and the error; an end of input inside the slice is
    [ErrUnexpectedEOF].  A round that goes on reads at least one byte. *)
Fixpoint ReadFull_loop (fuel : nat) (size : Z) (got : list byte) : M Socket (list byte * option error) :=
  match fuel with
  | O => out_of_fuel
  | S fuel => fun s =>
      if zlen got <? size then
        match Socket_Read (size - zlen got) s with
        | (Ret b, s') => ReadFull_loop fuel size (got ++ b) s'
        | (Fail e, s') =>
            (Ret (got, Some (match e with
                             | EOF => if 0 <? zlen got then ErrUnexpectedEOF else EOF
                             | _ => e
                             end)), s')
        | (Panic p, s') => (Panic p, s')
        | (OutOfFuel, s') => (OutOfFuel, s')
        end
      else (Ret (got, None), s)
  end.

(** The slice after the read: what was not filled is zero. *)
Definition fill (size : Z) (got : list byte) : list byte := got ++ make_bytes (size - zlen got).

Definition conn_ReadFull (size : Z) : M protocol (list byte * option error) := fun r =>
  match bf_conn (buffer r) with
  | None => (Panic NilDereference, r)
  | Some s =>
      let '(o, s') := ReadFull_loop (S (Z.to_nat size)) size [] s in
      (o, set_buffer {| bf_buf := bf_buf (buffer r); bf_conn := Some s' |} r)
  end.

Definition on_proto {A} (m : M protocol A) : M hs A := zoom fst (fun r s => (r, s.2)) m.
Definition upd_hs (f : Handshake -> Handshake) : M hs unit := modify (fun s => (s.1, f s.2)).

(** ** The steps *)

(** Read a part of the handshake into its slice, unless the slice is there. *)
Definition read_part (size : Z) (part : Handshake -> option (list byte))
    (set : list byte -> Handshake -> Handshake) : M hs unit :=
  let* h := gets snd in
  match part h with
  | Some _ => ret tt
  | None =>
      let* '(got, err) := on_proto (conn_ReadFull size) in
      do* upd_hs (set (fill size got)) in
      match err with Some e => fail e | None => ret tt end
  end.

Definition handshake_read_c0c1 : M hs unit :=
  read_part 1537 c0c1 (fun b h => mkHandshake (Some b) (s0s1s2 h) (c2 h)).

Definition handshake_read_c2 : M hs unit :=
  read_part 1536 c2 (fun b h => mkHandshake (c0c1 h) (s0s1s2 h) (Some b)).

Definition handshake_make_s0s1s2 : M hs unit :=
  upd_hs (fun h => match s0s1s2 h with
                   | Some _ => h
                   | None => mkHandshake (c0c1 h) (Some (make_bytes 3073)) (c2 h)
                   end).

Section Simple.
Context (rand : nat -> Z).

(** Random bytes, with the protocol version in front. *)
Definition random_fill (b : list byte) : list byte :=
  <[0%nat := Byte.x03]> (imap (fun i _ => byte_of_Z (rand i)) b).

Definition SimpleHandshake2Client : M hs unit :=
  do* handshake_read_c0c1 in
  let* h := gets snd in
  let* b := lift (index (match c0c1 h with Some b => b | None => [] end) 0) in
  guard* bool_decide (b = Byte.x03)
    else Error ERROR_RTMP_PLAIN_REQUIRED (str "only support rtmp plain text") in
  do* handshake_make_s0s1s2 in
  do* upd_hs (fun h => mkHandshake (c0c1 h) (option_map random_fill (s0s1s2 h)) (c2 h)) in
  let* h := gets snd in
  do* on_proto (conn_Write (match s0s1s2 h with Some b => b | None => [] end)) in
  handshake_read_c2.

End Simple.

(** ** Lemmas *)

Lemma Socket_Read_le size s b s' : 0 <= size -> Socket_Read size s = (Ret b, s') -> zlen b <= size.
Proof.
  intros Hs. unfold Socket_Read, bind, with_conn, zoom, TCPConn_Read, modify, ret, fail.
  destruct (rx (sk_conn s)) as [|seg segs]; [done|].
  destruct (Z.leb_spec (zlen seg) size) as [Hl|Hl]; repeat case_match; intros; simplify_eq;
    rewrite ?zlen_take in * by lia; lia.
Qed.

(** The slice is filled from the start of what is to come. *)
Lemma ReadFull_loop_full fuel size got need s rest :
  rx_ok (sk_conn s) -> rx_bytes (sk_conn s) = need ++ rest -> zlen got + zlen need = size ->
  (List.length need < fuel)%nat ->
  exists s', ReadFull_loop fuel size got s = (Ret (got ++ need, None), s')
    /\ received need s s' /\ rx_bytes (sk_conn s') = rest.
Proof.
  revert got need s. induction fuel as [|fuel IH]; intros got need s Hok Hrx Hsz Hf; [lia|].
  cbn [ReadFull_loop]. destruct need as [|x need].
  { rewrite (proj2 (Z.ltb_ge _ _)) by (change (zlen (@nil byte)) with 0 in Hsz; lia).
    exists s. rewrite app_nil_r. split; [done|]. split; [by apply received_nil|done]. }
  pose proof (zlen_cons_pos x need). rewrite (proj2 (Z.ltb_lt _ _)) by lia.
  destruct (Socket_Read_spec (size - zlen got) s) as (b & s1 & He & Hb & Hrx1 & Hok1 & Herr & Hsc & Htx & Hsb & Hrb);
    [lia|done|by rewrite Hrx|]. rewrite He.
  apply Socket_Read_le in He; [|lia]. rewrite Hrx in Hrx1.
  destruct (split_at (x :: need) (zlen b)) as (n1 & n2 & Hn & Hl); [pose proof (zlen_nonneg b); lia|].
  rewrite Hn in *. rewrite <- app_assoc in Hrx1. apply app_inj_1 in Hrx1 as [-> Hrest]; [|unfold zlen in Hl; lia].
  destruct (IH (got ++ b) n2 s1) as (s2 & He2 & Hrec & Hrx2); [done|done|rewrite !zlen_app in *; lia| |].
  { rewrite length_app in Hf. destruct b; [done|]. cbn in Hf. lia. }
  exists s2. rewrite app_assoc. split; [done|]. split; [|done]. eapply received_trans; [|exact Hrec].
  split_and!; try done; [by rewrite Hrx, <- app_assoc, Hrest|]. by rewrite Hrb; unfold to_uint; rewrite Zmod_mod.
Qed.

(** The input ends inside the slice. *)
Lemma ReadFull_loop_short fuel size got s :
  rx_ok (sk_conn s) -> zlen got + zlen (rx_bytes (sk_conn s)) < size ->
  (List.length (rx_bytes (sk_conn s)) < fuel)%nat ->
  exists e s', ReadFull_loop fuel size got s = (Ret (got ++ rx_bytes (sk_conn s), Some e), s')
    /\ tx (sk_conn s') = tx (sk_conn s).
Proof.
  revert got s. induction fuel as [|fuel IH]; intros got s Hok Hsz Hf; [lia|].
  cbn [ReadFull_loop]. pose proof (zlen_nonneg (rx_bytes (sk_conn s))).
  rewrite (proj2 (Z.ltb_lt _ _)) by lia.
  destruct (decide (rx_bytes (sk_conn s) = [])) as [Hnil|Hne].
  { rewrite Socket_Read_end by (by apply rx_bytes_nil). rewrite Hnil, app_nil_r. by eexists _, s. }
  destruct (Socket_Read_spec (size - zlen got) s) as (b & s1 & He & Hb & Hrx1 & Hok1 & _ & _ & Htx & _); [lia|done..|].
  rewrite He. rewrite Hrx1, zlen_app in Hsz. rewrite Hrx1, length_app in Hf.
  destruct (IH (got ++ b) s1) as (e & s2 & He2 & Htx2); [done|rewrite zlen_app; lia|destruct b; [done|cbn in Hf; lia]|].
  exists e, s2. rewrite He2, Hrx1, app_assoc. by rewrite Htx2.
Qed.

Definition with_socket (s : Socket) (r : protocol) : protocol :=
  set_buffer {| bf_buf := bf_buf (buffer r); bf_conn := Some s |} r.

Lemma fill_full size got : zlen got = size -> fill size got = got.
Proof. intros <-. unfold fill. rewrite Z.sub_diag. apply app_nil_r. Qed.

Lemma read_part_full size part set r h s need rest :
  bf_conn (buffer r) = Some s -> part h = None -> rx_ok (sk_conn s) ->
  rx_bytes (sk_conn s) = need ++ rest -> zlen need = size ->
  exists s', read_part size part set (r, h) = (Ret tt, (with_socket s' r, set need h))
    /\ received need s s' /\ rx_bytes (sk_conn s') = rest.
Proof.
  intros Hs Hp Hok Hrx Hsz.
  destruct (ReadFull_loop_full (S (Z.to_nat size)) size [] need s rest) as (s' & He & Hr & Hrest);
    [done|done|done|unfold zlen in Hsz; lia|].
  exists s'. split; [|done]. unfold read_part, bind at 1, gets. cbn [snd]. rewrite Hp.
  unfold bind at 1, on_proto, zoom, conn_ReadFull. cbn [fst]. rewrite Hs, He. cbn [app snd].
  unfold bind, upd_hs, modify. by rewrite fill_full.
Qed.

Lemma read_part_short size part set r h s :
  bf_conn (buffer r) = Some s -> part h = None -> rx_ok (sk_conn s) ->
  zlen (rx_bytes (sk_conn s)) < size ->
  exists e s', read_part size part set (r, h)
      = (Fail e, (with_socket s' r, set (fill size (rx_bytes (sk_conn s))) h))
    /\ tx (sk_conn s') = tx (sk_conn s).
Proof.
  intros Hs Hp Hok Hsz.
  destruct (ReadFull_loop_short (S (Z.to_nat size)) size [] s) as (e & s' & He & Htx);
    [done|done|unfold zlen in Hsz; lia|].
  exists e, s'. split; [|done]. unfold read_part, bind at 1, gets. cbn [snd]. rewrite Hp.
  unfold bind at 1, on_proto, zoom, conn_ReadFull. cbn [fst]. rewrite Hs, He. done.
Qed.

Lemma zlen_random_fill rand b : zlen (random_fill rand b) = zlen b.
Proof. unfold zlen, random_fill. by rewrite length_insert, length_imap. Qed.

Lemma random_fill_head rand b : b <> [] -> random_fill rand b !! 0%nat = Some Byte.x03.
Proof.
  intros Hb. unfold random_fill. apply list_lookup_insert_eq. rewrite length_imap. destruct b; [done|cbn; lia].
Qed.

(** The whole dialogue: only the connection changes. *)
Lemma handshake_done rand r s c0c1' c2' rest :
  bf_conn (buffer r) = Some s -> bf_buf (buffer r) = NewHPBuffer [] ->
  rx_ok (sk_conn s) -> tx_script (sk_conn s) = [] ->
  rx_bytes (sk_conn s) = (Byte.x03 :: c0c1') ++ c2' ++ rest -> zlen c0c1' = 1536 -> zlen c2' = 1536 ->
  exists s' out,
    SimpleHandshake2Client rand (r, NewHandshake)
      = (Ret tt, (with_socket s' r, mkHandshake (Some (Byte.x03 :: c0c1')) (Some out) (Some c2')))
    /\ zlen out = 3073 /\ out !! 0%nat = Some Byte.x03
    /\ feed (mkNet (rx_err (sk_conn s)) [] (tx (sk_conn s) ++ out)) (mkview 0 [] rest) (buffer (with_socket s' r)).
Proof.
  intros Hs Hb Hok Hsc Hrx Hl1 Hl2.
  destruct (read_part_full 1537 c0c1 (fun b h => mkHandshake (Some b) (s0s1s2 h) (c2 h)) r NewHandshake s
    (Byte.x03 :: c0c1') (c2' ++ rest)) as (s1 & He1 & (_ & Hok1 & Herr1 & Hsc1 & Htx1 & _) & Hrx1);
    [done..|rewrite zlen_cons; lia|].
  unfold SimpleHandshake2Client, handshake_read_c0c1. rewrite (bind_Ret _ _ _ _ _ He1).
  unfold bind at 1, gets. cbn [snd c0c1]. unfold bind at 1, lift.
  change (index (Byte.x03 :: c0c1') 0) with (Ret Byte.x03). cbv beta iota. rewrite bool_decide_eq_true_2 by done.
  unfold bind at 1, handshake_make_s0s1s2, upd_hs, modify. cbn [fst snd s0s1s2 c0c1 c2 NewHandshake].
  unfold bind at 1, gets. cbn [fst snd option_map s0s1s2 c0c1 c2].
  assert (zlen (random_fill rand (make_bytes 3073)) = 3073
    /\ random_fill rand (make_bytes 3073) !! 0%nat = Some Byte.x03) as [Hlen Hhead]
    by (split; [by rewrite zlen_random_fill|by apply random_fill_head]).
  generalize dependent (random_fill rand (make_bytes 3073)). intros out Hlen Hhead.
  destruct (Socket_Write_full out s1) as (s2 & Hw & (Htx2 & Hrx2 & Herr2 & _) & Hsc2); [congruence|].
  unfold bind at 1, gets. cbn [snd s0s1s2].
  unfold bind at 1, on_proto, zoom, conn_Write. cbn [fst buffer set_buffer with_socket bf_conn]. rewrite Hw. cbn [omap].
  destruct (read_part_full 1536 c2 (fun b h => mkHandshake (c0c1 h) (s0s1s2 h) (Some b))
    (with_socket s2 (with_socket s1 r)) (mkHandshake (Some (Byte.x03 :: c0c1')) (Some out) None) s2 c2' rest)
    as (s3 & He3 & (_ & Hok3 & Herr3 & Hsc3 & Htx3 & _) & Hrx3); [done|done| | |done|].
  { unfold rx_ok. by rewrite Hrx2. }
  { unfold rx_bytes. rewrite Hrx2. done. }
  exists s3, out. split; [exact He3|]. split; [exact Hlen|]. split; [exact Hhead|].
  exists s3, [], [], []. cbn. rewrite Hb. split_and!; try done; congruence.
Qed.

(** ** Properties *)

(** C25. The simple handshake takes from the connection exactly the 1537 bytes of
    C0 and C1 and the 1536 bytes of C2, in whatever segments they come, and
    answers with 3073 bytes that begin with the version 3; the bytes behind, the
    first chunks of the client, are left to the chunk reader: its view of the
    connection starts right behind C2. *)
Theorem handshake_exact rand r s c0c1' c2' rest :
  bf_conn (buffer r) = Some s -> bf_buf (buffer r) = NewHPBuffer [] ->
  rx_ok (sk_conn s) -> tx_script (sk_conn s) = [] ->
  rx_bytes (sk_conn s) = (Byte.x03 :: c0c1') ++ c2' ++ rest -> zlen c0c1' = 1536 -> zlen c2' = 1536 ->
  exists r' out,
    SimpleHandshake2Client rand (r, NewHandshake)
      = (Ret tt, (r', mkHandshake (Some (Byte.x03 :: c0c1')) (Some out) (Some c2')))
    /\ zlen out = 3073 /\ out !! 0%nat = Some Byte.x03
    /\ feed (mkNet (rx_err (sk_conn s)) [] (tx (sk_conn s) ++ out)) (mkview 0 [] rest) (buffer r')
    /\ chunkStreams r' = chunkStreams r /\ inChunkSize r' = inChunkSize r /\ outChunkSize r' = outChunkSize r.
Proof.
  intros Hs Hb Hok Hsc Hrx Hl1 Hl2.
  destruct (handshake_done rand r s c0c1' c2' rest Hs Hb Hok Hsc Hrx Hl1 Hl2) as (s' & out & He & H1 & H2 & H3).
  by exists (with_socket s' r), out.
Qed.

(** A client that sends the handshake in two segments and a chunk behind it. *)
Definition client : TCPConn :=
  mkTCPConn [Byte.x03 :: make_bytes 1000; make_bytes 2072 ++ [Byte.xc3]] EOF [] [].

Lemma handshake_exact_witness :
  exists r' out,
    SimpleHandshake2Client (fun _ => 7) (NewProtocol client, NewHandshake)
      = (Ret tt, (r', mkHandshake (Some (Byte.x03 :: make_bytes 1536)) (Some out) (Some (make_bytes 1536))))
    /\ zlen out = 3073 /\ out !! 0%nat = Some Byte.x03
    /\ feed (mkNet EOF [] ([] ++ out)) (mkview 0 [] [Byte.xc3]) (buffer r')
    /\ chunkStreams r' = ∅ /\ inChunkSize r' = 128 /\ outChunkSize r' = 128.
Proof.
  apply (handshake_exact (fun _ => 7) (NewProtocol client) (NewSocket client) (make_bytes 1536) (make_bytes 1536)
    [Byte.xc3]); try reflexivity. repeat constructor; discriminate.
Defined.

(** C26. The handshake refuses what it should: with fewer than 1537 bytes from the
    client it fails with an error, with a version other than 3 it fails with
    [ERROR_RTMP_PLAIN_REQUIRED], and in both cases nothing has been sent. *)
Theorem handshake_refuses rand r s :
  bf_conn (buffer r) = Some s -> rx_ok (sk_conn s) ->
  (zlen (rx_bytes (sk_conn s)) < 1537 \/ exists b rest, rx_bytes (sk_conn s) = b :: rest /\ b <> Byte.x03) ->
  exists e r' h' s',
    SimpleHandshake2Client rand (r, NewHandshake) = (Fail e, (r', h'))
    /\ bf_conn (buffer r') = Some s' /\ tx (sk_conn s') = tx (sk_conn s)
    /\ (1537 <= zlen (rx_bytes (sk_conn s)) ->
        e = Error ERROR_RTMP_PLAIN_REQUIRED (str "only support rtmp plain text")).
Proof.
  intros Hs Hok Hin. unfold SimpleHandshake2Client, handshake_read_c0c1.
  destruct (Z.lt_ge_cases (zlen (rx_bytes (sk_conn s))) 1537) as [Hlt|Hge].
  - edestruct (read_part_short 1537) as (e & s' & He & Htx); [exact Hs| |exact Hok|exact Hlt|].
    2: { rewrite (bind_Fail _ _ _ _ _ He). eexists e, _, _, s'. split; [done|]. split_and!; try done. lia. }
    done.
  - destruct Hin as [Hin|(b & rest & Hrx & Hb)]; [lia|].
    destruct (split_at (rx_bytes (sk_conn s)) 1537) as (x & y & Hxy & Hl); [lia|].
    edestruct (read_part_full 1537) as (s' & He & (_ & _ & _ & _ & Htx & _) & _);
      [exact Hs| |exact Hok|exact Hxy|exact Hl|].
    2: { rewrite (bind_Ret _ _ _ _ _ He). unfold bind at 1, gets. cbn [snd c0c1].
         destruct x as [|b' x]; [done|]. rewrite Hrx in Hxy. injection Hxy as <- ->.
         unfold bind at 1, lift. change (index (b :: x) 0) with (Ret b). cbv beta iota.
         rewrite bool_decide_eq_false_2 by done. by eexists _, _, _, s'. }
    done.
Qed.

Lemma handshake_refuses_witness :
  exists e r' h' s',
    SimpleHandshake2Client (fun _ => 7) (NewProtocol (mkTCPConn [[Byte.x03; Byte.x01]] EOF [] []), NewHandshake)
      = (Fail e, (r', h'))
    /\ bf_conn (buffer r') = Some s' /\ tx (sk_conn s') = []
    /\ (1537 <= 2 -> e = Error ERROR_RTMP_PLAIN_REQUIRED (str "only support rtmp plain text")).
Proof.
  apply (handshake_refuses (fun _ => 7) (NewProtocol (mkTCPConn [[Byte.x03; Byte.x01]] EOF [] []))
    (NewSocket (mkTCPConn [[Byte.x03; Byte.x01]] EOF [] []))); [done| |by left].
  repeat constructor; discriminate.
Defined.
