(* ===== verification/Goroutines.v ===== *)
(** * protocol.go: the two goroutines, the queues, the locks and [Destroy]

    After the handshake two goroutines work on the protocol: one receives
    messages into [msg_in_queue], one sends those of [msg_out_queue]; the user
    calls [SendMessage], [SendPacket], [RecvMessage] and [Destroy] beside them.
    [step] is the transition of the whole: each goroutine has a program counter
    and a label says who moves.  The steps are cut where the goroutines share
    data: the test of [msg_io_err], the locks, the channels, the assignment of
    [msg_io_err], and each chunk that is sent, as [outChunkSize] is read for
    each of them while [SendPacket] may change it.  Receiving a chunk is one
    step: it touches the input half of the protocol only.  A step that is not
    enabled ([None]) is a goroutine that waits.

    A panic that nobody recovers ends the program ([crashed]). *)

From Stdlib Require Import ZArith Lia Strings.Byte.
From stdpp Require Import base tactics list gmap.
From S2P Require Import Prelude Constants HPBuffer Socket Buffer Messages Packets Protocol ChunkSend Feed ChunkRecv Control.
Open Scope Z_scope.

(** ** Channels *)

Record chan := mkchan { ch_buf : list Message; ch_closed : bool }.

(** [make(chan *Message, RTMP_MSG_CHANNEL_BUFFER)]. *)
Definition make_chan : chan := mkchan [] false.

(** [c <- m]: blocked ([None]) while the buffer is full, a panic when closed. *)
Definition chan_send (m : Message) (c : chan) : option (outcome chan) :=
  if ch_closed c then Some (Panic SendOnClosedChannel)
  else if zlen (ch_buf c) <? RTMP_MSG_CHANNEL_BUFFER then Some (Ret (mkchan (ch_buf c ++ [m]) false))
  else None.

(** [m, ok := <- c]: blocked while the buffer is empty, not ok when closed. *)
Definition chan_recv (c : chan) : option (option Message * chan) :=
  match ch_buf c with
  | m :: l => Some (Some m, mkchan l (ch_closed c))
  | [] => if ch_closed c then Some (None, c) else None
  end.

Definition chan_close (c : chan) : outcome chan :=
  if ch_closed c then Panic CloseOfClosedChannel else Ret (mkchan (ch_buf c) true).

(** ** State *)

Inductive thread := TRecv | TSend | TDestroy.

#[export] Instance thread_eq_dec : EqDecision thread.
Proof. solve_decision. Defined.

(** Where the receiving goroutine is: the test of the loop, the lock, the test under
    the lock, the job, the message to queue, the assignment of the error. *)
Inductive recv_pc :=
| RLoop | RLock | RCheck | RJob | RPut (m : Message) | RSet (err : option error) | RDone.

(** The sending goroutine; [sent] is [msg.SentPayloadLength]. *)
Inductive send_pc :=
| SLoop | SLock | SCheck | STake | SSend (m : Message) (sent : Z) | SSet (err : option error) | SDone.

Inductive destroy_pc := DIdle | DLockIn | DLockOut | DBody.

(** A value of the interface [Encoder]. *)
Record any_encoder := mkAny { ae_type : Type; ae_encoder : Encoder ae_type; ae_pkt : ae_type }.
#[export] Existing Instance ae_encoder.

Record system := mkSystem {
  proto : protocol;
  msg_io_err : option error;
  msg_in_queue : chan;
  msg_out_queue : chan;
  msg_in_lock : option thread;
  msg_out_lock : option thread;
  recv_at : recv_pc;
  send_at : send_pc;
  destroy_at : destroy_pc;
  (* packets whose SendMessage has returned, on_send_message still to come *)
  sent_packets : list any_encoder;
  crashed : option panic }.

Definition set_proto v s := mkSystem v (msg_io_err s) (msg_in_queue s) (msg_out_queue s) (msg_in_lock s)
  (msg_out_lock s) (recv_at s) (send_at s) (destroy_at s) (sent_packets s) (crashed s).
Definition set_err v s := mkSystem (proto s) v (msg_in_queue s) (msg_out_queue s) (msg_in_lock s)
  (msg_out_lock s) (recv_at s) (send_at s) (destroy_at s) (sent_packets s) (crashed s).
Definition set_inq v s := mkSystem (proto s) (msg_io_err s) v (msg_out_queue s) (msg_in_lock s)
  (msg_out_lock s) (recv_at s) (send_at s) (destroy_at s) (sent_packets s) (crashed s).
Definition set_outq v s := mkSystem (proto s) (msg_io_err s) (msg_in_queue s) v (msg_in_lock s)
  (msg_out_lock s) (recv_at s) (send_at s) (destroy_at s) (sent_packets s) (crashed s).
Definition set_in_lock v s := mkSystem (proto s) (msg_io_err s) (msg_in_queue s) (msg_out_queue s) v
  (msg_out_lock s) (recv_at s) (send_at s) (destroy_at s) (sent_packets s) (crashed s).
Definition set_out_lock v s := mkSystem (proto s) (msg_io_err s) (msg_in_queue s) (msg_out_queue s)
  (msg_in_lock s) v (recv_at s) (send_at s) (destroy_at s) (sent_packets s) (crashed s).
Definition set_recv v s := mkSystem (proto s) (msg_io_err s) (msg_in_queue s) (msg_out_queue s)
  (msg_in_lock s) (msg_out_lock s) v (send_at s) (destroy_at s) (sent_packets s) (crashed s).
Definition set_send v s := mkSystem (proto s) (msg_io_err s) (msg_in_queue s) (msg_out_queue s)
  (msg_in_lock s) (msg_out_lock s) (recv_at s) v (destroy_at s) (sent_packets s) (crashed s).
Definition set_destroy v s := mkSystem (proto s) (msg_io_err s) (msg_in_queue s) (msg_out_queue s)
  (msg_in_lock s) (msg_out_lock s) (recv_at s) (send_at s) v (sent_packets s) (crashed s).
Definition set_sent v s := mkSystem (proto s) (msg_io_err s) (msg_in_queue s) (msg_out_queue s)
  (msg_in_lock s) (msg_out_lock s) (recv_at s) (send_at s) (destroy_at s) v (crashed s).
Definition crash p s := mkSystem (proto s) (msg_io_err s) (msg_in_queue s) (msg_out_queue s)
  (msg_in_lock s) (msg_out_lock s) (recv_at s) (send_at s) (destroy_at s) (sent_packets s) (Some p).

(** The state that [start_message_pump_goroutines] leaves behind. *)
Definition start_message_pump_goroutines (r : protocol) : system :=
  mkSystem r None make_chan make_chan None None RLoop SLoop DIdle [] None.

(** ** What a step shows *)

Inductive event :=
| EPut (m : Message)            (* put into msg_in_queue *)
| EDelivered (m : Message)      (* returned by RecvMessage *)
| EEnqueued (m : Message)       (* put into msg_out_queue *)
| ETaken (m : Message)          (* taken from msg_out_queue *)
| ESent (m : Message)           (* its last chunk is out *)
| ERecvFailed (e : error)       (* the receiving job ends with an error *)
| EReturned (e : error).        (* a call of the user returns an error *)

Definition result : Type := option (system * list event).

(** ** The receiving goroutine *)

Definition recv_step (s : system) : result :=
  match recv_at s with
  | RLoop => Some (set_recv (match msg_io_err s with None => RLock | Some _ => RDone end) s, [])
  | RLock =>
      match msg_in_lock s with
      | None => Some (set_recv RCheck (set_in_lock (Some TRecv) s), [])
      | Some _ => None
      end
  | RCheck =>
      match msg_io_err s with
      | None => Some (set_recv RJob s, [])
      | Some _ => Some (set_recv RLoop (set_in_lock None s), [])
      end
  | RJob =>
      let '(o, r) := recv_job (proto s) in
      let s := set_proto r s in
      match o with
      | Ret None => Some (set_recv (RSet None) s, [])
      | Ret (Some m) => Some (set_recv (RPut m) s, [])
      | Fail e => Some (set_recv (RSet (Some e)) s, [ERecvFailed e])
      | Panic p => Some (crash p s, [])
      | OutOfFuel => None
      end
  | RPut m =>
      match chan_send m (msg_in_queue s) with
      | Some (Ret q) => Some (set_recv (RSet None) (set_inq q s), [EPut m])
      | Some (Panic p) => Some (crash p s, [])
      | _ => None
      end
  | RSet err => Some (set_recv RLoop (set_in_lock None (set_err err s)), [])
  | RDone => None
  end.

(** ** The sending goroutine *)

Definition send_step (s : system) : result :=
  match send_at s with
  | SLoop => Some (set_send (match msg_io_err s with None => SLock | Some _ => SDone end) s, [])
  | SLock =>
      match msg_out_lock s with
      | None => Some (set_send SCheck (set_out_lock (Some TSend) s), [])
      | Some _ => None
      end
  | SCheck =>
      match msg_io_err s with
      | None => Some (set_send STake s, [])
      | Some _ => Some (set_send SLoop (set_out_lock None s), [])
      end
  | STake =>
      match chan_recv (msg_out_queue s) with
      | Some (Some m, q) => Some (set_send (SSend m (-1)) (set_outq q s), [ETaken m])
      | Some (None, _) =>
          Some (set_send (SSet (Some (Error ERROR_GO_PROTOCOL_DESTROYED
                  (str "protocol stack destroyed, cannot send")))) s, [])
      | None => None
      end
  | SSend m sent =>
      if sent <? zlen (payload_of m) then
        let '(o, r) := send_round m (payload_of m) sent (proto s) in
        let s := set_proto r s in
        match o with
        | Ret sent => Some (set_send (SSend m sent) s, [])
        | Fail e => Some (set_send (SSet (Some e)) s, [])
        | Panic p => Some (crash p s, [])
        | OutOfFuel => None
        end
      else Some (set_send (SSet None) s, [ESent m])
  | SSet err => Some (set_send SLoop (set_out_lock None (set_err err s)), [])
  | SDone => None
  end.

(** ** Destroy *)

(** The body under the two locks, which are released behind it. *)
Definition destroy_body (s : system) : system :=
  let s := match msg_io_err s with
           | None => set_err (Some (Error ERROR_GO_PROTOCOL_DESTROYED (str "protocol stack destroyed"))) s
           | Some _ => s
           end in
  match chan_close (msg_in_queue s) with
  | Ret q1 =>
      let s := set_inq q1 s in
      match chan_close (msg_out_queue s) with
      | Ret q2 => set_destroy DIdle (set_in_lock None (set_out_lock None (set_outq q2 s)))
      | Panic p => crash p s
      | _ => s
      end
  | Panic p => crash p s
  | _ => s
  end.

(** [Destroy]: the call, the locks in their order, the body. *)
Definition destroy_step (s : system) : result :=
  match destroy_at s with
  | DIdle => Some (set_destroy DLockIn s, [])
  | DLockIn =>
      match msg_in_lock s with
      | None => Some (set_destroy DLockOut (set_in_lock (Some TDestroy) s), [])
      | Some _ => None
      end
  | DLockOut =>
      match msg_out_lock s with
      | None => Some (set_destroy DBody (set_out_lock (Some TDestroy) s), [])
      | Some _ => None
      end
  | DBody => Some (destroy_body s, [])
  end.

(** ** The user *)

(** The panic of a send on the closed queue is recovered and turned into
    [msg_io_err], which is returned. *)
Definition SendMessage (pkt : option Message) (stream_id : Z) (s : system) :
    option (option error * system * list event) :=
  match pkt with
  | None =>
      let e := Error ERROR_GO_RTMP_NOT_SUPPORT_MSG (str "message not support send") in
      Some (Some e, s, [EReturned e])
  | Some m =>
      let m := set_stream stream_id m in
      match chan_send m (msg_out_queue s) with
      | Some (Ret q) => Some (None, set_outq q s, [EEnqueued m])
      | Some (Panic _) =>
          Some (msg_io_err s, s, match msg_io_err s with Some e => [EReturned e] | None => [] end)
      | _ => None
      end
  end.

(** [SendPacket] up to the return of [SendMessage]; [on_send_message] is left to do
    for the packet. *)
Definition SendPacket (pkt : any_encoder) (stream_id : Z) (s : system) : result :=
  match EncodeMessage (ae_pkt pkt) with
  | Ret (cid, msg) =>
      match SendMessage (Some (set_PerferCid cid msg)) stream_id s with
      | Some (None, s', es) => Some (set_sent (sent_packets s' ++ [pkt]) s', es)
      | Some (Some _, s', es) => Some (s', es)
      | None => None
      end
  | Fail e => Some (s, [EReturned e])
  | Panic p => Some (crash p s, [])
  | OutOfFuel => None
  end.

(** The rest of [SendPacket], for the [i]-th packet that waits for it. *)
Definition after_send (i : nat) (s : system) : result :=
  match sent_packets s !! i with
  | None => None
  | Some pkt =>
      let '(o, r) := on_send_message (ae_pkt pkt) (proto s) in
      let s := set_sent (delete i (sent_packets s)) (set_proto r s) in
      match o with
      | Ret _ => Some (s, [])
      | Fail e => Some (s, [EReturned e])
      | Panic p => Some (crash p s, [])
      | OutOfFuel => None
      end
  end.

Definition RecvMessage (s : system) : result :=
  match chan_recv (msg_in_queue s) with
  | Some (Some m, q) => Some (set_inq q s, [EDelivered m])
  | Some (None, _) =>
      Some (s, [EReturned (match msg_io_err s with
                           | Some e => e
                           | None => Error ERROR_GO_PROTOCOL_DESTROYED (str "recv msg from destroyed stack")
                           end)])
  | None => None
  end.

(** The queue itself, for a user that selects on it. *)
Definition MessageInputChannel (s : system) : chan := msg_in_queue s.

(** ** The transition system *)

Inductive label :=
| LRecv
| LSend
| LDestroy
| LSendMessage (pkt : option Message) (stream_id : Z)
| LSendPacket (pkt : any_encoder) (stream_id : Z)
| LAfterSend (i : nat)
| LRecvMessage.

Definition step (l : label) (s : system) : result :=
  match crashed s with
  | Some _ => None
  | None =>
      match l with
      | LRecv => recv_step s
      | LSend => send_step s
      | LDestroy => destroy_step s
      | LSendMessage pkt stream_id =>
          match SendMessage pkt stream_id s with
          | Some (_, s', es) => Some (s', es)
          | None => None
          end
      | LSendPacket pkt stream_id => SendPacket pkt stream_id s
      | LAfterSend i => after_send i s
      | LRecvMessage => RecvMessage s
      end
  end.

(** A run with its events; [run] is the same for a given schedule. *)
Inductive runs (s0 : system) : list event -> system -> Prop :=
| runs_start : runs s0 [] s0
| runs_step t s l s' es : runs s0 t s -> step l s = Some (s', es) -> runs s0 (t ++ es) s'.

Fixpoint run (ls : list label) (s : system) : option (system * list event) :=
  match ls with
  | [] => Some (s, [])
  | l :: ls =>
      match step l s with
      | Some (s', es) =>
          match run ls s' with
          | Some (s'', es') => Some (s'', es ++ es')
          | None => None
          end
      | None => None
      end
  end.
