(* ===== verification/Locks.v ===== *)
(** * The goroutines: locks, closing and the order of messages

    Invariants of every run of [Goroutines], by induction on the run.  No
    assumption is made on the network, on the messages or on the schedule. *)

From Stdlib Require Import ZArith Lia Strings.Byte.
From stdpp Require Import base tactics list gmap.
From S2P Require Import Prelude Constants HPBuffer Socket Buffer Messages Packets Protocol ChunkSend Feed ChunkRecv Control Goroutines.
Open Scope Z_scope.

#[local] Arguments recv_job : simpl never.
#[local] Arguments send_round : simpl never.
#[local] Arguments zlen : simpl never.

(** ** Runs *)

Lemma runs_trans s0 t1 s1 t2 s2 : runs s0 t1 s1 -> runs s1 t2 s2 -> runs s0 (t1 ++ t2) s2.
Proof.
  intros H1 H2. induction H2 as [|t s l s' es _ IH Hs]; [by rewrite app_nil_r|].
  rewrite app_assoc. by eapply runs_step.
Qed.

Lemma run_runs ls s s' t : run ls s = Some (s', t) -> runs s t s'.
Proof.
  revert s t. induction ls as [|l ls IH]; intros s t; cbn [run].
  { intros [= <- <-]. constructor. }
  destruct (step l s) as [[s1 es]|] eqn:Hs; [|done].
  destruct (run ls s1) as [[s2 es']|] eqn:Hr; [|done]. intros [= <- <-].
  eapply runs_trans; [|by apply IH]. by apply (runs_step s [] s l s1 es (runs_start s)).
Qed.

(** An invariant of the steps holds along every run. *)
Lemma runs_invariant (I : system -> Prop) s0 t s :
  I s0 -> (forall l s1 s2 es, I s1 -> step l s1 = Some (s2, es) -> I s2) -> runs s0 t s -> I s.
Proof. intros H0 HI Hr. induction Hr; eauto. Qed.

(** ** Locks *)

Definition recv_holds (pc : recv_pc) : bool :=
  match pc with RCheck | RJob | RPut _ | RSet _ => true | _ => false end.
Definition send_holds (pc : send_pc) : bool :=
  match pc with SCheck | STake | SSend _ _ | SSet _ => true | _ => false end.
Definition destroy_holds_in (pc : destroy_pc) : bool :=
  match pc with DLockOut | DBody => true | _ => false end.
Definition destroy_holds_out (pc : destroy_pc) : bool :=
  match pc with DBody => true | _ => false end.

(** Each lock is held by the one whose program counter says so, and by one only. *)
Definition locks_ok (s : system) : Prop :=
  msg_in_lock s = (if recv_holds (recv_at s) then Some TRecv
                   else if destroy_holds_in (destroy_at s) then Some TDestroy else None)
  /\ msg_out_lock s = (if send_holds (send_at s) then Some TSend
                       else if destroy_holds_out (destroy_at s) then Some TDestroy else None)
  /\ recv_holds (recv_at s) && destroy_holds_in (destroy_at s) = false
  /\ send_holds (send_at s) && destroy_holds_out (destroy_at s) = false.

(** The two queues are closed together, for good, with an error set, and then no
    goroutine is behind its test of the error. *)
Definition recv_stopping (pc : recv_pc) : bool :=
  match pc with RLoop | RLock | RCheck | RDone => true | _ => false end.
Definition send_stopping (pc : send_pc) : bool :=
  match pc with SLoop | SLock | SCheck | SDone => true | _ => false end.

Definition closing_ok (s : system) : Prop :=
  ch_closed (msg_out_queue s) = ch_closed (msg_in_queue s)
  /\ (ch_closed (msg_in_queue s) = true ->
      is_Some (msg_io_err s) /\ recv_stopping (recv_at s) = true /\ send_stopping (send_at s) = true).

Definition sys_ok (s : system) : Prop := crashed s = None -> locks_ok s /\ closing_ok s.

Lemma start_ok r : sys_ok (start_message_pump_goroutines r).
Proof. done. Qed.

Lemma step_not_crashed l s r : step l s = Some r -> crashed s = None.
Proof. unfold step. by destruct (crashed s). Qed.

Lemma recv_idle pc : recv_holds pc = false -> recv_stopping pc = true.
Proof. by destruct pc. Qed.

Lemma send_idle pc : send_holds pc = false -> send_stopping pc = true.
Proof. by destruct pc. Qed.

Lemma destroy_body_ok s :
  locks_ok s -> closing_ok s -> destroy_at s = DBody -> crashed (destroy_body s) = None ->
  locks_ok (destroy_body s) /\ closing_ok (destroy_body s).
Proof.
  intros (_ & _ & H3 & H4) (H5 & _) Hd. rewrite Hd in H3, H4. simpl in H3, H4. rewrite andb_true_r in *.
  unfold destroy_body, chan_close. destruct (msg_io_err s) eqn:He; simpl;
    (destruct (ch_closed (msg_in_queue s)); [done|]); simpl; rewrite H5; simpl; intros _;
    unfold locks_ok, closing_ok; simpl; rewrite H3, H4; split_and!; auto using recv_idle, send_idle.
Qed.

(** The calls of the user move neither the goroutines nor the locks. *)
Definition same_control (s s' : system) : Prop :=
  msg_io_err s' = msg_io_err s /\ msg_in_lock s' = msg_in_lock s /\ msg_out_lock s' = msg_out_lock s
  /\ recv_at s' = recv_at s /\ send_at s' = send_at s /\ destroy_at s' = destroy_at s
  /\ ch_closed (msg_in_queue s') = ch_closed (msg_in_queue s)
  /\ ch_closed (msg_out_queue s') = ch_closed (msg_out_queue s).

Lemma chan_send_closed m c c' : chan_send m c = Some (Ret c') -> ch_closed c' = ch_closed c.
Proof. unfold chan_send. destruct (ch_closed c); [done|]. by destruct (_ <? _); intros [= <-]. Qed.

Lemma chan_recv_closed c o c' : chan_recv c = Some (o, c') -> ch_closed c' = ch_closed c.
Proof. unfold chan_recv. destruct (ch_buf c); [destruct (ch_closed c) eqn:?|]; intros; by simplify_eq. Qed.

Lemma SendMessage_control pkt sid s e s' es : SendMessage pkt sid s = Some (e, s', es) -> same_control s s'.
Proof.
  unfold SendMessage, same_control. repeat case_match; intros; simplify_eq/=; try done.
  split_and!; try done. by eapply chan_send_closed.
Qed.

Lemma SendPacket_control pkt sid s s' es : SendPacket pkt sid s = Some (s', es) -> same_control s s'.
Proof.
  unfold SendPacket. destruct (EncodeMessage _) as [[cid m]|e|p|]; [|by intros [= <- <-]..|done].
  destruct (SendMessage _ _ s) as [[[[e|] s1] es1]|] eqn:He; [..|done]; intros [= <- <-];
    exact (SendMessage_control _ _ _ _ _ _ He).
Qed.

Lemma after_send_control i s s' es : after_send i s = Some (s', es) -> same_control s s'.
Proof. unfold after_send, same_control. by repeat case_match; intros; simplify_eq/=. Qed.

Lemma RecvMessage_control s s' es : RecvMessage s = Some (s', es) -> same_control s s'.
Proof.
  unfold RecvMessage, same_control. repeat case_match; intros; simplify_eq/=; try done.
  split_and!; try done. by eapply chan_recv_closed.
Qed.

Lemma control_ok s s' : same_control s s' -> locks_ok s -> closing_ok s -> locks_ok s' /\ closing_ok s'.
Proof.
  unfold locks_ok, closing_ok. intros (-> & -> & -> & -> & -> & -> & -> & ->). auto.
Qed.

(** What a goroutine does to its lock: nothing, take it when it is free, release it. *)
Definition moves (owner : thread) (h h' : bool) (l l' : option thread) : Prop :=
  (h' = h /\ l' = l) \/ (h = false /\ h' = true /\ l = None /\ l' = Some owner)
  \/ (h = true /\ h' = false /\ l' = None).

Ltac inv_step := repeat (case_match; try discriminate); intros [= <- <-] Hc; try discriminate; simpl.

Lemma recv_moves s s' es :
  recv_step s = Some (s', es) -> crashed s' = None ->
  (send_at s' = send_at s /\ destroy_at s' = destroy_at s /\ msg_out_lock s' = msg_out_lock s
   /\ msg_out_queue s' = msg_out_queue s /\ ch_closed (msg_in_queue s') = ch_closed (msg_in_queue s))
  /\ moves TRecv (recv_holds (recv_at s)) (recv_holds (recv_at s')) (msg_in_lock s) (msg_in_lock s')
  /\ (recv_stopping (recv_at s) = true -> is_Some (msg_io_err s) ->
      recv_stopping (recv_at s') = true /\ msg_io_err s' = msg_io_err s).
Proof.
  unfold recv_step, moves. destruct (recv_at s) eqn:Hp; inv_step; rewrite ?Hp in *; simpl;
    (split; [split_and!; try done; by eapply chan_send_closed|]); (split; [tauto|]); try done;
    intros _ [e He]; by rewrite He in *.
Qed.

Lemma send_moves s s' es :
  send_step s = Some (s', es) -> crashed s' = None ->
  (recv_at s' = recv_at s /\ destroy_at s' = destroy_at s /\ msg_in_lock s' = msg_in_lock s
   /\ msg_in_queue s' = msg_in_queue s /\ ch_closed (msg_out_queue s') = ch_closed (msg_out_queue s))
  /\ moves TSend (send_holds (send_at s)) (send_holds (send_at s')) (msg_out_lock s) (msg_out_lock s')
  /\ (send_stopping (send_at s) = true -> is_Some (msg_io_err s) ->
      send_stopping (send_at s') = true /\ msg_io_err s' = msg_io_err s).
Proof.
  unfold send_step, moves. destruct (send_at s) eqn:Hp; inv_step; rewrite ?Hp in *; simpl;
    (split; [split_and!; try done; by eapply chan_recv_closed|]); (split; [tauto|]); try done;
    intros _ [e He]; by rewrite He in *.
Qed.

(** The owner of a lock after the move of a goroutine that competes with [Destroy]. *)
Lemma moves_owner t (h h' d : bool) l l' :
  moves t h h' l l' ->
  l = (if h then Some t else if d then Some TDestroy else None) -> h && d = false ->
  l' = (if h' then Some t else if d then Some TDestroy else None) /\ h' && d = false.
Proof. intros [[-> ->]|[(-> & -> & -> & ->)|(-> & -> & ->)]] Hl Hd; by destruct d. Qed.

Lemma recv_step_ok s s' es :
  locks_ok s -> closing_ok s -> recv_step s = Some (s', es) -> crashed s' = None -> locks_ok s' /\ closing_ok s'.
Proof.
  intros (H1 & H2 & H3 & H4) (H5 & H6) He Hc.
  destruct (recv_moves _ _ _ He Hc) as ((K1 & K2 & K3 & K4 & K5) & Hm & Hst).
  unfold locks_ok, closing_ok. rewrite K1, K2, K3, K4, K5.
  destruct (moves_owner _ _ _ _ _ _ Hm H1 H3). split; [done|]. split; [done|].
  intros Hq. destruct (H6 Hq) as (Hio & ? & ?). destruct Hst as [? ->]; done.
Qed.

Lemma send_step_ok s s' es :
  locks_ok s -> closing_ok s -> send_step s = Some (s', es) -> crashed s' = None -> locks_ok s' /\ closing_ok s'.
Proof.
  intros (H1 & H2 & H3 & H4) (H5 & H6) He Hc.
  destruct (send_moves _ _ _ He Hc) as ((K1 & K2 & K3 & K4 & K5) & Hm & Hst).
  unfold locks_ok, closing_ok. rewrite K1, K2, K3, K4, K5.
  destruct (moves_owner _ _ _ _ _ _ Hm H2 H4). split; [done|]. split; [done|].
  intros Hq. destruct (H6 Hq) as (Hio & ? & ?). destruct Hst as [? ->]; done.
Qed.

Lemma destroy_step_ok s s' es :
  locks_ok s -> closing_ok s -> destroy_step s = Some (s', es) -> crashed s' = None -> locks_ok s' /\ closing_ok s'.
Proof.
  intros Hl Hc. unfold destroy_step. destruct (destroy_at s) eqn:Hd;
    [..|intros [= <- <-]; by apply destroy_body_ok];
    destruct s as [pr er q1 q2 l1 l2 rp sp dp pk cr]; unfold locks_ok in *; simpl in *; subst; simpl in *;
    destruct Hl as (-> & -> & H3 & H4); destruct (recv_holds rp) eqn:Hr, (send_holds sp) eqn:Hs; try done;
    intros [= <- <-] _; simpl; rewrite Hr, Hs; (split; [by split_and!|exact Hc]).
Qed.

Lemma step_ok l s s' es : sys_ok s -> step l s = Some (s', es) -> sys_ok s'.
Proof.
  unfold step. destruct (crashed s) eqn:Hc; [done|]. intros Hs He Hc'. destruct (Hs Hc) as [Hl Hcl].
  destruct l; [by eapply recv_step_ok|by eapply send_step_ok|by eapply destroy_step_ok|..];
    apply (control_ok s s'); try done.
  - destruct (SendMessage _ _ s) as [[[e s1] es1]|] eqn:Hm; [|done]. injection He as <- <-.
    by eapply SendMessage_control.
  - by eapply SendPacket_control.
  - by eapply after_send_control.
  - by eapply RecvMessage_control.
Qed.

Lemma runs_ok r t s : runs (start_message_pump_goroutines r) t s -> sys_ok s.
Proof. intros. eapply runs_invariant; [apply start_ok|exact step_ok|done]. Qed.

(** ** The order of messages *)

Definition put_of (e : event) : option Message := match e with EPut m => Some m | _ => None end.
Definition delivered_of (e : event) : option Message := match e with EDelivered m => Some m | _ => None end.
Definition enqueued_of (e : event) : option Message := match e with EEnqueued m => Some m | _ => None end.
Definition taken_of (e : event) : option Message := match e with ETaken m => Some m | _ => None end.
Definition sent_of (e : event) : option Message := match e with ESent m => Some m | _ => None end.

(** The messages of the events of a kind, in their order. *)
Definition msgs (f : event -> option Message) (t : list event) : list Message :=
  flat_map (fun e => match f e with Some m => [m] | None => [] end) t.

Lemma msgs_app f t1 t2 : msgs f (t1 ++ t2) = msgs f t1 ++ msgs f t2.
Proof. apply flat_map_app. Qed.

Definition queue_ok (put got : list Message) (c : chan) : Prop :=
  put = got ++ ch_buf c /\ zlen (ch_buf c) <= RTMP_MSG_CHANNEL_BUFFER.

Lemma chan_send_queue put got m c c' :
  queue_ok put got c -> chan_send m c = Some (Ret c') -> queue_ok (put ++ [m]) got c'.
Proof.
  intros [-> Hl]. unfold chan_send. destruct (ch_closed c); [done|].
  destruct (Z.ltb_spec (zlen (ch_buf c)) RTMP_MSG_CHANNEL_BUFFER); [|done]. intros [= <-]. split; simpl.
  - by rewrite app_assoc.
  - rewrite zlen_app, zlen_singleton. lia.
Qed.

Lemma chan_recv_queue put got m c c' :
  queue_ok put got c -> chan_recv c = Some (Some m, c') -> queue_ok put (got ++ [m]) c'.
Proof.
  intros [-> Hl]. unfold chan_recv. destruct (ch_buf c) as [|x l] eqn:Hb; [by destruct (ch_closed c)|].
  intros [= <- <-]. split; simpl; [by rewrite <- app_assoc|]. rewrite zlen_cons in Hl. lia.
Qed.

Definition queues_ok (t : list event) (s : system) : Prop :=
  queue_ok (msgs put_of t) (msgs delivered_of t) (msg_in_queue s)
  /\ queue_ok (msgs enqueued_of t) (msgs taken_of t) (msg_out_queue s).

(** A step leaves a queue alone, puts a message in, or takes one out; the events tell. *)
Definition same_buf (c c' : chan) : Prop := ch_buf c' = ch_buf c.

Lemma queue_same put got c c' : queue_ok put got c -> same_buf c c' -> queue_ok put got c'.
Proof. unfold queue_ok, same_buf. by intros ? ->. Qed.

Lemma destroy_body_bufs s :
  same_buf (msg_in_queue s) (msg_in_queue (destroy_body s))
  /\ same_buf (msg_out_queue s) (msg_out_queue (destroy_body s)).
Proof.
  unfold destroy_body, chan_close, same_buf.
  destruct (msg_io_err s); simpl; destruct (ch_closed (msg_in_queue s)); simpl; try done;
    by destruct (ch_closed (msg_out_queue s)).
Qed.

Ltac queue_solve :=
  try (by rewrite ?app_nil_r); eauto using chan_send_queue, chan_recv_queue.

Lemma SendMessage_queues t pkt sid s e s' es :
  queues_ok t s -> SendMessage pkt sid s = Some (e, s', es) -> queues_ok (t ++ es) s'.
Proof.
  intros [H1 H2]. unfold SendMessage, queues_ok. rewrite !msgs_app.
  repeat (case_match; try discriminate); intros [= <- <- <-]; simpl; rewrite ?app_nil_r; split; queue_solve.
Qed.

Lemma step_queues t l s s' es : queues_ok t s -> step l s = Some (s', es) -> queues_ok (t ++ es) s'.
Proof.
  intros Hq. unfold step. destruct (crashed s); [done|].
  assert (forall s1, same_buf (msg_in_queue s) (msg_in_queue s1) -> same_buf (msg_out_queue s) (msg_out_queue s1) ->
    queues_ok t s1) as Hsame by (intros s1 ? ?; destruct Hq; split; by eapply queue_same).
  destruct l.
  4: { destruct (SendMessage _ _ s) as [[[e s1] es1]|] eqn:Hm; [|done]. intros [= <- <-].
       by eapply SendMessage_queues. }
  4: { unfold SendPacket. destruct (EncodeMessage _) as [[cid m]|e|p|]; [|intros [= <- <-]..|done].
       - destruct (SendMessage _ _ s) as [[[[e|] s1] es1]|] eqn:Hm; [..|done]; intros [= <- <-];
           exact (SendMessage_queues _ _ _ _ _ _ _ Hq Hm).
       - destruct Hq. split; by rewrite !msgs_app, !app_nil_r.
       - rewrite app_nil_r. by apply Hsame. }
  all: destruct Hq as [H1 H2]; unfold recv_step, send_step, destroy_step, after_send, RecvMessage;
    unfold queues_ok; rewrite !msgs_app;
    repeat (case_match; try discriminate); intros [= <- <-]; simpl; rewrite ?app_nil_r; split; queue_solve.
  all: destruct (destroy_body_bufs s); by eapply queue_same.
Qed.

Lemma runs_queues r t s : runs (start_message_pump_goroutines r) t s -> queues_ok t s.
Proof. intros Hr. induction Hr as [|t s l s' es _ IH He]; [done|]. by eapply step_queues. Qed.

(** ** Waiting *)

(** The sending goroutine waits for a message with its lock held. *)
Definition sender_waits (s : system) : Prop :=
  send_at s = STake /\ ch_buf (msg_out_queue s) = [] /\ ch_closed (msg_out_queue s) = false.

Lemma SendMessage_waits pkt sid s e s' es :
  ch_closed (msg_out_queue s) = false -> SendMessage pkt sid s = Some (e, s', es) ->
  s' = s \/ exists m, es = [EEnqueued m].
Proof.
  unfold SendMessage, chan_send. intros ->. repeat (case_match; try discriminate); intros; simplify_eq; eauto.
Qed.

Lemma step_waits l s s' es :
  locks_ok s -> sender_waits s -> step l s = Some (s', es) -> msgs enqueued_of es = [] -> sender_waits s'.
Proof.
  intros (_ & H2 & _ & H4) (Hs & Hb & Hc). unfold step. destruct (crashed s); [done|]. destruct l.
  - unfold recv_step. repeat (case_match; try discriminate); by intros [= <- <-].
  - unfold send_step, chan_recv. by rewrite Hs, Hb, Hc.
  - unfold destroy_step. rewrite H2, Hs. rewrite Hs in H4.
    destruct (destroy_at s); try done; [by intros [= <- <-]|]. destruct (msg_in_lock s); [done|]. by intros [= <- <-].
  - destruct (SendMessage _ _ s) as [[[e s1] es1]|] eqn:Hm; [|done]. intros [= <- <-] Hes.
    apply SendMessage_waits in Hm as [->|[m ->]]; done.
  - unfold SendPacket. destruct (EncodeMessage _) as [[cid m]|e|p|]; [|by intros [= <- <-]..|done].
    destruct (SendMessage _ _ s) as [[[[e|] s1] es1]|] eqn:Hm; [..|done]; intros [= <- <-] Hes;
      apply SendMessage_waits in Hm as [->|[? ->]]; done.
  - unfold after_send. repeat (case_match; try discriminate); by intros [= <- <-].
  - unfold RecvMessage. repeat (case_match; try discriminate); by intros [= <- <-].
Qed.

(** The receiving goroutine has ended and its queue is used up. *)
Definition receiver_gone (s : system) : Prop := recv_at s = RDone /\ ch_buf (msg_in_queue s) = [].

Lemma step_gone l s s' es : receiver_gone s -> step l s = Some (s', es) -> receiver_gone s'.
Proof.
  intros (Hs & Hb). unfold step. destruct (crashed s); [done|]. destruct l.
  - unfold recv_step. by rewrite Hs.
  - unfold send_step. repeat (case_match; try discriminate); by intros [= <- <-].
  - unfold destroy_step. repeat (case_match; try discriminate); intros [= <- <-]; try done.
    split; [|by rewrite (proj1 (destroy_body_bufs s))]. unfold destroy_body, chan_close.
    by repeat (case_match; simplify_eq/=).
  - unfold SendMessage. repeat (case_match; try discriminate); intros; by simplify_eq/=.
  - unfold SendPacket, SendMessage. repeat (case_match; try discriminate); intros; by simplify_eq/=.
  - unfold after_send. repeat (case_match; try discriminate); by intros [= <- <-].
  - unfold RecvMessage, chan_recv. rewrite Hb. destruct (ch_closed _); [|done]. by intros [= <- <-].
Qed.

(** ** Properties *)

(** A client that sends one audio message, a user that sends one and receives one. *)
Definition audio_conn : TCPConn :=
  mkTCPConn [[Byte.x05; Byte.x00; Byte.x00; Byte.x00; Byte.x00; Byte.x00; Byte.x03; Byte.x08; Byte.x01; Byte.x00;
    Byte.x00; Byte.x00]; [Byte.xaa; Byte.xbb; Byte.xcc]] EOF [] [].

Definition audio_system : system := start_message_pump_goroutines (NewProtocol audio_conn).

Definition audio_schedule : list label :=
  replicate 6 LRecv ++ [LSendMessage (Some sample_message) 1; LRecvMessage] ++ replicate 9 LSend.

(** C24. The locks do their work: in every run the lock of the input is held by the
    receiving goroutine exactly between its [Lock] and its [Unlock], the lock of
    the output by the sending one likewise, and while [Destroy] closes the queues
    it holds both and neither goroutine is in its job. *)
Theorem lock_discipline r t s :
  runs (start_message_pump_goroutines r) t s -> crashed s = None ->
  (msg_in_lock s = Some TRecv <-> recv_holds (recv_at s) = true)
  /\ (msg_out_lock s = Some TSend <-> send_holds (send_at s) = true)
  /\ (destroy_at s = DBody ->
      msg_in_lock s = Some TDestroy /\ msg_out_lock s = Some TDestroy
      /\ recv_holds (recv_at s) = false /\ send_holds (send_at s) = false).
Proof.
  intros Hr Hc. destruct (runs_ok _ _ _ Hr Hc) as [(H1 & H2 & H3 & H4) _]. rewrite H1, H2.
  destruct (destroy_at s), (recv_holds (recv_at s)), (send_holds (send_at s)); done.
Qed.

Lemma lock_discipline_witness :
  match run (replicate 3 LSend ++ [LSendMessage (Some sample_message) 0; LSend]) audio_system with
  | Some (s, t) =>
      (msg_in_lock s = Some TRecv <-> recv_holds (recv_at s) = true)
      /\ (msg_out_lock s = Some TSend <-> send_holds (send_at s) = true)
      /\ (destroy_at s = DBody ->
          msg_in_lock s = Some TDestroy /\ msg_out_lock s = Some TDestroy
          /\ recv_holds (recv_at s) = false /\ send_holds (send_at s) = false)
  | None => False
  end.
Proof.
  destruct (run _ audio_system) as [[s t]|] eqn:H; [|vm_compute in H; discriminate].
  apply (lock_discipline _ t s (run_runs _ _ _ _ H)). vm_compute in H. by injection H as <- _.
Defined.

(** C23. After [Destroy] the protocol is at rest: a message is refused with an error,
    [RecvMessage] hands out what is left in the queue and then an error, and each
    goroutine ends by itself within three of its steps, without touching the
    connection or the protocol and without an event. *)
Theorem after_destroy r t s :
  runs (start_message_pump_goroutines r) t s -> crashed s = None -> ch_closed (msg_in_queue s) = true ->
  destroy_at s = DIdle ->
  (forall m sid, exists e, SendMessage (Some m) sid s = Some (Some e, s, [EReturned e]))
  /\ (match ch_buf (msg_in_queue s) with
      | m :: l => RecvMessage s = Some (set_inq (mkchan l true) s, [EDelivered m])
      | [] => exists e, msg_io_err s = Some e /\ RecvMessage s = Some (s, [EReturned e])
      end)
  /\ (exists n s', (n <= 3)%nat /\ run (replicate n LRecv) s = Some (s', [])
      /\ recv_at s' = RDone /\ proto s' = proto s)
  /\ (exists n s', (n <= 3)%nat /\ run (replicate n LSend) s = Some (s', [])
      /\ send_at s' = SDone /\ proto s' = proto s).
Proof.
  intros Hr Hc Hq Hd. destruct (runs_ok _ _ _ Hr Hc) as [(H1 & H2 & _) (H5 & H6)].
  destruct (H6 Hq) as ([e He] & Hrs & Hss). rewrite Hd in H1, H2. simpl in H1, H2. split_and!.
  - intros m sid. exists e. unfold SendMessage, chan_send. by rewrite H5, Hq, He.
  - unfold RecvMessage, chan_recv. rewrite Hq. destruct (ch_buf (msg_in_queue s)); [|done]. exists e. by rewrite He.
  - destruct s as [pr er q1 q2 l1 l2 rp sp dp pk cr]. simpl in *. subst.
    destruct rp; try discriminate; [exists 1%nat|exists 3%nat|exists 2%nat|exists 0%nat];
      (eexists; split; [lia|]; split; [reflexivity|done]).
  - destruct s as [pr er q1 q2 l1 l2 rp sp dp pk cr]. simpl in *. subst.
    destruct sp; try discriminate; [exists 1%nat|exists 3%nat|exists 2%nat|exists 0%nat];
      (eexists; split; [lia|]; split; [reflexivity|done]).
Qed.

Definition destroy_schedule : list label := replicate 6 LRecv ++ replicate 4 LDestroy.

Lemma after_destroy_witness :
  match run destroy_schedule audio_system with
  | Some (s, t) =>
      List.length (ch_buf (msg_in_queue s)) = 1%nat
      /\ (forall m sid, exists e, SendMessage (Some m) sid s = Some (Some e, s, [EReturned e]))
      /\ (match ch_buf (msg_in_queue s) with
          | m :: l => RecvMessage s = Some (set_inq (mkchan l true) s, [EDelivered m])
          | [] => exists e, msg_io_err s = Some e /\ RecvMessage s = Some (s, [EReturned e])
          end)
      /\ (exists n s', (n <= 3)%nat /\ run (replicate n LRecv) s = Some (s', [])
          /\ recv_at s' = RDone /\ proto s' = proto s)
      /\ (exists n s', (n <= 3)%nat /\ run (replicate n LSend) s = Some (s', [])
          /\ send_at s' = SDone /\ proto s' = proto s)
  | None => False
  end.
Proof.
  destruct (run _ audio_system) as [[s t]|] eqn:H; [|vm_compute in H; discriminate].
  split; [|apply (after_destroy _ t s (run_runs _ _ _ _ H))]; vm_compute in H; by injection H as <- _.
Defined.

(** C40. [Destroy] cannot interrupt the sending goroutine: while that waits for a
    message, it holds the lock [Destroy] needs, so the queues stay open and the
    goroutine stays where it is, in every continuation in which nobody sends a
    message. *)
Theorem destroy_waits r t s :
  runs (start_message_pump_goroutines r) t s -> crashed s = None ->
  send_at s = STake -> ch_buf (msg_out_queue s) = [] -> ch_closed (msg_out_queue s) = false ->
  forall t' s', runs s t' s' -> msgs enqueued_of t' = [] ->
    send_at s' = STake /\ ch_closed (msg_out_queue s') = false
    /\ (crashed s' = None -> ch_closed (msg_in_queue s') = false /\ destroy_at s' <> DBody).
Proof.
  intros Hr Hc H1 H2 H3 t' s' Hr' Ht.
  assert (sender_waits s' /\ sys_ok s') as [(K1 & _ & K2) Hok].
  { induction Hr' as [|t1 s1 l s2 es Hr' IH He]; [by split; [|apply (runs_ok _ _ _ Hr)]|].
    rewrite msgs_app in Ht. apply app_nil in Ht as [Ht Hes]. destruct (IH Ht) as [Hw Hok].
    split; [|by eapply step_ok]. eapply step_waits; [|done..]. by apply Hok, (step_not_crashed _ _ _ He). }
  split; [done|]. split; [done|]. intros Hc'. destruct (Hok Hc') as [(_ & _ & _ & H6) (H7 & _)].
  rewrite K1 in H6. split; [congruence|]. intros Hd. by rewrite Hd in H6.
Qed.

Lemma destroy_waits_witness :
  match run (replicate 3 LSend ++ [LDestroy; LDestroy]) audio_system with
  | Some (s, t) =>
      destroy_at s = DLockOut /\
      forall t' s', runs s t' s' -> msgs enqueued_of t' = [] ->
        send_at s' = STake /\ ch_closed (msg_out_queue s') = false
        /\ (crashed s' = None -> ch_closed (msg_in_queue s') = false /\ destroy_at s' <> DBody)
  | None => False
  end.
Proof.
  destruct (run _ audio_system) as [[s t]|] eqn:H; [|vm_compute in H; discriminate].
  split; [|apply (destroy_waits _ t s (run_runs _ _ _ _ H))]; vm_compute in H; by injection H as <- _.
Defined.

(** Once the receiving goroutine has ended, after an error of the connection or of
    the peer, and the queue is used up, [RecvMessage] waits until somebody calls
    [Destroy]: the error does not reach the caller before the queue is closed. *)
Theorem recv_waits s :
  recv_at s = RDone -> ch_buf (msg_in_queue s) = [] ->
  forall t' s', runs s t' s' -> ch_closed (msg_in_queue s') = false -> step LRecvMessage s' = None.
Proof.
  intros H1 H2 t' s' Hr Hc. assert (receiver_gone s') as [_ Hb].
  { eapply runs_invariant; [|exact step_gone|exact Hr]. done. }
  unfold step, RecvMessage, chan_recv. rewrite Hb, Hc. by destruct (crashed s').
Qed.

Lemma recv_waits_witness :
  match run (replicate 6 LRecv ++ LRecvMessage :: replicate 6 LRecv) audio_system with
  | Some (s, t) =>
      msg_io_err s = Some EOF
      /\ forall t' s', runs s t' s' -> ch_closed (msg_in_queue s') = false -> step LRecvMessage s' = None
  | None => False
  end.
Proof.
  destruct (run _ audio_system) as [[s t]|] eqn:H; [|vm_compute in H; discriminate].
  split; [|apply (recv_waits s)]; vm_compute in H; by injection H as <- _.
Defined.
