(* ===== verification/Frame.v ===== *)
(** * Receiving leaves the sending half of the protocol alone

    [keeps f m]: the computation [m] does not change the part [f] of its state,
    whatever its outcome.  Receiving a chunk, its errors and panics included,
    keeps what sending depends on: the chunk size and the header caches for the
    output and what was written to the connection. *)

From Stdlib Require Import ZArith Lia Strings.Byte.
From stdpp Require Import base tactics list gmap.
From S2P Require Import Prelude Constants HPBuffer Socket Buffer Messages Packets Protocol.
Open Scope Z_scope.

Definition keeps {S T A} (f : S -> T) (m : M S A) : Prop := forall s, f (m s).2 = f s.

Create HintDb keep.

Section Keeps.
Context {S T : Type} (f : S -> T).

Lemma keeps_ret {A} (a : A) : keeps f (ret a).
Proof. done. Qed.

Lemma keeps_fail {A} e : keeps f (A := A) (fail e).
Proof. done. Qed.

Lemma keeps_panic {A} p : keeps f (A := A) (gopanic p).
Proof. done. Qed.

Lemma keeps_fuel {A} : keeps f (A := A) out_of_fuel.
Proof. done. Qed.

Lemma keeps_lift {A} (o : outcome A) : keeps f (lift o).
Proof. done. Qed.

Lemma keeps_gets {A} (g : S -> A) : keeps f (gets g).
Proof. done. Qed.

Lemma keeps_get : keeps f get.
Proof. done. Qed.

Lemma keeps_modify g : (forall s, f (g s) = f s) -> keeps f (modify g).
Proof. intros H s. apply H. Qed.

Lemma keeps_bind {A B} (m : M S A) (k : A -> M S B) :
  keeps f m -> (forall a, keeps f (k a)) -> keeps f (bind m k).
Proof.
  intros Hm Hk s. specialize (Hm s). unfold bind. destruct (m s) as [[] s1]; simpl in *; [|done..].
  by rewrite Hk.
Qed.

Lemma keeps_if {A} (b : bool) (m1 m2 : M S A) : keeps f m1 -> keeps f m2 -> keeps f (if b then m1 else m2).
Proof. by destruct b. Qed.

(** A step on a component, when [f] looks at the component through [g]. *)
Lemma keeps_zoom {U A} (view : S -> U) upd (g : U -> T) (m : M U A) :
  (forall s, g (view s) = f s) -> (forall u s, f (upd u s) = g u) -> keeps g m -> keeps f (zoom view upd m).
Proof.
  intros Hv Hu Hm s. unfold zoom. specialize (Hm (view s)). destruct (m (view s)) as [o u]. simpl in *.
  by rewrite Hu, Hm, Hv.
Qed.

End Keeps.

#[export] Hint Resolve keeps_ret keeps_fail keeps_panic keeps_fuel keeps_lift keeps_gets keeps_get : keep.

(** Walk through a computation; what is left are its primitive steps. *)
Ltac keep :=
  repeat first
    [ progress auto with keep
    | apply keeps_bind; [|intros ?]
    | apply keeps_if
    | match goal with |- keeps _ (match ?x with _ => _ end) => destruct x end ].

(** ** The connection, seen from the sending side *)

Definition conn_out (b : Buffer) : option (list byte * list tx_answer) :=
  match bf_conn b with
  | Some s => Some (tx (sk_conn s), tx_script (sk_conn s))
  | None => None
  end.

Lemma Socket_Read_out size s :
  tx (sk_conn (Socket_Read size s).2) = tx (sk_conn s)
  /\ tx_script (sk_conn (Socket_Read size s).2) = tx_script (sk_conn s).
Proof.
  unfold Socket_Read, bind, with_conn, zoom, TCPConn_Read.
  destruct (rx (sk_conn s)) as [|seg segs]; [done|]. unfold fail, modify, ret.
  destruct (zlen seg <=? size); by repeat (case_match; simplify_eq/=).
Qed.

Lemma keeps_conn_Read : keeps conn_out conn_Read.
Proof.
  intros b. unfold conn_Read, conn_out. destruct (bf_conn b) as [s|] eqn:Hs; [|simpl; by rewrite Hs].
  pose proof (Socket_Read_out RTMP_SOCKET_READ_SIZE s) as [H1 H2].
  destruct (Socket_Read _ s) as [o s']. simpl in *. by rewrite H1, H2.
Qed.

Lemma keeps_on_hp {A} (m : M HPBuffer A) : keeps conn_out (on_hp m).
Proof. intros b. unfold on_hp, zoom. by destruct (m (bf_buf b)). Qed.

#[export] Hint Resolve keeps_conn_Read keeps_on_hp : keep.

Lemma keeps_Bytes : keeps conn_out Buffer_Bytes.
Proof. done. Qed.

Lemma keeps_Ensure n : keeps conn_out (Buffer_EnsureBufferBytes n).
Proof.
  intros b. unfold Buffer_EnsureBufferBytes. generalize (Datatypes.S (rx_left b)). intros fuel.
  enough (keeps conn_out (EnsureBufferBytes_loop fuel n)) by done.
  clear b. induction fuel as [|fuel IH]; intros b; [done|]. cbn [EnsureBufferBytes_loop].
  destruct (_ <? _); [|done].
  apply (keeps_bind conn_out); [apply keeps_conn_Read|intros x]. apply keeps_bind; [apply keeps_on_hp|done].
Qed.

Lemma keeps_Skip n : keeps conn_out (Buffer_Skip n).
Proof. apply keeps_on_hp. Qed.

Lemma keeps_Consume n : keeps conn_out (Buffer_Consume n).
Proof. apply keeps_on_hp. Qed.

#[export] Hint Resolve keeps_Bytes keeps_Ensure keeps_Skip keeps_Consume : keep.

Lemma keeps_Read n : keeps conn_out (Buffer_Read n).
Proof. unfold Buffer_Read. keep. Qed.

Lemma keeps_ReadByte : keeps conn_out Buffer_ReadByte.
Proof. unfold Buffer_ReadByte. keep. Qed.

Lemma keeps_ReadUInt24 : keeps conn_out Buffer_ReadUInt24.
Proof. unfold Buffer_ReadUInt24. keep. Qed.

Lemma keeps_ReadUInt32 : keeps conn_out Buffer_ReadUInt32.
Proof. unfold Buffer_ReadUInt32. keep. Qed.

Lemma keeps_ReadUInt32Le : keeps conn_out Buffer_ReadUInt32Le.
Proof. unfold Buffer_ReadUInt32Le. keep. Qed.

#[export] Hint Resolve keeps_Read keeps_ReadByte keeps_ReadUInt24 keeps_ReadUInt32 keeps_ReadUInt32Le : keep.

Lemma keeps_basic_header : keeps conn_out read_basic_header.
Proof. unfold read_basic_header. keep. Qed.

(** ** The chunk stream beside the buffer *)

Abbreviation chunk_out := (fun s : Buffer * ChunkStream => conn_out s.1).

Lemma keeps_on_buf {A} (m : M Buffer A) : keeps conn_out m -> keeps chunk_out (on_buf m).
Proof. intros Hm. by apply (keeps_zoom chunk_out fst _ conn_out). Qed.

Lemma keeps_upd f : keeps chunk_out (upd f).
Proof. done. Qed.

Lemma keeps_the {A} (f : ChunkStream -> A) : keeps chunk_out (the f).
Proof. done. Qed.

#[export] Hint Resolve keeps_on_buf keeps_upd keeps_the : keep.

Lemma keeps_header format : keeps chunk_out (read_message_header format).
Proof.
  unfold read_message_header, read_header_fields, read_extended_timestamp, upd_header. keep.
Qed.

Lemma keeps_payload size bh mh : keeps chunk_out (read_message_payload size bh mh).
Proof. unfold read_message_payload, the_msg. keep. Qed.

(** ** The protocol *)

(** All that sending depends on, the connection included. *)
Definition out_half (r : protocol) := (outChunkSize r, outHeaderFmt0 r, outHeaderFmt3 r, conn_out (buffer r)).

Lemma keeps_on_chunk {A} cid (m : M (Buffer * ChunkStream) A) : keeps chunk_out m -> keeps out_half (on_chunk cid m).
Proof.
  intros Hm r. unfold on_chunk. set (c := match _ with Some c => c | None => _ end).
  specialize (Hm (buffer r, c)). destruct (m (buffer r, c)) as [o [b c']]. unfold out_half. simpl in *. by rewrite Hm.
Qed.

Lemma keeps_recv : keeps out_half recv_interlaced_message.
Proof.
  unfold recv_interlaced_message. apply keeps_bind.
  - intros r. unfold zoom. pose proof (keeps_basic_header (buffer r)) as H.
    destruct (read_basic_header (buffer r)) as [o b]. unfold out_half. simpl in *. by rewrite H.
  - intros [[format cid] bh]. keep; apply keeps_on_chunk; auto using keeps_header, keeps_payload.
Qed.

Lemma keeps_on_recv_message m : keeps out_half (on_recv_message m).
Proof. unfold on_recv_message, response_acknowledgement_message. keep; by apply keeps_modify. Qed.

#[export] Hint Resolve keeps_recv keeps_on_recv_message : keep.

Lemma keeps_recv_job : keeps out_half recv_job.
Proof. unfold recv_job. keep. Qed.

(** ** The requests on record *)

Lemma keeps_on_chunk_requests {A} cid (m : M (Buffer * ChunkStream) A) : keeps requests (on_chunk cid m).
Proof. intros r. unfold on_chunk. by destruct (m _) as [o [b c]]. Qed.

Lemma keeps_buffer_requests {A} (m : M Buffer A) : keeps requests (zoom buffer set_buffer m).
Proof. intros r. unfold zoom. by destruct (m (buffer r)). Qed.

#[export] Hint Resolve keeps_on_chunk_requests keeps_buffer_requests : keep.

Lemma keeps_recv_requests : keeps requests recv_job.
Proof.
  unfold recv_job, recv_interlaced_message, on_recv_message, response_acknowledgement_message.
  keep; by apply keeps_modify.
Qed.
