(* ===== verification/Pump.v ===== *)
(** * The goroutines on the connection: safety, and the bytes on the wire

    The invariants of the two halves of the protocol are carried through every
    interleaving of the goroutines and the user: what [ChunkRecv] and [Control]
    show of a received chunk and [ChunkSend] of a sent one holds of the running
    system.  A schedule is a list of labels. *)

From Stdlib Require Import ZArith Lia Strings.Byte.
From stdpp Require Import base tactics list gmap.
From S2P Require Import Prelude Constants HPBuffer Socket Buffer Messages Packets PacketsFacts Protocol ChunkSend Feed ChunkRecv Control Goroutines Frame Locks.
Open Scope Z_scope.

#[local] Arguments recv_job : simpl never.
#[local] Arguments send_round : simpl never.
#[local] Arguments zlen : simpl never.

(** ** The two halves *)

Lemma out_half_ok r r' : out_half r' = out_half r -> out_ok r -> out_ok r'.
Proof.
  unfold out_half, out_ok, conn_out. intros [= _ -> -> Hc] (Hs & ? & ?). split; [|done].
  destruct (bf_conn (buffer r')); [by eexists|]. destruct (bf_conn (buffer r)); [done|by destruct Hs].
Qed.

Lemma recv_job_out r o r' : recv_job r = (o, r') -> out_half r' = out_half r.
Proof. intros He. pose proof (keeps_recv_job r) as H. by rewrite He in H. Qed.

(** The input half is at a chunk boundary. *)
Definition at_chunk (r : protocol) : Prop :=
  recv_ok r /\ exists n k inp, feed n (mkview k [] inp) (buffer r).

(** Sending does not disturb it. *)
Lemma sent_feed w r r' n v : sent_by w r r' -> feed n v (buffer r) -> exists n', feed n' v (buffer r').
Proof.
  intros (_ & _ & _ & _ & _ & H6 & (s & s' & Hs & Hs' & Ht & Hrx & Herr & _) & _) Hf.
  destruct Hf as (s1 & g1 & post & g2 & Hb & Hok & _ & _ & _ & Hin & Hk).
  destruct (buffer r) as [hp c], (buffer r') as [hp' c']. unfold mkbuf in Hb. simpl in *. injection Hb as -> ->.
  injection Hs as <-. subst hp' c'. exists (mkNet (rx_err (sk_conn s')) (tx_script (sk_conn s')) (tx (sk_conn s'))).
  exists s', g1, post, g2. unfold rx_ok, rx_bytes in *. simpl. by rewrite Hrx.
Qed.

Lemma sent_at_chunk w r r' : sent_by w r r' -> at_chunk r -> at_chunk r'.
Proof.
  intros Hs [[Hp Hz] (n & k & inp & Hf)]. destruct (sent_feed _ _ _ _ _ Hs Hf) as [n' Hf'].
  destruct Hs as (_ & H2 & H3 & _). split; [unfold recv_ok, proto_ok, size_ok in *; by rewrite H2, H3|].
  by exists n', k, inp.
Qed.

(** ** Well-typed calls *)

(** A packet the user may send: its encoder keeps the laws, and the chunk size of a
    [SetChunkSizePacket] is an unsigned integer. *)
Definition pkt_ok (pkt : any_encoder) : Prop :=
  (exists L : LawfulEncoder (ae_type pkt), valid (ae_pkt pkt))
  /\ match type_of (ae_pkt pkt) with
     | SentSetChunkSize p => 0 <= ChunkSize p
     | _ => True
     end.

Definition label_ok (l : label) : Prop :=
  match l with LSendPacket pkt _ => pkt_ok pkt | _ => True end.

(** ** Safety *)

(** [msg.SentPayloadLength] while a message is sent. *)
Definition sending_ok (pc : send_pc) : Prop :=
  match pc with
  | SSend m sent => sent = -1 \/ exists done todo, payload_of m = done ++ todo /\ sent = zlen done
  | _ => True
  end.

Definition live (s : system) : Prop :=
  out_ok (proto s) /\ 0 <= outChunkSize (proto s) /\ at_chunk (proto s)
  /\ sending_ok (send_at s) /\ Forall pkt_ok (sent_packets s).

(** The panics that are not excluded: a second [Destroy], and the record of a
    request in the map that was never made. *)
Definition user_panic (p : panic) : Prop := p = CloseOfClosedChannel \/ p = NilMapWrite.

Definition calm (s : system) : Prop :=
  match crashed s with None => live s | Some p => user_panic p end.

Lemma calm_live s : crashed s = None -> live s -> calm s.
Proof. unfold calm. by intros ->. Qed.

Definition safe_sys (s : system) : Prop := sys_ok s /\ calm s.

Lemma send_round_safe m sent r :
  out_ok r -> 0 <= outChunkSize r -> sending_ok (SSend m sent) -> sent < zlen (payload_of m) \/ sent = -1 ->
  exists w, sends (send_round m (payload_of m) sent) w r (fun n _ => sending_ok (SSend m n)).
Proof.
  intros Ho Hs Hm Hlt. set (n := Z.to_nat (outChunkSize r)).
  assert (forall k, k = zlen (take n (payload_of m)) -> sending_ok (SSend m k)) as Hfirst.
  { intros k ->. right. exists (take n (payload_of m)), (drop n (payload_of m)). by rewrite take_drop. }
  assert (exists w, sends (send_round m (payload_of m) (-1)) w r (fun n _ => sending_ok (SSend m n))) as Hw.
  { eexists. eapply sends_weaken; [by apply send_round_first|]. intros k ?. apply Hfirst. }
  destruct Hm as [->|(d & todo & Hp & ->)]; [done|].
  destruct d as [|x d]; [done|]. destruct todo as [|y todo].
  { rewrite Hp, app_nil_r in Hlt. pose proof (zlen_nonneg (x :: d)). lia. }
  rewrite Hp. eexists. eapply sends_weaken; [by apply send_round_next|]. intros k ? ->. right.
  eexists _, (drop n (y :: todo)). split; [|reflexivity]. rewrite Hp, <- app_assoc. fold n. by rewrite take_drop.
Qed.

Lemma sent_live w r r' : sent_by w r r' -> 0 <= outChunkSize r -> at_chunk r ->
  out_ok r' /\ 0 <= outChunkSize r' /\ at_chunk r'.
Proof.
  intros Hs Hz Ha. split; [apply Hs|]. split; [|by eapply sent_at_chunk].
  destruct Hs as (_ & _ & _ & _ & -> & _). done.
Qed.

Definition failed_of (e : event) : bool := match e with ERecvFailed _ => true | _ => false end.

Lemma recv_step_safe s s' es :
  locks_ok s -> closing_ok s -> crashed s = None -> live s -> recv_step s = Some (s', es) ->
  existsb failed_of es = false ->
  crashed s' = None /\ live s'.
Proof.
  intros _ [_ Hcl] Hc Hl. unfold recv_step.
  destruct (recv_at s) eqn:Hpc;
    try (repeat (case_match; try discriminate); intros [= <- <-] _; done).
  - destruct Hl as (Ho & Hz & [Hr (n & k & inp & Hf)] & Hs & Hp).
    destruct (recv_job_step n inp k (proto s) Hr Hf) as (o & r' & He & Hout). rewrite He.
    pose proof (recv_job_out _ _ _ He) as Hh.
    destruct o as [msg|e| |]; [|by intros [= <- <-]|done..].
    destruct Hout as (Hr' & Hz' & (bs & inp' & k' & _ & _ & Hf') & _).
    assert (live (set_proto r' s)) as Hl.
    { split_and!; simpl; [by eapply out_half_ok|by rewrite Hz'|split; [done|by eexists _, _, _]|done|done]. }
    destruct msg; intros [= <- <-] _; done.
  - unfold chan_send. destruct (ch_closed (msg_in_queue s)) eqn:Hq; [by destruct (Hcl eq_refl) as (_ & ? & _)|].
    destruct (_ <? _); [|done]. intros [= <- <-] _. done.
Qed.

Lemma send_step_safe s s' es :
  crashed s = None -> live s -> send_step s = Some (s', es) ->
  crashed s' = None /\ live s'.
Proof.
  intros Hc (Ho & Hz & Ha & Hs & Hp). unfold send_step, live.
  destruct (send_at s) as [| | | |m sent| |] eqn:Hpc;
    try (repeat (case_match; try discriminate); intros [= <- <-]; (split; [done|]); split_and!; try done; (destruct (msg_io_err s); done) || by left).
  destruct (Z.ltb_spec sent (zlen (payload_of m))) as [Hlt|]; [|by intros [= <- <-]].
  destruct (send_round_safe m sent (proto s)) as (w & o & r' & k & He & Hsent & Hout); [done|done|done|by left|].
  rewrite He. destruct (sent_live _ _ _ Hsent Hz Ha) as (? & ? & ?).
  destruct o as [n|e| |]; try done; intros [= <- <-]; (split; [done|]); split_and!; try done; apply Hout.
Qed.

Lemma destroy_step_safe s s' es :
  crashed s = None -> live s -> destroy_step s = Some (s', es) ->
  calm s'.
Proof.
  intros Hc Hl. unfold destroy_step, destroy_body, chan_close.
  destruct (destroy_at s); [..|destruct (msg_io_err s); simpl; destruct (ch_closed (msg_in_queue s)); simpl;
    destruct (ch_closed (msg_out_queue s)); simpl]; try (case_match; try discriminate); intros [= <- <-];
    solve [by apply calm_live | by left].
Qed.

(** The record of a sent packet changes the chunk size of the output and the map of
    the requests only. *)
Definition same_io (r r' : protocol) : Prop :=
  chunkStreams r' = chunkStreams r /\ buffer r' = buffer r /\ inChunkSize r' = inChunkSize r
  /\ outHeaderFmt0 r' = outHeaderFmt0 r /\ outHeaderFmt3 r' = outHeaderFmt3 r.

Lemma same_io_live r r' : same_io r r' -> out_ok r -> at_chunk r -> out_ok r' /\ at_chunk r'.
Proof.
  unfold same_io, out_ok, at_chunk, recv_ok, proto_ok, size_ok. by intros (-> & -> & -> & -> & ->).
Qed.

Lemma on_send_spec {P} `{Encoder P} (pkt : P) r o r' :
  0 <= outChunkSize r -> match type_of pkt with SentSetChunkSize p => 0 <= ChunkSize p | _ => True end ->
  on_send_message pkt r = (o, r') ->
  (0 <= outChunkSize r' /\ same_io r r')
  /\ match o with Ret _ => True | Panic p => p = NilMapWrite | _ => False end.
Proof.
  intros Hz Hp. unfold on_send_message, record_request, requests_set, bind, gets, lift, modify, ret.
  destruct (type_of pkt) as [p|p|p|]; [|destruct (requests r)..|]; intros [<- <-]%pair_equal_spec; done.
Qed.

Lemma user_step_safe l s s' es :
  crashed s = None -> live s -> label_ok l -> step l s = Some (s', es) ->
  match l with LRecv | LSend | LDestroy => False | _ => True end -> calm s'.
Proof.
  intros Hc Hl Hok. assert (Hm : forall pkt sid e s1 es1, SendMessage pkt sid s = Some (e, s1, es1) ->
    crashed s1 = None /\ live s1).
  { intros pkt sid e s1 es1. unfold SendMessage. repeat (case_match; try discriminate); by intros [= <- <- <-]. }
  unfold step. rewrite Hc. destruct l; try done.
  - destruct (SendMessage _ _ s) as [[[e s1] es1]|] eqn:He; [|done]. intros [= <- <-] _.
    apply Hm in He as []. by apply calm_live.
  - destruct (Hok) as [[L Hv] _]. unfold SendPacket. rewrite (EncodeMessage_message _ Hv).
    destruct (SendMessage _ _ s) as [[[[e|] s1] es1]|] eqn:He; [..|done]; intros [= <- <-] _;
      apply Hm in He as [Hc1 (H1 & H2 & H3 & H4 & H5)]; (apply calm_live; [done|]); split_and!; try done.
    apply Forall_app. split; [done|]. by apply Forall_singleton.
  - unfold after_send. destruct (sent_packets s !! i) as [pkt|] eqn:Hi; [|done].
    destruct Hl as (H1 & H2 & H3 & H4 & H5). pose proof (Forall_lookup_1 _ _ _ _ H5 Hi) as [_ Hz].
    assert (Forall pkt_ok (delete i (sent_packets s))) as H5' by (by apply Forall_delete).
    destruct (on_send_message (ae_pkt pkt) (proto s)) as [o r'] eqn:He.
    apply (on_send_spec _ _ _ _ H2 Hz) in He as [[Hz' Hsame] Ho].
    destruct o as [[]|e|p|]; try done; [|intros [= <- <-] _; by right; rewrite Ho]. intros [= <- <-] _.
    destruct (same_io_live _ _ Hsame H1 H3). apply calm_live; [done|]. by split_and!.
  - unfold RecvMessage. repeat (case_match; try discriminate); intros [= <- <-] _; by apply calm_live.
Qed.

Lemma step_safe l s s' es :
  safe_sys s -> label_ok l -> step l s = Some (s', es) -> existsb failed_of es = false -> safe_sys s'.
Proof.
  intros [Hs Hl] Hok He Hes. split; [by eapply step_ok|]. pose proof (step_not_crashed _ _ _ He) as Hc.
  unfold calm in Hl. rewrite Hc in Hl. destruct (Hs Hc) as [Hlk Hcl]. destruct l;
    [|unfold step in He; rewrite Hc in He..|by eapply user_step_safe|by eapply user_step_safe|by eapply user_step_safe
     |by eapply user_step_safe].
  - unfold step in He. rewrite Hc in He. apply calm_live; by eapply recv_step_safe.
  - apply calm_live; by eapply send_step_safe.
  - by eapply destroy_step_safe.
Qed.

Lemma run_safe ls s s' t :
  safe_sys s -> Forall label_ok ls -> run ls s = Some (s', t) -> existsb failed_of t = false -> safe_sys s'.
Proof.
  revert s t. induction ls as [|l ls IH]; intros s t Hs Hok; cbn [run]; [by intros [= <- <-]|].
  apply Forall_cons in Hok as [Hl Hok]. destruct (step l s) as [[s1 es]|] eqn:He; [|done].
  destruct (run ls s1) as [[s2 es']|] eqn:Hr; [|done]. intros [= <- <-] Ht.
  rewrite existsb_app in Ht. apply orb_false_elim in Ht as [H1 H2].
  eapply (IH s1); [|done..]. by eapply step_safe.
Qed.

(** A run goes on from states in which nothing has crashed. *)
Lemma run_not_crashed ls s s' t : run ls s = Some (s', t) -> crashed s' = None -> crashed s = None.
Proof.
  destruct ls as [|l ls]; cbn [run]; [by intros [= <- <-]|].
  destruct (step l s) as [[s1 es]|] eqn:He; [|done]. intros _ _. by eapply step_not_crashed.
Qed.

(** ** The bytes on the wire *)

(** The chunk form of messages, one behind the other. *)
Definition wire_of (size : Z) (ms : list Message) : list byte :=
  concat (List.map (fun m => concat (message_chunks size m)) ms).

Lemma wire_of_snoc size ms m : wire_of size (ms ++ [m]) = wire_of size ms ++ concat (message_chunks size m).
Proof. unfold wire_of. rewrite map_app, concat_app. simpl. by rewrite app_nil_r. Qed.

Definition current (pc : send_pc) : list Message := match pc with SSend m _ => [m] | _ => [] end.

(** What is out of the message being sent, [part], and what is to come. *)
Definition progress (size : Z) (pc : send_pc) (part : list byte) : Prop :=
  match pc with
  | SSend m sent =>
      (sent = -1 /\ part = [])
      \/ exists d todo, payload_of m = d ++ todo /\ sent = zlen d /\ (todo <> [] -> d <> [])
           /\ part ++ concat (tail_chunks size m todo) = concat (message_chunks size m)
  | _ => part = []
  end.

(** The connection takes all that is written, and the chunk size stays. *)
Definition no_resize (pkt : any_encoder) : Prop :=
  match type_of (ae_pkt pkt) with SentSetChunkSize _ => False | _ => True end.

Definition label_keeps (l : label) : Prop :=
  match l with LSendPacket pkt _ => no_resize pkt | _ => True end.

Definition wire_ok (size : Z) (tx0 : list byte) (t : list event) (s : system) : Prop :=
  out_ok (proto s) /\ outChunkSize (proto s) = size /\ Forall no_resize (sent_packets s)
  /\ exists part, conn_out (buffer (proto s)) = Some (tx0 ++ wire_of size (msgs sent_of t) ++ part, [])
       /\ progress size (send_at s) part /\ msgs taken_of t = msgs sent_of t ++ current (send_at s).

(** One chunk more. *)
Lemma progress_round m sent r part :
  out_ok r -> 0 < outChunkSize r -> progress (outChunkSize r) (SSend m sent) part ->
  sent < zlen (payload_of m) ->
  exists w, sends (send_round m (payload_of m) sent) w r
    (fun n _ => progress (outChunkSize r) (SSend m n) (part ++ w)).
Proof.
  intros Ho Hs Hp Hlt. set (n := Z.to_nat (outChunkSize r)). set (p := payload_of m) in *.
  destruct Hp as [[-> ->]|(d & todo & Hp & -> & Hd & Hpart)].
  - eexists. eapply sends_weaken; [apply send_round_first; [done|lia]|]. intros k ? ->. right.
    exists (take n p), (drop n p). split; [by rewrite take_drop|]. split; [done|]. split; [|done].
    intros Hne. apply take_nonempty; [done|]. intros Hp. by rewrite Hp, drop_nil in Hne.
  - fold p in Hp. rewrite Hp, zlen_app in Hlt. destruct (decide (todo = [])) as [->|Hne].
    { change (zlen (@nil byte)) with 0 in Hlt. lia. }
    rewrite Hp. eexists. eapply sends_weaken; [apply send_round_next; auto; lia|]. intros k ? ->. right.
    exists (d ++ take n todo), (drop n todo). fold p n. split; [by rewrite <- app_assoc, take_drop|].
    split; [done|]. split; [intros _ H; by apply app_nil in H as []; apply Hd|].
    rewrite <- Hpart, (tail_chunks_cons _ _ todo) by done. cbn [concat]. by rewrite <- !app_assoc.
Qed.

(** A write on a connection that takes all: what it adds. *)
Lemma sent_conn_out w r r' x :
  sent_by w r r' -> conn_out (buffer r) = Some (x, []) -> conn_out (buffer r') = Some (x ++ w, []).
Proof.
  unfold conn_out. intros (_ & _ & _ & _ & _ & _ & (s & s' & Hs & Hs' & Ht & _) & _ & Hq).
  rewrite Hs, Hs'. intros [= <- Hsc]. rewrite Ht. rewrite (Hq); [done| |done].
  intros s1. rewrite Hs. by intros [= <-].
Qed.

Lemma quiet_out r x : conn_out (buffer r) = Some (x, []) -> quiet r.
Proof. unfold conn_out, quiet. intros H s Hs. rewrite Hs in H. congruence. Qed.

(** A step that moves neither the sending goroutine nor the output. *)
Lemma wire_same size tx0 t s s' es :
  wire_ok size tx0 t s -> out_half (proto s') = out_half (proto s) -> send_at s' = send_at s ->
  Forall no_resize (sent_packets s') -> msgs sent_of es = [] -> msgs taken_of es = [] ->
  wire_ok size tx0 (t ++ es) s'.
Proof.
  intros (Ho & Hz & _ & part & Hc & Hp & Ht) Hh Hpc Hn H1 H2.
  split; [by eapply out_half_ok|]. injection Hh as Hz' _ _ Hc'. split; [congruence|]. split; [done|].
  exists part. rewrite !msgs_app, H1, H2, !app_nil_r, Hpc, Hc'. done.
Qed.

Lemma send_step_wire size tx0 t s s' es :
  0 < size -> wire_ok size tx0 t s -> send_step s = Some (s', es) -> wire_ok size tx0 (t ++ es) s'.
Proof.
  intros Hsz (Ho & Hz & Hn & part & Hc & Hp & Ht). unfold send_step.
  destruct (send_at s) as [| | | |m sent| |] eqn:Hpc.
  4: { destruct (chan_recv _) as [[[m|] q]|]; try done; intros [= <- <-]; (split; [done|]); (split; [done|]);
         (split; [done|]); exists part; rewrite !msgs_app; simpl in *; rewrite !app_nil_r in *.
       - rewrite Ht. split; [done|]. split; [by left|done].
       - done. }
  4: { destruct (Z.ltb_spec sent (zlen (payload_of m))) as [Hlt|Hge].
       - rewrite <- Hz in Hsz, Hp. destruct (progress_round m sent (proto s) part Ho Hsz Hp Hlt) as (w & o & r' & k & He & Hs & Hout).
         rewrite He. destruct o as [n|e| |]; try done; [|by destruct (Hout (quiet_out _ _ Hc))].
         destruct Hout as [Hk Hp']. rewrite Hk in Hs. intros [= <- <-]. split; [apply Hs|].
         split; [rewrite <- Hz; apply Hs|]. split; [done|]. exists (part ++ w). rewrite app_nil_r.
         split; [simpl; rewrite (sent_conn_out _ _ _ _ Hs Hc); by rewrite !app_assoc|]. rewrite <- Hz. done.
       - intros [= <- <-]. split; [done|]. split; [done|]. split; [done|]. exists [].
         rewrite !msgs_app. simpl. rewrite wire_of_snoc, !app_nil_r. split; [|by split].
         destruct Hp as [[-> _]|(d & todo & Hpay & -> & _ & Hpart)]; [pose proof (zlen_nonneg (payload_of m)); lia|].
         rewrite Hpay, zlen_app in Hge. rewrite (zlen_0_nil todo) in Hpart by lia.
         rewrite tail_chunks_nil in Hpart. cbn [concat] in Hpart. rewrite app_nil_r in Hpart. by rewrite <- Hpart. }
  all: repeat (case_match; try discriminate); intros [= <- <-]; (split; [done|]); (split; [done|]);
    (split; [done|]); exists part; rewrite !msgs_app; simpl in *; rewrite !app_nil_r in *; done.
Qed.

Lemma on_send_out {P} `{Encoder P} (pkt : P) r o r' :
  match type_of pkt with SentSetChunkSize _ => False | _ => True end ->
  on_send_message pkt r = (o, r') -> out_half r' = out_half r.
Proof.
  unfold on_send_message, record_request, requests_set, bind, gets, lift, modify, ret. intros Hp.
  destruct (type_of pkt) as [p|p|p|]; [done|destruct (requests r)..|]; by intros [<- <-]%pair_equal_spec.
Qed.

Lemma SendMessage_wire pkt sid s e s' es :
  SendMessage pkt sid s = Some (e, s', es) ->
  proto s' = proto s /\ send_at s' = send_at s /\ sent_packets s' = sent_packets s
  /\ msgs sent_of es = [] /\ msgs taken_of es = [].
Proof. unfold SendMessage. repeat (case_match; try discriminate); by intros [= <- <- <-]. Qed.

Lemma step_wire size tx0 t l s s' es :
  0 < size -> label_keeps l -> wire_ok size tx0 t s -> step l s = Some (s', es) -> wire_ok size tx0 (t ++ es) s'.
Proof.
  intros Hsz Hl Hw. unfold step. destruct (crashed s); [done|]. pose proof (Hw) as (_ & _ & Hn & _). destruct l.
  - unfold recv_step. destruct (recv_job (proto s)) as [o r'] eqn:He. pose proof (recv_job_out _ _ _ He).
    repeat (case_match; try discriminate); intros [= <- <-]; by eapply wire_same.
  - by apply send_step_wire.
  - unfold destroy_step, destroy_body. repeat (case_match; try discriminate); intros [= <- <-]; by eapply wire_same.
  - destruct (SendMessage _ _ s) as [[[e s1] es1]|] eqn:Hm; [|done]. intros [= <- <-].
    apply SendMessage_wire in Hm as (H1 & H2 & H3 & H4 & H5). eapply wire_same; try done; congruence.
  - unfold SendPacket. destruct (EncodeMessage _) as [[cid m]|e|p|]; [|intros [= <- <-]; by eapply wire_same..|done].
    destruct (SendMessage _ _ s) as [[[[e|] s1] es1]|] eqn:Hm; [..|done]; intros [= <- <-];
      apply SendMessage_wire in Hm as (H1 & H2 & H3 & H4 & H5); eapply wire_same; simpl; try done; try congruence.
    rewrite H3. apply Forall_app. split; [done|]. by apply Forall_singleton.
  - unfold after_send. destruct (sent_packets s !! i) as [pkt|] eqn:Hi; [|done].
    pose proof (Forall_lookup_1 _ _ _ _ Hn Hi) as Hpk.
    destruct (on_send_message (ae_pkt pkt) (proto s)) as [o r'] eqn:He. apply (on_send_out _ _ _ _ Hpk) in He.
    assert (Forall no_resize (delete i (sent_packets s))) by (by apply Forall_delete).
    destruct o; try done; intros [= <- <-]; by eapply wire_same.
  - unfold RecvMessage. repeat (case_match; try discriminate); intros [= <- <-]; by eapply wire_same.
Qed.

Lemma run_wire size tx0 ls t0 s s' t :
  0 < size -> Forall label_keeps ls -> wire_ok size tx0 t0 s -> run ls s = Some (s', t) -> wire_ok size tx0 (t0 ++ t) s'.
Proof.
  intros Hsz. revert t0 s t. induction ls as [|l ls IH]; intros t0 s t Hok Hw; cbn [run].
  { intros [= <- <-]. by rewrite app_nil_r. }
  apply Forall_cons in Hok as [Hl Hok]. destruct (step l s) as [[s1 es]|] eqn:He; [|done].
  destruct (run ls s1) as [[s2 es']|] eqn:Hr; [|done]. intros [= <- <-].
  rewrite app_assoc. eapply IH; [done| |done]. by eapply step_wire.
Qed.

(** The wire of a whole run. *)
Lemma run_on_wire r ls s t tx0 :
  out_ok r -> 0 < outChunkSize r -> conn_out (buffer r) = Some (tx0, []) ->
  Forall label_keeps ls -> run ls (start_message_pump_goroutines r) = Some (s, t) ->
  exists part rest,
    conn_out (buffer (proto s)) = Some (tx0 ++ wire_of (outChunkSize r) (msgs sent_of t) ++ part, [])
    /\ part ++ rest = wire_of (outChunkSize r) (current (send_at s))
    /\ msgs enqueued_of t = msgs sent_of t ++ current (send_at s) ++ ch_buf (msg_out_queue s).
Proof.
  intros Ho Hz Hc Hls Hrun.
  assert (wire_ok (outChunkSize r) tx0 [] (start_message_pump_goroutines r)) as Hw.
  { split; [done|]. split; [done|]. split; [done|]. exists []. cbn. by rewrite app_nil_r. }
  destruct (run_wire _ _ _ _ _ _ _ Hz Hls Hw Hrun) as (_ & _ & _ & part & Hout & Hp & Ht). cbn [app] in *.
  destruct (runs_queues _ _ _ (run_runs _ _ _ _ Hrun)) as [_ [He _]].
  assert (exists rest, part ++ rest = wire_of (outChunkSize r) (current (send_at s))) as [rest Hrest].
  { destruct (send_at s) as [| | | |m sent| |]; simpl in Hp; try (subst part; by exists []).
    unfold wire_of. cbn [current List.map concat]. rewrite app_nil_r.
    destruct Hp as [[_ ->]|(d & todo & _ & _ & _ & Hp)]; eauto. }
  exists part, rest. split; [done|]. split; [done|]. by rewrite He, Ht, <- app_assoc.
Qed.

(** ** Properties *)

(** C12. The running system does not panic, whatever the peer sends, in whatever
    segments, and in whatever way the goroutines and the calls of the user are
    interleaved, as long as the packets that are sent are valid and no receiving job
    has failed: the only panics left are a second [Destroy] and the record of a
    [connect] or [createStream] request, for which the map was never made.  Both
    halves of the protocol keep their invariants. *)
Theorem pump_safe n inp k r ls s t :
  recv_ok r -> feed n (mkview k [] inp) (buffer r) -> out_ok r -> 0 <= outChunkSize r ->
  Forall label_ok ls -> run ls (start_message_pump_goroutines r) = Some (s, t) -> existsb failed_of t = false ->
  match crashed s with
  | None => recv_ok (proto s) /\ out_ok (proto s) /\ 0 <= outChunkSize (proto s)
  | Some p => p = CloseOfClosedChannel \/ p = NilMapWrite
  end.
Proof.
  intros Hr Hf Ho Hz Hls Hrun Ht.
  assert (safe_sys (start_message_pump_goroutines r)) as Hs.
  { split; [apply start_ok|]. apply calm_live; [done|].
    split; [done|]. split; [done|]. split; [|done]. split; [done|]. by exists n, k, inp. }
  destruct (run_safe _ _ _ _ Hs Hls Hrun Ht) as [_ Hc]. unfold calm, live, at_chunk, user_panic in Hc.
  destruct (crashed s); [done|]. tauto.
Qed.

Lemma pump_safe_witness :
  match run audio_schedule audio_system with
  | Some (s, t) =>
      match crashed s with
      | None => recv_ok (proto s) /\ out_ok (proto s) /\ 0 <= outChunkSize (proto s)
      | Some p => p = CloseOfClosedChannel \/ p = NilMapWrite
      end
  | None => False
  end.
Proof.
  destruct (run audio_schedule audio_system) as [[s t]|] eqn:H; [|vm_compute in H; discriminate].
  apply (pump_safe (mkNet EOF [] []) (rx_bytes audio_conn) 0 (NewProtocol audio_conn) audio_schedule s t);
    [apply NewProtocol_recv_ok|apply (NewProtocol_feed audio_conn); repeat constructor; discriminate
    |apply NewProtocol_out_ok|done|repeat constructor|exact H|vm_compute in H; by injection H as _ <-].
Defined.

(** C9. The bytes on the wire: on a connection that takes every write, with a positive
    chunk size that nobody changes ([SetChunkSize] is not sent), the connection has
    got, in every interleaving, the chunks of the messages that were sent, as
    [send_message] cuts them, one message behind the other in the order in which the
    user sent them, and a beginning of the chunks of the message that is being sent;
    the rest of the messages wait in the queue. *)
Theorem pump_wire r ls s t tx0 :
  out_ok r -> 0 < outChunkSize r -> conn_out (buffer r) = Some (tx0, []) ->
  Forall label_keeps ls -> run ls (start_message_pump_goroutines r) = Some (s, t) ->
  exists part rest,
    conn_out (buffer (proto s)) = Some (tx0 ++ wire_of (outChunkSize r) (msgs sent_of t) ++ part, [])
    /\ part ++ rest = wire_of (outChunkSize r) (current (send_at s))
    /\ msgs enqueued_of t = msgs sent_of t ++ current (send_at s) ++ ch_buf (msg_out_queue s).
Proof. apply run_on_wire. Qed.

Lemma pump_wire_witness :
  match run audio_schedule audio_system with
  | Some (s, t) =>
      msgs sent_of t = [sample_message] /\
      exists part rest,
        conn_out (buffer (proto s)) = Some ([] ++ wire_of 128 (msgs sent_of t) ++ part, [])
        /\ part ++ rest = wire_of 128 (current (send_at s))
        /\ msgs enqueued_of t = msgs sent_of t ++ current (send_at s) ++ ch_buf (msg_out_queue s)
  | None => False
  end.
Proof.
  destruct (run audio_schedule audio_system) as [[s t]|] eqn:H; [|vm_compute in H; discriminate].
  split; [vm_compute in H; by injection H as _ <-|].
  apply (pump_wire (NewProtocol audio_conn) audio_schedule s t []);
    [apply NewProtocol_out_ok|done|done|repeat constructor|exact H].
Defined.

(** A peer that changes the length of a message in the middle of it, which the
    receiving job refuses, and goes on with the message. *)
Definition bad_conn : TCPConn :=
  mkTCPConn
    [[Byte.x04; Byte.x00; Byte.x00; Byte.x00; Byte.x00; Byte.x00; Byte.xc8; Byte.x09; Byte.x01; Byte.x00; Byte.x00; Byte.x00]
       ++ make_bytes 128;
     [Byte.x44; Byte.x00; Byte.x00; Byte.x00; Byte.x00; Byte.x01; Byte.x2c];
     [Byte.xc4] ++ make_bytes 128] EOF [] [].

Definition lost_schedule : list label :=
  LSendMessage (Some sample_message) 1 :: replicate 4 LSend ++ replicate 10 LRecv ++ replicate 5 LSend ++ replicate 4 LRecv.

(** An error can get lost: [msg_io_err] is assigned by both goroutines under
    different locks, so a sending job that ends well overwrites the error of a
    receiving job with nil.  In the run below the receiving goroutine refuses a
    message whose length changes, its error is overwritten when the sending
    goroutine has finished its message, and the receiving goroutine goes on with
    the state it had refused: the next chunk makes it panic, and with it the
    program. *)
Theorem lost_error :
  match run lost_schedule (start_message_pump_goroutines (NewProtocol bad_conn)) with
  | Some (s, t) =>
      existsb failed_of t = true /\ msg_io_err s = None /\ crashed s = Some SliceBoundsOutOfRange
  | None => False
  end.
Proof. vm_compute. done. Qed.

(** A user that sends a message and then makes the chunks larger. *)
Definition resize_schedule : list label :=
  LSendMessage (Some sample_message) 1
  :: LSendPacket (mkAny SetChunkSizePacket _ (mkSetChunkSize 4096)) 0 :: LAfterSend 0 :: replicate 14 LSend.

(** A new chunk size overtakes the messages that wait: [SendPacket] sets
    [outChunkSize] when the [SetChunkSize] message is queued, not when it is sent.
    In the run below the message queued before it goes out in one chunk of 300
    bytes, and a receiver, which still expects chunks of 128, gets neither of the
    two messages out of what was sent. *)
Theorem resize_race :
  match run resize_schedule (start_message_pump_goroutines (NewProtocol (mkTCPConn [] EOF [] []))) with
  | Some (s, t) =>
      List.map Payload (msgs sent_of t) = [Some (make_bytes 300); Some (be_bytes 4 4096)]
      /\ match conn_out (buffer (proto s)) with
         | Some (w, _) => (recv_loop (S (List.length w)) (NewProtocol (mkTCPConn [w] EOF [] []))).1 = Ret ([], EOF)
         | None => False
         end
  | None => False
  end.
Proof. vm_compute. done. Qed.
