(* ===== verification/Delivery.v ===== *)
(** * The goroutines on the connection: the messages of the peer reach the user

    The counterpart of the bytes on the wire of [Pump]: what [Reassembly] shows of
    [recv_interlaced_message] is carried through every interleaving of the
    goroutines and the calls of the user, up to the return of [RecvMessage]. *)

From Stdlib Require Import ZArith Lia Strings.Byte.
From stdpp Require Import base tactics list gmap.
From S2P Require Import Prelude Constants HPBuffer Socket Buffer Messages Packets PacketsFacts Protocol ChunkSend Feed ChunkRecv Reassembly Control Goroutines Frame Locks Pump.
Open Scope Z_scope.

#[local] Arguments recv_job : simpl never.
#[local] Arguments send_round : simpl never.
#[local] Arguments zlen : simpl never.

(** ** A round of the goroutine on arriving chunks *)

(** The chunks [l] arrive next, and nothing behind them. *)
Definition arriving (l : list (list byte * option Message)) (r : protocol) : Prop :=
  exists P n k, interleaved (inChunkSize r) P l /\ tracks P r
    /\ feed n (mkview k [] (concat (List.map fst l))) (buffer r).

(** The messages the goroutine queues for them: those with a payload. *)
Definition kept (l : list (list byte * option Message)) : list Message :=
  List.filter (fun m => 0 <? zlen (payload_of m)) (somes (List.map snd l)).

(** A message that is not for the protocol itself. *)
Definition not_control (m : Message) : Prop :=
  MessageHeader_IsSetChunkSize (Header m) || MessageHeader_IsUserControlMessage (Header m)
  || MessageHeader_IsWindowAcknowledgementSize (Header m) = false.

Lemma on_recv_not_control m r : not_control m -> on_recv_message m r = (Ret tt, r).
Proof.
  unfold not_control, on_recv_message, bind, get. intros ->. by destruct (AckWindowSize_ShouldAckRead _ _).
Qed.

Lemma payload_delivered msg : payload_of (delivered msg) = payload_of msg.
Proof.
  unfold payload_of at 1, delivered. cbn [Payload]. destruct (Z.eqb_spec (zlen (payload_of msg)) 0) as [H|H]; [|done].
  by rewrite (zlen_0_nil (payload_of msg)) by lia.
Qed.

Lemma recv_job_arriving c o l r :
  0 < inChunkSize r -> arriving ((c, o) :: l) r -> Forall not_control (kept ((c, o) :: l)) ->
  exists o' r', recv_job r = (Ret o', r') /\ arriving l r'
    /\ kept ((c, o) :: l) = match o' with Some m => [m] | None => [] end ++ kept l.
Proof.
  intros Hpos (P & n & k & Hl & HT & Hf) Hnc. cbn [List.map fst concat] in Hf.
  destruct (recv_one _ _ _ _ _ _ _ _ Hl HT Hpos Hf) as (P' & b' & cid & ch & k' & He & Hl' & HT' & Hf' & Hm).
  assert (arriving l (step_to r b' cid ch)) as Ha by (by exists P', n, k').
  unfold recv_job. rewrite (bind_Ret _ _ _ _ _ He). destruct o as [m|]; [|by exists None, (step_to r b' cid ch)].
  destruct (Hm m eq_refl) as (msg & (_ & HL & _) & ->). unfold kept in *. cbn [List.map snd somes List.filter] in *.
  rewrite payload_delivered in *. cbn [delivered ReceivedPayloadLength Header recv_header PayloadLength].
  pose proof (zlen_nonneg (payload_of msg)). destruct (Z.ltb_spec 0 (zlen (payload_of msg))) as [Hlt|Hge].
  - rewrite (proj2 (Z.leb_gt _ _)) by done. rewrite (proj2 (Z.leb_gt _ _)) by (cbn; lia). cbn [orb].
    apply Forall_cons in Hnc as [Hnc _]. rewrite (bind_Ret _ _ _ _ _ (on_recv_not_control _ _ Hnc)).
    by exists (Some (delivered msg)), (step_to r b' cid ch).
  - rewrite (proj2 (Z.leb_le _ _)) by lia. by exists None, (step_to r b' cid ch).
Qed.

Lemma recv_job_used_up r : recv_ok r -> arriving [] r -> exists e r', recv_job r = (Fail e, r').
Proof.
  intros Hr (P & n & k & _ & _ & Hf). destruct (recv_job_step n _ k r Hr Hf) as (o & r' & He & Ho).
  destruct o as [msg|e| |]; [|by exists e, r'|done..].
  destruct Ho as (_ & _ & (bs & inp' & _ & Hb & H1 & _) & _).
  symmetry in Hb. apply app_nil in Hb as [-> _]. change (zlen (@nil byte)) with 0 in H1. lia.
Qed.

(** ** Every interleaving *)

(** The input half is as it was. *)
Definition same_input (r r' : protocol) : Prop :=
  chunkStreams r' = chunkStreams r /\ inChunkSize r' = inChunkSize r
  /\ forall n v, feed n v (buffer r) -> exists n', feed n' v (buffer r').

Lemma same_input_refl r : same_input r r.
Proof. split; [done|]. split; [done|]. eauto. Qed.

Lemma same_input_arriving l r r' : same_input r r' -> arriving l r -> arriving l r'.
Proof.
  intros (Hc & Hz & Hb) (P & n & k & Hl & HT & Hf). destruct (Hb _ _ Hf) as [n' Hf'].
  exists P, n', k. rewrite Hz. split; [done|]. split; [|done]. unfold tracks, chunk_of in *. by rewrite Hc.
Qed.

Lemma sent_same_input w r r' : sent_by w r r' -> same_input r r'.
Proof.
  intros Hs. destruct (Hs) as (_ & H2 & H3 & _). split; [done|]. split; [done|]. intros n v. by apply (sent_feed w).
Qed.

Lemma same_io_input r r' : same_io r r' -> same_input r r'.
Proof. intros (H1 & H2 & H3 & _). split; [done|]. split; [done|]. rewrite H2. eauto. Qed.

(** A step that is not one of the receiving goroutine. *)
Definition aside (s s' : system) (es : list event) : Prop :=
  same_input (proto s) (proto s') /\ recv_at s' = recv_at s /\ msgs put_of es = [].

Lemma aside_proto s s' es :
  proto s' = proto s -> recv_at s' = recv_at s -> msgs put_of es = [] -> aside s s' es.
Proof. intros Hp Hr He. split; [rewrite Hp; apply same_input_refl|done]. Qed.

Lemma send_step_aside s s' es : live s -> send_step s = Some (s', es) -> aside s s' es.
Proof.
  intros (Ho & Hz & _ & Hs & _). unfold send_step.
  destruct (send_at s) as [| | | |m sent| |] eqn:Hpc;
    try (repeat (case_match; try discriminate); intros [= <- <-]; by apply aside_proto).
  destruct (Z.ltb_spec sent (zlen (payload_of m))) as [Hlt|]; [|by intros [= <- <-]; apply aside_proto].
  destruct (send_round_safe m sent (proto s)) as (w & o & r' & k & He & Hsent & Hout); [done|done|done|by left|].
  rewrite He. apply sent_same_input in Hsent. destruct o as [n|e| |]; try done; by intros [= <- <-].
Qed.

Lemma SendMessage_aside pkt sid s e s' es : SendMessage pkt sid s = Some (e, s', es) -> aside s s' es.
Proof. unfold SendMessage. repeat (case_match; try discriminate); intros [= <- <- <-]; by apply aside_proto. Qed.

Lemma destroy_body_aside s : aside s (destroy_body s) [].
Proof. unfold destroy_body. repeat (case_match; simplify_eq/=); by apply aside_proto. Qed.

Lemma after_send_aside i s s' es : live s -> after_send i s = Some (s', es) -> aside s s' es.
Proof.
  intros (_ & Hz & _ & _ & H5). unfold after_send. destruct (sent_packets s !! i) as [pkt|] eqn:Hi; [|done].
  pose proof (Forall_lookup_1 _ _ _ _ H5 Hi) as [_ Hp].
  destruct (on_send_message (ae_pkt pkt) (proto s)) as [o r'] eqn:He.
  apply (on_send_spec _ _ _ _ Hz Hp) in He as [[_ Hsame%same_io_input] _].
  destruct o as [[]|e|p|]; try done; by intros [= <- <-].
Qed.

Lemma step_aside l s s' es : live s -> l <> LRecv -> step l s = Some (s', es) -> aside s s' es.
Proof.
  intros Hl Hne. unfold step. destruct (crashed s); [done|]. destruct l; [done|..].
  - by apply send_step_aside.
  - unfold destroy_step. destruct (destroy_at s); try case_match; try discriminate; intros [= <- <-];
      (apply destroy_body_aside || by apply aside_proto).
  - destruct (SendMessage _ _ s) as [[[e s1] es1]|] eqn:Hm; [|done]. intros [= <- <-]. by eapply SendMessage_aside.
  - unfold SendPacket. destruct (EncodeMessage _) as [[cid m]|e|p|]; [|intros [= <- <-]; by apply aside_proto..|done].
    destruct (SendMessage _ _ s) as [[[[e|] s1] es1]|] eqn:Hm; [..|done]; intros [= <- <-];
      exact (SendMessage_aside _ _ _ _ _ _ Hm).
  - by apply after_send_aside.
  - unfold RecvMessage. repeat (case_match; try discriminate); intros [= <- <-]; by apply aside_proto.
Qed.

Lemma live_size s : live s -> 0 < inChunkSize (proto s).
Proof. intros (_ & _ & [[_ Hz] _] & _). unfold size_ok, RTMP_MIN_CHUNK_SIZE in Hz. lia. Qed.

(** The message that is about to be queued. *)
Definition pending (pc : recv_pc) : list Message := match pc with RPut m => [m] | _ => [] end.

Definition delivery (total : list Message) (t : list event) (s : system) : Prop :=
  exists l, arriving l (proto s) /\ Forall not_control (kept l)
    /\ msgs put_of t ++ pending (recv_at s) ++ kept l = total.

Lemma step_delivery total t l s s' es :
  live s -> delivery total t s -> step l s = Some (s', es) -> crashed s' = None -> existsb failed_of es = false ->
  delivery total (t ++ es) s'.
Proof.
  intros Hl (cs & Ha & Hnc & Htot) He Hc Hf. assert (l = LRecv \/ l <> LRecv) as [->|Hne] by (destruct l; auto).
  2: { destruct (step_aside _ _ _ _ Hl Hne He) as (Hi & Hr & Hes). exists cs.
       split; [by eapply same_input_arriving|]. by rewrite msgs_app, Hes, app_nil_r, Hr. }
  unfold step in He. destruct (crashed s); [done|]. unfold recv_step in He. unfold delivery. rewrite msgs_app.
  destruct (recv_at s) as [| | | |m|err|] eqn:Hpc.
  4: { pose proof Hl as (_ & _ & [Hr _] & _). destruct cs as [|[c o] cs].
       - destruct (recv_job_used_up _ Hr Ha) as (e & r' & Hj). rewrite Hj in He. injection He as <- <-. done.
       - pose proof (live_size _ Hl) as Hpos. destruct (recv_job_arriving _ _ _ _ Hpos Ha Hnc) as (o' & r' & Hj & Ha' & Hk). rewrite Hj in He.
         rewrite Hk in Hnc, Htot. apply Forall_app in Hnc as [_ Hnc]. exists cs.
         destruct o'; injection He as <- <-; rewrite app_nil_r; done. }
  4: { unfold chan_send in He. destruct (ch_closed _); [by injection He as <- <-|].
       destruct (_ <? _); [|done]. injection He as <- <-. exists cs.
       split; [done|]. split; [done|]. simpl in *. by rewrite <- app_assoc. }
  all: exists cs; repeat (case_match; try discriminate); simplify_eq/=; by rewrite ?app_nil_r.
Qed.

Lemma run_delivery total ls s s' t0 t :
  safe_sys s -> Forall label_ok ls -> delivery total t0 s -> run ls s = Some (s', t) -> crashed s' = None ->
  existsb failed_of t = false -> delivery total (t0 ++ t) s'.
Proof.
  revert s t0 t. induction ls as [|l ls IH]; intros s t0 t Hs Hok Hd; cbn [run].
  { intros [= <- <-]. by rewrite app_nil_r. }
  apply Forall_cons in Hok as [Hl Hok]. destruct (step l s) as [[s1 es]|] eqn:He; [|done].
  destruct (run ls s1) as [[s2 es']|] eqn:Hr; [|done]. intros [= <- <-] Hc Ht.
  rewrite existsb_app in Ht. apply orb_false_elim in Ht as [Ht1 Ht2].
  pose proof (step_not_crashed _ _ _ He) as Hc0. pose proof (proj2 Hs) as Hlive. unfold calm in Hlive. rewrite Hc0 in Hlive.
  rewrite app_assoc. eapply (IH s1); [by eapply step_safe|done| |done..].
  eapply step_delivery; try done. by eapply run_not_crashed.
Qed.

(** The messages of a whole run. *)
Lemma run_delivers n k l r ls s t :
  recv_ok r -> out_ok r -> 0 <= outChunkSize r -> idle r ->
  interleaved (inChunkSize r) ∅ l -> feed n (mkview k [] (concat (List.map fst l))) (buffer r) ->
  Forall not_control (kept l) -> Forall label_ok ls ->
  run ls (start_message_pump_goroutines r) = Some (s, t) -> crashed s = None -> existsb failed_of t = false ->
  (exists rest, msgs delivered_of t ++ ch_buf (msg_in_queue s) ++ rest = kept l)
  /\ (forall s' e, step LRecv s = Some (s', [ERecvFailed e]) ->
        msgs delivered_of t ++ ch_buf (msg_in_queue s) = kept l).
Proof.
  intros Hr Ho Hz Hi Hl Hf Hnc Hls Hrun Hc Ht.
  assert (safe_sys (start_message_pump_goroutines r)) as Hs.
  { split; [apply start_ok|]. apply calm_live; [done|].
    split; [done|]. split; [done|]. split; [|done]. split; [done|]. eauto. }
  assert (delivery (kept l) [] (start_message_pump_goroutines r)) as Hd.
  { exists l. split; [by exists ∅, n, k|]. done. }
  destruct (run_delivery _ _ _ _ _ _ Hs Hls Hd Hrun Hc Ht) as (cs & Ha & Hnc' & Htot).
  destruct (runs_queues _ _ _ (run_runs _ _ _ _ Hrun)) as [[He _] _]. cbn [app] in Htot.
  rewrite He, <- app_assoc in Htot. split; [by eexists|].
  intros s' e. unfold step, recv_step. rewrite Hc. destruct (recv_at s).
  4: { destruct cs as [|[c o] cs]; [intros _; by rewrite <- Htot, app_nil_r|].
       destruct (run_safe _ _ _ _ Hs Hls Hrun Ht) as [_ Hlive]. unfold calm in Hlive. rewrite Hc in Hlive.
       pose proof (live_size _ Hlive) as Hpos.
       destruct (recv_job_arriving _ _ _ _ Hpos Ha Hnc') as (o' & r' & Hj & _). rewrite Hj. by destruct o'. }
  all: by repeat (case_match; try discriminate).
Qed.

(** ** Properties *)


(** The two messages of [alternating], in two segments, and a user that takes the
    first one. *)
Definition delivery_schedule : list label := replicate 18 LRecv ++ [LRecvMessage].

