(* ===== verification/EndToEnd.v ===== *)
(** * Two running protocols, back to back

    What the user of one protocol sends, the user of the other receives: the
    composition of the bytes on the wire ([Pump]) with the delivery of the messages
    of the peer ([Delivery]), each for every schedule of its own goroutines. *)

From Stdlib Require Import ZArith Lia Strings.Byte.
From stdpp Require Import base tactics list gmap.
From S2P Require Import Prelude Constants HPBuffer Socket Buffer Messages Packets PacketsFacts Protocol ChunkSend Feed ChunkRecv Reassembly Control Goroutines Frame Locks Pump Delivery.
Open Scope Z_scope.

(** A message that goes through: not one of the protocol itself, with a payload. *)
Definition carried (m : Message) : Prop := sendable m /\ not_control (delivered m) /\ payload_of m <> [].

Lemma kept_traces size msgs :
  0 < size -> Forall carried msgs ->
  kept (concat (List.map (message_trace size) msgs)) = List.map delivered msgs.
Proof.
  intros Hs Hm. unfold kept. rewrite traces_yield by done.
  induction Hm as [|m msgs (_ & _ & Hp) _ IH]; [done|]. cbn [List.map List.filter].
  rewrite payload_delivered, (proj2 (Z.ltb_lt _ _)), IH; [done|]. destruct (payload_of m); [done|apply zlen_cons_lt].
Qed.

Lemma end_to_end_lemma connA connB lsA lsB sA tA sB tB w :
  tx connA = [] -> tx_script connA = [] -> Forall label_keeps lsA ->
  run lsA (start_message_pump_goroutines (NewProtocol connA)) = Some (sA, tA) ->
  current (send_at sA) = [] -> conn_out (buffer (proto sA)) = Some (w, []) ->
  Forall carried (msgs sent_of tA) ->
  rx_ok connB -> rx_bytes connB = w -> Forall label_ok lsB ->
  run lsB (start_message_pump_goroutines (NewProtocol connB)) = Some (sB, tB) ->
  crashed sB = None -> existsb failed_of tB = false ->
  msgs enqueued_of tA = msgs sent_of tA ++ ch_buf (msg_out_queue sA)
  /\ (exists rest, msgs delivered_of tB ++ ch_buf (msg_in_queue sB) ++ rest = List.map delivered (msgs sent_of tA))
  /\ (forall s' e, step LRecv sB = Some (s', [ERecvFailed e]) ->
        msgs delivered_of tB ++ ch_buf (msg_in_queue sB) = List.map delivered (msgs sent_of tA)).
Proof.
  intros Htx Hsc HlsA HrunA Hcur Hw Hm Hrx Hin HlsB HrunB Hc Hf.
  destruct (run_on_wire (NewProtocol connA) lsA sA tA []) as (part & rest & Hout & Hpart & Hq);
    [apply NewProtocol_out_ok|done|unfold conn_out; cbn; by rewrite Htx, Hsc|done|done|].
  rewrite Hcur in Hpart, Hq. apply app_nil in Hpart as [-> _]. split; [done|].
  rewrite Hw in Hout. injection Hout as Hout. rewrite app_nil_r in Hout. cbn [app] in Hout.
  rewrite <- (kept_traces RTMP_DEFAULT_CHUNK_SIZE) by done.
  assert (Forall sendable (msgs sent_of tA)) as Hsend by (eapply Forall_impl; [exact Hm|]; by intros ? []).
  eapply (run_delivers _ 0 _ (NewProtocol connB) lsB);
    [apply NewProtocol_recv_ok|apply NewProtocol_out_ok|done|apply NewProtocol_idle
    |by apply interleaved_messages| | |done..].
  - rewrite concat_traces. rewrite Hout in Hin. unfold wire_of in Hin. cbn [outChunkSize NewProtocol] in Hin.
    rewrite <- Hin. by apply NewProtocol_feed.
  - rewrite kept_traces by done. apply Forall_map. eapply Forall_impl; [exact Hm|]. by intros ? (_ & ? & _).
Qed.

(** C2. End to end over the running systems: a protocol [A] on a connection that
    takes every write, whose user does not change the chunk size and sends messages
    that the format can carry and that are not for the protocol itself ([carried]: a
    chunk stream id from 2 to 63, a timestamp other than 0xFFFFFF, the length of the
    payload in the header, a payload, no control message), and a protocol [B] that
    reads what [A] has written, in any segments, each with its own goroutines and
    schedule.  When [A] is between two messages, and no receiving job of [B] has
    failed, what [RecvMessage] has returned at [B] is the beginning of what the user
    of [A] has sent, in the same order, each message once and with its payload, type,
    stream and timestamp; [B] reports the end of its input only after it has queued
    all that [A] has sent. *)
Theorem end_to_end connA connB lsA lsB sA tA sB tB w :
  tx connA = [] -> tx_script connA = [] -> Forall label_keeps lsA ->
  run lsA (start_message_pump_goroutines (NewProtocol connA)) = Some (sA, tA) ->
  current (send_at sA) = [] -> conn_out (buffer (proto sA)) = Some (w, []) ->
  Forall carried (msgs sent_of tA) ->
  rx_ok connB -> rx_bytes connB = w -> Forall label_ok lsB ->
  run lsB (start_message_pump_goroutines (NewProtocol connB)) = Some (sB, tB) ->
  crashed sB = None -> existsb failed_of tB = false ->
  msgs enqueued_of tA = msgs sent_of tA ++ ch_buf (msg_out_queue sA)
  /\ (exists rest, msgs delivered_of tB ++ ch_buf (msg_in_queue sB) ++ rest = List.map delivered (msgs sent_of tA))
  /\ (forall s' e, step LRecv sB = Some (s', [ERecvFailed e]) ->
        msgs delivered_of tB ++ ch_buf (msg_in_queue sB) = List.map delivered (msgs sent_of tA)).
Proof. apply end_to_end_lemma. Qed.

(** One message from [A] to [B]. *)
Definition sender_schedule : list label := LSendMessage (Some video) 0 :: replicate 9 LSend.

Definition wire_conn : TCPConn :=
  let w := concat (message_chunks 128 video) in mkTCPConn [take 100 w; drop 100 w] EOF [] [].

Lemma end_to_end_witness :
  match run sender_schedule (start_message_pump_goroutines (NewProtocol (mkTCPConn [] EOF [] []))),
        run (replicate 12 LRecv ++ [LRecvMessage]) (start_message_pump_goroutines (NewProtocol wire_conn)) with
  | Some (sA, tA), Some (sB, tB) =>
      (msgs sent_of tA = [video] /\ msgs delivered_of tB = [delivered video])
      /\ msgs enqueued_of tA = msgs sent_of tA ++ ch_buf (msg_out_queue sA)
      /\ (exists rest, msgs delivered_of tB ++ ch_buf (msg_in_queue sB) ++ rest = List.map delivered (msgs sent_of tA))
      /\ (forall s' e, step LRecv sB = Some (s', [ERecvFailed e]) ->
            msgs delivered_of tB ++ ch_buf (msg_in_queue sB) = List.map delivered (msgs sent_of tA))
  | _, _ => False
  end.
Proof.
  destruct (run sender_schedule _) as [[sA tA]|] eqn:HA; [|vm_compute in HA; discriminate].
  destruct (run (replicate 12 LRecv ++ [LRecvMessage]) _) as [[sB tB]|] eqn:HB; [|vm_compute in HB; discriminate].
  assert (msgs sent_of tA = [video]) as Hsent by (vm_compute in HA; by injection HA as _ <-).
  split; [split; [exact Hsent|vm_compute in HB; by injection HB as _ <-]|].
  apply (end_to_end (mkTCPConn [] EOF [] []) wire_conn sender_schedule (replicate 12 LRecv ++ [LRecvMessage])
           sA tA sB tB (rx_bytes wire_conn));
    [done|done|by repeat constructor|exact HA|vm_compute in HA; by injection HA as <- _
    |vm_compute in HA; by injection HA as <- _|rewrite Hsent; repeat constructor; [apply video_sendable..|done]
    |repeat constructor; discriminate|done|by repeat constructor|exact HB
    |vm_compute in HB; by injection HB as <- _|vm_compute in HB; by injection HB as _ <-].
Defined.

(** ** Packets *)

(** The encoders of the commands that [SendPacket] sends without a panic and a peer
    decodes: [SendPacket] of [connect] and [createStream] records the request in a map
    that [NewProtocol] does not make. *)
Definition encoder_of (p : packet) : option any_encoder :=
  match p with
  | PPlay p => Some (mkAny _ _ p)
  | PPublish p => Some (mkAny _ _ p)
  | _ => None
  end.

(** A call that sends, and the message it queues. *)
Definition is_send (l : label) : bool :=
  match l with LSendMessage _ _ | LSendPacket _ _ => true | _ => false end.

Definition queued_by (l : label) : list Message :=
  match l with
  | LSendMessage (Some m) stream_id => [set_stream stream_id m]
  | LSendPacket pkt stream_id =>
      match EncodeMessage (ae_pkt pkt) with
      | Ret (cid, msg) => [set_stream stream_id (set_PerferCid cid msg)]
      | _ => []
      end
  | _ => []
  end.

Lemma SendMessage_queued pkt sid s e s' es :
  ch_closed (msg_out_queue s) = false -> SendMessage pkt sid s = Some (e, s', es) ->
  ch_closed (msg_out_queue s') = false /\ msgs enqueued_of es = match pkt with Some m => [set_stream sid m] | None => [] end.
Proof.
  intros Hq. unfold SendMessage, chan_send. rewrite Hq. destruct pkt as [m|]; [|by intros [= <- <- <-]].
  destruct (_ <? _); [|done]. by intros [= <- <- <-].
Qed.

(** What is queued for sending is what the calls say, in every schedule without [Destroy]. *)
Lemma step_queued l s s' es :
  l <> LDestroy -> ch_closed (msg_out_queue s) = false -> step l s = Some (s', es) ->
  ch_closed (msg_out_queue s') = false /\ msgs enqueued_of es = queued_by l.
Proof.
  intros Hl Hq. unfold step. destruct (crashed s); [done|]. destruct l; [..|done| | | |]; cbn [queued_by].
  - unfold recv_step. repeat (case_match; try discriminate); by intros [= <- <-].
  - unfold send_step, chan_recv. repeat (case_match; try discriminate); intros; by simplify_eq/=.
  - destruct (SendMessage _ _ s) as [[[e s1] es1]|] eqn:Hm; [|done]. intros [= <- <-].
    by destruct (SendMessage_queued _ _ _ _ _ _ Hq Hm).
  - unfold SendPacket. destruct (EncodeMessage _) as [[cid m]|e|p|]; [|by intros [= <- <-]..|done].
    destruct (SendMessage _ _ s) as [[[[e|] s1] es1]|] eqn:Hm; [..|done]; intros [= <- <-];
      by destruct (SendMessage_queued _ _ _ _ _ _ Hq Hm).
  - unfold after_send. repeat (case_match; try discriminate); by intros [= <- <-].
  - unfold RecvMessage. repeat (case_match; try discriminate); by intros [= <- <-].
Qed.

Lemma run_queued ls s s' t :
  Forall (fun l => l <> LDestroy) ls -> ch_closed (msg_out_queue s) = false -> run ls s = Some (s', t) ->
  msgs enqueued_of t = flat_map queued_by (List.filter is_send ls).
Proof.
  intros Hls. revert s t. induction Hls as [|l ls Hl _ IH]; intros s t Hq; cbn [run]; [by intros [= <- <-]|].
  destruct (step l s) as [[s1 es]|] eqn:He; [|done]. destruct (run ls s1) as [[s2 es']|] eqn:Hr; [|done].
  intros [= <- <-]. destruct (step_queued _ _ _ _ Hl Hq He) as [Hq1 Hes].
  rewrite msgs_app, Hes, (IH s1 es') by done. cbn [List.filter]. by destruct l.
Qed.

(** A packet that can be sent on a stream: its encoding fits a message. *)
Definition packet_sendable (x : packet * Z) : Prop :=
  packet_ok x.1 /\ zlen (packet_wire x.1) < 2 ^ 24 /\ 0 <= x.2 < 2 ^ 32.

Definition sends_packet (l : label) (x : packet * Z) : Prop :=
  exists e, encoder_of x.1 = Some e /\ l = LSendPacket e x.2.

(** The message of a packet: what it is on the wire, and what it decodes to. *)
Lemma queued_packet {P} `{RoundTrip P} (inj : P -> packet) (p : P) sid :
  faithful p -> GetMessageType p = RTMP_MSG_AMF0CommandMessage -> packet_type (inj p) = RTMP_MSG_AMF0CommandMessage ->
  packet_wire (inj p) = wire p -> packet_sendable (inj p, sid) ->
  exists m, queued_by (LSendPacket (mkAny P _ p) sid) = [m] /\ carried m
    /\ forall reqs, DecodeMessage reqs (Some (delivered m)) = Ret (Some (inj p)).
Proof.
  intros Hf Ht Hpt Hpw (Hok & Hlen & Hsid). cbn [fst snd] in *. rewrite Hpw in Hlen.
  pose proof (faithful_valid p Hf) as Hv. pose proof (wire_pos p Hv) as Hpos.
  cbn [queued_by ae_pkt ae_type ae_encoder]. rewrite (EncodeMessage_message p Hv). eexists. split; [done|].
  set (m := set_stream sid _).
  assert (payload_of m = wire p /\ PerferCid m = GetPerferCid p /\ Timestamp (Header m) = 0
    /\ MessageType (Header m) = RTMP_MSG_AMF0CommandMessage /\ PayloadLength (Header m) = zlen (wire p)
    /\ 0 <= StreamId (Header m) < 2 ^ 32) as (K1 & K2 & K3 & K4 & K5 & K6).
  { unfold m, set_stream, message_of. rewrite Ht. unfold to_uint. rewrite Z.mod_small by lia.
    destruct (0 <? sid); simpl; split_and!; try done; lia. }
  split.
  - unfold carried, sendable, hdr_sendable. rewrite K1, K2, K3, K5. pose proof (cid_range p).
    split_and!; try done; try lia.
    + unfold not_control, delivered, MessageHeader_IsSetChunkSize, MessageHeader_IsUserControlMessage,
        MessageHeader_IsWindowAcknowledgementSize, is_type. cbn [Header recv_header MessageType]. by rewrite K4.
    + intros Hn. rewrite Hn in Hpos. done.
  - intros reqs. unfold DecodeMessage, delivered. cbn [Payload Header]. rewrite K1, (proj2 (Z.eqb_neq _ _)) by lia.
    apply decode_command_packet; [done|done| |].
    + unfold is_command, MessageHeader_IsAmf0Command, is_type. cbn [recv_header MessageType]. by rewrite K4.
    + unfold command_payload, MessageHeader_IsAmf3Command, is_type. cbn [recv_header MessageType]. by rewrite K4, Hpw.
Qed.

Lemma queued_sends l x :
  sends_packet l x -> packet_sendable x ->
  exists m, queued_by l = [m] /\ carried m /\ forall reqs, DecodeMessage reqs (Some (delivered m)) = Ret (Some x.1).
Proof.
  destruct x as [p sid]. intros (e & He & ->) Hx. pose proof (proj1 Hx) as Hok. cbn [fst snd] in *.
  destruct p as [p|p|p|p|p|p|p|p|p]; try discriminate He; injection He as <-;
    [apply (queued_packet PPlay)|apply (queued_packet PPublish)]; done.
Qed.

Definition decodes_to (m : Message) (x : packet * Z) : Prop :=
  forall reqs, DecodeMessage reqs (Some m) = Ret (Some x.1).

Lemma queued_packets ls ps :
  Forall2 sends_packet ls ps -> Forall packet_sendable ps ->
  Forall carried (flat_map queued_by ls) /\ Forall2 decodes_to (List.map delivered (flat_map queued_by ls)) ps.
Proof.
  intros Hls Hps. induction Hls as [|l x ls ps Hl _ IH]; [done|].
  apply Forall_cons in Hps as [Hx Hps]. destruct (IH Hps) as [Hc Hd].
  destruct (queued_sends l x Hl Hx) as (m & Hm & Hcm & Hdm). cbn [flat_map]. rewrite Hm.
  split; by constructor.
Qed.

(** C3. Packets end to end, for [play] and [publish], the commands of the package that
    [SendPacket] sends on a new protocol and the peer decodes: whatever well-formed
    [play] and [publish] packets ([packet_ok], [packet_sendable]) the user of [A]
    sends with [SendPacket], among any other steps of its goroutines, on a connection
    that takes every write and without [Destroy], once they are written the messages
    that [RecvMessage] returns at [B], those in its queue and those still to come
    decode, one by one and in order, to exactly the packets that were sent, whatever
    requests [B] has on record, as long as no receiving job of [B] has failed. *)
Theorem packets_end_to_end connA connB lsA lsB sA tA sB tB ps :
  tx connA = [] -> tx_script connA = [] -> Forall label_keeps lsA -> Forall (fun l => l <> LDestroy) lsA ->
  Forall2 sends_packet (List.filter is_send lsA) ps -> Forall packet_sendable ps ->
  run lsA (start_message_pump_goroutines (NewProtocol connA)) = Some (sA, tA) ->
  current (send_at sA) = [] -> ch_buf (msg_out_queue sA) = [] ->
  rx_ok connB -> conn_out (buffer (proto sA)) = Some (rx_bytes connB, []) -> Forall label_ok lsB ->
  run lsB (start_message_pump_goroutines (NewProtocol connB)) = Some (sB, tB) ->
  crashed sB = None -> existsb failed_of tB = false ->
  exists rest, Forall2 decodes_to (msgs delivered_of tB ++ ch_buf (msg_in_queue sB) ++ rest) ps.
Proof.
  intros Htx Hsc HlsA Hnd Hps Hok HrunA Hcur Hq Hrx Hw HlsB HrunB Hc Hf.
  destruct (queued_packets _ _ Hps Hok) as [Hcar Hdec].
  pose proof (run_queued lsA (start_message_pump_goroutines (NewProtocol connA)) _ _ Hnd eq_refl HrunA) as Henq.
  destruct (run_on_wire (NewProtocol connA) lsA sA tA []) as (part & rest' & _ & _ & Hsent);
    [apply NewProtocol_out_ok|done|unfold conn_out; cbn; by rewrite Htx, Hsc|done|done|].
  rewrite Hcur, Hq, !app_nil_r, Henq in Hsent.
  destruct (end_to_end_lemma connA connB lsA lsB sA tA sB tB (rx_bytes connB)) as (_ & [rest Hrest] & _);
    try done; [by rewrite <- Hsent|].
  exists rest. by rewrite Hrest, <- Hsent.
Qed.

(** A client that sends [play] on stream 1, and the server that receives it. *)
Definition play_label : label :=
  match encoder_of sample_play with Some e => LSendPacket e 1 | None => LDestroy end.

Definition play_schedule : list label := play_label :: replicate 8 LSend.

Definition play_conn : TCPConn :=
  mkTCPConn [concat (List.map (fun m => concat (message_chunks 128 m)) (queued_by play_label))] EOF [] [].

Lemma play_sendable : packet_sendable (sample_play, 1).
Proof.
  assert (packet_ok sample_play) as Hok by (repeat split; try done; by left). split; [exact Hok|].
  split; [by vm_compute|done].
Qed.

Lemma packets_end_to_end_witness :
  match run play_schedule (start_message_pump_goroutines (NewProtocol (mkTCPConn [] EOF [] []))),
        run (replicate 6 LRecv ++ [LRecvMessage]) (start_message_pump_goroutines (NewProtocol play_conn)) with
  | Some (sA, tA), Some (sB, tB) =>
      (exists m, msgs delivered_of tB = [m])
      /\ exists rest, Forall2 decodes_to (msgs delivered_of tB ++ ch_buf (msg_in_queue sB) ++ rest) [(sample_play, 1)]
  | _, _ => False
  end.
Proof.
  assert (option_map (fun x => (current (send_at x.1), ch_buf (msg_out_queue x.1), conn_out (buffer (proto x.1))))
            (run play_schedule (start_message_pump_goroutines (NewProtocol (mkTCPConn [] EOF [] []))))
          = Some ([], [], Some (rx_bytes play_conn, []))) as HfA by (vm_compute; reflexivity).
  destruct (run play_schedule _) as [[sA tA]|] eqn:HA; [|discriminate HfA]. injection HfA as Hcur Hq Hout.
  destruct (run (replicate 6 LRecv ++ [LRecvMessage]) _) as [[sB tB]|] eqn:HB; [|vm_compute in HB; discriminate].
  split; [vm_compute in HB; injection HB as _ <-; by eexists|].
  apply (packets_end_to_end (mkTCPConn [] EOF [] []) play_conn play_schedule (replicate 6 LRecv ++ [LRecvMessage])
           sA tA sB tB [(sample_play, 1)]).
  - done.
  - done.
  - by repeat constructor.
  - repeat constructor; discriminate.
  - change (List.filter is_send play_schedule) with [play_label]. apply Forall2_cons_2; [|apply Forall2_nil_2].
    eexists. split; reflexivity.
  - constructor; [apply play_sendable|constructor].
  - exact HA.
  - exact Hcur.
  - exact Hq.
  - constructor; [|constructor]. by vm_compute.
  - exact Hout.
  - by repeat constructor.
  - exact HB.
  - vm_compute in HB. by injection HB as <- _.
  - vm_compute in HB. by injection HB as _ <-.
Defined.
