(* ===== verification/Inputs.v ===== *)
(** * Receiving depends on the receiving half of the protocol only

    [respects f m]: two states that agree on the part [f] give the same outcome of
    [m] and agree on [f] behind it.  Receiving a chunk looks at the input buffer,
    the chunk streams, the sizes and the reading side of the connection; what the
    sending goroutine does to the rest of the protocol in between makes no
    difference.  With [Frame], which shows the other direction, the two goroutines
    do not interfere although they share the protocol. *)

From Stdlib Require Import ZArith Lia Strings.Byte.
From stdpp Require Import base tactics list gmap.
From S2P Require Import Prelude Constants HPBuffer Socket Buffer Messages Packets Protocol ChunkSend Control.
Open Scope Z_scope.

Definition respects {S T A} (f : S -> T) (m : M S A) : Prop :=
  forall s1 s2, f s1 = f s2 -> (m s1).1 = (m s2).1 /\ f (m s1).2 = f (m s2).2.

Create HintDb respect.

Section Respects.
Context {S T : Type} (f : S -> T).

Lemma respects_ret {A} (a : A) : respects f (ret a).
Proof. by intros s1 s2. Qed.

Lemma respects_fail {A} e : respects f (A := A) (fail e).
Proof. by intros s1 s2. Qed.

Lemma respects_panic {A} p : respects f (A := A) (gopanic p).
Proof. by intros s1 s2. Qed.

Lemma respects_fuel {A} : respects f (A := A) out_of_fuel.
Proof. by intros s1 s2. Qed.

Lemma respects_lift {A} (o : outcome A) : respects f (lift o).
Proof. by intros s1 s2. Qed.

Lemma respects_gets {A} (g : T -> A) : respects f (gets (fun s => g (f s))).
Proof. intros s1 s2 H. unfold gets. simpl. by rewrite H. Qed.

Lemma respects_modify g : (forall s1 s2, f s1 = f s2 -> f (g s1) = f (g s2)) -> respects f (modify g).
Proof. intros Hg s1 s2 H. split; [done|]. by apply Hg. Qed.

Lemma respects_bind {A B} (m : M S A) (k : A -> M S B) :
  respects f m -> (forall a, respects f (k a)) -> respects f (bind m k).
Proof.
  intros Hm Hk s1 s2 H. unfold bind. destruct (Hm s1 s2 H) as [Ho Hf].
  destruct (m s1) as [o1 s1'], (m s2) as [o2 s2']. simpl in *. subst o2. destruct o1; [|done..]. by apply Hk.
Qed.

(** A step that looks at the whole state, but uses of it what [f] shows. *)
Lemma respects_get {A} (k : S -> M S A) :
  (forall s, respects f (k s)) -> (forall s1 s2, f s1 = f s2 -> k s1 = k s2) -> respects f (bind get k).
Proof.
  intros Hk He s1 s2 H. change (bind get k s1) with (k s1 s1). change (bind get k s2) with (k s2 s2).
  rewrite (He s1 s2 H). by apply Hk.
Qed.

Lemma respects_if {A} (b : bool) (m1 m2 : M S A) :
  respects f m1 -> respects f m2 -> respects f (if b then m1 else m2).
Proof. by destruct b. Qed.

(** A step on a component that [f] shows through [g]. *)
Lemma respects_zoom {U V A} (view : S -> U) upd (g : U -> V) (m : M U A) :
  (forall s1 s2, f s1 = f s2 -> g (view s1) = g (view s2)) ->
  (forall s1 s2 u1 u2, f s1 = f s2 -> g u1 = g u2 -> f (upd u1 s1) = f (upd u2 s2)) ->
  respects g m -> respects f (zoom view upd m).
Proof.
  intros Hv Hu Hm s1 s2 H. unfold zoom. destruct (Hm _ _ (Hv _ _ H)) as [Ho Hg].
  destruct (m (view s1)) as [o1 u1], (m (view s2)) as [o2 u2]. simpl in *. split; [done|]. by apply Hu.
Qed.

End Respects.

#[export] Hint Resolve respects_ret respects_fail respects_panic respects_fuel respects_lift : respect.

(** Walk through a computation; what is left are its primitive steps. *)
Ltac respect :=
  repeat first
    [ progress auto with respect
    | apply respects_bind; [|intros ?]
    | apply respects_if
    | match goal with |- respects _ (match ?x with _ => _ end) => destruct x end ].

(** ** The buffer, with the reading side of its connection *)

Definition sock_in (s : Socket) := (rx (sk_conn s), rx_err (sk_conn s), recv_bytes s).

Definition buf_in (b : Buffer) := (bf_buf b, option_map sock_in (bf_conn b)).

Lemma respects_Socket_Read size : respects sock_in (Socket_Read size).
Proof.
  intros [[rx1 err1 sc1 tx1] n1 k1] [[rx2 err2 sc2 tx2] n2 k2] [= -> -> ->].
  unfold Socket_Read, bind, with_conn, zoom, TCPConn_Read, modify, ret, fail. simpl.
  destruct rx2 as [|seg segs]; [done|]. destruct (zlen seg <=? size); by repeat (case_match; simplify_eq/=).
Qed.

Lemma respects_conn_Read : respects buf_in conn_Read.
Proof.
  intros [h1 c1] [h2 c2] [= -> Hc]. unfold conn_Read, buf_in. simpl in *.
  destruct c1 as [s1|], c2 as [s2|]; try done. injection Hc as Hc.
  destruct (respects_Socket_Read RTMP_SOCKET_READ_SIZE s1 s2) as [Ho Hs]; [unfold sock_in; congruence|].
  destruct (Socket_Read _ s1) as [o1 s1'], (Socket_Read _ s2) as [o2 s2']. simpl in *. split; [done|]. by rewrite Hs.
Qed.

Lemma respects_on_hp {A} (m : M HPBuffer A) : respects buf_in (on_hp m).
Proof.
  intros [h1 c1] [h2 c2] [= -> Hc]. unfold on_hp, zoom, buf_in. simpl. destruct (m h2) as [o h]. simpl.
  by unfold buf_in in *; rewrite Hc.
Qed.

#[export] Hint Resolve respects_conn_Read respects_on_hp : respect.

Lemma respects_Bytes : respects buf_in Buffer_Bytes.
Proof. intros [h1 c1] [h2 c2] [= -> Hc]. unfold Buffer_Bytes, buf_in. simpl. by rewrite Hc. Qed.

Lemma respects_Ensure_loop fuel n : respects buf_in (EnsureBufferBytes_loop fuel n).
Proof.
  induction fuel as [|fuel IH]; intros b1 b2 Hb; [by split|]. cbn [EnsureBufferBytes_loop].
  assert (bf_buf b1 = bf_buf b2) as -> by (by injection Hb). destruct (_ <? _); [|by split].
  refine (respects_bind buf_in conn_Read _ _ _ _ _ Hb); [|intros x]; respect.
Qed.

Lemma respects_Ensure n : respects buf_in (Buffer_EnsureBufferBytes n).
Proof.
  intros b1 b2 Hb. unfold Buffer_EnsureBufferBytes.
  assert (rx_left b1 = rx_left b2) as ->; [|by apply respects_Ensure_loop].
  destruct b1 as [h1 [s1|]], b2 as [h2 [s2|]]; try done; unfold rx_left, rx_bytes; simpl.
  unfold buf_in, sock_in in Hb. simpl in Hb. by injection Hb as _ -> _ _.
Qed.

Lemma respects_Skip n : respects buf_in (Buffer_Skip n).
Proof. apply respects_on_hp. Qed.

Lemma respects_Consume n : respects buf_in (Buffer_Consume n).
Proof. apply respects_on_hp. Qed.

#[export] Hint Resolve respects_Bytes respects_Ensure respects_Skip respects_Consume : respect.

Lemma respects_Read n : respects buf_in (Buffer_Read n).
Proof. unfold Buffer_Read. respect. Qed.

Lemma respects_ReadByte : respects buf_in Buffer_ReadByte.
Proof. unfold Buffer_ReadByte. respect. Qed.

Lemma respects_ReadUInt24 : respects buf_in Buffer_ReadUInt24.
Proof. unfold Buffer_ReadUInt24. respect. Qed.

Lemma respects_ReadUInt32 : respects buf_in Buffer_ReadUInt32.
Proof. unfold Buffer_ReadUInt32. respect. Qed.

Lemma respects_ReadUInt32Le : respects buf_in Buffer_ReadUInt32Le.
Proof. unfold Buffer_ReadUInt32Le. respect. Qed.

#[export] Hint Resolve respects_Read respects_ReadByte respects_ReadUInt24 respects_ReadUInt32 respects_ReadUInt32Le : respect.

Lemma respects_basic_header : respects buf_in read_basic_header.
Proof. unfold read_basic_header. respect. Qed.

(** ** The chunk stream beside the buffer *)

Definition chunk_in (s : Buffer * ChunkStream) := (buf_in s.1, s.2).

Lemma respects_on_buf {A} (m : M Buffer A) : respects buf_in m -> respects chunk_in (on_buf m).
Proof.
  intros Hm. apply (respects_zoom _ _ _ buf_in); [| |done]; unfold chunk_in.
  - intros s1 s2 H. by apply pair_equal_spec in H as [H _].
  - intros [b1 c1] [b2 c2] u1 u2 H Hu. apply pair_equal_spec in H as [_ H]. simpl in *. by rewrite Hu, H.
Qed.

Lemma respects_upd g : respects chunk_in (upd g).
Proof. apply respects_modify. intros [b1 c1] [b2 c2]. unfold chunk_in. simpl. congruence. Qed.

Lemma respects_the {A} (g : ChunkStream -> A) : respects chunk_in (the g).
Proof. exact (respects_gets chunk_in (fun s => g s.2)). Qed.

#[export] Hint Resolve respects_on_buf respects_upd respects_the : respect.

Lemma respects_header format : respects chunk_in (read_message_header format).
Proof. unfold read_message_header, read_header_fields, read_extended_timestamp, upd_header. respect. Qed.

Lemma respects_payload size bh mh : respects chunk_in (read_message_payload size bh mh).
Proof. unfold read_message_payload, the_msg. respect. Qed.

(** ** The protocol *)

(** All that receiving depends on. *)
Definition in_half (r : protocol) :=
  (requests r, chunkStreams r, inChunkSize r, inAckSize r, buf_in (buffer r)).

Lemma respects_on_chunk {A} cid (m : M (Buffer * ChunkStream) A) : respects chunk_in m -> respects in_half (on_chunk cid m).
Proof.
  intros Hm r1 r2 H. unfold in_half in H. apply pair_equal_spec in H as [H Hb].
  apply pair_equal_spec in H as [H Ha]. apply pair_equal_spec in H as [H Hs]. apply pair_equal_spec in H as [Hq Hc].
  unfold on_chunk. rewrite Hc. set (c := match _ with Some c => c | None => _ end).
  destruct (Hm (buffer r1, c) (buffer r2, c)) as [Ho Hf]; [unfold chunk_in; simpl; by rewrite Hb|].
  destruct (m (buffer r1, c)) as [o1 [b1 c1]], (m (buffer r2, c)) as [o2 [b2 c2]].
  unfold chunk_in in Hf. simpl in *. apply pair_equal_spec in Hf as [Hf ->]. split; [done|].
  unfold in_half. simpl. by rewrite Hq, Hs, Ha, Hf.
Qed.

Lemma respects_recv : respects in_half recv_interlaced_message.
Proof.
  unfold recv_interlaced_message. apply respects_bind.
  - apply (respects_zoom _ _ _ buf_in); [|unfold in_half; simpl; intros; congruence|apply respects_basic_header].
    intros r1 r2. unfold in_half. congruence.
  - intros [[format cid] bh]. apply respects_bind; [apply respects_on_chunk, respects_header|intros mh].
    apply respects_bind; [exact (respects_gets in_half (fun s => s.1.1.2))|intros size].
    apply respects_bind; [apply respects_on_chunk, respects_payload|respect].
Qed.

Lemma in_half_control r1 r2 :
  in_half r1 = in_half r2 ->
  requests r1 = requests r2 /\ inAckSize r1 = inAckSize r2 /\ conn_RecvBytes r1 = conn_RecvBytes r2.
Proof.
  unfold in_half, buf_in, sock_in, conn_RecvBytes. intros H. split; [congruence|]. split; [congruence|].
  destruct (bf_conn (buffer r1)), (bf_conn (buffer r2)); simpl in H; try congruence. unfold Socket_RecvBytes. congruence.
Qed.

Lemma respects_on_recv_message m : respects in_half (on_recv_message m).
Proof.
  unfold on_recv_message, response_acknowledgement_message. apply respects_get.
  - intros r. respect; apply respects_modify; unfold in_half; simpl; intros; congruence.
  - intros r1 r2 H. destruct (in_half_control _ _ H) as (Hq & Ha & Hb). by rewrite Hb, Ha, Hq.
Qed.

#[export] Hint Resolve respects_recv respects_on_recv_message : respect.

Lemma respects_recv_job : respects in_half recv_job.
Proof. unfold recv_job. respect. Qed.

(** The whole loop: what is still to be received is settled by the receiving half. *)
Lemma respects_recv_loop fuel : respects in_half (recv_loop fuel).
Proof.
  induction fuel as [|fuel IH]; [respect|]. intros r1 r2 H. cbn [recv_loop].
  destruct (respects_recv_job r1 r2 H) as [Ho Hf].
  destruct (recv_job r1) as [o1 r1'], (recv_job r2) as [o2 r2']. simpl in *. subst o2. destruct o1; [|by split..].
  refine (respects_bind in_half (recv_loop fuel) _ IH _ _ _ Hf). intros x. respect.
Qed.

(** Sending keeps it. *)
Lemma sent_in_half w r r' : sent_by w r r' -> in_half r' = in_half r.
Proof.
  intros (H1 & H2 & H3 & H4 & _ & H6 & (s & s' & Hs & Hs' & _ & Hrx & Herr & Hn) & _).
  unfold in_half, buf_in. rewrite H1, H2, H3, H4, H6, Hs, Hs'. simpl. unfold sock_in. by rewrite Hrx, Herr, Hn.
Qed.
