(* ===== verification/Session.v ===== *)
(** * The interface [Protocol] of messages.go, and the protocol as its user sees it

    [Protocol] is what the server uses of the interface of the same name, over a
    state [S]; [LawfulProtocol] states what it may rely on: messages come one by
    one from an inbox, and packets are queued one by one in an outbox as the
    messages [EncodeMessage] makes of them.

    [session] is the implementation a single user of protocol.go sees: the
    messages that [RecvMessage] will return, in their order, and the error
    behind them, which it returns once the queue is closed (until then the running
    system waits, see [recv_waits] in [Locks]); the messages queued for sending.
    That the goroutines behind it implement the session is [Refine].

    [ExpectPacket] compares types with the package reflect: [fields] is the layout of
    each struct (the argument points to one of the packets that are decoded, for which
    [CanSet] holds), two pointer types are convertible when the layouts are equal, and [Set] panics on a type that is
    not the same. *)

From Stdlib Require Import ZArith Lia Strings.Byte.
From stdpp Require Import base tactics list gmap.
From S2P Require Import Prelude Constants Socket Buffer Float64 Amf0 Messages Packets PacketsFacts Protocol ChunkSend.
Open Scope Z_scope.

(** ** Types, as reflect compares them *)

Inductive struct_type :=
| TConnectApp | TCreateStream | TPlay | TPublish | TCloseStream | TFMLEStart
| TSetWindowAckSize | TUserControl | TSetChunkSize.

#[export] Instance struct_type_eq_dec : EqDecision struct_type.
Proof. solve_decision. Defined.

Definition dynamic_type (p : packet) : struct_type :=
  match p with
  | PConnectApp _ => TConnectApp
  | PCreateStream _ => TCreateStream
  | PPlay _ => TPlay
  | PPublish _ => TPublish
  | PCloseStream _ => TCloseStream
  | PFMLEStart _ => TFMLEStart
  | PSetWindowAckSize _ => TSetWindowAckSize
  | PUserControl _ => TUserControl
  | PSetChunkSize _ => TSetChunkSize
  end.

Inductive field_type := Fstring | Ffloat64 | Fbool | Fuint16 | Fuint32 | FAmf0Any | FAmf0Object.

#[export] Instance field_type_eq_dec : EqDecision field_type.
Proof. solve_decision. Defined.

Definition command_fields : list (gostring * field_type) :=
  [(str "CommandName", Fstring); (str "TransactionId", Ffloat64); (str "CommandObject", FAmf0Any)].

(** The fields of the structs, in their order. *)
Definition fields (t : struct_type) : list (gostring * field_type) :=
  match t with
  | TConnectApp =>
      [(str "CommandName", Fstring); (str "TransactionId", Ffloat64); (str "CommandObject", FAmf0Object)]
  | TCreateStream => command_fields
  | TPlay => command_fields ++ [(str "StreamName", Fstring); (str "Start", Ffloat64); (str "Duration", Ffloat64);
                                (str "Reset", Fbool)]
  | TPublish => command_fields ++ [(str "StreamName", Fstring); (str "StreamType", Fstring)]
  | TCloseStream => command_fields
  | TFMLEStart => command_fields ++ [(str "StreamName", Fstring)]
  | TSetWindowAckSize => [(str "AcknowledgementWindowSize", Fuint32)]
  | TUserControl => [(str "EventType", Fuint16); (str "EventData", Fuint32); (str "ExtraData", Fuint32)]
  | TSetChunkSize => [(str "ChunkSize", Fuint32)]
  end.

(** [ConvertibleTo] between the pointer types of two structs. *)
Definition convertible (t t' : struct_type) : bool := bool_decide (fields t = fields t').

(** The argument of [ExpectPacket]: no pointer, a nil pointer, a [*T] or a [**T]. *)
Inductive target := NotPointer | NilPointer | ToValue (t : struct_type) | ToPointer (t : struct_type).

Definition target_type (v : target) : option struct_type :=
  match v with ToValue t | ToPointer t => Some t | _ => None end.

(** ** The interface *)

Class Protocol (S : Type) := {
  p_RecvMessage : M S Message;
  p_DecodeMessage : Message -> M S (option packet);
  p_ExpectPacket : target -> M S (Message * packet);
  p_SendPacket : forall P : Type, Encoder P -> P -> Z -> M S unit }.

Arguments p_SendPacket {S _ P _} _ _.

(** The message of a packet as it is queued. *)
Definition queued {P} `{LawfulEncoder P} (p : P) (stream_id : Z) : Message :=
  set_stream stream_id (set_PerferCid (GetPerferCid p) (message_of p)).

(** A packet that [on_send_message] does not record. *)
Definition plain {P} `{Encoder P} (p : P) : Prop := type_of p = SentOther.

(** A message that [ExpectPacket] drops. *)
Definition dropped (reqs : requests_map) (t : struct_type) (m : Message) : Prop :=
  exists o, DecodeMessage reqs (Some m) = Ret o /\ forall p, o = Some p -> convertible (dynamic_type p) t = false.

Class LawfulProtocol (S : Type) `{Protocol S} := {
  inbox : S -> list Message;
  outbox : S -> list Message;
  asked : S -> requests_map;
  is_open : S -> Prop;
  recv_next s m l : inbox s = m :: l ->
    exists s', p_RecvMessage s = (Ret m, s') /\ inbox s' = l /\ outbox s' = outbox s /\ asked s' = asked s
      /\ (is_open s -> is_open s');
  recv_last s : inbox s = [] -> exists e, p_RecvMessage s = (Fail e, s);
  decode_asked m s : p_DecodeMessage m s = (DecodeMessage (asked s) (Some m), s);
  expect_first t s skipped m l p :
    inbox s = skipped ++ m :: l -> Forall (dropped (asked s) t) skipped ->
    DecodeMessage (asked s) (Some m) = Ret (Some p) -> dynamic_type p = t ->
    exists s', p_ExpectPacket (ToPointer t) s = (Ret (m, p), s') /\ inbox s' = l /\ outbox s' = outbox s
      /\ asked s' = asked s /\ (is_open s -> is_open s');
  send_queued P (E : Encoder P) (L : LawfulEncoder P) (p : P) stream_id s :
    is_open s -> valid p -> plain p ->
    exists s', p_SendPacket p stream_id s = (Ret tt, s') /\ inbox s' = inbox s
      /\ outbox s' = outbox s ++ [queued p stream_id] /\ asked s' = asked s /\ is_open s' }.

(** ** The session *)

Record session := mkSession {
  ss_proto : protocol;
  ss_in : list Message;
  (* what RecvMessage returns behind the last message *)
  ss_end : error;
  ss_out : list Message;
  (* what SendMessage returns once the queue is closed *)
  ss_closed : option error }.

Definition session_RecvMessage : M session Message := fun s =>
  match ss_in s with
  | m :: l => (Ret m, mkSession (ss_proto s) l (ss_end s) (ss_out s) (ss_closed s))
  | [] => (Fail (ss_end s), s)
  end.

Definition session_DecodeMessage (msg : Message) : M session (option packet) := fun s =>
  (DecodeMessage (requests (ss_proto s)) (Some msg), s).

Definition session_SendMessage (pkt : option Message) (stream_id : Z) : M session unit := fun s =>
  match pkt with
  | None => (Fail (Error ERROR_GO_RTMP_NOT_SUPPORT_MSG (str "message not support send")), s)
  | Some msg =>
      let msg := set_stream stream_id msg in
      match ss_closed s with
      | Some e => (Fail e, s)
      | None => (Ret tt, mkSession (ss_proto s) (ss_in s) (ss_end s) (ss_out s ++ [msg]) None)
      end
  end.

Definition session_SendPacket (P : Type) (E : Encoder P) (pkt : P) (stream_id : Z) : M session unit :=
  let* '(cid, msg) := lift (EncodeMessage pkt) in
  do* session_SendMessage (Some (set_PerferCid cid msg)) stream_id in
  zoom ss_proto (fun r s => mkSession r (ss_in s) (ss_end s) (ss_out s) (ss_closed s)) (on_send_message pkt).

(** The loop of [ExpectPacket]; [None] is a packet to be passed over. *)
Definition assign (v : target) (pkt : packet) : option (outcome packet) :=
  match target_type v with
  | Some t =>
      if convertible (dynamic_type pkt) t then
        Some (if decide (dynamic_type pkt = t) then Ret pkt else Panic ReflectSet)
      else None
  | None => None
  end.

Fixpoint ExpectPacket_loop {S} (recv : M S Message) (decode : Message -> M S (option packet)) (fuel : nat)
    (v : target) : M S (Message * packet) :=
  match fuel with
  | O => out_of_fuel
  | Datatypes.S fuel =>
      let* msg := recv in
      let* pkt := decode msg in
      match pkt with
      | None => ExpectPacket_loop recv decode fuel v
      | Some pkt =>
          match assign v pkt with
          | Some o => let* pkt := lift o in ret (msg, pkt)
          | None => ExpectPacket_loop recv decode fuel v
          end
      end
  end.

(** The whole function, over a way to receive and to decode; [fuel] bounds the rounds. *)
Definition ExpectPacket {S} (recv : M S Message) (decode : Message -> M S (option packet)) (fuel : nat)
    (v : target) : M S (Message * packet) :=
  match v with
  | NotPointer => fail (Error ERROR_GO_REFLECT_PTR_REQUIRES (str "param must be ptr for expect message"))
  | NilPointer => fail (Error ERROR_GO_REFLECT_NEVER_NIL (str "param should never be nil"))
  | _ => ExpectPacket_loop recv decode fuel v
  end.

(** One round per message and one for the error at the end. *)
Definition session_ExpectPacket (v : target) : M session (Message * packet) := fun s =>
  ExpectPacket session_RecvMessage session_DecodeMessage (S (List.length (ss_in s))) v s.

Abbreviation session_loop := (ExpectPacket_loop session_RecvMessage session_DecodeMessage).

#[export] Instance session_Protocol : Protocol session := {|
  p_RecvMessage := session_RecvMessage;
  p_DecodeMessage := session_DecodeMessage;
  p_ExpectPacket := session_ExpectPacket;
  p_SendPacket := session_SendPacket |}.

Lemma convertible_refl t : convertible t t = true.
Proof. by destruct t. Qed.

(** The first message that is not dropped decides: its packet is returned when it is
    of the type asked for, and [Set] panics otherwise. *)
Lemma ExpectPacket_loop_stops fuel v t pr skipped m l e out c p :
  target_type v = Some t ->
  Forall (dropped (requests pr) t) skipped -> DecodeMessage (requests pr) (Some m) = Ret (Some p) ->
  convertible (dynamic_type p) t = true -> (List.length skipped < fuel)%nat ->
  session_loop fuel v (mkSession pr (skipped ++ m :: l) e out c)
  = (if decide (dynamic_type p = t) then Ret (m, p) else Panic ReflectSet, mkSession pr l e out c).
Proof.
  intros Hv. revert skipped. induction fuel as [|fuel IH]; intros skipped Hsk Hm Ht Hf; [lia|]. cbn [ExpectPacket_loop].
  unfold bind at 1, session_RecvMessage. destruct skipped as [|m' skipped]; cbn [app ss_in ss_proto ss_end ss_out ss_closed];
    unfold bind at 1, session_DecodeMessage; cbn [ss_proto].
  - rewrite Hm. unfold assign. rewrite Hv, Ht. by case_decide.
  - apply Forall_cons in Hsk as [(o & -> & Ho) Hsk]. simpl in Hf. destruct o as [p'|]; [|apply IH; auto; lia].
    unfold assign. rewrite Hv, (Ho p' eq_refl). apply IH; auto; lia.
Qed.

Lemma ExpectPacket_loop_first fuel t pr skipped m l e out c p :
  Forall (dropped (requests pr) t) skipped -> DecodeMessage (requests pr) (Some m) = Ret (Some p) ->
  dynamic_type p = t -> (List.length skipped < fuel)%nat ->
  session_loop fuel (ToPointer t) (mkSession pr (skipped ++ m :: l) e out c)
  = (Ret (m, p), mkSession pr l e out c).
Proof.
  intros Hsk Hm Ht Hf.
  rewrite (ExpectPacket_loop_stops fuel _ t pr skipped m l e out c p) by (done || by rewrite Ht, convertible_refl).
  by rewrite decide_True.
Qed.

(** The session keeps the laws of the interface. *)
#[export] Program Instance session_Lawful : LawfulProtocol session := {|
  inbox := ss_in;
  outbox := ss_out;
  asked s := requests (ss_proto s);
  is_open s := ss_closed s = None |}.
Next Obligation. intros s m l Hs. simpl. unfold session_RecvMessage. rewrite Hs. by eexists. Qed.
Next Obligation. intros s Hs. simpl. unfold session_RecvMessage. rewrite Hs. by eexists. Qed.
Next Obligation. done. Qed.
Next Obligation.
  intros t [pr l' e out c] sk m l p Hl Hsk Hm Ht. simpl in Hl, Hsk, Hm. subst l'.
  unfold p_ExpectPacket, session_Protocol, session_ExpectPacket, ExpectPacket.
  rewrite (ExpectPacket_loop_first _ _ _ _ _ _ _ _ _ _ Hsk Hm Ht) by (simpl; rewrite length_app; lia).
  eexists. split; [reflexivity|]. by split_and!.
Qed.
Next Obligation.
  intros P E L p sid s Ho Hv Hp. simpl. unfold session_SendPacket, bind at 1, lift.
  rewrite (EncodeMessage_message p Hv). unfold bind, session_SendMessage. rewrite Ho.
  unfold zoom, on_send_message. rewrite Hp. eexists. split; [reflexivity|]. by split_and!.
Qed.

(** ** Lemmas *)

(** The only two types of the package that are convertible and not the same. *)
Lemma convertible_same t t' :
  convertible t t' = true ->
  t = t' \/ (t = TCloseStream /\ t' = TCreateStream) \/ (t = TCreateStream /\ t' = TCloseStream).
Proof. destruct t, t'; vm_compute; auto; discriminate. Qed.

Lemma DecodeMessage_safe reqs m : safe (DecodeMessage reqs m).
Proof.
  unfold DecodeMessage. destruct m as [m|]; [|done]. destruct (Payload m) as [p|]; [|done].
  pose proof (DecodePacket_safe_lemma reqs (Header m) p). by destruct (DecodePacket _ _ _).
Qed.

Definition expect_result (t : struct_type) (s : session) (o : outcome (Message * packet)) (s' : session) : Prop :=
  let reqs := requests (ss_proto s) in
  ss_out s' = ss_out s /\ ss_proto s' = ss_proto s /\ ss_closed s' = ss_closed s
  /\ match o with
     | Ret (m, p) =>
         dynamic_type p = t /\ exists skipped, ss_in s = skipped ++ m :: ss_in s'
           /\ Forall (dropped reqs t) skipped /\ DecodeMessage reqs (Some m) = Ret (Some p)
     | Fail e =>
         (Forall (dropped reqs t) (ss_in s) /\ e = ss_end s /\ ss_in s' = [])
         \/ (exists skipped m, ss_in s = skipped ++ m :: ss_in s' /\ Forall (dropped reqs t) skipped
               /\ DecodeMessage reqs (Some m) = Fail e)
     | Panic x =>
         x = ReflectSet /\ exists skipped m p, ss_in s = skipped ++ m :: ss_in s' /\ Forall (dropped reqs t) skipped
           /\ DecodeMessage reqs (Some m) = Ret (Some p)
           /\ ((t = TCreateStream /\ dynamic_type p = TCloseStream)
               \/ (t = TCloseStream /\ dynamic_type p = TCreateStream))
     | OutOfFuel => False
     end.

(** One message more in front of those that were dropped. *)
Lemma expect_result_drop t m l pr e out c o s' :
  dropped (requests pr) t m ->
  expect_result t (mkSession pr l e out c) o s' -> expect_result t (mkSession pr (m :: l) e out c) o s'.
Proof.
  intros Hd. unfold expect_result. simpl. intros (-> & -> & -> & H). split_and!; try done.
  destruct o as [[m' p]|e'|x|]; [|destruct H as [(H1 & H2 & H3)|H]|..|done].
  - destruct H as (Ht & sk & -> & Hsk & Hm). split; [done|]. exists (m :: sk). split_and!; [done|by constructor|done].
  - left. split_and!; [by constructor|done|done].
  - destruct H as (sk & m' & -> & Hsk & Hm). right. exists (m :: sk), m'. split_and!; [done|by constructor|done].
  - destruct H as (Hx & sk & m' & p & -> & Hsk & Hm). split; [done|]. exists (m :: sk), m', p.
    split; [done|]. split; [by constructor|done].
Qed.

Lemma ExpectPacket_loop_spec fuel v t s :
  target_type v = Some t -> (List.length (ss_in s) < fuel)%nat ->
  exists o s', session_loop fuel v s = (o, s') /\ expect_result t s o s'.
Proof.
  intros Hv. revert s. induction fuel as [|fuel IH]; intros [pr l e out c] Hf; simpl in Hf; [lia|].
  cbn [ExpectPacket_loop]. unfold bind at 1, session_RecvMessage. cbn [ss_in ss_proto ss_end ss_out ss_closed].
  destruct l as [|m l].
  { eexists _, _. split; [done|]. unfold expect_result. simpl. split_and!; try done. by left. }
  simpl in Hf. unfold bind at 1, session_DecodeMessage. cbn [ss_proto].
  destruct (IH (mkSession pr l e out c)) as (o & s' & He & Ho); [simpl; lia|].
  pose proof (DecodeMessage_safe (requests pr) (Some m)) as Hs.
  destruct (DecodeMessage (requests pr) (Some m)) as [[p|]|e'| |] eqn:Hd; try done.
  - unfold assign. rewrite Hv. destruct (convertible (dynamic_type p) t) eqn:Hc.
    + destruct (decide (dynamic_type p = t)) as [Ht|Ht]; (eexists _, _; split; [done|]); unfold expect_result; simpl;
        split_and!; try done; [by exists []|].
      exists [], m, p. split_and!; try done. apply convertible_same in Hc as [|[[]|[]]]; auto; congruence.
    + exists o, s'. split; [done|]. apply expect_result_drop; [|done]. exists (Some p). split; [done|]. by intros ? [= <-].
  - exists o, s'. split; [done|]. apply expect_result_drop; [|done]. by exists None.
  - eexists _, _. split; [done|]. unfold expect_result. simpl. split_and!; try done. right. by exists [], m.
Qed.

(** ** Properties *)

(** C28. [ExpectPacket] with a pointer of the type [t] ends, whatever the messages, on the
    session, where the error behind the last message is returned.  It drops the
    messages whose packet is not convertible to the type; then it returns the first
    packet that is, which is of the type [t], and has taken exactly the messages up
    to it; or the first error, of a message that cannot be decoded or of the end of
    the messages; nothing else changes.  Against its documentation it does not drop
    every other packet: when a [createStream] is expected and a [closeStream] comes,
    or the other way round, it panics, since the two structs have the same fields,
    and this is the only panic. *)
Theorem expect_packet v t s :
  target_type v = Some t ->
  exists o s', session_ExpectPacket v s = (o, s') /\ expect_result t s o s'
    /\ (forall skipped m p l,
          ss_in s = skipped ++ m :: l -> Forall (dropped (requests (ss_proto s)) t) skipped ->
          DecodeMessage (requests (ss_proto s)) (Some m) = Ret (Some p) ->
          (t = TCreateStream /\ dynamic_type p = TCloseStream) \/ (t = TCloseStream /\ dynamic_type p = TCreateStream) ->
          o = Panic ReflectSet).
Proof.
  intros Hv. destruct (ExpectPacket_loop_spec (S (List.length (ss_in s))) v t s Hv (Nat.lt_succ_diag_r _))
    as (o & s' & He & Ho).
  exists o, s'. split; [unfold session_ExpectPacket, ExpectPacket; by destruct v|]. split; [done|].
  intros sk m p l Hin Hsk Hm Ht. destruct s as [pr i e out c]. cbn [ss_in ss_proto] in *. subst i.
  assert (convertible (dynamic_type p) t = true /\ dynamic_type p <> t) as [Hc Hne]
    by (destruct Ht as [[-> ->]|[-> ->]]; split; (reflexivity || discriminate)).
  rewrite (ExpectPacket_loop_stops _ v t _ _ _ _ _ _ _ p Hv Hsk Hm Hc) in He by (rewrite length_app; simpl; lia).
  rewrite decide_False in He by done. by injection He as <- _.
Qed.

(** A message that carries a packet. *)
Definition command_message (p : packet) : Message :=
  mkMessage (mkMessageHeader RTMP_MSG_AMF0CommandMessage (zlen (packet_wire p)) 0 0 0) (Some (packet_wire p))
    (zlen (packet_wire p)) RTMP_CID_OverConnection 0.

Definition video_message : Message :=
  mkMessage (mkMessageHeader RTMP_MSG_VideoMessage 3 0 1 0) (Some (make_bytes 3)) 3 6 0.

Definition session_of (l : list Message) : session :=
  mkSession (NewProtocol (mkTCPConn [] EOF [] [])) l EOF [] None.

Lemma expect_packet_witness :
  (exists o s', session_ExpectPacket (ToPointer TPlay) (session_of [video_message; command_message sample_play; video_message])
      = (o, s')
    /\ o = Ret (command_message sample_play, sample_play)
    /\ expect_result TPlay (session_of [video_message; command_message sample_play; video_message]) o s')
  /\ (session_ExpectPacket (ToPointer TCreateStream)
        (session_of [video_message; command_message (PCloseStream NewCloseStreamPacket)])).1 = Panic ReflectSet.
Proof.
  split.
  - destruct (expect_packet (ToPointer TPlay) TPlay (session_of [video_message; command_message sample_play; video_message])
      eq_refl) as (o & s' & He & Ho & _).
    exists o, s'. split; [done|]. split; [|done]. vm_compute in He. injection He as <- _. by vm_compute.
  - destruct (expect_packet (ToPointer TCreateStream) TCreateStream
      (session_of [video_message; command_message (PCloseStream NewCloseStreamPacket)]) eq_refl) as (o & s' & He & _ & Hp).
    rewrite He. cbn [fst].
    apply (Hp [video_message] (command_message (PCloseStream NewCloseStreamPacket)) (PCloseStream NewCloseStreamPacket) []);
      [done| |vm_compute; reflexivity|by left].
    constructor; [exists None; split; [reflexivity|discriminate]|constructor].
Defined.
