(* ===== verification/Refine.v ===== *)
(** * The goroutines implement the session

    [Session] is the protocol as a single user sees it: a list of messages to come
    and a list of messages sent.  Here the transition system of [Goroutines] is
    shown to implement it: every step of the goroutines is a stuttering step, and
    every call of the user returns in the system what it returns in the session.
    The messages of the session are those of [recv_loop] on the input, so what the
    user receives does not depend on the schedule. *)

From Stdlib Require Import ZArith Lia Strings.Byte.
From stdpp Require Import base tactics list gmap.
From S2P Require Import Prelude Constants HPBuffer Socket Buffer Messages Packets PacketsFacts Protocol ChunkSend Feed ChunkRecv Reassembly Control Goroutines Frame Locks Pump Delivery Inputs Session.
Open Scope Z_scope.

#[local] Arguments recv_job : simpl never.
#[local] Arguments send_round : simpl never.
#[local] Arguments zlen : simpl never.

(** ** What is still to be received *)

(** The rounds of the receiving goroutine from [r] on queue the messages [l], and
    then end with the error [e]. *)
Definition comes (r : protocol) (l : list Message) (e : error) : Prop :=
  exists fuel r', recv_loop fuel r = (Ret (l, e), r').

Lemma comes_same r r' l e : in_half r' = in_half r -> comes r l e -> comes r' l e.
Proof.
  intros H (fuel & r2 & He). destruct (respects_recv_loop fuel r' r H) as [Ho _]. rewrite He in Ho.
  destruct (recv_loop fuel r') as [o r3] eqn:Hr. simpl in Ho. subst o. by exists fuel, r3.
Qed.

(** A round takes the first of them, if it completes a message. *)
Lemma comes_round r l e o r' :
  comes r l e -> recv_job r = (Ret o, r') ->
  exists l', comes r' l' e /\ l = match o with Some m => [m] | None => [] end ++ l'.
Proof.
  intros (fuel & r2 & He) Hj. destruct fuel as [|fuel]; [done|]. cbn [recv_loop] in He. rewrite Hj in He.
  apply bind_inv_Ret in He as ([l' e'] & r3 & He & Hr). cbn [fst snd] in Hr. unfold ret in Hr.
  apply pair_equal_spec in Hr as [Hr _]. injection Hr as <- <-. exists l'. split; [by exists fuel, r3|]. by destruct o.
Qed.

(** ** The session as a transition function *)

(** What the user sees of a run. *)
Definition visible (ev : event) : bool :=
  match ev with EDelivered _ | EEnqueued _ | EReturned _ => true | _ => false end.

(** A call that sends: the messages it has added, or the error it returns. *)
Definition sending {A} (m : M session A) (ss : session) : list event * session :=
  match m ss with
  | (Ret _, ss') => (List.map EEnqueued (drop (List.length (ss_out ss)) (ss_out ss')), ss')
  | (Fail e, ss') => ([EReturned e], ss')
  | (_, ss') => ([], ss')
  end.

Definition receiving (ss : session) : list event * session :=
  match session_RecvMessage ss with
  | (Ret m, ss') => ([EDelivered m], ss')
  | (Fail e, ss') => ([EReturned e], ss')
  | (_, ss') => ([], ss')
  end.

(** The goroutines do nothing in the session. *)
Definition session_step (l : label) (ss : session) : list event * session :=
  match l with
  | LSendMessage pkt stream_id => sending (session_SendMessage pkt stream_id) ss
  | LSendPacket pkt stream_id => sending (session_SendPacket _ _ (ae_pkt pkt) stream_id) ss
  | LRecvMessage => receiving ss
  | _ => ([], ss)
  end.

Fixpoint session_run (ls : list label) (ss : session) : list event * session :=
  match ls with
  | [] => ([], ss)
  | l :: ls =>
      let '(es, ss) := session_step l ss in
      let '(es', ss) := session_run ls ss in
      (es ++ es', ss)
  end.

(** ** The simulation *)

(** A packet that is not recorded as a request. *)
Definition unrecorded (pkt : any_encoder) : Prop :=
  match type_of (ae_pkt pkt) with SentConnectApp _ | SentCreateStream _ => False | _ => True end.

(** The calls considered: no [Destroy], and packets that are not recorded. *)
Definition call_ok (l : label) : Prop :=
  match l with
  | LSendPacket pkt _ => pkt_ok pkt /\ unrecorded pkt
  | LDestroy => False
  | _ => True
  end.

Record implements (s : system) (ss : session) : Prop := {
  im_requests : requests (proto s) = requests (ss_proto ss);
  im_in : exists l, comes (proto s) l (ss_end ss) /\ ss_in ss = ch_buf (msg_in_queue s) ++ pending (recv_at s) ++ l;
  im_in_open : ch_closed (msg_in_queue s) = false;
  im_out_open : ch_closed (msg_out_queue s) = false;
  im_open : ss_closed ss = None;
  im_sent : Forall unrecorded (sent_packets s) }.

(** A step beside the receiving goroutine and its queue. *)
Lemma implements_beside s s' ss :
  implements s ss -> in_half (proto s') = in_half (proto s) -> recv_at s' = recv_at s ->
  msg_in_queue s' = msg_in_queue s -> ch_closed (msg_out_queue s') = false ->
  Forall unrecorded (sent_packets s') -> implements s' ss.
Proof.
  intros [H1 (l & Hl & Hin) H3 H4 H5 H6] Hh Hr Hq Hc Hs.
  assert (requests (proto s') = requests (proto s)) as Hreq by (unfold in_half in Hh; congruence).
  split; [congruence| |congruence|done|done|done]. exists l. rewrite Hr, Hq. split; [by eapply comes_same|done].
Qed.

Lemma recv_step_implements s s' es ss :
  implements s ss -> recv_step s = Some (s', es) -> crashed s' = None -> crashed s = None -> existsb failed_of es = false ->
  implements s' ss /\ List.filter visible es = [].
Proof.
  intros Hi He Hc Hc0 Hf. unfold recv_step in He.
  destruct (recv_at s) as [| | | |m|err|] eqn:Hpc.
  4: { destruct (recv_job (proto s)) as [o r'] eqn:Hj. destruct o as [o|e| |]; [|by injection He as <- <-..|done].
       destruct Hi as [H1 (l & Hl & Hin) H3 H4 H5 H6].
       destruct (comes_round _ _ _ _ _ Hl Hj) as (l' & Hl' & ->). rewrite Hpc in Hin.
       assert (requests r' = requests (proto s)) as Hq
         by (pose proof (keeps_recv_requests (proto s)) as Hk; by rewrite Hj in Hk).
       destruct o as [m|]; injection He as <- <-; (split; [|done]); split; simpl; try done; try congruence; by exists l'. }
  4: { unfold chan_send in He. destruct Hi as [H1 (l & Hl & Hin) H3 H4 H5 H6]. rewrite H3 in He.
       destruct (_ <? _); [|done]. injection He as <- <-. split; [|done]. split; simpl; try done.
       exists l. split; [done|]. rewrite Hin, Hpc. simpl. by rewrite <- app_assoc. }
  all: repeat (case_match; try discriminate); try discriminate He; injection He as <- <-; (split; [|done]);
    destruct Hi as [H1 (l & Hl & Hin) H3 H4 H5 H6]; rewrite Hpc in Hin; split; simpl; try done; by exists l.
Qed.

Lemma on_send_in_half {P} `{Encoder P} (pkt : P) r o r' :
  match type_of pkt with SentConnectApp _ | SentCreateStream _ => False | _ => True end ->
  on_send_message pkt r = (o, r') -> in_half r' = in_half r /\ o = Ret tt.
Proof.
  unfold on_send_message, modify, ret. intros Hp. destruct (type_of pkt) as [p|p|p|]; [|done..|];
    by intros [<- <-]%pair_equal_spec.
Qed.

Lemma send_step_implements s s' es ss :
  live s -> implements s ss -> send_step s = Some (s', es) -> crashed s' = None ->
  implements s' ss /\ List.filter visible es = [].
Proof.
  intros (Ho & Hz & _ & Hs & _) Hi He Hc. pose proof (im_out_open _ _ Hi) as Hout. pose proof (im_sent _ _ Hi) as Hsent.
  unfold send_step in He. destruct (send_at s) as [| | | |m sent| |] eqn:Hpc.
  5: { destruct (Z.ltb_spec sent (zlen (payload_of m))) as [Hlt|].
       - destruct (send_round_safe m sent (proto s)) as (w & o & r' & k & Hr & Hw%sent_in_half & _); [done|done|done|by left|].
         rewrite Hr in He. destruct o as [n|e| |]; try discriminate He; injection He as <- <-; (split; [|done]);
           by eapply implements_beside.
       - injection He as <- <-. split; [|done]. by eapply implements_beside. }
  4: { unfold chan_recv in He. rewrite Hout in He. destruct (ch_buf (msg_out_queue s)) as [|m q]; [done|].
       injection He as <- <-. split; [|done]. by eapply implements_beside. }
  all: repeat (case_match; try discriminate); try discriminate He; injection He as <- <-; (split; [|done]);
    by eapply implements_beside.
Qed.

(** The message of a send, and the outcome in both. *)
Lemma SendMessage_implements pkt sid s e s' es ss :
  implements s ss -> SendMessage pkt sid s = Some (e, s', es) ->
  exists ss', session_SendMessage pkt sid ss = (match e with Some e => Fail e | None => Ret tt end, ss')
    /\ implements s' ss' /\ requests (ss_proto ss') = requests (ss_proto ss) /\ sent_packets s' = sent_packets s
    /\ match e with
       | Some e => es = [EReturned e] /\ ss' = ss
       | None => exists m, es = [EEnqueued m] /\ ss_out ss' = ss_out ss ++ [m]
       end.
Proof.
  intros Hi. unfold SendMessage, session_SendMessage, chan_send. rewrite (im_out_open _ _ Hi), (im_open _ _ Hi).
  destruct pkt as [m|].
  - destruct (_ <? _); [|done]. intros [= <- <- <-]. eexists. split; [reflexivity|].
    split; [|split; [done|]; split; [done|]; by eexists]. destruct Hi. by split.
  - intros [= <- <- <-]. eexists. split; [reflexivity|]. by split_and!.
Qed.

Lemma SendPacket_implements pkt sid s s' es ss :
  unrecorded pkt -> implements s ss -> SendPacket pkt sid s = Some (s', es) -> crashed s' = None ->
  exists ss', sending (session_SendPacket _ _ (ae_pkt pkt) sid) ss = (List.filter visible es, ss') /\ implements s' ss'.
Proof.
  intros Hu Hi. unfold SendPacket, sending, session_SendPacket, bind at 1, lift.
  destruct (EncodeMessage (ae_pkt pkt)) as [[cid msg]|e|p|]; [|intros [= <- <-] _; by exists ss|by intros [= <- <-]|done].
  destruct (SendMessage _ sid s) as [[[e s1] es1]|] eqn:Hm; [|done].
  destruct (SendMessage_implements _ _ _ _ _ _ _ Hi Hm) as (ss' & Hs & Hi' & Hq & Hp & He).
  unfold bind. rewrite Hs. destruct e as [e|]; intros [= <- <-] Hc.
  - destruct He as [-> ->]. by exists ss.
  - destruct He as (m & -> & Ho). unfold zoom.
    destruct (on_send_message (ae_pkt pkt) (ss_proto ss')) as [o r'] eqn:Hr.
    apply (on_send_in_half _ _ _ _ Hu) in Hr as [Hh ->]. cbn [ss_out]. rewrite Ho, drop_app_length. eexists. split; [done|].
    assert (requests r' = requests (ss_proto ss')) as Hreq by (unfold in_half in Hh; congruence).
    destruct Hi' as [H1 H2 H3 H4 H5 H6]. split; simpl; try done; [congruence|].
    apply Forall_app. split; [done|]. by apply Forall_singleton.
Qed.

Lemma step_implements l s s' es ss :
  live s -> call_ok l -> implements s ss -> step l s = Some (s', es) -> crashed s' = None -> existsb failed_of es = false ->
  exists ss', session_step l ss = (List.filter visible es, ss') /\ implements s' ss'.
Proof.
  intros Hl Hok Hi He Hc Hf. pose proof (step_not_crashed _ _ _ He) as Hc0. unfold step in He. rewrite Hc0 in He.
  destruct l; cbn [session_step]; [| |done|..].
  - destruct (recv_step_implements _ _ _ _ Hi He Hc Hc0 Hf) as [? ->]. by exists ss.
  - destruct (send_step_implements _ _ _ _ Hl Hi He Hc) as [? ->]. by exists ss.
  - destruct (SendMessage _ _ s) as [[[e s1] es1]|] eqn:Hm; [|done]. injection He as <- <-.
    destruct (SendMessage_implements _ _ _ _ _ _ _ Hi Hm) as (ss' & Hs & Hi' & _ & _ & He).
    unfold sending. rewrite Hs. exists ss'. split; [|done]. destruct e as [e|]; [by destruct He as [-> _]|].
    destruct He as (m & -> & ->). by rewrite drop_app_length.
  - destruct Hok. by eapply SendPacket_implements.
  - unfold after_send in He. destruct (sent_packets s !! i) as [pkt|] eqn:Hp; [|done].
    destruct (on_send_message (ae_pkt pkt) (proto s)) as [o r'] eqn:Hr.
    apply on_send_in_half in Hr as [Hh ->]; [|exact (Forall_lookup_1 _ _ _ _ (im_sent _ _ Hi) Hp)].
    injection He as <- <-. exists ss. split; [done|]. eapply implements_beside; [done..|apply (im_out_open _ _ Hi)|].
    apply Forall_delete, (im_sent _ _ Hi).
  - unfold RecvMessage, chan_recv in He. unfold receiving, session_RecvMessage.
    destruct Hi as [H1 (l & Hl' & Hin) H3 H4 H5 H6]. rewrite H3 in He.
    destruct (ch_buf (msg_in_queue s)) as [|m q]; [done|]. injection He as <- <-. rewrite Hin. simpl.
    eexists. split; [done|]. split; simpl; try done. by exists l.
Qed.

(** Nothing crashes. *)
Lemma step_alive l s ss s' es :
  safe_sys s -> implements s ss -> call_ok l -> step l s = Some (s', es) -> existsb failed_of es = false ->
  crashed s' = None.
Proof.
  intros [Hok Hl] Hi Hc He Hf. pose proof (step_not_crashed _ _ _ He) as Hc0. unfold calm in Hl. rewrite Hc0 in Hl.
  destruct (Hok Hc0) as [Hlk Hcl]. unfold step in He. rewrite Hc0 in He. destruct l; [| |done|..].
  - by destruct (recv_step_safe _ _ _ Hlk Hcl Hc0 Hl He Hf).
  - by destruct (send_step_safe _ _ _ Hc0 Hl He).
  - unfold SendMessage in He. repeat (case_match; try discriminate); by simplify_eq.
  - destruct Hc as [[[L Hv] _] _]. unfold SendPacket in He. rewrite (EncodeMessage_message _ Hv) in He.
    unfold SendMessage in He. repeat (case_match; try discriminate); by simplify_eq.
  - unfold after_send in He. destruct (sent_packets s !! i) as [pkt|] eqn:Hp; [|done].
    destruct (on_send_message (ae_pkt pkt) (proto s)) as [o r'] eqn:Hr.
    apply on_send_in_half in Hr as [_ ->]; [|exact (Forall_lookup_1 _ _ _ _ (im_sent _ _ Hi) Hp)]. by simplify_eq.
  - unfold RecvMessage in He. repeat (case_match; try discriminate); by simplify_eq.
Qed.

Lemma call_label_ok l : call_ok l -> label_ok l.
Proof. destruct l; simpl; tauto. Qed.

Lemma run_implements ls s s' t ss :
  safe_sys s -> Forall call_ok ls -> implements s ss -> run ls s = Some (s', t) ->
  existsb failed_of t = false ->
  exists ss', session_run ls ss = (List.filter visible t, ss') /\ implements s' ss'.
Proof.
  revert s t ss. induction ls as [|l ls IH]; intros s t ss Hs Hok Hi; cbn [run].
  { intros [= <- <-] _. by exists ss. }
  apply Forall_cons in Hok as [Hl Hok]. destruct (step l s) as [[s1 es]|] eqn:He; [|done].
  destruct (run ls s1) as [[s2 es']|] eqn:Hr; [|done]. intros [= <- <-] Ht.
  rewrite existsb_app in Ht. apply orb_false_elim in Ht as [Ht1 Ht2].
  pose proof (step_not_crashed _ _ _ He) as Hc0. pose proof (proj2 Hs) as Hlive. unfold calm in Hlive. rewrite Hc0 in Hlive.
  destruct (step_implements _ _ _ _ _ Hlive Hl Hi He) as (ss1 & Hss & Hi1); [by eapply step_alive|done|].
  destruct (IH s1 es' ss1) as (ss2 & Hr2 & Hi2); try done.
  { eapply step_safe; [done|by apply call_label_ok|done..]. }
  exists ss2. split; [|done]. cbn [session_run]. by rewrite Hss, Hr2, List.filter_app.
Qed.

(** ** Properties *)


