(* ===== verification/Request.v ===== *)
(** * rtmp.go: [Request] and the discovery of schema, vhost, port and app

    The functions of the packages strings and net/url that [discovery_app] uses
    are modelled on byte strings, net/url after the parser of Go 1.3, the
    release of the code's time.  The error of [url.Parse] is [UrlError].  A map
    [url.Values] is the list of its entries in the order of the query; the
    iteration [for k := range query] visits the keys in the order [order] gives
    them, a permutation the language leaves open.  [strings.ToLower] is compared
    with "vhost" only, and no letter outside ASCII is lowered to one of those
    letters, so lowering ASCII is enough. *)

From Stdlib Require Import ZArith Lia Strings.Byte.
From stdpp Require Import base tactics list.
From S2P Require Import Prelude Constants.
Open Scope Z_scope.

(** ** strings *)

Fixpoint has_prefix (p s : gostring) : bool :=
  match p, s with
  | [], _ => true
  | _, [] => false
  | x :: p, y :: s => bool_decide (x = y) && has_prefix p s
  end.

(** [strings.Index] as a cut: what is in front of the first [sub] and what is behind. *)
Fixpoint cut (sub s : gostring) : option (gostring * gostring) :=
  if has_prefix sub s then Some ([], drop (List.length sub) s)
  else match s with
       | [] => None
       | x :: s => match cut sub s with Some (a, b) => Some (x :: a, b) | None => None end
       end.

Definition Contains (s sub : gostring) : bool := match cut sub s with Some _ => true | None => false end.

(** [strings.Replace(s, old, new, 1)]. *)
Definition Replace1 (s old new : gostring) : gostring :=
  match cut old s with Some (a, b) => a ++ new ++ b | None => s end.

(** [strings.Split(s, sep)] with a separator of one byte. *)
Fixpoint Split (s : gostring) (sep : byte) : list gostring :=
  match s with
  | [] => [[]]
  | x :: s =>
      if decide (x = sep) then [] :: Split s sep
      else match Split s sep with
           | w :: ws => (x :: w) :: ws
           | [] => [[x]]
           end
  end.

Definition in_range (lo hi b : byte) : bool :=
  (uint8_to_Z lo <=? uint8_to_Z b) && (uint8_to_Z b <=? uint8_to_Z hi).

Definition lower (b : byte) : byte :=
  if in_range Byte.x41 Byte.x5a b then byte_of_Z (uint8_to_Z b + 32) else b.

Definition ToLower (s : gostring) : gostring := List.map lower s.

Fixpoint trim_left (inset : byte -> bool) (s : gostring) : gostring :=
  match s with
  | [] => []
  | x :: r => if inset x then trim_left inset r else s
  end.

Definition Trim (s cutset : gostring) : gostring :=
  let inset x := existsb (fun y => bool_decide (x = y)) cutset in
  rev (trim_left inset (rev (trim_left inset s))).

(** ** net/url *)

Record URL := mkURL { u_Scheme : gostring; u_Host : gostring; u_Path : gostring; u_RawQuery : gostring }.

Definition is_hex (b : byte) : bool :=
  in_range Byte.x30 Byte.x39 b || in_range Byte.x61 Byte.x66 b || in_range Byte.x41 Byte.x46 b.

Definition unhex (b : byte) : Z :=
  let n := uint8_to_Z b in
  if in_range Byte.x30 Byte.x39 b then n - 48 else if in_range Byte.x61 Byte.x66 b then n - 87 else n - 55.

(** [unescape]; [query] is the mode in which a plus stands for a space. *)
Fixpoint unescape (query : bool) (s : gostring) : option gostring :=
  match s with
  | [] => Some []
  | x :: r =>
      if decide (x = Byte.x25) then
        match r with
        | a :: b :: r =>
            if is_hex a && is_hex b
            then option_map (cons (byte_of_Z (unhex a * 16 + unhex b))) (unescape query r)
            else None
        | _ => None
        end
      else option_map (cons (if query && bool_decide (x = Byte.x2b) then Byte.x20 else x)) (unescape query r)
  end.

(** [split(s, c, cutc)]. *)
Definition url_split (s : gostring) (c : byte) (cutc : bool) : gostring * gostring :=
  match cut [c] s with
  | None => (s, [])
  | Some (a, b) => (a, if cutc then b else c :: b)
  end.

(** [getscheme]; [first] is true at the first byte. *)
Fixpoint scheme_loop (first : bool) (acc rest whole : gostring) : option (gostring * gostring) :=
  match rest with
  | [] => Some ([], whole)
  | c :: r =>
      if in_range Byte.x61 Byte.x7a c || in_range Byte.x41 Byte.x5a c then scheme_loop false (acc ++ [c]) r whole
      else if in_range Byte.x30 Byte.x39 c || bool_decide (c = Byte.x2b) || bool_decide (c = Byte.x2d)
              || bool_decide (c = Byte.x2e) then
        if first then Some ([], whole) else scheme_loop false (acc ++ [c]) r whole
      else if decide (c = Byte.x3a) then if first then None else Some (acc, r)
      else Some ([], whole)
  end.

Definition getscheme (s : gostring) : option (gostring * gostring) := scheme_loop true [] s s.

(** The last [sep] of [s]. *)
Definition cut_last (sep : byte) (s : gostring) : option (gostring * gostring) :=
  match cut [sep] (rev s) with Some (a, b) => Some (rev b, rev a) | None => None end.

(** [parseAuthority]: the host; the user information has to be well-formed. *)
Definition parseAuthority (authority : gostring) : option gostring :=
  match cut_last Byte.x40 authority with
  | None => Some authority
  | Some (userinfo, host) =>
      let '(user, password) := url_split userinfo Byte.x3a true in
      match unescape false user, unescape false password with
      | Some _, Some _ => Some host
      | _, _ => None
      end
  end.

(** [parse] on the URL without its fragment. *)
Definition url_parse (rawurl : gostring) : option URL :=
  if decide (rawurl = str "*") then Some (mkURL [] [] (str "*") []) else
  match getscheme rawurl with
  | None => None
  | Some (scheme, rest) =>
      let scheme := ToLower scheme in
      let '(rest, query) := url_split rest Byte.x3f true in
      if negb (has_prefix (str "/") rest) && negb (bool_decide (scheme = []))
      then Some (mkURL scheme [] [] query)
      else
        let with_path host rest :=
          match unescape false rest with
          | Some path => Some (mkURL scheme host path query)
          | None => None
          end in
        if (negb (bool_decide (scheme = [])) || negb (has_prefix (str "///") rest)) && has_prefix (str "//") rest then
          let '(authority, rest) := url_split (drop 2 rest) Byte.x2f false in
          match parseAuthority authority with
          | None => None
          | Some host => if Contains host (str "%") then None else with_path host rest
          end
        else with_path [] rest
  end.

Definition Parse (rawurl : gostring) : outcome URL :=
  let '(u, frag) := url_split rawurl Byte.x23 true in
  match url_parse u with
  | None => Fail (UrlError rawurl)
  | Some url => match unescape false frag with Some _ => Ret url | None => Fail (UrlError rawurl) end
  end.

(** The parts of a query between the separators [&] and [;]. *)
Definition query_parts (s : gostring) : list gostring :=
  flat_map (fun w => Split w Byte.x3b) (Split s Byte.x26).

(** An entry of the query, [None] when it is empty or not well-formed. *)
Definition query_entry (part : gostring) : option (gostring * gostring) :=
  if decide (part = []) then None else
  let '(k, v) := url_split part Byte.x3d true in
  match unescape true k, unescape true v with
  | Some k, Some v => Some (k, v)
  | _, _ => None
  end.

Definition Query (u : URL) : list (gostring * gostring) :=
  flat_map (fun p => match query_entry p with Some e => [e] | None => [] end) (query_parts (u_RawQuery u)).

(** [query.Get(k)]: the first value of the key. *)
Definition Get (q : list (gostring * gostring)) (k : gostring) : gostring :=
  match List.find (fun e => bool_decide (e.1 = k)) q with Some e => e.2 | None => [] end.

(** ** Request *)

Record Request := mkRequest {
  TcUrl : gostring; PageUrl : gostring; SwfUrl : gostring; ObjectEncoding : Z;
  Schema : gostring; Vhost : gostring; Port : gostring; App : gostring; Stream : gostring }.

Definition NewRequest : Request := mkRequest [] [] [] CodecAMF0 [] [] (str "1935") [] [].

Definition Request_StreamUrl (r : Request) : gostring := Vhost r ++ str "/" ++ App r ++ str "/" ++ Stream r.

Definition set_TcUrl v r := mkRequest v (PageUrl r) (SwfUrl r) (ObjectEncoding r) (Schema r) (Vhost r) (Port r) (App r) (Stream r).
Definition set_PageUrl v r := mkRequest (TcUrl r) v (SwfUrl r) (ObjectEncoding r) (Schema r) (Vhost r) (Port r) (App r) (Stream r).
Definition set_SwfUrl v r := mkRequest (TcUrl r) (PageUrl r) v (ObjectEncoding r) (Schema r) (Vhost r) (Port r) (App r) (Stream r).
Definition set_ObjectEncoding v r := mkRequest (TcUrl r) (PageUrl r) (SwfUrl r) v (Schema r) (Vhost r) (Port r) (App r) (Stream r).
Definition set_Schema v r := mkRequest (TcUrl r) (PageUrl r) (SwfUrl r) (ObjectEncoding r) v (Vhost r) (Port r) (App r) (Stream r).
Definition set_Vhost v r := mkRequest (TcUrl r) (PageUrl r) (SwfUrl r) (ObjectEncoding r) (Schema r) v (Port r) (App r) (Stream r).
Definition set_Port v r := mkRequest (TcUrl r) (PageUrl r) (SwfUrl r) (ObjectEncoding r) (Schema r) (Vhost r) v (App r) (Stream r).
Definition set_App v r := mkRequest (TcUrl r) (PageUrl r) (SwfUrl r) (ObjectEncoding r) (Schema r) (Vhost r) (Port r) v (Stream r).

Definition dots : gostring := str "...".

(** The loop [for strings.Contains(v, "...")]: a round takes at least two bytes away. *)
Fixpoint dots_loop (fuel : nat) (v : gostring) : outcome gostring :=
  match fuel with
  | O => OutOfFuel
  | S fuel =>
      if Contains v dots then dots_loop fuel (Replace1 (Replace1 v dots (str "&")) dots (str "="))
      else Ret v
  end.

(** [...vhost...] to [?vhost=]. *)
Definition rewrite_dots (v : gostring) : outcome gostring :=
  let v := if negb (Contains v (str "?")) then Replace1 (Replace1 v dots (str "?")) dots (str "=") else v in
  dots_loop (S (List.length v)) v.

Definition trimmed : gostring := str "/" ++ [Byte.x0a; Byte.x0d] ++ str " ".

Definition tcurl_err (what : gostring) (r : Request) : error :=
  Error ERROR_RTMP_REQ_TCURL (str "discovery " ++ what ++ str " failed. tcUrl=" ++ TcUrl r).

(** [if r.F = strings.Trim(r.F, ...); r.F == "" { return Error{...} }]. *)
Definition trim_field (f : Request -> gostring) (set : gostring -> Request -> Request) (what : gostring) :
    M Request unit :=
  let* v := gets f in
  let v := Trim v trimmed in
  do* modify (set v) in
  let* r := get in
  guard* negb (bool_decide (v = [])) else tcurl_err what r in
  ret tt.

Section Discovery.
Context (order : list gostring -> list gostring).

(** The iteration over the keys of the query. *)
Definition vhost_of (q : list (gostring * gostring)) (host : gostring) : gostring :=
  fold_left (fun h k => if bool_decide (ToLower k = str "vhost") && negb (bool_decide (Get q k = []))
                        then Get q k else h)
    (order (remove_dups q.*1)) host.

Definition discovery_app : M Request unit :=
  let* v := gets TcUrl in
  let* v := lift (rewrite_dots v) in
  do* modify (set_TcUrl v) in
  let* u := lift (Parse v) in
  do* modify (fun r => set_App (u_Path u) (set_Schema (u_Scheme u) r)) in
  do* modify (set_Vhost (u_Host u)) in
  do* (if Contains (u_Host u) (str ":") then
         let host_parts := Split (u_Host u) Byte.x3a in
         let* h := lift (index host_parts 0) in
         let* p := lift (index host_parts 1) in
         modify (fun r => set_Port p (set_Vhost h r))
       else ret tt) in
  do* modify (fun r => set_Vhost (vhost_of (Query u) (Vhost r)) r) in
  do* trim_field Schema set_Schema (str "schema") in
  do* trim_field Vhost set_Vhost (str "vhost") in
  do* trim_field App set_App (str "app") in
  trim_field Port set_Port (str "port").

End Discovery.

(** ** Lemmas on the string functions *)

Lemma has_prefix_app p s : has_prefix p (p ++ s) = true.
Proof. induction p as [|x p IH]; [done|]. simpl. by rewrite bool_decide_eq_true_2, IH. Qed.

(** A separator of one byte. *)
Lemma cut_byte c a b : c ∉ a -> cut [c] (a ++ c :: b) = Some (a, b).
Proof.
  induction a as [|x a IH]; intros Hc; simpl.
  - by rewrite bool_decide_eq_true_2.
  - apply not_elem_of_cons in Hc as [Hx Ha]. rewrite bool_decide_eq_false_2 by done. simpl. by rewrite IH.
Qed.

Lemma cut_byte_None c s : c ∉ s -> cut [c] s = None.
Proof.
  induction s as [|x s IH]; intros Hc; [done|]. apply not_elem_of_cons in Hc as [Hx Hs].
  simpl. rewrite bool_decide_eq_false_2 by done. simpl. by rewrite IH.
Qed.

Lemma url_split_byte c a b cutc : c ∉ a -> url_split (a ++ c :: b) c cutc = (a, if cutc then b else c :: b).
Proof. intros Hc. unfold url_split. by rewrite cut_byte. Qed.

Lemma url_split_None c s cutc : c ∉ s -> url_split s c cutc = (s, []).
Proof. intros Hc. unfold url_split. by rewrite cut_byte_None. Qed.

Lemma Split_byte c a b : c ∉ a -> Split (a ++ c :: b) c = a :: Split b c.
Proof.
  induction a as [|x a IH]; intros Hc; simpl.
  - by rewrite decide_True.
  - apply not_elem_of_cons in Hc as [Hx Ha]. rewrite decide_False by done. by rewrite IH.
Qed.

Lemma Split_None c s : c ∉ s -> Split s c = [s].
Proof.
  induction s as [|x s IH]; intros Hc; [done|]. apply not_elem_of_cons in Hc as [Hx Hs].
  simpl. rewrite decide_False by done. by rewrite IH.
Qed.

Lemma unescape_plain query s : Byte.x25 ∉ s -> Byte.x2b ∉ s -> unescape query s = Some s.
Proof.
  induction s as [|x s IH]; intros H1 H2; [done|]. apply not_elem_of_cons in H1 as [Hx H1], H2 as [Hy H2].
  simpl. rewrite decide_False, bool_decide_eq_false_2, andb_false_r, IH by done. done.
Qed.

(** ** The rewriting of dots *)

(** No [...] in [s], nor one that its end could be the beginning of. *)
Definition clean (s : gostring) : Prop := cut dots (s ++ str "..") = None.

Lemma cut_clean s t : clean s -> cut dots (s ++ dots ++ t) = Some (s, t).
Proof.
  unfold clean. induction s as [|x s IH]; [done|]. intros Hc.
  assert (has_prefix dots ((x :: s) ++ str "..") = false) as Hp.
  { cbn [cut app] in Hc |- *. by destruct (has_prefix dots (x :: s ++ str "..")). }
  assert (cut dots (s ++ str "..") = None) as Hs.
  { cbn [cut app] in Hc, Hp. rewrite Hp in Hc. by destruct (cut dots (s ++ str "..")) as [[]|]. }
  assert (has_prefix dots ((x :: s) ++ dots ++ t) = false) as Hp'.
  { destruct s as [|y [|z s]]; exact Hp. }
  cbn [cut app] in *. by rewrite Hp', IH.
Qed.

Lemma clean_sep s c t : clean s -> c <> Byte.x2e -> clean t -> clean (s ++ c :: t).
Proof.
  unfold clean. intros Hs Hc Ht. induction s as [|x s IH].
  - cbn [app cut]. assert (has_prefix dots (c :: t ++ str "..") = false) as ->.
    { cbn. by rewrite bool_decide_eq_false_2. }
    by rewrite Ht.
  - cbn [app cut] in *. destruct (has_prefix dots (x :: s ++ str "..")) eqn:Hp; [done|].
    destruct (cut dots (s ++ str "..")) as [[]|] eqn:Hcs; [done|]. rewrite <- app_assoc in *. cbn [app] in *.
    assert (has_prefix dots (x :: s ++ c :: t ++ str "..") = false) as ->.
    { destruct s as [|y [|z s]]; cbn in Hp |- *; rewrite ?(bool_decide_eq_false_2 (Byte.x2e = c)) by done;
        rewrite ?andb_false_r; done. }
    by rewrite IH.
Qed.

Lemma clean_None s : clean s -> cut dots s = None.
Proof.
  unfold clean. induction s as [|x s IH]; [done|]. cbn [app cut]. intros Hc.
  destruct (has_prefix dots (x :: s ++ str "..")) eqn:Hp; [done|].
  destruct (cut dots (s ++ str "..")) as [[]|]; [done|]. rewrite IH by done.
  assert (has_prefix dots (x :: s) = false) as ->; [|done].
  destruct s as [|y [|z s]]; cbn in Hp |- *; rewrite ?andb_false_r; done.
Qed.

(** The parameters of a URL in the two spellings. *)
Definition pair_dots (kv : gostring * gostring) : gostring := dots ++ kv.1 ++ dots ++ kv.2.
Definition pair_amp (kv : gostring * gostring) : gostring := str "&" ++ kv.1 ++ str "=" ++ kv.2.

Definition pair_clean (kv : gostring * gostring) : Prop := clean kv.1 /\ clean kv.2.

(** Replacing the next two [...] behind a clean beginning. *)
Lemma Replace1_clean s t new : clean s -> Replace1 (s ++ dots ++ t) dots new = s ++ new ++ t.
Proof. intros Hs. unfold Replace1. by rewrite cut_clean. Qed.

Lemma Replace_pair s k t c :
  clean s -> clean k -> c <> Byte.x2e ->
  Replace1 (Replace1 (s ++ dots ++ k ++ dots ++ t) dots [c]) dots (str "=") = s ++ [c] ++ k ++ str "=" ++ t.
Proof.
  intros Hs Hk Hc. rewrite Replace1_clean by done.
  replace (s ++ [c] ++ k ++ dots ++ t) with ((s ++ c :: k) ++ dots ++ t) by (by rewrite <- app_assoc).
  rewrite Replace1_clean by (by apply clean_sep). by rewrite <- app_assoc.
Qed.

Lemma dots_loop_pairs fuel s l :
  clean s -> Forall pair_clean l -> (List.length l < fuel)%nat ->
  dots_loop fuel (s ++ concat (List.map pair_dots l)) = Ret (s ++ concat (List.map pair_amp l)).
Proof.
  revert s l. induction fuel as [|fuel IH]; intros s l Hs Hl Hf; [lia|]. cbn [dots_loop]. unfold Contains.
  destruct l as [|[k v] l]; cbn [List.map concat].
  { rewrite app_nil_r, clean_None; done. }
  apply Forall_cons in Hl as [[Hk Hv] Hl]. simpl in Hf, Hk, Hv. 
  change (pair_dots (k, v)) with (dots ++ k ++ dots ++ v). change (pair_amp (k, v)) with ([Byte.x26] ++ k ++ str "=" ++ v).
  change (str "&") with [Byte.x26]. rewrite <- !app_assoc, cut_clean, Replace_pair by done.
  replace (s ++ [Byte.x26] ++ k ++ str "=" ++ v ++ concat (List.map pair_dots l))
    with ((s ++ Byte.x26 :: (k ++ Byte.x3d :: v)) ++ concat (List.map pair_dots l))
    by (by rewrite <- !app_assoc; cbn [app]; rewrite <- !app_assoc).
  rewrite IH; [|by apply clean_sep, clean_sep|done|lia].
  f_equal. rewrite <- !app_assoc. cbn [app]. by rewrite <- !app_assoc.
Qed.

(** The loop ends for every string. *)
Lemma cut_length sub s a b : cut sub s = Some (a, b) -> List.length s = (List.length a + List.length sub + List.length b)%nat.
Proof.
  revert a b. induction s as [|x s IH]; intros a b; cbn [cut].
  - destruct (has_prefix sub []) eqn:Hp; [|done]. intros [= <- <-]. by destruct sub.
  - destruct (has_prefix sub (x :: s)) eqn:Hp.
    + intros [= <- <-]. assert (List.length sub <= List.length (x :: s))%nat.
      { clear IH. revert Hp. generalize (x :: s). induction sub as [|y sub IH]; intros l; [simpl; lia|].
        destruct l as [|z l]; [done|]. simpl. intros [_ H]%andb_true_iff. apply IH in H. lia. }
      rewrite length_drop. simpl in *. lia.
    + destruct (cut sub s) as [[a' b']|]; [|done]. intros [= <- <-]. simpl. rewrite (IH _ _ eq_refl). lia.
Qed.

Lemma Replace1_length v c : (List.length (Replace1 v dots [c]) + (if Contains v dots then 2 else 0) = List.length v)%nat.
Proof.
  unfold Replace1, Contains. destruct (cut dots v) as [[a b]|] eqn:Hc; [|lia].
  rewrite (cut_length _ _ _ _ Hc), !length_app. simpl. lia.
Qed.

Lemma dots_loop_total fuel v :
  (List.length v < fuel)%nat -> exists v', dots_loop fuel v = Ret v' /\ Contains v' dots = false.
Proof.
  revert v. induction fuel as [|fuel IH]; intros v Hf; [lia|]. cbn [dots_loop].
  destruct (Contains v dots) eqn:Hc; [|by exists v]. apply IH.
  pose proof (Replace1_length v Byte.x26) as H1. rewrite Hc in H1.
  pose proof (Replace1_length (Replace1 v dots (str "&")) Byte.x3d) as H2.
  change (str "&") with [Byte.x26] in *. change (str "=") with [Byte.x3d]. lia.
Qed.

Lemma pairs_length l : (List.length l <= List.length (concat (List.map pair_dots l)))%nat.
Proof.
  induction l as [|kv l IH]; [done|]. cbn [List.map concat List.length]. rewrite length_app.
  assert (1 <= List.length (pair_dots kv))%nat by (simpl; lia). lia.
Qed.

(** ** Plain strings *)

(** The bytes with a meaning in a URL, and those that are trimmed. *)
Definition reserved : gostring := str "%+?#/:@&;= " ++ [Byte.x0a; Byte.x0d].

Definition plain_str (s : gostring) : Prop := Forall (fun b => b ∉ reserved) s.

Lemma plain_not_in s c : plain_str s -> c ∈ reserved -> c ∉ s.
Proof. intros Hs Hc Hin. by apply (proj1 (Forall_forall _ _) Hs c). Qed.

Lemma trim_left_id inset s : (forall x, x ∈ s -> inset x = false) -> trim_left inset s = s.
Proof. destruct s as [|x s]; [done|]. intros H. simpl. rewrite H; [done|]. by left. Qed.

(** [Trim] drops a slash in front and leaves a plain string alone. *)
Lemma Trim_plain s : plain_str s -> Trim s trimmed = s.
Proof.
  intros Hs. unfold Trim. set (inset := fun x => _).
  assert (forall x, x ∈ s -> inset x = false) as Hin.
  { intros x Hx. unfold inset. apply not_true_is_false. intros [y [Hy He]]%existsb_exists.
    apply bool_decide_eq_true_1 in He. subst y. apply (proj1 (Forall_forall _ _) Hs x Hx).
    vm_compute in Hy. destruct Hy as [<-|[<-|[<-|[<-|[]]]]]; by apply (bool_decide_unpack _). }
  rewrite (trim_left_id _ s) by done. rewrite trim_left_id; [apply rev_involutive|].
  intros x Hx. apply Hin. by apply list_elem_of_In, in_rev, list_elem_of_In.
Qed.

Lemma Trim_slash s : plain_str s -> Trim (Byte.x2f :: s) trimmed = s.
Proof. intros Hs. rewrite <- (Trim_plain s Hs) at 2. done. Qed.

(** ** A plain URL *)

Definition lower_letter (b : byte) : Prop := in_range Byte.x61 Byte.x7a b = true.

Lemma scheme_loop_letters first acc s r whole :
  Forall lower_letter s -> s <> [] \/ first = false ->
  scheme_loop first acc (s ++ Byte.x3a :: r) whole = Some (acc ++ s, r).
Proof.
  revert first acc. induction s as [|x s IH]; intros first acc Hs Hne.
  - destruct Hne as [Hn| ->]; [done|]. simpl. by rewrite app_nil_r.
  - apply Forall_cons in Hs as [Hx Hs]. cbn [scheme_loop app]. rewrite Hx. cbn [orb].
    rewrite IH by auto. by rewrite <- app_assoc.
Qed.

Lemma ToLower_letters s : Forall lower_letter s -> ToLower s = s.
Proof.
  induction 1 as [|x s Hx _ IH]; [done|]. simpl. f_equal; [|done].
  unfold lower_letter in Hx. destruct x; vm_compute in Hx |- *; done.
Qed.

Lemma letters_plain s : Forall lower_letter s -> plain_str s.
Proof.
  intros Hs. eapply Forall_impl; [exact Hs|]. intros x Hx Hin. unfold lower_letter in Hx. vm_compute in Hin.
  repeat (apply elem_of_cons in Hin as [->|Hin]; [done|]). by apply not_elem_of_nil in Hin.
Qed.

Section Plain.
Context (scheme host port ap v : gostring).
Context (Hscheme : Forall lower_letter scheme) (Hne : scheme <> []).
Context (Hhost : plain_str host) (Hport : plain_str port) (Happ : plain_str ap) (Hv : plain_str v).

Definition plain_url : gostring :=
  scheme ++ str "://" ++ host ++ str ":" ++ port ++ str "/" ++ ap ++ str "?vhost=" ++ v.

(** None of the bytes of the parts is a separator. *)
Lemma parts_free c :
  c ∈ reserved -> (c ∉ scheme) /\ (c ∉ host) /\ (c ∉ port) /\ (c ∉ ap) /\ (c ∉ v).
Proof. intros Hc. split_and!; apply plain_not_in; auto using letters_plain. Qed.

Ltac free c :=
  let H := fresh in
  assert (c ∈ reserved) as H by (by apply (bool_decide_unpack _));
  apply parts_free in H as (? & ? & ? & ? & ?);
  rewrite ?not_elem_of_app, ?not_elem_of_cons; split_and?; try done; try (by apply (bool_decide_unpack _)).

Lemma Parse_plain :
  Parse plain_url = Ret (mkURL scheme (host ++ Byte.x3a :: port) (Byte.x2f :: ap) (str "vhost=" ++ v)).
Proof.
  unfold Parse, plain_url. rewrite url_split_None by (free Byte.x23).
  unfold url_parse. rewrite decide_False by (destruct scheme as [|? []]; done).
  unfold getscheme. change (str "://" ++ ?x) with (Byte.x3a :: str "//" ++ x).
  rewrite scheme_loop_letters by auto. rewrite ToLower_letters by done. cbn [app].
  change (str "?vhost=" ++ v) with (Byte.x3f :: str "vhost=" ++ v).
  rewrite (app_assoc (str "//")), (app_assoc _ (str ":")), (app_assoc _ port), (app_assoc _ (str "/")), (app_assoc _ ap).
  rewrite url_split_byte by (free Byte.x3f). rewrite <- !app_assoc.
  change (has_prefix (str "/") (str "//" ++ ?x)) with true. change (has_prefix (str "//") (str "//" ++ ?x)) with true.
  rewrite bool_decide_eq_false_2 by done. cbn [negb andb orb].
  change (drop 2 (str "//" ++ ?x)) with x. change (str "/" ++ ap) with (Byte.x2f :: ap).
  rewrite (app_assoc host), (app_assoc _ port). rewrite url_split_byte by (free Byte.x2f).
  unfold parseAuthority, cut_last. rewrite cut_byte_None.
  2: { rewrite list_elem_of_In, <- in_rev, <- list_elem_of_In. free Byte.x40. }
  unfold Contains. change (str "%") with [Byte.x25]. rewrite cut_byte_None by (free Byte.x25).
  rewrite unescape_plain by (solve [free Byte.x25 | free Byte.x2b]). cbn [unescape].
  by rewrite <- app_assoc.
Qed.

Lemma Query_plain s h p : Query (mkURL s h p (str "vhost=" ++ v)) = [(str "vhost", v)].
Proof.
  unfold Query, query_parts. cbn [u_RawQuery]. rewrite Split_None by (free Byte.x26).
  cbn [flat_map]. rewrite app_nil_r, Split_None by (free Byte.x3b). cbn [flat_map].
  unfold query_entry. rewrite decide_False by done.
  change (str "vhost=" ++ v) with (str "vhost" ++ Byte.x3d :: v).
  rewrite url_split_byte by (by apply (bool_decide_unpack _)).
  rewrite (unescape_plain true v) by (solve [free Byte.x25 | free Byte.x2b]). done.
Qed.

End Plain.

(** The tail of [discovery_app]: the four fields are trimmed and must not be empty. *)
Lemma trim_field_ok f set what r v :
  Trim (f r) trimmed = v -> v <> [] -> trim_field f set what r = (Ret tt, set v r).
Proof.
  intros Hv Hne. unfold trim_field, bind, gets, modify, get. rewrite Hv.
  by rewrite bool_decide_eq_false_2.
Qed.

Lemma trim_field_empty f set what r :
  Trim (f r) trimmed = [] -> trim_field f set what r = (Fail (tcurl_err what (set [] r)), set [] r).
Proof. intros Hv. unfold trim_field, bind, gets, modify, get. rewrite Hv. by rewrite bool_decide_eq_true_2. Qed.

Lemma vhost_of_single order v h :
  (forall l, order l ≡ₚ l) -> vhost_of order [(str "vhost", v)] h = if decide (v = []) then h else v.
Proof.
  intros Ho. unfold vhost_of. change (remove_dups [(str "vhost", v)].*1) with [str "vhost"].
  rewrite (proj1 (Permutation_singleton_r _ _) (Ho [str "vhost"])). cbn [fold_left].
  change (Get [(str "vhost", v)] (str "vhost")) with v.
  change (bool_decide (ToLower (str "vhost") = str "vhost")) with true. cbn [andb].
  destruct (decide (v = [])) as [->|Hne]; [done|]. by rewrite bool_decide_eq_false_2.
Qed.

(** ** Properties *)

(** C38. The rewriting of dots: it ends for every string and leaves no [...]; and the
    spelling [base...k...v...k'...v'] becomes the query [base?k=v&k'=v'], or, when
    there is a question mark in [base], [base&k=v&k'=v']. *)
Theorem dots_rewritten :
  (forall v, exists v', rewrite_dots v = Ret v' /\ Contains v' dots = false)
  /\ (forall base k v l, clean base -> clean k -> clean v -> Forall pair_clean l ->
      Byte.x3f ∉ base ++ concat (List.map pair_dots ((k, v) :: l)) ->
      rewrite_dots (base ++ concat (List.map pair_dots ((k, v) :: l)))
      = Ret (base ++ str "?" ++ k ++ str "=" ++ v ++ concat (List.map pair_amp l)))
  /\ (forall a b l, clean (a ++ Byte.x3f :: b) -> Byte.x3f ∉ a -> Forall pair_clean l ->
      rewrite_dots ((a ++ Byte.x3f :: b) ++ concat (List.map pair_dots l))
      = Ret ((a ++ Byte.x3f :: b) ++ concat (List.map pair_amp l))).
Proof.
  unfold rewrite_dots. split_and!.
  - intros v. apply dots_loop_total. lia.
  - intros base k v l Hb Hk Hv Hl Hq. unfold Contains. change (str "?") with [Byte.x3f].
    rewrite cut_byte_None by done. cbn [negb List.map concat].
    change (pair_dots (k, v)) with (dots ++ k ++ dots ++ v). rewrite <- !app_assoc.
    rewrite Replace_pair by done.
    replace (base ++ [Byte.x3f] ++ k ++ str "=" ++ v ++ concat (List.map pair_dots l))
      with ((base ++ Byte.x3f :: (k ++ Byte.x3d :: v)) ++ concat (List.map pair_dots l))
      by (by rewrite <- !app_assoc; cbn [app]; rewrite <- !app_assoc).
    rewrite dots_loop_pairs; [|by apply clean_sep, clean_sep|done|rewrite length_app; pose proof (pairs_length l); lia].
    f_equal. rewrite <- !app_assoc. cbn [app]. by rewrite <- !app_assoc.
  - intros a b l Hc Ha Hl. unfold Contains. change (str "?") with [Byte.x3f].
    rewrite <- app_assoc. cbn [app]. rewrite cut_byte by done. cbn [negb].
    change (a ++ Byte.x3f :: b ++ concat (List.map pair_dots l))
      with (a ++ (Byte.x3f :: b) ++ concat (List.map pair_dots l)). rewrite app_assoc.
    apply dots_loop_pairs; [done|done|]. rewrite length_app. pose proof (pairs_length l). lia.
Qed.

Lemma dots_rewritten_witness :
  rewrite_dots (str "rtmp://h/live...vhost...demo...token...x") = Ret (str "rtmp://h/live?vhost=demo&token=x").
Proof.
  apply (proj1 (proj2 dots_rewritten) (str "rtmp://h/live") (str "vhost") (str "demo") [(str "token", str "x")]);
    try reflexivity; [repeat constructor|by apply (bool_decide_unpack _)].
Defined.

(** C39. What [discovery_app] finds in a URL [scheme://host:port/app?vhost=v] whose
    parts hold no reserved byte: the schema, the port and the app as written, and as
    the vhost the parameter or, when that is empty, the host, in whatever order the
    query is iterated; with an empty app the request is refused with
    [ERROR_RTMP_REQ_TCURL]. *)
Theorem discovery_plain order scheme host port ap v r :
  (forall l, order l ≡ₚ l) ->
  Forall lower_letter scheme -> scheme <> [] ->
  plain_str host -> host <> [] -> plain_str port -> port <> [] -> plain_str ap -> plain_str v ->
  let url := plain_url scheme host port ap v in
  let vhost := if decide (v = []) then host else v in
  Contains url dots = false -> TcUrl r = url ->
  discovery_app order r
  = if decide (ap = [])
    then (Fail (Error ERROR_RTMP_REQ_TCURL (str "discovery app failed. tcUrl=" ++ url)),
          mkRequest url (PageUrl r) (SwfUrl r) (ObjectEncoding r) scheme vhost port [] (Stream r))
    else (Ret tt, mkRequest url (PageUrl r) (SwfUrl r) (ObjectEncoding r) scheme vhost port ap (Stream r)).
Proof.
  intros Ho Hs Hsne Hh Hhne Hp Hpne Ha Hv url vhost Hd Hr.
  assert (rewrite_dots url = Ret url) as Hrw.
  { unfold rewrite_dots. assert (Contains url (str "?") = true) as ->.
    { unfold Contains, url, plain_url. change (str "?vhost=" ++ v) with (Byte.x3f :: str "vhost=" ++ v).
      rewrite !app_assoc. change (str "?") with [Byte.x3f]. rewrite cut_byte; [done|].
      assert (Byte.x3f ∈ reserved) as Hq by (by apply (bool_decide_unpack _)).
      apply (parts_free scheme host port ap v Hs Hh Hp Ha Hv) in Hq as (? & ? & ? & ? & _).
      rewrite !not_elem_of_app. split_and!; try done; by apply (bool_decide_unpack _). }
    cbn [negb dots_loop]. by rewrite Hd. }
  unfold discovery_app, bind at 1, gets. rewrite Hr. unfold bind at 1, lift. rewrite Hrw.
  unfold bind at 1, modify. unfold bind at 1, lift. unfold url at 1. rewrite Parse_plain by done.
  unfold bind at 1, modify. unfold bind at 1, modify. cbn [u_Host u_Path u_Scheme].
  assert (Byte.x3a ∈ reserved) as Hcol by (by apply (bool_decide_unpack _)).
  assert (Contains (host ++ Byte.x3a :: port) (str ":") = true) as ->.
  { unfold Contains. change (str ":") with [Byte.x3a]. rewrite cut_byte; [done|]. by apply plain_not_in. }
  rewrite Split_byte, Split_None by (by apply plain_not_in).
  erewrite bind_Ret by reflexivity. erewrite bind_Ret by reflexivity.
  rewrite (Query_plain scheme host port ap v) by done. cbn [Vhost set_Vhost set_Port].
  rewrite vhost_of_single by done. fold vhost.
  assert (plain_str vhost /\ vhost <> []) as [Hvh Hvne] by (unfold vhost; by destruct (decide (v = []))).
  fold url.
  erewrite bind_Ret by (apply (trim_field_ok _ _ _ _ scheme); [by apply Trim_plain, letters_plain|done]).
  erewrite bind_Ret by (apply (trim_field_ok _ _ _ _ vhost); [by apply Trim_plain|done]).
  destruct (decide (ap = [])) as [->|Hane].
  - by erewrite bind_Fail by (by apply trim_field_empty).
  - erewrite bind_Ret by (apply (trim_field_ok _ _ _ _ ap); [by apply Trim_slash|done]).
    by rewrite (trim_field_ok _ _ _ _ port) by (done || by apply Trim_plain).
Qed.

Lemma discovery_plain_witness :
  discovery_app (fun l => l) (set_TcUrl (str "rtmp://10.0.0.1:19350/live?vhost=demo.srs.com") NewRequest)
  = (Ret tt, mkRequest (str "rtmp://10.0.0.1:19350/live?vhost=demo.srs.com") [] [] 0
       (str "rtmp") (str "demo.srs.com") (str "19350") (str "live") []).
Proof.
  apply (discovery_plain (fun l => l) (str "rtmp") (str "10.0.0.1") (str "19350") (str "live") (str "demo.srs.com")
    (set_TcUrl (str "rtmp://10.0.0.1:19350/live?vhost=demo.srs.com") NewRequest));
    try reflexivity; try discriminate;
    try (repeat constructor; by apply (bool_decide_unpack _)).
Defined.
