(* ===== verification/Server.v ===== *)
(** * rtmp.go: the server

    Each operation of the server is a dialogue over the interface [Protocol]
    ([Session]): it is written once for every implementation of the interface,
    and its theorems rest on [LawfulProtocol] only.  The loops [for { ... }] take
    a bound [fuel]; one more than the messages to come is enough.  The iteration
    order of the maps in [extra_data] is the order of the list that stands for
    each of them.  [server_Handshake] and
    [server_Destroy] are the calls of the protocol they consist of, over the states
    of [Handshake] and [Goroutines].  What the named results hold beside an error
    is not kept: no caller can use them. *)

From Stdlib Require Import ZArith Lia Strings.Byte.
From stdpp Require Import base tactics list gmap.
From S2P Require Import Prelude Constants Socket Buffer Float64 Amf0 Amf0Facts Messages Packets PacketsFacts Protocol ChunkSend Handshake Goroutines Session Request.
Open Scope Z_scope.

(** ** Calls of the protocol that are passed on *)

(** The server of a connection holds a new protocol, with the data of its handshake
    to come. *)
Definition NewServer (conn : TCPConn) : hs := (NewProtocol conn, NewHandshake).

(** The goroutines start behind the handshake, the last call of
    [SimpleHandshake2Client]. *)
Definition server_Handshake (rand : nat -> Z) : M hs system :=
  do* SimpleHandshake2Client rand in
  gets (fun s => start_message_pump_goroutines s.1).

Definition server_Destroy : system -> result := destroy_step.

Section Server.
Context {S : Type} `{Protocol S}.

Definition SetWindowAckSize (ack_size : Z) : M S unit := p_SendPacket (mkSetWindowAckSize ack_size) 0.

Definition SetPeerBandwidth (bandwidth : Z) (bw_type : byte) : M S unit :=
  p_SendPacket (mkSetPeerBandwidth bandwidth bw_type) 0.

Definition CallOnBWDone : M S unit := p_SendPacket NewOnBWDonePacket 0.

Definition Ping (timestamp : Z) : M S unit :=
  p_SendPacket (mkUserControl PCUCPingRequest timestamp (ExtraData NewUserControlPacket)) 0.

(** ** connect *)

(** [data.Set(k, NewAmf0(v))], whose error is dropped. *)
Definition data_set (k v : gostring) (a : Amf0EcmaArray) : outcome Amf0EcmaArray :=
  match Amf0EcmaArray_Set k (NewAmf0 (IString v)) a with
  | (Ret _, a) | (Fail _, a) => Ret a
  | (Panic p, _) => Panic p
  | (OutOfFuel, _) => OutOfFuel
  end.

Fixpoint data_set_all (l : list (gostring * gostring)) (a : Amf0EcmaArray) : outcome Amf0EcmaArray :=
  match l with
  | [] => Ret a
  | (k, v) :: l => match data_set k v a with Ret a => data_set_all l a | o => o end
  end.

Definition ReponseConnectApp (req : Request) (server_ip : gostring)
    (extra_data : list (list (gostring * gostring))) : M S unit :=
  let* data := lift (data_set_all ((str "version", SIG_FMS_VER)
                        :: (if bool_decide (server_ip = []) then [] else [(str "srs_server_ip", server_ip)])
                        ++ concat extra_data) NewAmf0EcmaArray) in
  let pkt := NewConnectAppResPacket in
  let* pkt := lift (ConnectAppResPacket_PropsSet (str "fmsVer") (IString (str "FMS/" ++ SIG_FMS_VER)) pkt) in
  let* pkt := lift (ConnectAppResPacket_PropsSet (str "capabilities") (IFloat64 (float64_of_int 127)) pkt) in
  let* pkt := lift (ConnectAppResPacket_PropsSet (str "mode") (IFloat64 (float64_of_int 1)) pkt) in
  let* pkt := lift (ConnectAppResPacket_InfoSet SLEVEL (IString SLEVEL_Status) pkt) in
  let* pkt := lift (ConnectAppResPacket_InfoSet SCODE (IString SCODE_ConnectSuccess) pkt) in
  let* pkt := lift (ConnectAppResPacket_InfoSet SDESC (IString (str "Connection succeeded")) pkt) in
  let* pkt := lift (ConnectAppResPacket_InfoSet (str "objectEncoding")
                      (IFloat64 (float64_of_int (ObjectEncoding req))) pkt) in
  let* pkt := lift (ConnectAppResPacket_InfoSet (str "data") (IEcmaArray data) pkt) in
  p_SendPacket pkt 0.

(** The request is the caller's: what is found is stored in it as it is found. *)
Definition on_srv {A} (m : M S A) : M (S * Request) A := zoom fst (fun x s => (x, s.2)) m.
Definition on_req {A} (m : M Request A) : M (S * Request) A := zoom snd (fun x s => (s.1, x)) m.

Definition ConnectApp (order : list gostring -> list gostring) : M (S * Request) unit :=
  let* '(_, pkt) := on_srv (p_ExpectPacket (ToPointer TConnectApp)) in
  match pkt with
  | PConnectApp pkt =>
      let o := cap_CommandObject pkt in
      let* tcUrl := lift (Amf0Object_GetPropertyString (str "tcUrl") o) in
      match tcUrl with
      | None =>
          do* on_req (modify (set_TcUrl [])) in
          fail (Error ERROR_RTMP_REQ_CONNECT (str "invalid request, must specifies the tcUrl."))
      | Some v =>
          do* on_req (modify (set_TcUrl v)) in
          let* pageUrl := lift (Amf0Object_GetPropertyString (str "pageUrl") o) in
          do* on_req (modify (match pageUrl with Some v => set_PageUrl v | None => id end)) in
          let* swfUrl := lift (Amf0Object_GetPropertyString (str "swfUrl") o) in
          do* on_req (modify (match swfUrl with Some v => set_SwfUrl v | None => id end)) in
          let* enc := lift (Amf0Object_GetPropertyNumber (str "objectEncoding") o) in
          do* on_req (modify (match enc with Some v => set_ObjectEncoding (int_of_float64 v) | None => id end)) in
          on_req (discovery_app order)
      end
  | _ => gopanic TypeAssertion
  end.

(** ** Identification of the client *)

(** The loop over the messages that are commands; [handle] says what is returned for
    a packet, [None] when the loop goes on. *)
Fixpoint command_loop {A} (fuel : nat) (handle : packet -> option (M S A)) : M S A :=
  match fuel with
  | O => out_of_fuel
  | Datatypes.S fuel =>
      let* msg := p_RecvMessage in
      if negb (MessageHeader_IsAmf0Command (Header msg)) && negb (MessageHeader_IsAmf3Command (Header msg))
      then command_loop fuel handle
      else
        let* pkt := p_DecodeMessage msg in
        match pkt with
        | Some p => match handle p with Some m => m | None => command_loop fuel handle end
        | None => command_loop fuel handle
        end
  end.

Definition identify_play_client (req : PlayPacket) : M S (gostring * gostring) :=
  ret (CLIENT_TYPE_Play, pl_StreamName req).

Definition identify_flash_publish_client (req : PublishPacket) : M S (gostring * gostring) :=
  ret (CLIENT_TYPE_FlashPublish, pb_StreamName req).

(** The answer to [releaseStream]. *)
Definition identify_fmle_publish_client (req : FMLEStartPacket) : M S (gostring * gostring) :=
  do* p_SendPacket (NewFMLEStartResPacket (fml_TransactionId req)) 0 in
  ret (CLIENT_TYPE_FMLEPublish, fml_StreamName req).

Definition identify_create_stream_client (fuel : nat) (req : CreateStreamPacket) (stream_id : Z) :
    M S (gostring * gostring) :=
  do* p_SendPacket (NewCreateStreamResPacket (crs_TransactionId req) (float64_of_int stream_id)) 0 in
  command_loop fuel (fun pkt =>
    match pkt with
    | PPlay p => Some (identify_play_client p)
    | PPublish p => Some (identify_flash_publish_client p)
    | _ => None
    end).

Definition IdentifyClient (fuel : nat) (stream_id : Z) : M S (gostring * gostring) :=
  command_loop fuel (fun pkt =>
    match pkt with
    | PCreateStream p => Some (identify_create_stream_client fuel p stream_id)
    | PFMLEStart p => Some (identify_fmle_publish_client p)
    | PPlay p => Some (identify_play_client p)
    | _ => None
    end).

(** ** Start of the service *)

(** [pkt.Set(k1, v1).Set(k2, v2)...]. *)
Fixpoint set_all (l : list (gostring * gostring)) (pkt : OnStatusCallPacket) : outcome OnStatusCallPacket :=
  match l with
  | [] => Ret pkt
  | (k, v) :: l => match OnStatusCallPacket_Set k (IString v) pkt with Ret pkt => set_all l pkt | o => o end
  end.

Definition send_status (l : list (gostring * gostring)) (stream_id : Z) : M S unit :=
  let* pkt := lift (set_all l NewOnStatusCallPacket) in
  p_SendPacket pkt stream_id.

Definition StartPlay (stream_id : Z) : M S unit :=
  do* p_SendPacket (mkUserControl PCUCStreamBegin stream_id 0) 0 in
  do* send_status [(SLEVEL, SLEVEL_Status); (SCODE, SCODE_StreamReset); (SDESC, str "Playing and resetting stream.");
                   (SDETAILS, str "stream"); (SCLIENT_ID, SIG_CLIENT_ID)] stream_id in
  do* send_status [(SLEVEL, SLEVEL_Status); (SCODE, SCODE_StreamStart); (SDESC, str "Started playing stream.");
                   (SDETAILS, str "stream"); (SCLIENT_ID, SIG_CLIENT_ID)] stream_id in
  do* p_SendPacket NewSampleAccessPacket stream_id in
  let* pkt := lift (OnStatusDataPacket_Set SCODE (IString SCODE_DataStart) NewOnStatusDataPacket) in
  p_SendPacket pkt stream_id.

Definition StartFlashPublish (stream_id : Z) : M S unit :=
  send_status [(SLEVEL, SLEVEL_Status); (SCODE, SCODE_PublishStart); (SDESC, str "Started publishing stream.");
               (SCLIENT_ID, SIG_CLIENT_ID)] stream_id.

(** [r.protocol.ExpectPacket(&pkt)], then the fields of [pkt]. *)
Definition expect {A} (t : struct_type) (get : packet -> option A) : M S A :=
  let* '(_, pkt) := p_ExpectPacket (ToPointer t) in
  match get pkt with Some a => ret a | None => gopanic TypeAssertion end.

Definition StartFMLEPublish (stream_id : Z) : M S unit :=
  let* fc_publish_tid :=
    expect TFMLEStart (fun p => match p with PFMLEStart p => Some (fml_TransactionId p) | _ => None end) in
  do* p_SendPacket (NewFMLEStartResPacket fc_publish_tid) 0 in
  let* create_stream_tid :=
    expect TCreateStream (fun p => match p with PCreateStream p => Some (crs_TransactionId p) | _ => None end) in
  do* p_SendPacket (NewCreateStreamResPacket create_stream_tid (float64_of_int stream_id)) 0 in
  do* expect TPublish (fun p => match p with PPublish _ => Some tt | _ => None end) in
  let* pkt := lift (set_all [(SCODE, SCODE_PublishStart); (SDESC, str "Started publishing stream.")]
                      (mkOnStatusCall AMF0_COMMAND_ON_FC_PUBLISH (osc_TransactionId NewOnStatusCallPacket)
                         (osc_Args NewOnStatusCallPacket) (osc_Data NewOnStatusCallPacket))) in
  do* p_SendPacket pkt stream_id in
  send_status [(SLEVEL, SLEVEL_Status); (SCODE, SCODE_PublishStart); (SDESC, str "Started publishing stream.");
               (SCLIENT_ID, SIG_CLIENT_ID)] stream_id.

(** ** The interface [Server] *)

(** The calls of the interface with their arguments; the [*Request] of the caller is
    the one in the state. *)
Inductive server_call :=
| CConnectApp
| CSetWindowAckSize (ack_size : Z)
| CSetPeerBandwidth (bandwidth : Z) (bw_type : byte)
| CReponseConnectApp (server_ip : gostring) (extra_data : list (list (gostring * gostring)))
| CCallOnBWDone
| CIdentifyClient (stream_id : Z)
| CStartPlay (stream_id : Z)
| CStartFlashPublish (stream_id : Z)
| CStartFMLEPublish (stream_id : Z)
| CPing (timestamp : Z).

(** A call; only [IdentifyClient] returns something beside the error. *)
Definition serve (order : list gostring -> list gostring) (fuel : nat) (c : server_call) :
    M (S * Request) (option (gostring * gostring)) :=
  let nothing (m : M (S * Request) unit) := do* m in ret None in
  match c with
  | CConnectApp => nothing (ConnectApp order)
  | CSetWindowAckSize ack_size => nothing (on_srv (SetWindowAckSize ack_size))
  | CSetPeerBandwidth bandwidth bw_type => nothing (on_srv (SetPeerBandwidth bandwidth bw_type))
  | CReponseConnectApp server_ip extra_data =>
      let* req := gets snd in nothing (on_srv (ReponseConnectApp req server_ip extra_data))
  | CCallOnBWDone => nothing (on_srv CallOnBWDone)
  | CIdentifyClient stream_id => let* r := on_srv (IdentifyClient fuel stream_id) in ret (Some r)
  | CStartPlay stream_id => nothing (on_srv (StartPlay stream_id))
  | CStartFlashPublish stream_id => nothing (on_srv (StartFlashPublish stream_id))
  | CStartFMLEPublish stream_id => nothing (on_srv (StartFMLEPublish stream_id))
  | CPing timestamp => nothing (on_srv (Ping timestamp))
  end.

(** A caller that makes the calls one after the other and gives up at an error. *)
Fixpoint serve_all (order : list gostring -> list gostring) (fuel : nat) (cs : list server_call) :
    M (S * Request) (list (option (gostring * gostring))) :=
  match cs with
  | [] => ret []
  | c :: cs => let* a := serve order fuel c in let* l := serve_all order fuel cs in ret (a :: l)
  end.

End Server.

(** ** Lemmas *)

(** The objects of the onStatus packets. *)
Definition status_object (l : list (gostring * gostring)) : Amf0Object :=
  object_of AMF0_Object (List.map (fun kv => (kv.1, mkAmf0Any AMF0_String (VString kv.2))) l).

Definition status_packet (name : gostring) (l : list (gostring * gostring)) : OnStatusCallPacket :=
  mkOnStatusCall name f64_0 NewAmf0Null (status_object l).

Definition entry_ok (kv : gostring * gostring) : Prop := key_ok kv.1 /\ str_ok kv.2.

Lemma status_keys l :
  (List.map (fun kv : gostring * gostring => (kv.1, mkAmf0Any AMF0_String (VString kv.2))) l).*1 = l.*1.
Proof. induction l as [|kv l IH]; [done|]. cbn. by rewrite IH. Qed.

Lemma status_object_ok l :
  l <> [] -> NoDup l.*1 -> Forall entry_ok l -> wf_object (status_object l) /\ full_object (status_object l).
Proof.
  intros Hne Hnd Hl. set (props := List.map (fun kv => (kv.1, mkAmf0Any AMF0_String (VString kv.2))) l).
  assert (props.*1 = l.*1) as Hk by apply status_keys.
  split.
  - change (AMF0_Object = AMF0_Object /\ wf_table (mkHashtable props.*1 props)).
    split; [done|]. apply wf_table_props. rewrite Hk. split; [done|]. split; [done|].
    unfold props. apply Forall_map. eapply Forall_impl; [exact Hl|]. intros kv [H1 H2]. by split_and!.
  - change (full_table (mkHashtable props.*1 props)). apply full_table_props. split; [unfold props; by destruct l|].
    unfold props. apply Forall_map. by apply Forall_true.
Qed.

(** Setting strings one after the other gives the object of the list. *)
Lemma set_all_status name acc l :
  NoDup (acc ++ l).*1 -> set_all l (status_packet name acc) = Ret (status_packet name (acc ++ l)).
Proof.
  revert acc. induction l as [|[k v] l IH]; intros acc Hnd; [by rewrite app_nil_r|]. cbn [set_all].
  assert (k ∉ acc.*1) as Hk.
  { rewrite fmap_app in Hnd. apply NoDup_app in Hnd as (_ & Hnd & _). intros Hin. apply (Hnd k Hin). by left. }
  unfold OnStatusCallPacket_Set, set_property. cbn [status_packet osc_Data osc_CommandName osc_TransactionId osc_Args].
  unfold NewAmf0. assert (Amf0Any_Size (mkAmf0Any AMF0_String (VString v)) = Ret (Amf0SizeString v)) as -> by reflexivity.
  assert (0 < Amf0SizeString v) as ->%Z.ltb_lt
    by (unfold Amf0SizeString, Amf0SizeUtf8; pose proof (zlen_nonneg v); lia).
  unfold status_object. rewrite object_of_Set by (by rewrite status_keys). cbn [omap].
  replace (acc ++ (k, v) :: l) with ((acc ++ [(k, v)]) ++ l) by (by rewrite <- app_assoc).
  rewrite <- IH by (by rewrite <- app_assoc). unfold status_packet, status_object. by rewrite map_app.
Qed.

(** A message the loop of the identification passes over. *)
Definition passed (wanted : packet -> bool) (reqs : requests_map) (m : Message) : Prop :=
  (MessageHeader_IsAmf0Command (Header m) = false /\ MessageHeader_IsAmf3Command (Header m) = false)
  \/ exists o, DecodeMessage reqs (Some m) = Ret o /\ forall p, o = Some p -> wanted p = false.

(** A command that carries the packet [p]. *)
Definition carries (reqs : requests_map) (m : Message) (p : packet) : Prop :=
  (MessageHeader_IsAmf0Command (Header m) = true \/ MessageHeader_IsAmf3Command (Header m) = true)
  /\ DecodeMessage reqs (Some m) = Ret (Some p).

(** The packets the two loops look for. *)
Definition wanted_first (p : packet) : bool :=
  match p with PCreateStream _ | PFMLEStart _ | PPlay _ => true | _ => false end.
Definition wanted_created (p : packet) : bool := match p with PPlay _ | PPublish _ => true | _ => false end.

(** What a client says and how it is identified: the messages to come, the type and
    the stream, the messages sent on the way and the messages left. *)
Inductive identified (reqs : requests_map) (stream_id : Z) :
    list Message -> gostring -> gostring -> list Message -> list Message -> Prop :=
| identified_play sk m p l :
    Forall (passed wanted_first reqs) sk -> carries reqs m (PPlay p) ->
    identified reqs stream_id (sk ++ m :: l) CLIENT_TYPE_Play (pl_StreamName p) [] l
| identified_fmle sk m p l :
    Forall (passed wanted_first reqs) sk -> carries reqs m (PFMLEStart p) ->
    identified reqs stream_id (sk ++ m :: l) CLIENT_TYPE_FMLEPublish (fml_StreamName p)
      [queued (NewFMLEStartResPacket (fml_TransactionId p)) 0] l
| identified_flash sk m c sk' m' p l :
    Forall (passed wanted_first reqs) sk -> carries reqs m (PCreateStream c) ->
    Forall (passed wanted_created reqs) sk' -> carries reqs m' (PPublish p) ->
    identified reqs stream_id (sk ++ m :: sk' ++ m' :: l) CLIENT_TYPE_FlashPublish (pb_StreamName p)
      [queued (NewCreateStreamResPacket (crs_TransactionId c) (float64_of_int stream_id)) 0] l
| identified_created_play sk m c sk' m' p l :
    Forall (passed wanted_first reqs) sk -> carries reqs m (PCreateStream c) ->
    Forall (passed wanted_created reqs) sk' -> carries reqs m' (PPlay p) ->
    identified reqs stream_id (sk ++ m :: sk' ++ m' :: l) CLIENT_TYPE_Play (pl_StreamName p)
      [queued (NewCreateStreamResPacket (crs_TransactionId c) (float64_of_int stream_id)) 0] l.

Section Laws.
Context {S : Type} `{LawfulProtocol S}.

(** [s'] is [s] after [n] messages were taken and [out] queued. *)
Definition advanced (l out : list Message) (s s' : S) : Prop :=
  inbox s' = l /\ outbox s' = outbox s ++ out /\ asked s' = asked s /\ is_open s'.

Lemma send_step_law {P} {E : Encoder P} {L : LawfulEncoder P} {A} (p : P) sid (k : M S A) l out s0 s (Q : outcome A * S -> Prop) :
  advanced l out s0 s -> valid p -> plain p ->
  (forall s', advanced l (out ++ [queued p sid]) s0 s' -> Q (k s')) ->
  Q ((do* p_SendPacket p sid in k) s).
Proof.
  intros (H1 & H2 & H3 & H4) Hv Hp Hk.
  destruct (send_queued _ _ _ p sid s H4 Hv Hp) as (s' & He & K1 & K2 & K3 & K4).
  rewrite (bind_Ret _ _ _ _ _ He). apply Hk. unfold advanced. rewrite K1, K2, K3, H1, H2, H3. by rewrite app_assoc.
Qed.

Lemma bind_ret_tt (m : M S unit) s : bind m (fun _ => ret tt) s = m s.
Proof. unfold bind, ret. by destruct (m s) as [[[]| | |] ?]. Qed.

Lemma command_loop_first {A} fuel (handle : packet -> option (M S A)) wanted skipped m l p act out s0 s :
  (forall p, wanted p = false -> handle p = None) ->
  advanced (skipped ++ m :: l) out s0 s -> Forall (passed wanted (asked s0)) skipped ->
  carries (asked s0) m p -> handle p = Some act -> (List.length skipped < fuel)%nat ->
  exists s', command_loop fuel handle s = act s' /\ advanced l out s0 s'.
Proof.
  intros Hw. revert skipped s. induction fuel as [|fuel IH]; intros skipped s Ha Hsk [Hc Hd] Hh Hf; [lia|].
  cbn [command_loop]. destruct Ha as (H1 & H2 & H3 & H4).
  assert (forall m' l', inbox s = m' :: l' -> exists s1, p_RecvMessage s = (Ret m', s1) /\ advanced l' out s0 s1) as Hr.
  { intros m' l' Hi. destruct (recv_next s m' l' Hi) as (s1 & He & K1 & K2 & K3 & K4).
    exists s1. split; [done|]. unfold advanced. split_and!; [done|congruence|congruence|auto]. }
  destruct skipped as [|m' skipped]; cbn [app] in H1; destruct (Hr _ _ H1) as (s1 & He & Ha);
    rewrite (bind_Ret _ _ _ _ _ He); destruct (Ha) as (_ & _ & Hask & _).
  - assert (negb (MessageHeader_IsAmf0Command (Header m)) && negb (MessageHeader_IsAmf3Command (Header m)) = false) as ->.
    { destruct Hc as [-> | ->]; [done|apply andb_false_r]. }
    rewrite (bind_Ret _ _ _ (Some p) s1) by (by rewrite decode_asked, Hask, Hd). rewrite Hh. by exists s1.
  - apply Forall_cons in Hsk as [Hp Hsk]. simpl in Hf.
    destruct (IH skipped s1 Ha Hsk (conj Hc Hd) Hh ltac:(lia)) as (s' & He' & Ha').
    exists s'. split; [|done]. rewrite <- He'. destruct Hp as [[-> ->]|(o & Ho & Hn)]; [done|].
    destruct (_ && _); [done|]. rewrite (bind_Ret _ _ _ o s1) by (by rewrite decode_asked, Hask, Ho).
    destruct o as [p'|]; [|done]. by rewrite (Hw p' (Hn p' eq_refl)).
Qed.

Lemma advanced_refl s : is_open s -> advanced (inbox s) [] s s.
Proof. intros Ho. unfold advanced. by rewrite app_nil_r. Qed.

(** The answer to [createStream], then the second loop. *)
Lemma identify_created fuel c sid sk m l p res s0 s :
  advanced (sk ++ m :: l) [] s0 s -> Forall (passed wanted_created (asked s0)) sk -> carries (asked s0) m p ->
  match p with
  | PPlay p => res = (CLIENT_TYPE_Play, pl_StreamName p)
  | PPublish p => res = (CLIENT_TYPE_FlashPublish, pb_StreamName p)
  | _ => False
  end -> (List.length sk < fuel)%nat ->
  exists s', identify_create_stream_client fuel c sid s = (Ret res, s')
    /\ advanced l [queued (NewCreateStreamResPacket (crs_TransactionId c) (float64_of_int sid)) 0] s0 s'.
Proof.
  intros Ha Hsk Hc Hres Hf. unfold identify_create_stream_client.
  apply (send_step_law (NewCreateStreamResPacket (crs_TransactionId c) (float64_of_int sid)) 0 _ _ _ s0 s
    (fun r => exists s', r = (Ret res, s') /\ advanced l _ s0 s') Ha); [split; [done|apply null_NewAmf0Null]|done|].
  intros s1 Ha1. match goal with |- context [command_loop fuel ?f] => set (h := f) end.
  assert (forall p, wanted_created p = false -> h p = None) as Hw by (by intros []).
  destruct p as [| |p|p| | | | |]; try done; subst res.
  - destruct (command_loop_first fuel h wanted_created sk m l _ (identify_play_client p) _ s0 s1 Hw Ha1 Hsk Hc eq_refl Hf)
      as (s' & -> & Ha'). by exists s'.
  - destruct (command_loop_first fuel h wanted_created sk m l _ (identify_flash_publish_client p) _ s0 s1 Hw Ha1 Hsk Hc eq_refl Hf)
      as (s' & -> & Ha'). by exists s'.
Qed.

Lemma IdentifyClient_spec fuel sid s ty name out rest :
  identified (asked s) sid (inbox s) ty name out rest -> is_open s -> (List.length (inbox s) < fuel)%nat ->
  exists s', IdentifyClient fuel sid s = (Ret (ty, name), s') /\ advanced rest out s s'.
Proof.
  intros Hi Ho Hf. pose proof (advanced_refl s Ho) as Ha. unfold IdentifyClient.
  match goal with |- context [command_loop fuel ?f] => set (h := f) end.
  assert (forall p, wanted_first p = false -> h p = None) as Hw by (by intros []).
  remember (inbox s) as i eqn:Heq. destruct Hi as [sk m p l Hsk Hc|sk m p l Hsk Hc|sk m c sk' m' p l Hsk Hc Hsk' Hc'
    |sk m c sk' m' p l Hsk Hc Hsk' Hc']; rewrite length_app in Hf; simpl in Hf.
  - destruct (command_loop_first fuel h wanted_first sk m l _ (identify_play_client p) [] s s Hw Ha Hsk Hc eq_refl)
      as (s' & -> & Ha'); [lia|]. by exists s'.
  - destruct (command_loop_first fuel h wanted_first sk m l _ (identify_fmle_publish_client p) [] s s Hw Ha Hsk Hc eq_refl)
      as (s1 & -> & Ha1); [lia|]. unfold identify_fmle_publish_client.
    apply (send_step_law (NewFMLEStartResPacket (fml_TransactionId p)) 0 _ _ _ s s1
      (fun r => exists s', r = (Ret _, s') /\ advanced l _ s s') Ha1); [|done|intros s2 Ha2; by exists s2].
    split_and!; try done; [by left|by right].
  - destruct (command_loop_first fuel h wanted_first sk m _ _ (identify_create_stream_client fuel c sid) [] s s Hw Ha Hsk Hc eq_refl)
      as (s1 & -> & Ha1); [lia|]. rewrite length_app in Hf. apply (identify_created _ _ _ sk' m' l _ _ s s1 Ha1 Hsk' Hc'); [done|lia].
  - destruct (command_loop_first fuel h wanted_first sk m _ _ (identify_create_stream_client fuel c sid) [] s s Hw Ha Hsk Hc eq_refl)
      as (s1 & -> & Ha1); [lia|]. rewrite length_app in Hf. apply (identify_created _ _ _ sk' m' l _ _ s s1 Ha1 Hsk' Hc'); [done|lia].
Qed.

(** One more onStatus packet. *)
Lemma status_valid name l :
  str_ok name -> l <> [] -> NoDup l.*1 -> Forall entry_ok l -> valid (status_packet name l).
Proof. intros Hn Hne Hnd Hl. split; [done|]. split; [apply null_NewAmf0Null|]. by apply status_object_ok. Qed.

Lemma status_step_law {A} l sid (k : M S A) i out s0 s (Q : outcome A * S -> Prop) :
  advanced i out s0 s -> l <> [] -> NoDup l.*1 -> Forall entry_ok l ->
  (forall s', advanced i (out ++ [queued (status_packet AMF0_COMMAND_ON_STATUS l) sid]) s0 s' -> Q (k s')) ->
  Q ((do* send_status l sid in k) s).
Proof.
  intros Ha Hne Hnd Hl Hk. unfold send_status. rewrite bind_assoc.
  erewrite bind_Ret by (unfold lift; change NewOnStatusCallPacket with (status_packet AMF0_COMMAND_ON_STATUS []);
    by rewrite set_all_status).
  apply (send_step_law (status_packet AMF0_COMMAND_ON_STATUS l) sid k i out s0 s Q Ha); [by apply status_valid|done|done].
Qed.

Lemma expect_step_law {A B} t (get : packet -> option A) (k : A -> M S B) sk m l p a out s0 s
    (Q : outcome B * S -> Prop) :
  advanced (sk ++ m :: l) out s0 s -> Forall (dropped (asked s0) t) sk ->
  DecodeMessage (asked s0) (Some m) = Ret (Some p) -> dynamic_type p = t -> get p = Some a ->
  (forall s', advanced l out s0 s' -> Q (k a s')) -> Q ((let* x := expect t get in k x) s).
Proof.
  intros (H1 & H2 & H3 & H4) Hsk Hm Ht Hg Hk. rewrite <- H3 in Hsk, Hm.
  destruct (expect_first t s sk m l p H1 Hsk Hm Ht) as (s' & He & K1 & K2 & K3 & K4).
  unfold expect. rewrite bind_assoc, (bind_Ret _ _ _ _ _ He), Hg. apply Hk.
  unfold advanced. split_and!; [done|congruence|congruence|auto].
Qed.

End Laws.

(** ** Properties *)

(** See the statement as a postcondition of the run. *)
Ltac as_post Q :=
  match goal with
  | |- exists s' : ?T, ?m = (Ret tt, s') /\ inbox s' = ?i /\ outbox s' = ?o =>
      set (Q := fun r : outcome unit * T => exists s' : T, r = (Ret tt, s') /\ inbox s' = i /\ outbox s' = o);
      change (Q m)
  end.

Ltac entries_ok :=
  first [ discriminate | by apply (bool_decide_unpack _) | by repeat (split || constructor) ].


(** C21. [StartPlay] queues five packets, in this order: StreamBegin on the control
    stream, and on the stream of the client the onStatus of the reset and of the
    start, the sample access and the start of the data; each is the message that
    carries the encoded packet. *)
Theorem start_play {S} `{LawfulProtocol S} stream_id (s : S) :
  is_open s ->
  exists s', StartPlay stream_id s = (Ret tt, s') /\ inbox s' = inbox s
    /\ outbox s' = outbox s ++
         [queued (mkUserControl PCUCStreamBegin stream_id 0) 0;
          queued (status_packet AMF0_COMMAND_ON_STATUS
            [(SLEVEL, SLEVEL_Status); (SCODE, SCODE_StreamReset); (SDESC, str "Playing and resetting stream.");
             (SDETAILS, str "stream"); (SCLIENT_ID, SIG_CLIENT_ID)]) stream_id;
          queued (status_packet AMF0_COMMAND_ON_STATUS
            [(SLEVEL, SLEVEL_Status); (SCODE, SCODE_StreamStart); (SDESC, str "Started playing stream.");
             (SDETAILS, str "stream"); (SCLIENT_ID, SIG_CLIENT_ID)]) stream_id;
          queued NewSampleAccessPacket stream_id;
          queued (mkOnStatusData AMF0_COMMAND_ON_STATUS (status_object [(SCODE, SCODE_DataStart)])) stream_id].
Proof.
  intros Ho. as_post Q. unfold StartPlay.
  eapply send_step_law; [by apply advanced_refl|done|done|intros s1 Ha1].
  eapply status_step_law; [exact Ha1|entries_ok..|intros s2 Ha2].
  eapply status_step_law; [exact Ha2|entries_ok..|intros s3 Ha3].
  eapply send_step_law; [exact Ha3|done|done|intros s4 Ha4].
  erewrite bind_Ret by reflexivity. rewrite <- bind_ret_tt.
  apply (send_step_law (mkOnStatusData AMF0_COMMAND_ON_STATUS (status_object [(SCODE, SCODE_DataStart)])) stream_id
    (ret tt) _ _ s s4 Q Ha4); [split; [done|apply status_object_ok; entries_ok]|done|].
  intros s5 (H1 & H2 & _). exists s5. split; [done|]. split; [done|]. rewrite H2. by rewrite <- !app_assoc.
Qed.

(** A session of a Flash publisher, with a video message between the commands. *)
Definition sample_publish : packet :=
  PPublish (mkPublish AMF0_COMMAND_PUBLISH f64_0 NewAmf0Null (str "livestream") (str "live")).

Definition flash_session : session :=
  session_of [video_message; command_message (PCreateStream NewCreateStreamPacket); video_message;
              command_message sample_publish; video_message].


Lemma start_play_witness :
  exists s', StartPlay 1 (session_of []) = (Ret tt, s') /\ inbox s' = []
    /\ outbox s' = [] ++
         [queued (mkUserControl PCUCStreamBegin 1 0) 0;
          queued (status_packet AMF0_COMMAND_ON_STATUS
            [(SLEVEL, SLEVEL_Status); (SCODE, SCODE_StreamReset); (SDESC, str "Playing and resetting stream.");
             (SDETAILS, str "stream"); (SCLIENT_ID, SIG_CLIENT_ID)]) 1;
          queued (status_packet AMF0_COMMAND_ON_STATUS
            [(SLEVEL, SLEVEL_Status); (SCODE, SCODE_StreamStart); (SDESC, str "Started playing stream.");
             (SDETAILS, str "stream"); (SCLIENT_ID, SIG_CLIENT_ID)]) 1;
          queued NewSampleAccessPacket 1;
          queued (mkOnStatusData AMF0_COMMAND_ON_STATUS (status_object [(SCODE, SCODE_DataStart)])) 1].
Proof. exact (start_play 1 (session_of []) eq_refl). Defined.

(** C18. The dialogue of [StartFMLEPublish]: with an FCPublish, a createStream and a
    publish to come, in this order and with other packets between them, it answers
    each with the transaction of its command, tells the stream id, and ends with
    the onFCPublish and the onStatus of the start; it has taken exactly the
    messages up to the publish. *)
Theorem start_fmle_publish {S} `{LawfulProtocol S} stream_id (s : S) sk1 m1 f sk2 m2 c sk3 m3 p l :
  is_open s -> inbox s = sk1 ++ m1 :: sk2 ++ m2 :: sk3 ++ m3 :: l ->
  Forall (dropped (asked s) TFMLEStart) sk1 -> DecodeMessage (asked s) (Some m1) = Ret (Some (PFMLEStart f)) ->
  Forall (dropped (asked s) TCreateStream) sk2 -> DecodeMessage (asked s) (Some m2) = Ret (Some (PCreateStream c)) ->
  Forall (dropped (asked s) TPublish) sk3 -> DecodeMessage (asked s) (Some m3) = Ret (Some (PPublish p)) ->
  exists s', StartFMLEPublish stream_id s = (Ret tt, s') /\ inbox s' = l
    /\ outbox s' = outbox s ++
         [queued (NewFMLEStartResPacket (fml_TransactionId f)) 0;
          queued (NewCreateStreamResPacket (crs_TransactionId c) (float64_of_int stream_id)) 0;
          queued (status_packet AMF0_COMMAND_ON_FC_PUBLISH
            [(SCODE, SCODE_PublishStart); (SDESC, str "Started publishing stream.")]) stream_id;
          queued (status_packet AMF0_COMMAND_ON_STATUS
            [(SLEVEL, SLEVEL_Status); (SCODE, SCODE_PublishStart); (SDESC, str "Started publishing stream.");
             (SCLIENT_ID, SIG_CLIENT_ID)]) stream_id].
Proof.
  intros Ho Hi Hs1 Hm1 Hs2 Hm2 Hs3 Hm3. as_post Q. unfold StartFMLEPublish.
  pose proof (advanced_refl s Ho) as Ha. rewrite Hi in Ha.
  eapply expect_step_law; [exact Ha|exact Hs1|exact Hm1|reflexivity..|intros s1 Ha1].
  eapply send_step_law; [exact Ha1| |done|intros s2 Ha2]; [split_and!; try done; [by left|by right]|].
  eapply expect_step_law; [exact Ha2|exact Hs2|exact Hm2|reflexivity..|intros s3 Ha3].
  eapply send_step_law; [exact Ha3|split; [done|apply null_NewAmf0Null]|done|intros s4 Ha4].
  eapply expect_step_law; [exact Ha4|exact Hs3|exact Hm3|reflexivity..|intros s5 Ha5].
  erewrite bind_Ret by (unfold lift; change (mkOnStatusCall AMF0_COMMAND_ON_FC_PUBLISH _ _ _)
    with (status_packet AMF0_COMMAND_ON_FC_PUBLISH []); rewrite set_all_status by entries_ok; reflexivity).
  eapply send_step_law; [exact Ha5|by apply status_valid; entries_ok|done|intros s6 Ha6].
  rewrite <- bind_ret_tt. eapply status_step_law; [exact Ha6|entries_ok..|].
  intros s7 (H1 & H2 & _). exists s7. split; [done|]. split; [done|]. rewrite H2. by rewrite <- !app_assoc.
Qed.

Definition sample_fcpublish : FMLEStartPacket :=
  mkFMLEStart AMF0_COMMAND_FC_PUBLISH (float64_of_int 3) NewAmf0Null (str "livestream").

Lemma start_fmle_publish_witness :
  exists s', StartFMLEPublish 1 (session_of [command_message (PFMLEStart sample_fcpublish); video_message;
      command_message (PCreateStream NewCreateStreamPacket); command_message sample_publish; video_message])
    = (Ret tt, s') /\ inbox s' = [video_message]
    /\ outbox s' = [] ++
         [queued (NewFMLEStartResPacket (float64_of_int 3)) 0;
          queued (NewCreateStreamResPacket (float64_of_int 2) (float64_of_int 1)) 0;
          queued (status_packet AMF0_COMMAND_ON_FC_PUBLISH
            [(SCODE, SCODE_PublishStart); (SDESC, str "Started publishing stream.")]) 1;
          queued (status_packet AMF0_COMMAND_ON_STATUS
            [(SLEVEL, SLEVEL_Status); (SCODE, SCODE_PublishStart); (SDESC, str "Started publishing stream.");
             (SCLIENT_ID, SIG_CLIENT_ID)]) 1].
Proof.
  destruct (start_fmle_publish 1 (session_of [command_message (PFMLEStart sample_fcpublish); video_message;
      command_message (PCreateStream NewCreateStreamPacket); command_message sample_publish; video_message])
    [] (command_message (PFMLEStart sample_fcpublish)) sample_fcpublish [video_message]
    (command_message (PCreateStream NewCreateStreamPacket)) NewCreateStreamPacket [] (command_message sample_publish)
    (mkPublish AMF0_COMMAND_PUBLISH f64_0 NewAmf0Null (str "livestream") (str "live")) [video_message]) as (s' & H1 & H2 & H3);
    [done|done|constructor|vm_compute; reflexivity| |vm_compute; reflexivity|constructor|vm_compute; reflexivity
    |exists s'; auto].
  constructor; [exists None; split; [reflexivity|discriminate]|constructor].
Defined.

(** ** connect *)

(** The accessors of a well-formed object do not panic. *)
Lemma prop_accessors k o :
  wf_object o ->
  (exists x, Amf0Object_GetPropertyString k o = Ret x) /\ (exists x, Amf0Object_GetPropertyNumber k o = Ret x).
Proof.
  destruct o as [m [index props]]. intros [_ Hw]. apply wf_table_props in Hw as (_ & _ & Hp).
  unfold Amf0Object_GetPropertyString, Amf0Object_GetPropertyNumber, Amf0UnSortedHashtable_GetPropertyString,
    Amf0UnSortedHashtable_GetPropertyNumber. cbn [obj_properties ht_props].
  assert (forall v, map_get k props = Some v -> wf_any v) as Hv.
  { induction Hp as [|[k' v'] l [_ [Hv _]] _ IH]; [done|]. cbn [map_get]. case_decide; [by intros ? [= <-]|done]. }
  destruct (map_get k props) as [[mk val]|]; [|split; by eexists]. specialize (Hv _ eq_refl).
  unfold Amf0Any_String, Amf0Any_Number. cbn [Marker Value].
  split; (case_decide as Hm; [|by eexists]); rewrite Hm in Hv;
    destruct val; simpl in Hv; (eexists; reflexivity) || (exfalso; by intuition discriminate).
Qed.

Lemma connect_wf reqs m p : DecodeMessage reqs (Some m) = Ret (Some (PConnectApp p)) -> wf_object (cap_CommandObject p).
Proof.
  unfold DecodeMessage. destruct (Payload m) as [b|]; [|done]. intros Hd.
  pose proof (DecodePacket_safe_lemma reqs (Header m) b) as Hs. rewrite Hd in Hs. apply Hs.
Qed.

(** The value of a property of the command object, when it has it. *)
Definition string_prop (k : gostring) (p : ConnectAppPacket) : option gostring :=
  match Amf0Object_GetPropertyString k (cap_CommandObject p) with Ret x => x | _ => None end.
Definition number_prop (k : gostring) (p : ConnectAppPacket) : option Z :=
  match Amf0Object_GetPropertyNumber k (cap_CommandObject p) with Ret x => x | _ => None end.

(** The request before its URL is looked into. *)
Definition filled (p : ConnectAppPacket) (tcUrl : gostring) (req : Request) : Request :=
  mkRequest tcUrl
    (match string_prop (str "pageUrl") p with Some v => v | None => PageUrl req end)
    (match string_prop (str "swfUrl") p with Some v => v | None => SwfUrl req end)
    (match number_prop (str "objectEncoding") p with Some v => int_of_float64 v | None => ObjectEncoding req end)
    (Schema req) (Vhost req) (Port req) (App req) (Stream req).

(** C19. [ConnectApp] takes the first connect command of the client and fills the
    request from it: without a tcUrl it fails with [ERROR_RTMP_REQ_CONNECT];
    otherwise the URLs and the encoding of the command are stored, fields the
    command does not have keep their values, and the outcome is that of
    [discovery_app] on the request.  It takes exactly the messages up to the
    command and sends nothing. *)
Theorem connect_app {S} `{LawfulProtocol S} order (s : S) req sk m p l :
  is_open s -> inbox s = sk ++ m :: l -> Forall (dropped (asked s) TConnectApp) sk ->
  DecodeMessage (asked s) (Some m) = Ret (Some (PConnectApp p)) ->
  exists s', inbox s' = l /\ outbox s' = outbox s
    /\ ConnectApp order (s, req)
       = match string_prop (str "tcUrl") p with
         | None => (Fail (Error ERROR_RTMP_REQ_CONNECT (str "invalid request, must specifies the tcUrl.")),
                    (s', set_TcUrl [] req))
         | Some u => let '(o, req') := discovery_app order (filled p u req) in (o, (s', req'))
         end.
Proof.
  intros Ho Hi Hsk Hm. destruct (expect_first TConnectApp s sk m l _ Hi Hsk Hm eq_refl) as (s' & He & K1 & K2 & _).
  exists s'. split; [done|]. split; [done|]. pose proof (connect_wf _ _ _ Hm) as Hw.
  unfold ConnectApp. erewrite bind_Ret by (unfold on_srv, zoom; cbn [fst]; by rewrite He). cbn [fst snd].
  unfold string_prop at 1.
  destruct (prop_accessors (str "tcUrl") _ Hw) as [[u Hu] _]. rewrite Hu. erewrite bind_Ret by reflexivity.
  destruct u as [u|]; [|reflexivity]. erewrite bind_Ret by reflexivity.
  unfold filled, string_prop, number_prop.
  destruct (prop_accessors (str "pageUrl") _ Hw) as [[pu Hpu] _]. rewrite Hpu. do 2 erewrite bind_Ret by reflexivity.
  destruct (prop_accessors (str "swfUrl") _ Hw) as [[su Hsu] _]. rewrite Hsu. do 2 erewrite bind_Ret by reflexivity.
  destruct (prop_accessors (str "objectEncoding") _ Hw) as [_ [oe Hoe]]. rewrite Hoe. do 2 erewrite bind_Ret by reflexivity.
  unfold on_req, zoom. cbn [fst snd]. by destruct pu, su, oe.
Qed.

Definition sample_connect : ConnectAppPacket :=
  mkConnectApp AMF0_COMMAND_CONNECT f64_1
    (status_object [(str "app", str "live"); (str "tcUrl", str "rtmp://10.0.0.1:19350/live?vhost=demo")]).

Lemma connect_app_witness :
  exists s', inbox s' = [video_message] /\ outbox s' = []
    /\ ConnectApp (fun l => l) (session_of [command_message (PConnectApp sample_connect); video_message], NewRequest)
       = let '(o, req') := discovery_app (fun l => l) (filled sample_connect
           (str "rtmp://10.0.0.1:19350/live?vhost=demo") NewRequest) in (o, (s', req')).
Proof.
  destruct (connect_app (fun l => l) (session_of [command_message (PConnectApp sample_connect); video_message]) NewRequest
    [] (command_message (PConnectApp sample_connect)) sample_connect [video_message]) as (s' & H1 & H2 & H3);
    [done|done|constructor|vm_compute; reflexivity|].
  exists s'. split; [done|]. split; [done|]. rewrite H3. reflexivity.
Defined.

(** ** The answer to connect *)

Definition str_any (s : gostring) : Amf0Any := mkAmf0Any AMF0_String (VString s).
Definition num_any (z : Z) : Amf0Any := mkAmf0Any AMF0_Number (VFloat64 (float64_of_int z)).

Definition data_array (l : list (gostring * gostring)) : Amf0EcmaArray :=
  ecma_of AMF0_EcmaArray 0 (List.map (fun kv => (kv.1, str_any kv.2)) l).

Lemma data_set_ok k v a a' : ecma_set k (Some (str_any v)) a = Ret a' -> data_set k v a = Ret a'.
Proof.
  unfold ecma_set, data_set, NewAmf0. change (mkAmf0Any AMF0_String (VString v)) with (str_any v).
  destruct (Amf0EcmaArray_Set k (Some (str_any v)) a) as [[] ?]; by intros [= <-].
Qed.

Lemma data_set_all_array acc l :
  NoDup (acc ++ l).*1 -> data_set_all l (data_array acc) = Ret (data_array (acc ++ l)).
Proof.
  revert acc. induction l as [|[k v] l IH]; intros acc Hnd; [by rewrite app_nil_r|]. cbn [data_set_all].
  assert (k ∉ acc.*1) as Hk.
  { rewrite fmap_app in Hnd. apply NoDup_app in Hnd as (_ & Hnd & _). intros Hin. apply (Hnd k Hin). by left. }
  replace (acc ++ (k, v) :: l) with ((acc ++ [(k, v)]) ++ l) by (by rewrite <- app_assoc).
  rewrite <- IH by (by rewrite <- app_assoc).
  unfold data_array. rewrite (data_set_ok k v _ _ (ecma_of_Set _ _ _ k (str_any v) ltac:(by rewrite status_keys))).
  by rewrite map_app.
Qed.

Lemma data_array_ok l :
  l <> [] -> NoDup l.*1 -> Forall entry_ok l ->
  wf_any (mkAmf0Any AMF0_EcmaArray (VEcmaArray (data_array l)))
  /\ full_any (mkAmf0Any AMF0_EcmaArray (VEcmaArray (data_array l))).
Proof.
  intros Hne Hnd Hl. destruct (status_object_ok l Hne Hnd Hl) as [[_ Hw] Hf].
  set (props := List.map (fun kv => (kv.1, str_any kv.2)) l) in *. split; [|exact Hf].
  split; [done|]. unfold data_array, ecma_of. fold props.
  assert (match props with [] => 0 | _ => to_uint 32 (zlen props) end = to_uint 32 (zlen props)) as -> by (by destruct props).
  split; [done|]. split; [by apply Z.mod_pos_bound|]. split; [by right|exact Hw].
Qed.

Lemma set_property_new k v a acc :
  NewAmf0 v = Some a -> wf_any a -> full_any a -> k ∉ acc.*1 ->
  set_property k v (object_of AMF0_Object acc) = Ret (object_of AMF0_Object (acc ++ [(k, a)])).
Proof.
  intros Hv Hw Hf Hk. unfold set_property. rewrite Hv, size_any by done.
  assert (0 < zlen (enc_any a)) as ->%Z.ltb_lt by (destruct a as [m [| | | |[? []]|[? ? []]]]; apply zlen_cons_lt).
  by rewrite object_of_Set.
Qed.

(** The packet of the answer with these properties and this information. *)
Definition connect_res (props info : list (gostring * Amf0Any)) : ConnectAppResPacket :=
  mkConnectAppRes AMF0_COMMAND_RESULT f64_1 (object_of AMF0_Object props) (object_of AMF0_Object info).

Lemma props_set k v a props info :
  NewAmf0 v = Some a -> wf_any a -> full_any a -> k ∉ props.*1 ->
  ConnectAppResPacket_PropsSet k v (connect_res props info) = Ret (connect_res (props ++ [(k, a)]) info).
Proof. intros. unfold ConnectAppResPacket_PropsSet. cbn [connect_res car_Props]. by rewrite (set_property_new k v a). Qed.

Lemma info_set k v a props info :
  NewAmf0 v = Some a -> wf_any a -> full_any a -> k ∉ info.*1 ->
  ConnectAppResPacket_InfoSet k v (connect_res props info) = Ret (connect_res props (info ++ [(k, a)])).
Proof. intros. unfold ConnectAppResPacket_InfoSet. cbn [connect_res car_Info]. by rewrite (set_property_new k v a). Qed.

(** One setter of the answer: the key is new and the value well-formed. *)
Ltac set_next lem :=
  erewrite bind_Ret by (unfold lift; erewrite lem by (done || by apply (bool_decide_unpack _)); reflexivity);
  cbn [app].

Definition connect_props : list (gostring * Amf0Any) :=
  [(str "fmsVer", str_any (str "FMS/" ++ SIG_FMS_VER)); (str "capabilities", num_any 127); (str "mode", num_any 1)].

Definition connect_info (encoding : Z) (data : list (gostring * gostring)) : list (gostring * Amf0Any) :=
  [(SLEVEL, str_any SLEVEL_Status); (SCODE, str_any SCODE_ConnectSuccess); (SDESC, str_any (str "Connection succeeded"));
   (str "objectEncoding", num_any encoding); (str "data", mkAmf0Any AMF0_EcmaArray (VEcmaArray (data_array data)))].

(** The entries of the data: the version, the address of the server, the extra data. *)
Definition connect_data (server_ip : gostring) (extra : list (list (gostring * gostring))) : list (gostring * gostring) :=
  (str "version", SIG_FMS_VER)
  :: (if bool_decide (server_ip = []) then [] else [(str "srs_server_ip", server_ip)]) ++ concat extra.

Lemma objects_ok acc :
  acc <> [] -> NoDup acc.*1 -> Forall (fun kv => prop_ok kv /\ full_any kv.2) acc -> obj_ok (object_of AMF0_Object acc).
Proof.
  intros Hne Hnd Hl. apply Forall_and in Hl as [Hp Hf]. apply obj_ok_wf.
  - change (AMF0_Object = AMF0_Object /\ wf_table (mkHashtable acc.*1 acc)). split; [done|]. by apply wf_table_props.
  - change (full_table (mkHashtable acc.*1 acc)). by apply full_table_props.
Qed.

(** The arguments of the answer: distinct keys, strings that fit. *)
Definition response_ok (server_ip : gostring) (extra : list (list (gostring * gostring))) : Prop :=
  NoDup (connect_data server_ip extra).*1 /\ Forall entry_ok (connect_data server_ip extra).

Lemma num_any_wf z : wf_any (num_any z).
Proof. split; [done|]. apply float64_of_int_range. Qed.

Definition connect_answer (encoding : Z) (server_ip : gostring) (extra : list (list (gostring * gostring))) :
    ConnectAppResPacket :=
  connect_res connect_props (connect_info encoding (connect_data server_ip extra)).

Lemma connect_answer_valid encoding server_ip extra :
  response_ok server_ip extra -> valid (connect_answer encoding server_ip extra).
Proof.
  intros (Hnd & Hl). destruct (data_array_ok (connect_data server_ip extra) ltac:(done) Hnd Hl) as [Hdw Hdf].
  pose proof (num_any_wf encoding) as Hew.
  split; [done|]. cbn [connect_answer connect_res car_Props car_Info].
  split; apply objects_ok; try done; try (by apply (bool_decide_unpack _)).
  - repeat constructor; done.
  - do 3 (constructor; [done|]). constructor; [done|]. constructor; [|done]. by split; [split; [done|split]|].
Qed.

(** The answer is built without an error, and sent. *)
Lemma ReponseConnectApp_sends {S} `{Protocol S} req server_ip extra (s : S) :
  response_ok server_ip extra ->
  ReponseConnectApp req server_ip extra s = p_SendPacket (connect_answer (ObjectEncoding req) server_ip extra) 0 s.
Proof.
  intros (Hnd & Hl). set (data := connect_data server_ip extra) in *.
  destruct (data_array_ok data ltac:(done) Hnd Hl) as [Hdw Hdf].
  pose proof (num_any_wf (ObjectEncoding req)) as Hew.
  unfold ReponseConnectApp.
  erewrite bind_Ret by (unfold lift; change NewAmf0EcmaArray with (data_array []);
    change (_ :: _ ++ _) with data; by rewrite data_set_all_array).
  change NewConnectAppResPacket with (connect_res [] []).
  do 3 set_next props_set. do 5 set_next info_set. reflexivity.
Qed.

(** C20. The answer to connect: for every request, and entries of
    distinct keys, [ReponseConnectApp] queues one message, the encoded _result of
    the connect transaction with the properties of the server and the information
    of the success, the data included. *)
Theorem response_connect_app {S} `{LawfulProtocol S} (s : S) req server_ip extra :
  is_open s -> response_ok server_ip extra ->
  exists s', ReponseConnectApp req server_ip extra s = (Ret tt, s') /\ inbox s' = inbox s
    /\ outbox s' = outbox s ++
         [queued (connect_res connect_props
                   (connect_info (ObjectEncoding req) (connect_data server_ip extra))) 0].
Proof.
  intros Ho Hok. rewrite ReponseConnectApp_sends by done.
  destruct (send_queued _ _ _ (connect_answer (ObjectEncoding req) server_ip extra) 0 s Ho (connect_answer_valid _ _ _ Hok))
    as (s' & He & H1 & H2 & _); [done|]. by exists s'.
Qed.

Lemma response_connect_app_witness :
  exists s', ReponseConnectApp NewRequest (str "10.0.0.7") [[(str "srs_id", str "42")]] (session_of []) = (Ret tt, s')
    /\ inbox s' = inbox (session_of [])
    /\ outbox s' = outbox (session_of []) ++
         [queued (connect_res connect_props (connect_info 0 (connect_data (str "10.0.0.7") [[(str "srs_id", str "42")]]))) 0].
Proof.
  apply (response_connect_app (session_of []) NewRequest (str "10.0.0.7") [[(str "srs_id", str "42")]]); [done|].
  split; [by apply (bool_decide_unpack _)|by repeat constructor].
Defined.

(** C22. The calls of one packet: [SetWindowAckSize], [SetPeerBandwidth],
    [CallOnBWDone], [Ping] and [StartFlashPublish], one after the other, queue one
    message each, in this order, with the bytes of the protocol: the window and the
    bandwidth as four bytes, the type of the bandwidth behind it, the onBWDone
    command, the ping with its time, and the onStatus of the publishing. *)
Theorem one_packet_calls {S} `{LawfulProtocol S} ack_size bandwidth bw_type timestamp stream_id (s : S) :
  is_open s ->
  exists s',
    (do* SetWindowAckSize ack_size in do* SetPeerBandwidth bandwidth bw_type in do* CallOnBWDone in
     do* Ping timestamp in StartFlashPublish stream_id) s = (Ret tt, s')
    /\ inbox s' = inbox s
    /\ exists m1 m2 m3 m4 m5, outbox s' = outbox s ++ [m1; m2; m3; m4; m5]
      /\ Payload m1 = Some (be_bytes 4 ack_size) /\ MessageType (Header m1) = RTMP_MSG_WindowAcknowledgementSize
      /\ Payload m2 = Some (be_bytes 4 bandwidth ++ [bw_type]) /\ MessageType (Header m2) = RTMP_MSG_SetPeerBandwidth
      /\ Payload m3 = Some (enc_string (str "onBWDone") ++ enc_number f64_0 ++ [AMF0_Null])
      /\ Payload m4 = Some (be_bytes 2 6 ++ be_bytes 4 timestamp)
      /\ MessageType (Header m4) = RTMP_MSG_UserControlMessage
      /\ m5 = queued (status_packet AMF0_COMMAND_ON_STATUS
                [(SLEVEL, SLEVEL_Status); (SCODE, SCODE_PublishStart); (SDESC, str "Started publishing stream.");
                 (SCLIENT_ID, SIG_CLIENT_ID)]) stream_id.
Proof.
  intros Ho.
  set (Q := fun r : outcome unit * S => exists s', r = (Ret tt, s') /\ inbox s' = inbox s
    /\ outbox s' = outbox s ++
        [queued (mkSetWindowAckSize ack_size) 0; queued (mkSetPeerBandwidth bandwidth bw_type) 0;
         queued NewOnBWDonePacket 0; queued (mkUserControl PCUCPingRequest timestamp 0) 0;
         queued (status_packet AMF0_COMMAND_ON_STATUS
           [(SLEVEL, SLEVEL_Status); (SCODE, SCODE_PublishStart); (SDESC, str "Started publishing stream.");
            (SCLIENT_ID, SIG_CLIENT_ID)]) stream_id]).
  match goal with |- exists s', ?m = _ /\ _ => assert (Q m) as (s' & He & Hi & Hout) end.
  { unfold SetWindowAckSize, SetPeerBandwidth, CallOnBWDone, Ping, StartFlashPublish.
    eapply send_step_law; [by apply advanced_refl|done|done|intros s1 Ha1].
    eapply send_step_law; [exact Ha1|done|done|intros s2 Ha2].
    eapply send_step_law; [exact Ha2|split; [done|apply null_NewAmf0Null]|done|intros s3 Ha3].
    eapply send_step_law; [exact Ha3|done|done|intros s4 Ha4]. rewrite <- bind_ret_tt.
    eapply status_step_law; [exact Ha4|entries_ok..|intros s5 (H1 & H2 & _)].
    exists s5. split; [done|]. split; [done|]. rewrite H2. by rewrite <- !app_assoc. }
  exists s'. split; [done|]. split; [done|]. do 5 eexists. split; [exact Hout|]. by split_and!.
Qed.

Lemma one_packet_calls_witness :
  exists s',
    (do* SetWindowAckSize 2500000 in do* SetPeerBandwidth 2500000 Byte.x02 in do* CallOnBWDone in
     do* Ping 7 in StartFlashPublish 1) (session_of []) = (Ret tt, s')
    /\ inbox s' = inbox (session_of [])
    /\ exists m1 m2 m3 m4 m5, outbox s' = outbox (session_of []) ++ [m1; m2; m3; m4; m5]
      /\ Payload m1 = Some (be_bytes 4 2500000) /\ MessageType (Header m1) = RTMP_MSG_WindowAcknowledgementSize
      /\ Payload m2 = Some (be_bytes 4 2500000 ++ [Byte.x02]) /\ MessageType (Header m2) = RTMP_MSG_SetPeerBandwidth
      /\ Payload m3 = Some (enc_string (str "onBWDone") ++ enc_number f64_0 ++ [AMF0_Null])
      /\ Payload m4 = Some (be_bytes 2 6 ++ be_bytes 4 7)
      /\ MessageType (Header m4) = RTMP_MSG_UserControlMessage
      /\ m5 = queued (status_packet AMF0_COMMAND_ON_STATUS
                [(SLEVEL, SLEVEL_Status); (SCODE, SCODE_PublishStart); (SDESC, str "Started publishing stream.");
                 (SCLIENT_ID, SIG_CLIENT_ID)]) 1.
Proof. exact (one_packet_calls 2500000 2500000 Byte.x02 7 1 (session_of []) eq_refl). Defined.
