(* ===== verification/Running.v ===== *)
(** * The server on the running goroutines

    [Server] is proved against the interface [Protocol] and [Session] is the
    implementation that a single user sees.  Here the interface is implemented by
    the transition system of [Goroutines] itself: a call of the server is a call of
    the user between two stretches of the goroutines, which a schedule chooses
    freely, and a call that has to wait lets the goroutines go on.  [mirrors] relates
    a computation over the running system to the same computation over the session,
    in both directions; it is closed under the operations of the monad, so that the
    whole server runs on the goroutines as it does on the session. *)

From Stdlib Require Import ZArith Lia Strings.Byte.
From stdpp Require Import base tactics list gmap.
From S2P Require Import Prelude Constants HPBuffer Socket Buffer Float64 Amf0 Amf0Facts Messages Packets PacketsFacts Protocol ChunkSend Feed ChunkRecv Reassembly Control Handshake Goroutines Frame Locks Pump Delivery Inputs Session Refine Request Server.
Open Scope Z_scope.

#[local] Arguments recv_job : simpl never.
#[local] Arguments send_round : simpl never.
#[local] Arguments zlen : simpl never.
#[local] Arguments step : simpl never.

(** ** Schedules *)

Inductive goroutine := GReceiver | GSender.

Definition move_of (g : goroutine) : label := match g with GReceiver => LRecv | GSender => LSend end.

(** A stretch of the goroutines; one that waits does not move. *)
Fixpoint moved (gs : list goroutine) (s : system) : system * list event :=
  match gs with
  | [] => (s, [])
  | g :: gs =>
      match step (move_of g) s with
      | Some (s1, es) => let '(s2, es') := moved gs s1 in (s2, es ++ es')
      | None => moved gs s
      end
  end.

(** The system, its events so far, and the stretches that the schedule has left. *)
Record running := mkRunning {
  rn_sys : system;
  rn_trace : list event;
  rn_rest : list (list goroutine) }.

(** A call of the user: it waits, one stretch after the other, until it is enabled.
    When the schedule is used up before, there is no result. *)
Fixpoint call_when (l : label) (sched : list (list goroutine)) (s : system) (t : list event) :
    outcome (list event) * running :=
  match sched with
  | [] => (OutOfFuel, mkRunning s t [])
  | gs :: sched =>
      let '(s1, es1) := moved gs s in
      match step l s1 with
      | Some (s2, es2) =>
          (match crashed s2 with None => Ret es2 | Some p => Panic p end, mkRunning s2 (t ++ es1 ++ es2) sched)
      | None => call_when l sched s1 (t ++ es1)
      end
  end.

Definition call (l : label) : M running (list event) := fun r => call_when l (rn_rest r) (rn_sys r) (rn_trace r).

(** ** The interface *)

Definition running_RecvMessage : M running Message :=
  let* es := call LRecvMessage in
  match es with
  | [EDelivered m] => ret m
  | [EReturned e] => fail e
  | _ => out_of_fuel
  end.

Definition running_DecodeMessage (msg : Message) : M running (option packet) := fun r =>
  (DecodeMessage (requests (proto (rn_sys r))) (Some msg), r).

(** Every round takes a stretch of the schedule. *)
Definition running_ExpectPacket (v : target) : M running (Message * packet) := fun r =>
  ExpectPacket running_RecvMessage running_DecodeMessage (S (List.length (rn_rest r))) v r.

(** The two halves of [SendPacket], with a stretch of the goroutines between them. *)
Definition running_SendPacket (P : Type) (E : Encoder P) (pkt : P) (stream_id : Z) : M running unit :=
  let* es := call (LSendPacket (mkAny P E pkt) stream_id) in
  match es with
  | [EReturned e] => fail e
  | _ => do* call (LAfterSend 0) in ret tt
  end.

#[export] Instance running_Protocol : Protocol running := {|
  p_RecvMessage := running_RecvMessage;
  p_DecodeMessage := running_DecodeMessage;
  p_ExpectPacket := running_ExpectPacket;
  p_SendPacket := running_SendPacket |}.

(** ** Computations over two implementations *)

Section Mirrors.
Context {S T : Type} (R : S -> T -> Prop).
(** States the comparison does not speak about, and states from which the system can
    go on. *)
Context (bad good : S -> Prop).
(** The schedule of a state, and the size of what was sent. *)
Context (put : list (list goroutine) -> S -> S) (size : T -> nat) (room : nat).

Record mirrors {A} (m : M S A) (m' : M T A) : Prop := {
  mi_bad s : bad s -> bad (m s).2;
  mi_grows t : (size t <= size (m' t).2)%nat;
  mi_same s t o s' :
    R s t -> m s = (o, s') -> o <> OutOfFuel -> bad s' \/ exists t', m' t = (o, t') /\ R s' t';
  mi_returns s t a t' :
    R s t -> good s -> m' t = (Ret a, t') -> (size t' <= room)%nat ->
    exists sched s', (forall rest, m (put (sched ++ rest) s) = (Ret a, put rest s')) /\ R s' t' /\ good s' }.

Lemma mirrors_lift {A} (o : outcome A) : mirrors (lift o) (lift o).
Proof.
  split; unfold lift; simpl; [done|done| |].
  - intros s t o' s' HR [= <- <-] _. right. by exists t.
  - intros s t a t' HR Hg [= -> <-] _. exists [], s. done.
Qed.

Lemma mirrors_ret {A} (a : A) : mirrors (ret a) (ret a).
Proof. exact (mirrors_lift (Ret a)). Qed.

Lemma mirrors_fail {A} e : mirrors (A := A) (fail e) (fail e).
Proof. exact (mirrors_lift (Fail e)). Qed.

Lemma mirrors_panic {A} p : mirrors (A := A) (gopanic p) (gopanic p).
Proof. exact (mirrors_lift (Panic p)). Qed.

Lemma mirrors_fuel {A} : mirrors (A := A) out_of_fuel out_of_fuel.
Proof. exact (mirrors_lift OutOfFuel). Qed.

Lemma mirrors_bind {A B} (m : M S A) m' (k : A -> M S B) k' :
  mirrors m m' -> (forall a, mirrors (k a) (k' a)) -> mirrors (bind m k) (bind m' k').
Proof.
  intros Hm Hk. split; unfold bind.
  - intros s Hs%(mi_bad _ _ Hm). destruct (m s) as [[a| | |] s1]; [|done..]. by apply (Hk a).
  - intros t. pose proof (mi_grows _ _ Hm t) as Ht. destruct (m' t) as [[a| | |] t1]; simpl in Ht; [|done..].
    pose proof (mi_grows _ _ (Hk a) t1). lia.
  - intros s t o s' HR. destruct (m s) as [o1 s1] eqn:He. intros Ho Hn.
    assert (o1 <> OutOfFuel) as Hn1 by (intros ->; simplify_eq).
    destruct (mi_same _ _ Hm s t o1 s1 HR He Hn1) as [Hb|(t1 & -> & HR1)].
    + left. destruct o1; simplify_eq; [|done..]. pose proof (mi_bad _ _ (Hk a) s1 Hb) as Hb'. by rewrite Ho in Hb'.
    + destruct o1; [by eapply (mi_same _ _ (Hk a))|simplify_eq; right; by eexists..].
  - intros s t b t' HR Hg He Hsz. destruct (m' t) as [[a| | |] t1] eqn:Ht; [|done..].
    pose proof (mi_grows _ _ (Hk a) t1) as Hgr. rewrite He in Hgr. simpl in Hgr.
    destruct (mi_returns _ _ Hm s t a t1 HR Hg Ht ltac:(lia)) as (sc1 & s1 & H1 & HR1 & Hg1).
    destruct (mi_returns _ _ (Hk a) s1 t1 b t' HR1 Hg1 He Hsz) as (sc2 & s2 & H2 & HR2 & Hg2).
    exists (sc1 ++ sc2), s2. split; [|done]. intros rest. by rewrite <- app_assoc, H1, H2.
Qed.

End Mirrors.

(** A pair of the system and the request of the caller. *)
Definition with_request {A B} (R : A -> B -> Prop) (s : A * Request) (t : B * Request) : Prop :=
  R s.1 t.1 /\ s.2 = t.2.

Section Request.
Context {S T : Type} (R : S -> T -> Prop) (bad good : S -> Prop) (put : list (list goroutine) -> S -> S)
  (size : T -> nat) (room : nat).

Definition mirrors_req {A} (m : M (S * Request) A) (m' : M (T * Request) A) : Prop :=
  mirrors (with_request R) (fun s => bad s.1) (fun s => good s.1) (fun sched s => (put sched s.1, s.2))
    (fun t => size t.1) room m m'.

Lemma mirrors_on_srv {A} (m : M S A) m' : mirrors R bad good put size room m m' -> mirrors_req (on_srv m) (on_srv m').
Proof.
  intros Hm. split; unfold on_srv, zoom.
  - intros [s q] Hb. pose proof (mi_bad _ _ _ _ _ _ _ _ Hm s Hb) as Hb'. simpl. by destruct (m s).
  - intros [t q]. pose proof (mi_grows _ _ _ _ _ _ _ _ Hm t) as Ht. simpl. by destruct (m' t).
  - intros [s q] [t q'] o [s' q''] [HR Hq] He Hn. simpl in *. subst q'. destruct (m s) as [o1 s1] eqn:Hs. simplify_eq.
    destruct (mi_same _ _ _ _ _ _ _ _ Hm s t o s' HR Hs Hn) as [Hb|(t1 & -> & HR1)]; [by left|].
    right. eexists. split; [done|]. by split.
  - intros [s q] [t q'] a [t' q''] [HR Hq] Hg He Hsz. simpl in *. subst q'. destruct (m' t) as [o1 t1] eqn:Ht. simplify_eq.
    destruct (mi_returns _ _ _ _ _ _ _ _ Hm s t a t' HR Hg Ht Hsz) as (sc & s1 & H1 & HR1 & Hg1).
    exists sc, (s1, q''). split; [|done]. intros rest. by rewrite H1.
Qed.

Lemma mirrors_on_req {A} (m : M Request A) : mirrors_req (on_req m) (on_req m).
Proof.
  split; unfold on_req, zoom.
  - intros [s q] Hb. simpl in *. by destruct (m q).
  - intros [t q]. simpl. by destruct (m q).
  - intros [s q] [t q'] o [s' q''] [HR Hq] He Hn. simpl in *. subst q'. destruct (m q) as [o1 q1]. simplify_eq.
    right. eexists. split; [done|]. by split.
  - intros [s q] [t q'] a [t' q''] [HR Hq] Hg He Hsz. simpl in *. subst q'. destruct (m q) as [o1 q1] eqn:Hm. simplify_eq.
    exists [], (s, q''). split; [|done]. intros rest. done.
Qed.

Lemma mirrors_gets_req : mirrors_req (gets snd) (gets snd).
Proof.
  split; unfold gets; [done|done| |].
  - intros s t o s' HR [= <- <-] _. right. exists t. split; [|done]. by destruct HR as [_ ->].
  - intros s t a t' HR Hg [= <- <-] _. exists [], s. split; [|done]. by destruct HR as [_ ->].
Qed.

End Request.

(** ** The system and the session *)

(** The calls of the server. *)
Definition server_label (l : label) : Prop := call_ok l /\ label_keeps l.

Lemma run_snoc ls l s s1 t s' es :
  run ls s = Some (s1, t) -> step l s1 = Some (s', es) -> run (ls ++ [l]) s = Some (s', t ++ es).
Proof.
  revert s t. induction ls as [|l0 ls IH]; intros s t; cbn [run app].
  { intros [= -> <-] He. rewrite He. by rewrite app_nil_r. }
  destruct (step l0 s) as [[s2 es2]|]; [|done]. destruct (run ls s2) as [[s3 t3]|] eqn:Hr; [|done].
  intros [= -> <-] He. rewrite (IH s2 t3 Hr He). by rewrite app_assoc.
Qed.

Lemma visible_enqueued es : msgs enqueued_of (List.filter visible es) = msgs enqueued_of es.
Proof. induction es as [|[] es IH]; cbn in *; auto; unfold msgs in *; cbn; by rewrite ?IH. Qed.

(** The messages of a send are the events of the session. *)
Lemma session_SendPacket_out pkt sid ss o ss' :
  unrecorded pkt -> session_SendPacket _ _ (ae_pkt pkt) sid ss = (o, ss') ->
  (exists m, o = Ret tt /\ ss_out ss' = ss_out ss ++ [m]) \/ (ss_out ss' = ss_out ss /\ forall a, o <> Ret a).
Proof.
  intros Hu. unfold session_SendPacket, bind at 1, lift.
  destruct (EncodeMessage (ae_pkt pkt)) as [[cid msg]|e|p|]; [|intros [= <- <-]; by right..].
  unfold bind, session_SendMessage. destruct (ss_closed ss); [intros [= <- <-]; by right|]. unfold zoom. cbn [ss_proto ss_out].
  destruct (on_send_message (ae_pkt pkt) (ss_proto ss)) as [o' r'] eqn:Hr.
  apply (on_send_in_half _ _ _ _ Hu) in Hr as [_ ->]. intros [= <- <-]. left. by eexists.
Qed.

Lemma session_step_out l ss es ss' :
  call_ok l -> session_step l ss = (es, ss') -> ss_out ss' = ss_out ss ++ msgs enqueued_of es.
Proof.
  intros Hok. destruct l; cbn [session_step]; try (intros [= <- <-]; by rewrite app_nil_r).
  - unfold sending, session_SendMessage. destruct pkt as [m|]; [|intros [= <- <-]; by rewrite app_nil_r].
    destruct (ss_closed ss); intros [= <- <-]; [by rewrite app_nil_r|]. cbn [ss_out]. by rewrite drop_app_length.
  - destruct Hok as [_ Hu]. unfold sending. destruct (session_SendPacket _ _ (ae_pkt pkt) stream_id ss) as [o s1] eqn:He.
    apply (session_SendPacket_out _ _ _ _ _ Hu) in He as [(m & -> & Ho)|[Ho Hn]].
    + intros [= <- <-]. by rewrite Ho, drop_app_length.
    + destruct o as [a| | |]; [by destruct (Hn a)|intros [= <- <-]; by rewrite app_nil_r..].
  - unfold receiving, session_RecvMessage. destruct (ss_in ss); intros [= <- <-]; by rewrite app_nil_r.
Qed.

Section Agreement.
(** The protocol when the goroutines start. *)
Context (r0 : protocol).

Definition start_state : system := start_message_pump_goroutines r0.

(** The running system is at a point of a run without a failure, which the session
    agrees with. *)
Record agrees (r : running) (ss : session) : Prop := {
  ag_run : exists ls, Forall server_label ls /\ run ls start_state = Some (rn_sys r, rn_trace r);
  ag_safe : safe_sys (rn_sys r);
  ag_alive : crashed (rn_sys r) = None;
  ag_idle : destroy_at (rn_sys r) = DIdle;
  ag_unfailed : existsb failed_of (rn_trace r) = false;
  ag_implements : implements (rn_sys r) ss;
  ag_out : msgs enqueued_of (rn_trace r) = ss_out ss }.

(** Nobody destroys the protocol. *)
Lemma step_idle l s s' es : l <> LDestroy -> step l s = Some (s', es) -> destroy_at s' = destroy_at s.
Proof.
  intros Hl He. pose proof (step_not_crashed _ _ _ He) as Hc. unfold step in He. rewrite Hc in He. destruct l; try done.
  - unfold recv_step in He. repeat (case_match; try discriminate); by simplify_eq.
  - unfold send_step in He. repeat (case_match; try discriminate); by simplify_eq.
  - destruct (SendMessage _ _ s) as [[[? ?] ?]|] eqn:Hm; [|done]. simplify_eq. by apply SendMessage_control in Hm as (_ & _ & _ & _ & _ & ? & _).
  - by apply SendPacket_control in He as (_ & _ & _ & _ & _ & ? & _).
  - by apply after_send_control in He as (_ & _ & _ & _ & _ & ? & _).
  - by apply RecvMessage_control in He as (_ & _ & _ & _ & _ & ? & _).
Qed.

Lemma step_agrees l r ss s' es rest :
  agrees r ss -> server_label l -> step l (rn_sys r) = Some (s', es) -> existsb failed_of es = false ->
  exists ss', session_step l ss = (List.filter visible es, ss') /\ agrees (mkRunning s' (rn_trace r ++ es) rest) ss'.
Proof.
  intros [(ls & Hls & Hrun) Hs Hc Hd Hu Hi Ho] [Hl Hk] He Hf.
  pose proof (step_alive _ _ _ _ _ Hs Hi Hl He Hf) as Hc'. pose proof (proj2 Hs) as Hlive. unfold calm in Hlive. rewrite Hc in Hlive.
  destruct (step_implements _ _ _ _ _ Hlive Hl Hi He Hc' Hf) as (ss' & Hss & Hi'). exists ss'. split; [done|].
  split; simpl; try done.
  - exists (ls ++ [l]). split; [apply Forall_app; split; [done|by apply Forall_singleton]|by eapply run_snoc].
  - eapply step_safe; [done|by apply call_label_ok|done..].
  - rewrite (step_idle l _ _ _) with (2 := He); [done|by intros ->].
  - by rewrite existsb_app, Hu, Hf.
  - rewrite msgs_app, Ho, (session_step_out _ _ _ _ Hl Hss). by rewrite visible_enqueued.
Qed.

Definition bad (r : running) : Prop := existsb failed_of (rn_trace r) = true.

Lemma agrees_rest r ss sched : agrees r ss -> agrees (mkRunning (rn_sys r) (rn_trace r) sched) ss.
Proof. by intros []. Qed.

Lemma goroutine_sent g s s' es : step (move_of g) s = Some (s', es) -> sent_packets s' = sent_packets s.
Proof.
  intros He. pose proof (step_not_crashed _ _ _ He) as Hc. unfold step in He. rewrite Hc in He.
  destruct g; simpl in He; [unfold recv_step in He|unfold send_step in He];
    repeat (case_match; try discriminate); by simplify_eq.
Qed.

(** A stretch of the goroutines does nothing in the session. *)
Lemma moved_agrees gs r ss s' es :
  agrees r ss -> moved gs (rn_sys r) = (s', es) ->
  existsb failed_of es = true
  \/ (agrees (mkRunning s' (rn_trace r ++ es) (rn_rest r)) ss /\ sent_packets s' = sent_packets (rn_sys r)).
Proof.
  revert r es. induction gs as [|g gs IH]; intros r es Ha; cbn [moved].
  { intros [= <- <-]. right. rewrite app_nil_r. destruct r. done. }
  destruct (step (move_of g) (rn_sys r)) as [[s1 es1]|] eqn:He; [|by apply IH].
  destruct (moved gs s1) as [s2 es2] eqn:Hm. intros [= <- <-]. rewrite existsb_app.
  destruct (existsb failed_of es1) eqn:Hf; [by left|].
  assert (server_label (move_of g)) as Hl by (by destruct g).
  destruct (step_agrees _ _ _ _ _ (rn_rest r) Ha Hl He Hf) as (ss' & Hss & Ha').
  assert (ss' = ss) as -> by (destruct g; cbn in Hss; congruence).
  destruct (IH _ _ Ha' Hm) as [Hb|[Ha2 Hs2]]; [by left|]. right. cbn [rn_trace rn_rest rn_sys] in *.
  rewrite app_assoc. split; [done|]. rewrite Hs2. by eapply goroutine_sent.
Qed.

(** ** A call *)

Lemma call_bad l r : bad r -> bad (call l r).2.
Proof.
  unfold call, bad. generalize (rn_rest r) as sched, (rn_sys r) as s, (rn_trace r) as t.
  induction sched as [|gs sched IH]; intros s t Hb; cbn [call_when]; [done|].
  destruct (moved gs s) as [s1 es1]. destruct (step l s1) as [[s2 es2]|].
  - simpl. by rewrite existsb_app, Hb.
  - apply IH. by rewrite existsb_app, Hb.
Qed.

(** What has returned returns what the session says. *)
Lemma call_agrees l r ss o r' :
  agrees r ss -> server_label l -> call l r = (o, r') -> o <> OutOfFuel ->
  bad r' \/ exists es ss' s1, o = Ret es /\ session_step l ss = (List.filter visible es, ss') /\ agrees r' ss'
    /\ step l s1 = Some (rn_sys r', es) /\ sent_packets s1 = sent_packets (rn_sys r)
    /\ exists ss1, implements s1 ss1.
Proof.
  destruct r as [s t sched]. unfold call. cbn [rn_rest rn_sys rn_trace]. revert s t.
  induction sched as [|gs sched IH]; intros s t Ha Hl; cbn [call_when]; [by intros [= <- _]|].
  destruct (moved gs s) as [s1 es1] eqn:Hm.
  destruct (moved_agrees _ _ _ _ _ Ha Hm) as [Hb|[Ha1 Hs1]]; cbn [rn_rest rn_sys rn_trace] in *.
  - assert (existsb failed_of (t ++ es1) = true) as Hb1 by (rewrite existsb_app, Hb; apply orb_true_r).
    destruct (step l s1) as [[s2 es2]|].
    + intros [= <- <-] _. left. unfold bad. simpl. by rewrite app_assoc, existsb_app, Hb1.
    + intros He _. left. pose proof (call_bad l (mkRunning s1 (t ++ es1) sched) Hb1) as Hx. unfold call in Hx. simpl in Hx.
      by rewrite He in Hx.
  - destruct (step l s1) as [[s2 es2]|] eqn:He.
    + intros [= <- <-] Hn. destruct (existsb failed_of es2) eqn:Hf.
      { left. unfold bad. simpl. by rewrite !existsb_app, Hf, !orb_true_r. }
      destruct (step_agrees _ _ _ _ _ sched Ha1 Hl He Hf) as (ss' & Hss & Ha2). right.
      exists es2, ss', s1. pose proof (ag_alive _ _ Ha2) as Hc. simpl in Hc. rewrite Hc. cbn [rn_trace] in Ha2.
      rewrite app_assoc. split_and!; try done. exists ss. apply Ha1.
    + intros Hcall Hn. destruct (IH s1 (t ++ es1)) as [Hb|(es & ss' & s3 & H1 & H2 & H3 & H4 & H5 & H6)]; try done.
      * by apply (agrees_rest _ _ sched) in Ha1.
      * by left.
      * right. exists es, ss', s3. split_and!; try done. by rewrite H5.
Qed.

Lemma call_shorter l r es r' : call l r = (Ret es, r') -> (List.length (rn_rest r') < List.length (rn_rest r))%nat.
Proof.
  unfold call. generalize (rn_sys r) as s, (rn_trace r) as t.
  induction (rn_rest r) as [|gs sched IH]; intros s t; cbn [call_when]; [done|].
  destruct (moved gs s) as [s1 es1]. destruct (step l s1) as [[s2 es2]|].
  - intros [= _ <-]. simpl. lia.
  - intros H%IH. simpl. lia.
Qed.

(** ** What the receiver can do *)

(** No error is set, and none is about to be. *)
Definition good (r : running) : Prop :=
  msg_io_err (rn_sys r) = None
  /\ match recv_at (rn_sys r) with RSet (Some _) | RDone => False | _ => True end.

Definition rank (pc : recv_pc) : nat :=
  match pc with RLoop => 5 | RLock => 4 | RCheck => 3 | RJob => 2 | RPut _ => 0 | RSet _ => 6 | RDone => 0 end.

(** One step of the receiver towards the next message. *)
Lemma receiver_step r ss n l e r1 :
  agrees r ss -> good r -> ch_buf (msg_in_queue (rn_sys r)) = [] -> ss_in ss <> [] ->
  recv_loop n (proto (rn_sys r)) = (Ret (l, e), r1) -> ss_in ss = pending (recv_at (rn_sys r)) ++ l ->
  exists s' es, step LRecv (rn_sys r) = Some (s', es) /\ existsb failed_of es = false
    /\ msg_io_err s' = None /\ match recv_at s' with RSet (Some _) | RDone => False | _ => True end
    /\ (ch_buf (msg_in_queue s') <> []
        \/ ch_buf (msg_in_queue s') = []
           /\ exists n' l' r1', recv_loop n' (proto s') = (Ret (l', e), r1') /\ ss_in ss = pending (recv_at s') ++ l'
           /\ (7 * n' + rank (recv_at s') < 7 * n + rank (recv_at (rn_sys r)))%nat).
Proof.
  intros [_ [Hok _] Hc Hd _ Hi _] [Herr Hpc] Hb Hne Hr Hin. destruct (Hok Hc) as [(Hlk & _) _].
  unfold step. rewrite Hc. unfold recv_step. destruct (recv_at (rn_sys r)) as [| | | |m|err|] eqn:Hat; try done.
  - rewrite Herr. do 2 eexists. split; [done|]. simpl. split_and!; try done. right. split; [done|]. exists n, l, r1. split_and!; try done. lia.
  - rewrite Hlk, Hd. simpl. do 2 eexists. split; [done|]. simpl. split_and!; try done. right. split; [done|]. exists n, l, r1. split_and!; try done. lia.
  - rewrite Herr. do 2 eexists. split; [done|]. simpl. split_and!; try done. right. split; [done|]. exists n, l, r1. split_and!; try done. lia.
  - destruct n as [|n]; [done|]. cbn [recv_loop] in Hr. simpl in Hin.
    destruct (recv_job (proto (rn_sys r))) as [o r'] eqn:Hj. destruct o as [o|e'| |]; try done.
    + apply bind_inv_Ret in Hr as ([l' e'] & r3 & He & Hr). cbn [fst snd] in Hr. unfold ret in Hr. simplify_eq.
      destruct o as [m|]; do 2 eexists; (split; [done|]); simpl; split_and!; try done; right; (split; [done|]);
        exists n, l', r1; split_and!; try done; lia.
    + unfold ret in Hr. exfalso. apply Hne. rewrite Hin. by simplify_eq.
  - unfold chan_send. rewrite (im_in_open _ _ Hi), Hb. do 2 eexists. split; [done|]. simpl. split_and!; try done. by left.
  - destruct err; [done|]. do 2 eexists. split; [done|]. simpl. split_and!; try done. right. split; [done|].
    exists n, l, r1. split_and!; try done. lia.
Qed.

Lemma receiver_progress r ss :
  agrees r ss -> good r -> ss_in ss <> [] ->
  exists gs s' es, moved gs (rn_sys r) = (s', es) /\ ch_buf (msg_in_queue s') <> []
    /\ agrees (mkRunning s' (rn_trace r ++ es) []) ss /\ good (mkRunning s' (rn_trace r ++ es) [])
    /\ sent_packets s' = sent_packets (rn_sys r).
Proof.
  intros Ha Hg Hne. destruct (ch_buf (msg_in_queue (rn_sys r))) as [|m q] eqn:Hb.
  2: { exists [], (rn_sys r), []. rewrite app_nil_r. split_and!; try done; [congruence|by apply agrees_rest]. }
  destruct (im_in _ _ (ag_implements _ _ Ha)) as (l & (n & r1 & Hr) & Hin). rewrite Hb in Hin. cbn [app] in Hin.
  remember (7 * n + rank (recv_at (rn_sys r)))%nat as k eqn:Hk. revert r n l r1 Ha Hg Hb Hr Hin Hk.
  induction (lt_wf k) as [k _ IH]. intros r n l r1 Ha Hg Hb Hr Hin ->.
  destruct (receiver_step r ss n l _ r1 Ha Hg Hb Hne Hr Hin) as (s' & es & He & Hf & H1 & H2 & H3).
  destruct (step_agrees LRecv r ss s' es [] Ha) as (ss' & Hss & Ha'); [done|done|done|].
  assert (ss' = ss) as -> by (cbn in Hss; congruence).
  pose proof (goroutine_sent GReceiver _ _ _ He) as Hsent.
  destruct H3 as [Hq|[Hq (n' & l' & r1' & Hr' & Hin' & Hlt)]].
  - exists [GReceiver], s', es. cbn [moved move_of]. rewrite He. rewrite app_nil_r. by split_and!.
  - destruct (IH _ Hlt (mkRunning s' (rn_trace r ++ es) []) n' l' r1') as (gs & s2 & es2 & Hm & Hq2 & Ha2 & Hg2 & Hs2); try done.
    exists (GReceiver :: gs), s2, (es ++ es2). cbn [moved move_of rn_sys rn_trace] in *. rewrite He, Hm, app_assoc.
    split_and!; try done. congruence.
Qed.

(** ** The calls mirror those of the session *)

Definition related (r : running) (ss : session) : Prop := agrees r ss /\ sent_packets (rn_sys r) = [].

Definition put_rest (sched : list (list goroutine)) (r : running) : running :=
  mkRunning (rn_sys r) (rn_trace r) sched.

Definition out_size (ss : session) : nat := List.length (ss_out ss).

(** The messages the queue holds when nothing is sent. *)
Definition queue_room : nat := Z.to_nat RTMP_MSG_CHANNEL_BUFFER.

Definition mirrored {A} (m : M running A) (m' : M session A) : Prop :=
  mirrors related bad good put_rest out_size queue_room m m'.

Lemma server_recv : server_label LRecvMessage.
Proof. done. Qed.

Lemma mirrored_recv : mirrored running_RecvMessage session_RecvMessage.
Proof.
  split; unfold running_RecvMessage.
  - intros r Hb%(call_bad LRecvMessage). unfold bind. destruct (call LRecvMessage r) as [[es| | |] r']; try done.
    by destruct es as [|[] []].
  - intros ss. unfold session_RecvMessage. by destruct (ss_in ss).
  - intros r ss o r' [Ha Hs]. unfold bind. destruct (call LRecvMessage r) as [o1 r1] eqn:Hcall. intros He Hn.
    assert (o1 <> OutOfFuel) as Hn1 by (intros ->; simplify_eq).
    destruct (call_agrees _ _ _ _ _ Ha server_recv Hcall Hn1) as [Hb|(es & ss' & s1 & -> & Hss & Ha' & Hst & Hs1 & ss1 & Hi1)].
    + left. destruct o1 as [es| | |]; [destruct es as [|[] []]|..]; by injection He as _ <-.
    + right. pose proof (step_not_crashed _ _ _ Hst) as Hc. unfold step in Hst. rewrite Hc in Hst.
      assert (sent_packets (rn_sys r1) = sent_packets s1) as Hsent.
      { unfold RecvMessage in Hst. repeat (case_match; try discriminate); by injection Hst as <- _. }
      unfold RecvMessage, chan_recv in Hst. rewrite (im_in_open _ _ Hi1) in Hst.
      destruct (ch_buf (msg_in_queue s1)) as [|m q]; [done|]. injection Hst as _ <-.
      unfold ret in He. simplify_eq. cbn [session_step] in Hss. unfold receiving in Hss. exists ss'.
      destruct (session_RecvMessage ss) as [[m'|e| |] ss2]; simpl in Hss; simplify_eq. split; [done|]. split; [done|]. congruence.
  - intros r ss m ss' [Ha Hs] Hg He _. unfold session_RecvMessage in He.
    destruct (ss_in ss) as [|m' l] eqn:Hin; [done|]. injection He as -> <-.
    destruct (receiver_progress r ss Ha Hg) as (gs & s' & es & Hm & Hq & Ha' & Hg' & Hs'); [by rewrite Hin|].
    destruct (ch_buf (msg_in_queue s')) as [|m'' q] eqn:Hb; [done|].
    assert (step LRecvMessage s' = Some (set_inq (mkchan q (ch_closed (msg_in_queue s'))) s', [EDelivered m''])) as Hst.
    { unfold step. pose proof (ag_alive _ _ Ha') as Hc. simpl in Hc. rewrite Hc. unfold RecvMessage, chan_recv. by rewrite Hb. }
    destruct (step_agrees LRecvMessage _ _ _ _ [] Ha' server_recv Hst eq_refl) as (ss2 & Hss & Ha2).
    cbn [session_step] in Hss. unfold receiving, session_RecvMessage in Hss. rewrite Hin in Hss. simpl in Hss. simplify_eq.
    eexists [gs], (mkRunning _ _ []). split; [|split; [split; [exact Ha2|]|exact Hg']].
    + intros rest. unfold bind, call, put_rest. cbn [rn_rest rn_sys rn_trace app call_when]. rewrite Hm, Hst. cbn [crashed set_inq].
      pose proof (ag_alive _ _ Ha') as Hc. simpl in Hc. rewrite Hc. cbn. by rewrite app_assoc.
    + cbn. by rewrite Hs'.
Qed.

Lemma mirrored_decode msg : mirrored (running_DecodeMessage msg) (session_DecodeMessage msg).
Proof.
  split; unfold running_DecodeMessage, session_DecodeMessage; [done|done| |].
  - intros r ss o r' [Ha Hs] [= <- <-] _. right. exists ss. by rewrite (im_requests _ _ (ag_implements _ _ Ha)).
  - intros r ss a ss' [Ha Hs] Hg [He <-]%pair_equal_spec _. exists [], r. split; [|done]. intros rest. cbn [put_rest rn_sys app].
    by rewrite (im_requests _ _ (ag_implements _ _ Ha)), He.
Qed.

(** A packet that is sent as it is, and recorded nowhere. *)
Lemma server_send {P} (E : Encoder P) {L : LawfulEncoder P} (p : P) sid :
  valid p -> plain p -> server_label (LSendPacket (mkAny P E p) sid).
Proof.
  intros Hv Hp. unfold plain in Hp.
  split; [split; [split; [by exists L|]|]|]; unfold label_keeps, unrecorded, no_resize;
    change (type_of (ae_pkt (mkAny P E p))) with (type_of p); by rewrite Hp.
Qed.

Lemma server_after i : server_label (LAfterSend i).
Proof. done. Qed.

(** The events of the two halves. *)
Lemma SendPacket_events {P} (E : Encoder P) {L : LawfulEncoder P} (p : P) sid s ss s' es :
  implements s ss -> valid p -> step (LSendPacket (mkAny P E p) sid) s = Some (s', es) ->
  (exists m, es = [EEnqueued m]) /\ sent_packets s' = sent_packets s ++ [mkAny P E p].
Proof.
  intros Hi Hv He. pose proof (step_not_crashed _ _ _ He) as Hc. unfold step in He. rewrite Hc in He.
  unfold SendPacket in He. cbn [ae_pkt ae_type ae_encoder] in He. rewrite (EncodeMessage_message p Hv) in He.
  unfold SendMessage, chan_send in He. rewrite (im_out_open _ _ Hi) in He. destruct (_ <? _); [|done].
  injection He as <- <-. split; [by eexists|done].
Qed.

Lemma after_send_events i s ss s' es :
  implements s ss -> step (LAfterSend i) s = Some (s', es) -> es = [] /\ sent_packets s' = delete i (sent_packets s).
Proof.
  intros Hi He. pose proof (step_not_crashed _ _ _ He) as Hc. unfold step, after_send in He. rewrite Hc in He.
  destruct (sent_packets s !! i) as [pkt|] eqn:Hp; [|done].
  destruct (on_send_message (ae_pkt pkt) (proto s)) as [o r'] eqn:Hr.
  apply on_send_in_half in Hr as [_ ->]; [|exact (Forall_lookup_1 _ _ _ _ (im_sent _ _ Hi) Hp)]. by injection He as <- <-.
Qed.

Lemma sending_Ret {A} (m : M session A) ss e ss' :
  sending m ss = ([EEnqueued e], ss') -> exists a, m ss = (Ret a, ss').
Proof. unfold sending. destruct (m ss) as [[a| | |] s1]; intros [= ? <-] || intros [=]; by exists a. Qed.

(** Both halves of the call, as the schedule lets them return. *)
Lemma send_same {P} (E : Encoder P) {L : LawfulEncoder P} (p : P) sid r ss o r' :
  valid p -> plain p -> related r ss -> running_SendPacket P E p sid r = (o, r') -> o <> OutOfFuel ->
  bad r' \/ exists ss', session_SendPacket P E p sid ss = (o, ss') /\ related r' ss'.
Proof.
  intros Hv Hp [Ha Hs]. unfold running_SendPacket, bind at 1.
  destruct (call (LSendPacket _ sid) r) as [o1 r1] eqn:Hcall. intros He Hn.
  assert (o1 <> OutOfFuel) as Hn1 by (intros ->; simplify_eq).
  destruct (call_agrees _ _ _ _ _ Ha (server_send E p sid Hv Hp) Hcall Hn1)
    as [Hb|(es & ss' & s1 & -> & Hss & Ha1 & Hst & Hs1 & ss1 & Hi1)].
  - left. destruct o1 as [es| | |]; [|by injection He as _ <-..].
    assert (bad (bind (call (LAfterSend 0)) (fun _ => ret tt) r1).2) as Hb2.
    { pose proof (call_bad (LAfterSend 0) r1 Hb) as H. unfold bind. by destruct (call (LAfterSend 0) r1) as [[]]. }
    destruct es as [|[] []]; (by injection He as _ <-) || by rewrite He in Hb2.
  - destruct (SendPacket_events E p sid _ _ _ _ Hi1 Hv Hst) as ([m ->] & Hsent). rewrite Hs1, Hs in Hsent.
    cbn [session_step] in Hss. apply sending_Ret in Hss as [[] Hss]. cbn [ae_type ae_encoder ae_pkt] in Hss.
    unfold bind in He. destruct (call (LAfterSend 0) r1) as [o2 r2] eqn:Hcall2.
    assert (o2 <> OutOfFuel) as Hn2 by (intros ->; simplify_eq).
    destruct (call_agrees _ _ _ _ _ Ha1 (server_after 0) Hcall2 Hn2)
      as [Hb|(es2 & ss2 & s2 & -> & Hss2 & Ha2 & Hst2 & Hs2 & ss3 & Hi2)].
    + left. destruct o2; by injection He as _ <-.
    + right. injection He as <- <-. cbn in Hss2. injection Hss2 as _ <-. exists ss'. split; [done|]. split; [done|].
      destruct (after_send_events _ _ _ _ _ Hi2 Hst2) as [_ ->]. by rewrite Hs2, Hsent.
Qed.

Lemma good_control r r' : same_control (rn_sys r) (rn_sys r') -> good r -> good r'.
Proof. unfold good. by intros (-> & _ & _ & -> & _). Qed.

(** There is room in the queue for what fits into it at once. *)
Lemma queue_has_room r ss :
  agrees r ss -> (out_size ss < queue_room)%nat -> zlen (ch_buf (msg_out_queue (rn_sys r))) < RTMP_MSG_CHANNEL_BUFFER.
Proof.
  intros Ha Hsz. destruct (ag_run _ _ Ha) as (ls & _ & Hrun). destruct (runs_queues _ _ _ (run_runs _ _ _ _ Hrun)) as [_ [Hq _]].
  rewrite (ag_out _ _ Ha) in Hq. unfold out_size, queue_room in Hsz. rewrite Hq, length_app in Hsz. unfold zlen. lia.
Qed.

Lemma send_returns {P} (E : Encoder P) {L : LawfulEncoder P} (p : P) sid r ss ss' :
  valid p -> plain p -> related r ss -> good r -> session_SendPacket P E p sid ss = (Ret tt, ss') ->
  (out_size ss' <= queue_room)%nat ->
  exists r', (forall rest, running_SendPacket P E p sid (put_rest ([[]; []] ++ rest) r) = (Ret tt, put_rest rest r'))
    /\ related r' ss' /\ good r'.
Proof.
  intros Hv Hp [Ha Hs] Hg He Hsz. pose proof (server_send E p sid Hv Hp) as Hlab.
  assert (out_size ss < queue_room)%nat as Hlt.
  { apply (session_SendPacket_out (mkAny P E p)) in He as [(m & _ & Ho)|[_ Hn]]; [|by destruct (Hn tt)|apply Hlab].
    unfold out_size in *. rewrite Ho, length_app in Hsz. simpl in Hsz. lia. }
  pose proof (ag_alive _ _ Ha) as Hc. pose proof (queue_has_room _ _ Ha Hlt) as Hroom.
  assert (exists s1 es1, step (LSendPacket (mkAny P E p) sid) (rn_sys r) = Some (s1, es1)) as (s1 & es1 & Hst1).
  { unfold step, SendPacket. rewrite Hc. cbn [ae_pkt ae_type ae_encoder]. rewrite (EncodeMessage_message p Hv).
    unfold SendMessage, chan_send. rewrite (im_out_open _ _ (ag_implements _ _ Ha)).
    apply Z.ltb_lt in Hroom. rewrite Hroom. by do 2 eexists. }
  destruct (SendPacket_events E p sid _ _ _ _ (ag_implements _ _ Ha) Hv Hst1) as ([m ->] & Hsent). rewrite Hs in Hsent.
  destruct (step_agrees _ _ _ _ _ [] Ha Hlab Hst1 eq_refl) as (ss1 & Hss1 & Ha1). cbn [session_step] in Hss1.
  apply sending_Ret in Hss1 as [[] Hss1]. cbn [ae_type ae_encoder ae_pkt] in Hss1. rewrite He in Hss1. injection Hss1 as <-.
  pose proof (ag_alive _ _ Ha1) as Hc1. cbn [rn_sys] in Hc1.
  assert (exists s2 es2, step (LAfterSend 0) s1 = Some (s2, es2)) as (s2 & es2 & Hst2).
  { unfold step, after_send. rewrite Hc1, Hsent. cbn [app lookup list_lookup].
    destruct (on_send_message _ _) as [o r'] eqn:Hr. apply on_send_in_half in Hr as [_ ->]; [by do 2 eexists|apply Hlab]. }
  destruct (after_send_events _ _ _ _ _ (ag_implements _ _ Ha1) Hst2) as [-> Hsent2].
  destruct (step_agrees _ _ _ _ _ [] Ha1 (server_after 0) Hst2 eq_refl) as (ss2 & Hss2 & Ha2). cbn in Hss2. injection Hss2 as <-.
  eexists (mkRunning s2 _ []). split; [|split; [split; [exact Ha2|]|]].
  - intros rest. pose proof (ag_alive _ _ Ha2) as Hc2. cbn [rn_sys] in Hc2.
    unfold running_SendPacket, bind, call, put_rest. cbn [rn_rest rn_sys rn_trace app call_when moved].
    rewrite Hst1, Hc1. cbn [rn_rest rn_sys rn_trace call_when moved]. rewrite Hst2, Hc2. by cbn.
  - cbn [rn_sys] in *. by rewrite Hsent2, Hsent.
  - pose proof (step_not_crashed _ _ _ Hst2) as H2. unfold step in Hst1, Hst2. rewrite Hc in Hst1. rewrite H2 in Hst2.
    apply SendPacket_control in Hst1. apply after_send_control in Hst2.
    apply (good_control (mkRunning s1 [] [])); [done|]. by apply (good_control r).
Qed.

Lemma mirrored_send {P} (E : Encoder P) {L : LawfulEncoder P} (p : P) sid :
  valid p -> plain p -> mirrored (running_SendPacket P E p sid) (session_SendPacket P E p sid).
Proof.
  intros Hv Hp. split.
  - intros r Hb. unfold running_SendPacket, bind at 1. pose proof (call_bad (LSendPacket (mkAny P E p) sid) r Hb) as Hb1.
    destruct (call (LSendPacket _ sid) r) as [[es| | |] r1]; try done. pose proof (call_bad (LAfterSend 0) r1 Hb1) as Hb2.
    assert (bad (bind (call (LAfterSend 0)) (fun _ => ret tt) r1).2) as Hb3
      by (unfold bind; by destruct (call (LAfterSend 0) r1) as [[]]).
    by destruct es as [|[] []].
  - intros ss. destruct (session_SendPacket P E p sid ss) as [o ss'] eqn:He. unfold out_size. cbn [snd].
    apply (session_SendPacket_out (mkAny P E p)) in He as [(m & _ & ->)|[-> _]]; simpl; rewrite ?length_app; [lia|lia|].
    pose proof (server_send E p sid Hv Hp) as Hlab. apply Hlab.
  - intros r ss o r'. exact (send_same E p sid r ss o r' Hv Hp).
  - intros r ss [] ss' HR Hg He Hsz. destruct (send_returns E p sid r ss ss' Hv Hp HR Hg He Hsz) as (r' & H1 & H2 & H3).
    by exists [[]; []], r'.
Qed.

(** ** Loops *)

Lemma loop_more {S} (recv : M S Message) decode f f' v s o s' :
  ExpectPacket_loop recv decode f v s = (o, s') -> o <> OutOfFuel -> (f <= f')%nat ->
  ExpectPacket_loop recv decode f' v s = (o, s').
Proof.
  revert f' s. induction f as [|f IH]; intros f' s He Hn Hf; [by injection He as <- _|].
  destruct f' as [|f']; [lia|]. cbn [ExpectPacket_loop] in *. unfold bind at 1 in He. unfold bind at 1.
  destruct (recv s) as [[msg| | |] s1]; try done. unfold bind at 1 in He. unfold bind at 1.
  destruct (decode msg s1) as [[[pkt|]| | |] s2]; try done; [|by apply IH; [| |lia]].
  destruct (assign v pkt); [done|]. by apply IH; [| |lia].
Qed.

Lemma running_loop_enough f f' v r :
  (List.length (rn_rest r) < f)%nat -> (List.length (rn_rest r) < f')%nat ->
  ExpectPacket_loop running_RecvMessage running_DecodeMessage f v r
  = ExpectPacket_loop running_RecvMessage running_DecodeMessage f' v r.
Proof.
  revert f' r. induction f as [|f IH]; intros f' r Hf Hf'; [lia|]. destruct f' as [|f']; [lia|]. cbn [ExpectPacket_loop].
  unfold bind at 1 4. destruct (running_RecvMessage r) as [[msg| | |] r1] eqn:Hr; try done.
  unfold running_RecvMessage in Hr. apply bind_inv_Ret in Hr as (es & r2 & Hc%call_shorter & Hr).
  assert (r1 = r2) as -> by (by destruct es as [|[] []]; injection Hr).
  unfold bind at 1 3, running_DecodeMessage. destruct (DecodeMessage _ _) as [[pkt|]| | |]; try done; [|apply IH; lia].
  destruct (assign v pkt); [done|]. apply IH; lia.
Qed.

Lemma mirrored_loop f v :
  mirrored (ExpectPacket_loop running_RecvMessage running_DecodeMessage f v) (session_loop f v).
Proof.
  induction f as [|f IH]; cbn [ExpectPacket_loop]; [apply mirrors_fuel|].
  apply mirrors_bind; [apply mirrored_recv|intros msg]. apply mirrors_bind; [apply mirrored_decode|intros [pkt|]]; [|done].
  destruct (assign v pkt) as [o|]; [|done]. apply mirrors_bind; [apply mirrors_lift|intros]. apply mirrors_ret.
Qed.

Lemma mirrored_expect t : mirrored (running_ExpectPacket (ToPointer t)) (session_ExpectPacket (ToPointer t)).
Proof.
  split; unfold running_ExpectPacket, session_ExpectPacket, ExpectPacket.
  - intros r. apply (mi_bad _ _ _ _ _ _ _ _ (mirrored_loop _ _)).
  - intros ss. apply (mi_grows _ _ _ _ _ _ _ _ (mirrored_loop _ _)).
  - intros r ss o r' HR He Hn.
    destruct (mi_same _ _ _ _ _ _ _ _ (mirrored_loop _ _) r ss o r' HR He Hn) as [Hb|(ss' & Hs & HR')]; [by left|].
    right. exists ss'. split; [|done].
    destruct (ExpectPacket_loop_spec (S (List.length (ss_in ss))) (ToPointer t) t ss eq_refl (Nat.lt_succ_diag_r _))
      as (o1 & s1 & He1 & Ho1).
    assert (o1 <> OutOfFuel) as Hn1 by (intros ->; unfold expect_result in Ho1; tauto).
    destruct (Nat.le_ge_cases (S (List.length (rn_rest r))) (S (List.length (ss_in ss)))) as [Hle|Hle].
    + by eapply loop_more.
    + rewrite He1. rewrite <- Hs. symmetry. by eapply loop_more.
  - intros r ss a ss' HR Hg He Hsz.
    destruct (mi_returns _ _ _ _ _ _ _ _ (mirrored_loop _ _) r ss a ss' HR Hg He Hsz) as (sc & r' & H1 & H2).
    exists sc, r'. split; [|done]. intros rest. specialize (H1 rest). cbn [put_rest rn_rest].
    destruct (Nat.le_gt_cases (S (List.length (ss_in ss))) (S (List.length (sc ++ rest)))) as [Hle|Hlt].
    + by eapply loop_more.
    + rewrite <- H1. apply running_loop_enough; cbn [put_rest rn_rest]; lia.
Qed.

(** The handlers of the loop over the commands. *)
Definition handled {A} (h : packet -> option (M running A)) (h' : packet -> option (M session A)) : Prop :=
  forall p, match h p, h' p with Some m, Some m' => mirrored m m' | None, None => True | _, _ => False end.

Lemma mirrored_command_loop {A} f (h : packet -> option (M running A)) h' :
  handled h h' -> mirrored (command_loop f h) (command_loop f h').
Proof.
  intros Hh. induction f as [|f IH]; cbn [command_loop]; [apply mirrors_fuel|].
  apply mirrors_bind; [apply mirrored_recv|intros msg]. destruct (_ && _); [done|].
  apply mirrors_bind; [apply mirrored_decode|intros [p|]]; [|done]. specialize (Hh p). by destruct (h p), (h' p).
Qed.

(** ** The server *)

Lemma mirrored_built {A B} (o : outcome A) (k : A -> M running B) k' :
  (forall a, o = Ret a -> mirrored (k a) (k' a)) -> mirrored (bind (lift o) k) (bind (lift o) k').
Proof.
  intros Hk. destruct o as [a|e|p|]; [exact (Hk a eq_refl)|apply mirrors_fail|apply mirrors_panic|apply mirrors_fuel].
Qed.

Lemma mirrored_p_send {P} {E : Encoder P} {L : LawfulEncoder P} (p : P) sid :
  valid p -> plain p -> mirrored (p_SendPacket p sid) (p_SendPacket p sid).
Proof. apply mirrored_send. Qed.

Lemma mirrored_status l sid :
  l <> [] -> NoDup l.*1 -> Forall entry_ok l -> mirrored (send_status l sid) (send_status l sid).
Proof.
  intros Hne Hnd Hl. unfold send_status. apply mirrored_built. intros pkt.
  change NewOnStatusCallPacket with (status_packet AMF0_COMMAND_ON_STATUS []). rewrite set_all_status by done.
  intros [= <-]. apply mirrored_p_send; [by apply status_valid|done].
Qed.

Lemma mirrored_then {A} (m : M running unit) m' (k : M running A) k' :
  mirrored m m' -> mirrored k k' -> mirrored (do* m in k) (do* m' in k').
Proof. intros Hm Hk. by apply mirrors_bind. Qed.

Lemma mirrored_p_expect {A} t (get : packet -> option A) : mirrored (expect t get) (expect t get).
Proof.
  unfold expect. apply mirrors_bind; [apply mirrored_expect|intros [_ pkt]].
  destruct (get pkt); [apply mirrors_ret|apply mirrors_panic].
Qed.

Lemma mirrored_create_stream tid sid :
  mirrored (p_SendPacket (NewCreateStreamResPacket tid sid) 0) (p_SendPacket (NewCreateStreamResPacket tid sid) 0).
Proof. apply mirrored_p_send; [split; [done|apply null_NewAmf0Null]|done]. Qed.

Lemma mirrored_fmle tid :
  mirrored (p_SendPacket (NewFMLEStartResPacket tid) 0) (p_SendPacket (NewFMLEStartResPacket tid) 0).
Proof. apply mirrored_p_send; [split_and!; try done; [by left|by right]|done]. Qed.

Lemma mirrored_IdentifyClient fuel sid : mirrored (IdentifyClient fuel sid) (IdentifyClient fuel sid).
Proof.
  apply mirrored_command_loop. intros [p|p|p|p|p|p|p|p|p]; [exact I| |apply mirrors_ret|exact I|exact I| |exact I..].
  - unfold identify_create_stream_client. apply mirrored_then; [apply mirrored_create_stream|].
    apply mirrored_command_loop. intros [q|q|q|q|q|q|q|q|q]; [exact I|exact I|apply mirrors_ret|apply mirrors_ret|exact I..].
  - unfold identify_fmle_publish_client. apply mirrored_then; [apply mirrored_fmle|apply mirrors_ret].
Qed.

Lemma mirrored_StartPlay sid : mirrored (StartPlay sid) (StartPlay sid).
Proof.
  unfold StartPlay. apply mirrored_then; [by apply mirrored_p_send|].
  apply mirrored_then; [apply mirrored_status; entries_ok|]. apply mirrored_then; [apply mirrored_status; entries_ok|].
  apply mirrored_then; [by apply mirrored_p_send|]. apply mirrored_built. intros pkt Hp.
  assert (pkt = mkOnStatusData AMF0_COMMAND_ON_STATUS (status_object [(SCODE, SCODE_DataStart)])) as ->
    by (cbn in Hp; by injection Hp as <-).
  apply mirrored_p_send; [split; [done|apply status_object_ok; entries_ok]|done].
Qed.

Lemma mirrored_StartFMLEPublish sid : mirrored (StartFMLEPublish sid) (StartFMLEPublish sid).
Proof.
  unfold StartFMLEPublish. apply mirrors_bind; [apply mirrored_p_expect|intros tid].
  apply mirrored_then; [apply mirrored_fmle|]. apply mirrors_bind; [apply mirrored_p_expect|intros tid'].
  apply mirrored_then; [apply mirrored_create_stream|]. apply mirrors_bind; [apply mirrored_p_expect|intros _].
  apply mirrored_built. intros pkt. change (mkOnStatusCall AMF0_COMMAND_ON_FC_PUBLISH _ _ _)
    with (status_packet AMF0_COMMAND_ON_FC_PUBLISH []). rewrite set_all_status by entries_ok. intros [= <-].
  apply mirrored_then; [apply mirrored_p_send; [apply status_valid; entries_ok|done]|]. apply mirrored_status; entries_ok.
Qed.

Lemma mirrored_ext {A} (m1 m2 : M running A) (m1' m2' : M session A) :
  (forall r, m1 r = m2 r) -> (forall ss, m1' ss = m2' ss) -> mirrored m2 m2' -> mirrored m1 m1'.
Proof.
  intros H1 H2 [Ha Hb Hc Hd]. split.
  - intros r. rewrite H1. apply Ha.
  - intros ss. rewrite H2. apply Hb.
  - intros r ss o r'. rewrite H1, H2. apply Hc.
  - intros r ss a ss' HR Hg. rewrite H2. intros He Hs. destruct (Hd r ss a ss' HR Hg He Hs) as (sc & r' & Hr & HR').
    exists sc, r'. split; [|done]. intros rest. by rewrite H1.
Qed.

Lemma mirrored_response req server_ip extra :
  response_ok server_ip extra -> mirrored (ReponseConnectApp req server_ip extra) (ReponseConnectApp req server_ip extra).
Proof.
  intros Hok. eapply mirrored_ext; [intros; by apply ReponseConnectApp_sends..|].
  apply mirrored_p_send; [by apply connect_answer_valid|done].
Qed.

Definition served {A} (m : M (running * Request) A) (m' : M (session * Request) A) : Prop :=
  mirrors_req related bad good put_rest out_size queue_room m m'.

Lemma served_ConnectApp order : served (ConnectApp order) (ConnectApp order).
Proof.
  unfold ConnectApp, served. apply mirrors_bind; [apply mirrors_on_srv, mirrored_expect|intros [_ pkt]].
  destruct pkt; try apply mirrors_panic. apply mirrors_bind; [apply mirrors_lift|intros [v|]].
  2: { apply mirrors_bind; [apply mirrors_on_req|intros _; apply mirrors_fail]. }
  do 3 (apply mirrors_bind; [apply mirrors_on_req|intros _]; apply mirrors_bind; [apply mirrors_lift|intros ?]).
  apply mirrors_bind; [apply mirrors_on_req|intros _]. apply mirrors_on_req.
Qed.

Definition call_valid (c : server_call) : Prop :=
  match c with CReponseConnectApp server_ip extra => response_ok server_ip extra | _ => True end.

(** A call whose only answer is its error. *)
Lemma served_nothing (m : M running unit) (m' : M session unit) : mirrored m m' ->
  served (A := option (gostring * gostring)) (do* on_srv m in ret None) (do* on_srv m' in ret None).
Proof. intros Hm. apply mirrors_bind; [by apply mirrors_on_srv|intros _; apply mirrors_ret]. Qed.

Lemma served_call order fuel c : call_valid c -> served (serve order fuel c) (serve order fuel c).
Proof.
  intros Hv. destruct c; cbn [serve]; try apply served_nothing.
  - apply mirrors_bind; [apply served_ConnectApp|intros _; apply mirrors_ret].
  - by apply mirrored_p_send.
  - by apply mirrored_p_send.
  - apply mirrors_bind; [apply mirrors_gets_req|intros req]. by apply served_nothing, mirrored_response.
  - apply mirrored_p_send; [split; [done|apply null_NewAmf0Null]|done].
  - apply mirrors_bind; [apply mirrors_on_srv, mirrored_IdentifyClient|intros r; apply mirrors_ret].
  - apply mirrored_StartPlay.
  - unfold StartFlashPublish. apply mirrored_status; entries_ok.
  - apply mirrored_StartFMLEPublish.
  - by apply mirrored_p_send.
Qed.

Lemma served_all order fuel cs : Forall call_valid cs -> served (serve_all order fuel cs) (serve_all order fuel cs).
Proof.
  induction 1 as [|c cs Hc _ IH]; cbn [serve_all]; [apply mirrors_ret|].
  apply mirrors_bind; [by apply served_call|intros a]. apply mirrors_bind; [done|intros l]. apply mirrors_ret.
Qed.

(** ** The start *)

(** Both halves are in order, and [inp] is all that is still to come. *)
Definition ready (inp : list byte) : Prop :=
  recv_ok r0 /\ out_ok r0 /\ 0 < outChunkSize r0 /\ exists n k, feed n (mkview k [] inp) (buffer r0).

Lemma start_related inp pr l e r' fuel sched :
  ready inp -> requests pr = requests r0 -> recv_loop fuel r0 = (Ret (l, e), r') ->
  related (mkRunning start_state [] sched) (mkSession pr l e [] None).
Proof.
  intros (Hr & Ho & Hz & n & k & Hf) Hpr He. split; [|done]. split; simpl; try done.
  - by exists [].
  - split; [apply start_ok|]. apply calm_live; [done|]. split; [done|]. split; [simpl; lia|].
    split; [|done]. split; [done|]. eauto.
  - split; try done. exists l. split; [by eexists _, _|done].
Qed.

(** The server on the goroutines, with the schedule [sched]. *)
Definition run_from (order : list gostring -> list gostring) (fuel : nat) (cs : list server_call)
    (req : Request) (sched : list (list goroutine)) :
    outcome (list (option (gostring * gostring))) * (running * Request) :=
  serve_all order fuel cs (mkRunning start_state [] sched, req).

(** What the connection has got: the chunks of the messages sent, the rest is on its
    way. *)
Definition on_the_wire (size : Z) (tx0 : list byte) (out : list Message) (r : running) : Prop :=
  exists part rest,
    conn_out (buffer (proto (rn_sys r))) = Some (tx0 ++ wire_of size (msgs sent_of (rn_trace r)) ++ part, [])
    /\ part ++ rest = wire_of size (current (send_at (rn_sys r)))
    /\ out = msgs sent_of (rn_trace r) ++ current (send_at (rn_sys r)) ++ ch_buf (msg_out_queue (rn_sys r)).

Lemma server_same order fuel cs inp pr l e p n req sched o r' req' :
  ready inp -> requests pr = requests r0 -> recv_loop n r0 = (Ret (l, e), p) -> Forall call_valid cs ->
  run_from order fuel cs req sched = (o, (r', req')) -> o <> OutOfFuel -> existsb failed_of (rn_trace r') = false ->
  exists ss',
    serve_all order fuel cs (mkSession pr l e [] None, req) = (o, (ss', req'))
    /\ msgs enqueued_of (rn_trace r') = ss_out ss'
    /\ forall tx0, conn_out (buffer r0) = Some (tx0, []) -> on_the_wire (outChunkSize r0) tx0 (ss_out ss') r'.
Proof.
  intros Hrdy Hpr He Hcs Hrun Hn Hf. pose proof (start_related inp pr l e p _ sched Hrdy Hpr He) as HR.
  destruct (mi_same _ _ _ _ _ _ _ _ (served_all order fuel cs Hcs) (_, req) (_, req) _ _ (conj HR eq_refl) Hrun Hn)
    as [Hb|([ss' q] & Hs & [Ha _] & Hq)]; [unfold bad in Hb; simpl in Hb; congruence|].
  simpl in Ha, Hq. subst q. exists ss'. split; [done|]. split; [exact (ag_out _ _ Ha)|].
  intros tx0 Htx. destruct (ag_run _ _ Ha) as (ls & Hls & Hl). rewrite <- (ag_out _ _ Ha). destruct Hrdy as (_ & Ho & Hz & _).
  apply (run_on_wire r0 ls); [done|done|done| |exact Hl]. eapply Forall_impl; [exact Hls|]. by intros x [_ ?].
Qed.

Lemma server_gives order fuel cs inp pr l e p n req answers ss' req' :
  ready inp -> requests pr = requests r0 -> recv_loop n r0 = (Ret (l, e), p) -> Forall call_valid cs ->
  serve_all order fuel cs (mkSession pr l e [] None, req) = (Ret answers, (ss', req')) ->
  zlen (ss_out ss') <= RTMP_MSG_CHANNEL_BUFFER ->
  exists sched r', run_from order fuel cs req sched = (Ret answers, (r', req'))
    /\ existsb failed_of (rn_trace r') = false /\ msgs enqueued_of (rn_trace r') = ss_out ss'.
Proof.
  intros Hrdy Hpr He Hcs Hs Hsz. pose proof (start_related inp pr l e p _ [] Hrdy Hpr He) as HR.
  destruct (mi_returns _ _ _ _ _ _ _ _ (served_all order fuel cs Hcs)
    (mkRunning start_state [] [], req) (_, req) answers (ss', req') (conj HR eq_refl) (conj eq_refl I) Hs)
    as (sched & [r' q] & Hr & [[Ha _] Hq] & _).
  { unfold out_size, queue_room, zlen in *. simpl in *. lia. }
  simpl in Ha, Hq. subst q. exists sched, (put_rest [] r'). specialize (Hr []). rewrite app_nil_r in Hr.
  split; [exact Hr|]. split; [by apply (ag_unfailed _ _ Ha)|by apply (ag_out _ _ Ha)].
Qed.

End Agreement.

Lemma NewProtocol_ready conn : rx_ok conn -> ready (NewProtocol conn) (rx_bytes conn).
Proof.
  intros Hrx. split; [apply NewProtocol_recv_ok|]. split; [apply NewProtocol_out_ok|]. split; [done|].
  pose proof (NewProtocol_feed conn Hrx). eauto.
Qed.

(** From a new protocol. *)
Definition run_server (order : list gostring -> list gostring) (fuel : nat) (cs : list server_call) (conn : TCPConn)
    (req : Request) (sched : list (list goroutine)) :
    outcome (list (option (gostring * gostring))) * (running * Request) :=
  run_from (NewProtocol conn) order fuel cs req sched.

(** ** Properties *)

(** C5. The server on the goroutines does what it does on the session, once its calls
    have returned and as long as receiving has not failed: for every input, in any
    segments, for every sequence of calls of the interface [Server] (entries of
    distinct keys for [ReponseConnectApp]) and every schedule of the goroutines between
    and during the calls, when the schedule has let the calls return and no receiving
    job has failed, their answers (an error included), the request of the caller and
    the messages sent, in their order, are those of the same calls over the messages
    of the input, whatever the schedule was; and on a connection that takes every
    write, the bytes on the wire are the chunks of the messages sent so far, the
    others being in the queue.  A call that waits for a message behind the last one
    does not return in the running system. *)
Theorem server_on_goroutines order fuel cs conn req sched o r' req' :
  rx_ok conn -> Forall call_valid cs ->
  run_server order fuel cs conn req sched = (o, (r', req')) -> o <> OutOfFuel ->
  existsb failed_of (rn_trace r') = false ->
  exists l e p ss',
    recv_loop (S (List.length (rx_bytes conn))) (NewProtocol conn) = (Ret (l, e), p)
    /\ serve_all order fuel cs (mkSession (NewProtocol conn) l e [] None, req) = (o, (ss', req'))
    /\ msgs enqueued_of (rn_trace r') = ss_out ss'
    /\ (tx_script conn = [] -> on_the_wire 128 (tx conn) (ss_out ss') r').
Proof.
  intros Hrx Hcs Hrun Hn Hf. pose proof (NewProtocol_ready conn Hrx) as Hrdy. destruct (Hrdy) as (Hr & _ & _ & n & k & Hfd).
  destruct (recv_loop_ends _ _ _ _ _ Hr Hfd (Nat.lt_succ_diag_r _)) as (l & e & p & He & _).
  destruct (server_same _ order fuel cs _ (NewProtocol conn) l e p _ req sched o r' req' Hrdy eq_refl He Hcs Hrun Hn Hf)
    as (ss' & H1 & H2 & H3).
  exists l, e, p, ss'. split_and!; try done. intros Htx. apply H3. unfold conn_out. simpl. by rewrite Htx.
Qed.

(** C6. And the calls do return: when they return without an error on the session, over the
    messages of the input, and send no more than the 100 messages the queue holds,
    there is a schedule with which they return on the goroutines, with the same
    answers, the same request and the same messages sent, and without a failure. *)
Theorem server_returns order fuel cs conn req l e p answers ss' req' :
  rx_ok conn -> Forall call_valid cs ->
  recv_loop (S (List.length (rx_bytes conn))) (NewProtocol conn) = (Ret (l, e), p) ->
  serve_all order fuel cs (mkSession (NewProtocol conn) l e [] None, req) = (Ret answers, (ss', req')) ->
  zlen (ss_out ss') <= RTMP_MSG_CHANNEL_BUFFER ->
  exists sched r',
    run_server order fuel cs conn req sched = (Ret answers, (r', req'))
    /\ existsb failed_of (rn_trace r') = false /\ msgs enqueued_of (rn_trace r') = ss_out ss'.
Proof.
  intros Hrx Hcs He Hs Hsz. by eapply server_gives; [apply NewProtocol_ready|..].
Qed.

(** A client that connects, creates a stream and plays, and a video message behind. *)
Definition client_messages : list Message :=
  [command_message (PConnectApp sample_connect); command_message (PCreateStream NewCreateStreamPacket);
   command_message sample_play; video_message].

Definition client_conn : TCPConn :=
  let w := wire_of 128 client_messages in mkTCPConn [take 100 w; drop 100 w] EOF [] [].

Definition play_calls : list server_call :=
  [CConnectApp; CSetWindowAckSize 2500000; CReponseConnectApp (str "10.0.0.7") [[(str "srs_id", str "42")]];
   CIdentifyClient 1; CStartPlay 1].

(** The receiver takes the messages in the first stretches, the sender goes on to the
    end. *)
Definition play_stretches : list (list goroutine) :=
  replicate 3 (replicate 7 GReceiver ++ replicate 3 GSender) ++ replicate 20 (replicate 10 GSender).

Definition play_run := run_server (fun l => l) 5 play_calls client_conn NewRequest play_stretches.

Lemma play_calls_valid : Forall call_valid play_calls.
Proof.
  do 2 (constructor; [exact I|]). constructor; [split; [by apply (bool_decide_unpack _)|by repeat constructor]|].
  do 2 (constructor; [exact I|]). constructor.
Qed.

Lemma client_conn_ok : rx_ok client_conn.
Proof. repeat constructor; vm_compute; discriminate. Qed.

Lemma server_on_goroutines_witness :
  (play_run.1 = Ret [None; None; None; Some (CLIENT_TYPE_Play, str "livestream"); None]
   /\ List.length (msgs sent_of (rn_trace play_run.2.1)) = 8%nat)
  /\ exists l e p ss',
    recv_loop (S (List.length (rx_bytes client_conn))) (NewProtocol client_conn) = (Ret (l, e), p)
    /\ serve_all (fun l => l) 5 play_calls (mkSession (NewProtocol client_conn) l e [] None, NewRequest)
       = (play_run.1, (ss', play_run.2.2))
    /\ msgs enqueued_of (rn_trace play_run.2.1) = ss_out ss'
    /\ (tx_script client_conn = [] -> on_the_wire 128 (tx client_conn) (ss_out ss') play_run.2.1).
Proof.
  assert (play_run.1 = Ret [None; None; None; Some (CLIENT_TYPE_Play, str "livestream"); None]) as Ho
    by (vm_compute; reflexivity).
  split; [split; [exact Ho|vm_compute; reflexivity]|].
  apply (server_on_goroutines (fun l => l) 5 play_calls client_conn NewRequest play_stretches).
  - exact client_conn_ok.
  - exact play_calls_valid.
  - fold play_run. by destruct play_run as [? []].
  - rewrite Ho. discriminate.
  - vm_compute. reflexivity.
Defined.

Lemma server_returns_witness :
  exists sched r' req' ss',
    run_server (fun l => l) 5 play_calls client_conn NewRequest sched
      = (Ret [None; None; None; Some (CLIENT_TYPE_Play, str "livestream"); None], (r', req'))
    /\ App req' = str "live" /\ Vhost req' = str "demo"
    /\ existsb failed_of (rn_trace r') = false /\ msgs enqueued_of (rn_trace r') = ss_out ss'
    /\ zlen (ss_out ss') = 8.
Proof.
  assert ((recv_loop (S (List.length (rx_bytes client_conn))) (NewProtocol client_conn)).1
          = Ret (List.map delivered client_messages, EOF)) as Hl by (vm_compute; reflexivity).
  destruct (recv_loop (S (List.length (rx_bytes client_conn))) (NewProtocol client_conn)) as [o p] eqn:Hr.
  cbn [fst] in Hl. subst o.
  assert (let x := serve_all (fun l => l) 5 play_calls
            (mkSession (NewProtocol client_conn) (List.map delivered client_messages) EOF [] None, NewRequest) in
          (x.1, zlen (ss_out x.2.1), App x.2.2, Vhost x.2.2)
          = (Ret [None; None; None; Some (CLIENT_TYPE_Play, str "livestream"); None], 8, str "live", str "demo")) as Hs
    by (vm_compute; reflexivity).
  cbv zeta in Hs. destruct (serve_all _ _ _ _) as [o [ss' q]] eqn:Hrun. cbn [fst snd] in Hs. injection Hs as -> Hsz Happ Hvh.
  destruct (server_returns (fun l => l) 5 play_calls client_conn NewRequest (List.map delivered client_messages) EOF p
    [None; None; None; Some (CLIENT_TYPE_Play, str "livestream"); None] ss' q) as (sched & r' & H1 & H2 & H3).
  - exact client_conn_ok.
  - exact play_calls_valid.
  - exact Hr.
  - exact Hrun.
  - rewrite Hsz. by vm_compute.
  - exists sched, r', q, ss'. auto 10.
Defined.
