(* ===== verification/Whole.v ===== *)
(** * The whole server, from the first byte of a client

    The composition of all the parts: a client that has connected sends the
    handshake and then the chunks of its messages, in whatever segments the network
    delivers them; the server makes the handshake, which starts the goroutines, and
    then its calls.  The answers are those of the calls over the messages of the
    client. *)

From Stdlib Require Import ZArith Lia Strings.Byte.
From stdpp Require Import base tactics list gmap.
From S2P Require Import Prelude Constants HPBuffer Socket Buffer Messages Packets PacketsFacts Protocol ChunkSend Feed ChunkRecv Reassembly Control Handshake Goroutines Frame Locks Pump Delivery EndToEnd Inputs Session Refine Request Server Running.
Open Scope Z_scope.

#[local] Arguments recv_job : simpl never.
#[local] Arguments zlen : simpl never.

(** ** The messages of the client *)

(** The loop finds the messages whose chunks arrive, and then the end of the input. *)
Lemma recv_loop_arriving fuel l r :
  recv_ok r -> arriving l r -> Forall not_control (kept l) -> (List.length l < fuel)%nat ->
  exists e r', recv_loop fuel r = (Ret (kept l, e), r').
Proof.
  revert l r. induction fuel as [|fuel IH]; intros l r Hr Ha Hn Hf; [lia|]. cbn [recv_loop].
  destruct l as [|[c o] l].
  - destruct (recv_job_used_up r Hr Ha) as (e & r' & ->). by exists e, r'.
  - assert (0 < inChunkSize r) as Hz by apply Hr.
    destruct (recv_job_arriving c o l r Hz Ha Hn) as (o' & r' & He & Ha' & Hk).
    assert (recv_ok r') as Hr'.
    { destruct Ha as (P & n & k & _ & _ & Hfd). destruct (recv_job_step n _ k r Hr Hfd) as (o1 & r1 & He1 & Ho1).
      rewrite He in He1. injection He1 as <- <-. apply Ho1. }
    rewrite Hk in Hn. apply Forall_app in Hn as [_ Hn]. simpl in Hf.
    destruct (IH l r' Hr' Ha' Hn ltac:(lia)) as (e & r2 & Hl). rewrite He, Hk.
    exists e, r2. rewrite (bind_Ret _ _ _ _ _ Hl). by destruct o'.
Qed.

Lemma client_received n k r ms :
  recv_ok r -> idle r -> Forall carried ms ->
  feed n (mkview k [] (wire_of (inChunkSize r) ms)) (buffer r) ->
  exists fuel e r', recv_loop fuel r = (Ret (List.map delivered ms, e), r').
Proof.
  intros Hr Hi Hms Hf. assert (0 < inChunkSize r) as Hz by apply Hr.
  assert (Forall sendable ms) as Hsend by (eapply Forall_impl; [exact Hms|]; by intros ? []).
  set (l := concat (List.map (message_trace (inChunkSize r)) ms)).
  assert (kept l = List.map delivered ms) as Hk by (by apply kept_traces).
  destruct (recv_loop_arriving (S (List.length l)) l r Hr) as (e & r' & He); [..|lia|].
  - exists ∅, n, k. split; [by apply interleaved_messages|]. split; [done|]. unfold l. by rewrite concat_traces.
  - rewrite Hk. apply Forall_map. eapply Forall_impl; [exact Hms|]. by intros ? (_ & ? & _).
  - rewrite Hk in He. by eexists _, e, r'.
Qed.

(** ** The server of a connection *)

(** [NewServer], [Handshake], and the calls; there is no running system when the
    handshake fails. *)
Definition serve_connection (rand : nat -> Z) (order : list gostring -> list gostring) (fuel : nat) (cs : list server_call)
    (conn : TCPConn) (req : Request) (sched : list (list goroutine)) :
    outcome (list (option (gostring * gostring))) * option (running * Request) :=
  match server_Handshake rand (NewServer conn) with
  | (Ret s, _) => let '(o, x) := serve_all order fuel cs (mkRunning s [] sched, req) in (o, Some x)
  | (Fail e, _) => (Fail e, None)
  | (Panic p, _) => (Panic p, None)
  | (OutOfFuel, _) => (OutOfFuel, None)
  end.

(** What a client sends: the two parts of its handshake, and messages in chunks. *)
Record client_sends (conn : TCPConn) (ms : list Message) : Prop := {
  cl_segments : rx_ok conn;
  cl_writes : tx_script conn = [] /\ tx conn = [];
  cl_bytes : exists c0c1' c2', rx_bytes conn = (Byte.x03 :: c0c1') ++ c2' ++ wire_of 128 ms
    /\ zlen c0c1' = 1536 /\ zlen c2' = 1536;
  cl_messages : Forall carried ms }.

Lemma serve_connection_starts rand order fuel cs conn req ms :
  client_sends conn ms ->
  exists r0 out,
    (forall sched, serve_connection rand order fuel cs conn req sched
       = (let '(o, x) := run_from r0 order fuel cs req sched in (o, Some x)))
    /\ zlen out = 3073 /\ out !! 0%nat = Some Byte.x03
    /\ ready r0 (wire_of 128 ms) /\ requests r0 = None /\ outChunkSize r0 = 128
    /\ conn_out (buffer r0) = Some (out, [])
    /\ exists n e p, recv_loop n r0 = (Ret (List.map delivered ms, e), p).
Proof.
  intros [Hrx [Hsc Htx] (c0c1' & c2' & Hb & H1 & H2) Hms].
  destruct (handshake_done rand (NewProtocol conn) (NewSocket conn) c0c1' c2' (wire_of 128 ms))
    as (s' & out & He & Hlen & Hhead & Hf); [done..|].
  exists (with_socket s' (NewProtocol conn)), out.
  assert (recv_ok (with_socket s' (NewProtocol conn))) as Hr by (apply (NewProtocol_recv_ok conn)).
  split.
  { intros sched. unfold serve_connection, server_Handshake. rewrite (bind_Ret _ _ _ _ _ He). done. }
  split; [done|]. split; [done|]. split.
  { split; [done|]. split; [|split; [done|by eexists _, _]].
    split; [by eexists|]. split; apply (NewProtocol_out_ok conn). }
  split; [done|]. split; [done|]. split.
  - destruct Hf as (s1 & g1 & post & g2 & -> & _ & _ & Hs1 & Ht1 & _). unfold conn_out. simpl in *. by rewrite Hs1, Ht1, Htx.
  - eapply client_received; [done|apply (NewProtocol_idle conn)|done|exact Hf].
Qed.

(** ** Properties *)

(** C1. The server of a connection, from the first byte of the client: for every client
    that makes the handshake and sends messages in chunks ([client_sends]: messages the
    format can carry, with a payload, none for the protocol itself; a connection that
    takes every write), in whatever segments its bytes come, for every sequence of
    calls and every schedule of the goroutines, when the calls have returned and no
    receiving job has failed, their answers and the request are those of the same calls
    over exactly the messages of the client, and the connection has got the 3073 bytes
    of the handshake and behind them the chunks of the messages sent.  And when the
    calls have answers over those messages, without an error, and send no more than the
    queue holds, there is a schedule with which the running server gives these
    answers. *)
Theorem served_from_first_byte rand order fuel cs conn req ms :
  client_sends conn ms -> Forall call_valid cs ->
  exists e out, zlen out = 3073 /\ out !! 0%nat = Some Byte.x03
    /\ (forall sched o r' req',
          serve_connection rand order fuel cs conn req sched = (o, Some (r', req')) -> o <> OutOfFuel ->
          existsb failed_of (rn_trace r') = false ->
          exists ss', serve_all order fuel cs (mkSession (NewProtocol conn) (List.map delivered ms) e [] None, req)
                      = (o, (ss', req'))
            /\ on_the_wire 128 out (ss_out ss') r')
    /\ (forall answers ss' req',
          serve_all order fuel cs (mkSession (NewProtocol conn) (List.map delivered ms) e [] None, req)
            = (Ret answers, (ss', req')) ->
          zlen (ss_out ss') <= RTMP_MSG_CHANNEL_BUFFER ->
          exists sched r', serve_connection rand order fuel cs conn req sched = (Ret answers, Some (r', req'))
            /\ existsb failed_of (rn_trace r') = false /\ msgs enqueued_of (rn_trace r') = ss_out ss').
Proof.
  intros Hcl Hcs. destruct (serve_connection_starts rand order fuel cs conn req ms Hcl)
    as (r0 & out & He & Hlen & Hhead & Hrdy & Hreq & Hz & Hout & n & e & p & Hl).
  exists e, out. split; [done|]. split; [done|]. split.
  - intros sched o r' req' Hrun Hn Hf. rewrite He in Hrun.
    destruct (run_from r0 order fuel cs req sched) as [o1 [r1 q1]] eqn:Hr. injection Hrun as -> -> ->.
    destruct (server_same r0 order fuel cs _ (NewProtocol conn) _ e p n req sched o r' req' Hrdy (eq_sym Hreq) Hl Hcs Hr Hn Hf)
      as (ss' & Hs & _ & Hw). exists ss'. split; [done|]. specialize (Hw out Hout). by rewrite Hz in Hw.
  - intros answers ss' req' Hs Hsz.
    destruct (server_gives r0 order fuel cs _ (NewProtocol conn) _ e p n req answers ss' req' Hrdy (eq_sym Hreq) Hl Hcs Hs Hsz)
      as (sched & r' & Hr & Hf & Ho). exists sched, r'. split; [|done]. by rewrite He, Hr.
Qed.

(** The client of [Running], with its handshake, the bytes cut at an odd place. *)
Definition whole_conn : TCPConn :=
  let w := (Byte.x03 :: make_bytes 1536) ++ make_bytes 1536 ++ wire_of 128 client_messages in
  mkTCPConn [take 1000 w; drop 1000 w] EOF [] [].

Lemma whole_conn_client : client_sends whole_conn client_messages.
Proof.
  split.
  - repeat constructor; vm_compute; discriminate.
  - done.
  - exists (make_bytes 1536), (make_bytes 1536). split; [|done]. unfold rx_bytes, whole_conn. cbn [rx concat].
    by rewrite app_nil_r, take_drop.
  - repeat constructor; by vm_compute.
Qed.

Lemma served_from_first_byte_witness :
  exists sched r' req',
    serve_connection (fun _ => 7) (fun l => l) 5 play_calls whole_conn NewRequest sched
      = (Ret [None; None; None; Some (CLIENT_TYPE_Play, str "livestream"); None], Some (r', req'))
    /\ App req' = str "live" /\ Vhost req' = str "demo" /\ existsb failed_of (rn_trace r') = false
    /\ List.length (msgs enqueued_of (rn_trace r')) = 8%nat.
Proof.
  destruct (served_from_first_byte (fun _ => 7) (fun l => l) 5 play_calls whole_conn NewRequest client_messages
    whole_conn_client play_calls_valid) as (e & out & _ & _ & _ & Hgives).
  assert (let x := serve_all (fun l => l) 5 play_calls
            (mkSession (NewProtocol whole_conn) (List.map delivered client_messages) e [] None, NewRequest) in
          (x.1, List.length (ss_out x.2.1), App x.2.2, Vhost x.2.2)
          = (Ret [None; None; None; Some (CLIENT_TYPE_Play, str "livestream"); None], 8%nat, str "live", str "demo")) as Hs
    by (vm_compute; reflexivity).
  cbv zeta in Hs. destruct (serve_all _ _ _ _) as [o [ss' q]] eqn:Hrun. cbn [fst snd] in Hs. injection Hs as -> Hsz Happ Hvh.
  destruct (Hgives _ ss' q eq_refl) as (sched & r' & H1 & H2 & H3); [unfold zlen; rewrite Hsz; by vm_compute|].
  exists sched, r', q. rewrite H3. auto 10.
Defined.
